(* ===== verification/_CoqProject ===== *)
-Q . S2P
Prelude.v
PyString.v
DataModels.v
Json.v
Store.v
Queue.v
Url.v
Frontier.v
GenWorker.v
Synthesizer.v
Dom.v
Extract.v
Evaluation.v
Api.v
Discovery.v
Runner.v
System.v
Interleave.v
Integrity.v
Requests.v
FileSystem.v
Files.v
Process.v
