(* ===== verification/Prelude.v ===== *)
(** * Verification of the LLM crawler back end (src/backend)

    ** The program

    The back end is two polling workers, an HTTP API and three scripts
    over one Redis server.

    - The _parsing worker_ (src/backend/workers/parsing_worker.py) pops
      [URLQueueItem]s, resolves the [URLPrefix] that owns the URL, and either
      fetches and parses the page with the parser configuration of the
      prefix and feeds the outlinks below the prefix back into the queue, or
      records the page as a sample of a prefix and sends the prefix to the
      generation queue.
    - The _parser generation worker_
      (src/backend/workers/parser_generation_worker.py) pops [URLPrefix]
      jobs, drives the processing status of the prefix and calls the
      [ParserGenerator] (src/backend/parser.py) to obtain a [ParserConfig]
      from an inference provider.
    - The _extraction engine_ ([Parser] of src/backend/parser.py with
      src/backend/clean_html.py) turns a page into text by the selectors
      of a [ParserConfig].
    - The _API_ (src/backend/api.py) reads and deletes what the workers
      store, queues work, and sets the production configuration and the
      run state; src/backend/metrics_collector.py reports counts.
    - The _evaluation_ (src/backend/evaluation.py) generates a parser for
      every domain of a directory of labelled pages and stores the scores.
    - The _sitemap discovery_ (src/backend/discovery.py) lists the
      addresses of a site from its sitemaps; the _runner_
      (src/backend/run.py) starts the scripts.
    - All share the object store (src/backend/db.py) and the queues
      (src/backend/redis_queue.py), whose payloads are the pydantic models of
      src/backend/data_models.py.

    ** The files, in dependency order

    - [Prelude] (this file): the [Result] type that carries Python
      exceptions as values, with its notation in the scope [crawl_scope],
      the tactics and hint databases of the development, and the lemmas on
      lists that the components share ([pop_last], [first_some], [unique],
      the stable sort [sort_by], [NoDup_omap_inj]).
    - [PyString], module [Py]: the [str] methods the sources call
      ([split], [join], [startswith], [endswith], [lower], [replace],
      [strip], [in]) as functions on [string].
    - [DataModels]: one module per class of data_models.py with the record
      and the derived id; the class [Model] that stands for pydantic's dump
      and parse and [HasId] for the id; [PySet] for the order in which a
      Python set is listed; the merges [ParserParameters.__add__] and
      [ParserConfig.__add__]; the interface [Extractor] of
      [Parser(config).parse].
    - [Json]: the values of JSON and YAML ([Value]), the construction of
      the pydantic models [SampleURL], [ParserParameters] (with its
      validator [normalize_root]) and [ParserGeneratorConfig] from a
      dictionary, field by field, [format_parser_parameters] with the JSON
      Schema it sends and the checker [conforms] of that schema, and
      [model_validate_json] over the interface [JsonLib].
    - [Store]: db.py over the state record [Redis]: [key], [save], [load],
      [scan], [count], [delete], [delete_all], the singletons,
      [find_prefix_for_url], [find_urls_with_prefix]; the invariant [wf]
      of the keyspace; the preorder [fewer_models] of the states that
      deleting leads to.
    - [Queue]: redis_queue.py: [add_to_queue], [get_from_queue],
      [peek_from_queue], [queue_length], [clear_queue]; the abstraction
      [absq] to the list queue [Spec]; the invariant [wf_queues].
    - [Url]: the URL functions of the parsing worker:
      [get_deepest_prefix], [normalize_url] and [extract_links_from_html]
      over the interface [UrlLib] of urllib and BeautifulSoup.
    - [Frontier]: the parsing worker: [process_url_queue_item] with its
      branches [process_with_parser], [create_url_prefix] and
      [enqueue_links], the loop [run_iteration] and [run], over the
      interface [Env] of the network; the relation [handled], one rule per
      [return] of the handler; the cap [cap_inv].
    - [GenWorker]: the generation worker: [process_url_prefix_job] with
      [reset_failed_url_prefix], [generate_parser_for_url_prefix] and
      [generate_and_save], the loop [job_iteration] and [job_run], over the
      interface [Synth] of the synthesizer.
    - [Synthesizer]: [ParserGenerator]: [generate_input_prompt],
      [generate_parser_num_examples], [generate_parser_with_parsing_mistake],
      [validate_parser], [reflect_on_parser] and the loop of
      [generate_parser] ([attempt], [generate_loop], [finish]) over the
      interface [Provider] of the inference client; [generator_synth] is
      the instance of [Synth] it gives.
    - [Dom]: the tree of BeautifulSoup as a rose tree [Node] of tags with
      object identities, and every call the engine makes on it:
      [find_all], [descendants], [parents], [get_text], [decompose],
      [unwrap], [replace_with], [insert_before], [append]; the loop
      [prune] of [Parser._trim_soup] and the one-pass [prune_pass].
    - [Extract]: [Parser]: [first_match], [trim_soup] ([restrict],
      [for_each]), [soup_to_text], [parse], and [clean_html], over the
      interface [Bs4] of the HTML parser and the selector engine;
      [parser_extractor] is the instance of [Extractor] it gives, and
      [SimpleSoup] a small selector engine for the examples.
    - [Evaluation]: [SampleURL.evaluate] with the Levenshtein [distance],
      [EvaluationRun.get_evaluation_results], [URLPrefix.from_evals] and
      evaluation.py ([aggregate_evaluation_results], [list_domains],
      [eval_parser_generator], the command [eval_command],
      [create_sample_urls]) over the interface [Evals] of the directory of
      samples.
    - [Api]: every handler of api.py as a function of the state that
      returns its value or the [HTTPException] it raises; the start-up hook
      [lifespan]; the exception handlers; [URLPrefixWithUrls.from_url_prefix];
      the collectors of metrics_collector.py; the table [routes] in the
      order of registration and the dispatch [resolve] on it.
    - [Discovery], module [Sitemap]: discovery.py: [discover_sitemaps],
      the XML helpers, the generators [iter_sitemap_index],
      [iter_xml_sitemap_urls] and [iter_sitemap_urls], and
      [discover_via_sitemaps], over the interface [Net].
    - [Runner]: run.py: [script_path] and [main] over the interface [Os].
    - [System]: the relation [step] of the two workers, the handlers of
      the API and the evaluation on one store, its invariant [inv], and the
      life of one page from its first visit to its parsed text.
    - [Interleave]: the two workers as machines that make one call of
      db.py or redis_queue.py per step ([Crawl] with [crawl_step], [Gen]
      with [gen_step]); a pool [Config] of such threads over one store,
      with the actions [Step] and [Crash], the run [exec] of a schedule
      and the relation [pool_step].
    - [Integrity]: the predicate [no_orphans] on the store (the prefix
      that a row names is stored), the list [orphans] that decides it,
      and the invariant [whole] of the pool that carries it.
    - [Requests]: the handlers of api.py that write to the store, and
      [get_system_state_route], as the trees [Calls] of the calls of
      db.py and redis_queue.py that they make ([Db], [perform]), one call
      per step ([call_step]); a [Site] of the pool of the workers and the
      handlers of the requests in flight, with the events [Work],
      [Arrive] and [Serve], the run [history] and the relation
      [site_step].
    - [FileSystem], module [Fs]: what the sources call of pathlib, [open]
      and [os]: paths as lists of components ([joinpath], [parent],
      [name], [stem]), the file system [FS] with [mkdir], [open_w],
      [open_r] and [listdir], and its invariant [wf].
    - [Files], module [Files]: paths.py; [SampleURL.save] and
      [SampleURL.load]; [ParserGeneratorConfig.from_config] and
      [ParserGenerator.from_config]; [save_sample_urls], the command
      [add_evals], [parse_args] and [main] of evaluation.py; the glob of the
      configurations and the paths of the front end of api.py;
      load_html.py ([load_raw_html], [load_html_to_file]); and the
      instances that read the interfaces [Evals], [Web], [Provider] and
      [Env] from the file system and the network ([fs_evals], [file_web],
      [file_provider], [http_env]).
    - [Process], module [Process]: redis_utils.py ([get_redis] and the
      client [R] of the modules), the constructors and [main] of the two
      workers, a turn of a worker on the server of [R], and the block
      that starts the server at the end of api.py.

    ** How state and effects are modelled

    - One [Redis] record is the state that all processes share: [models]
      is the keyspace written by [db.save] (key "model:<Class>:<id>"),
      [production_config] and [system_state] are the two singleton keys,
      and [queues] maps a queue name to its Redis list.  Every function of
      db.py and redis_queue.py takes the state and returns the new one
      with its answer.
    - The JSON codec (pydantic [model_dump] and orjson) is abstracted: a
      stored value is a [Payload], the tagged union of the models, and the
      class [Model] states the law the sources rely on,
      [parse (dump m) = Some m].
    - A Python exception is [Err msg], with [msg] the text of [str(e)],
      which the synthesizer inspects; a [try/except] is a match on the
      [Result].  A handler of the API returns [Returned] or
      [HTTPException]; a handler that raises half-way leaves what it has
      written.  Failures of the Redis client itself are not modelled.
    - The network, the clock, the HTML parser and the selector engine,
      urllib, the XML parser, PyYAML and the inference provider are code
      that the modelled sources only call.  They are the fields of the
      classes [UrlLib], [Bs4], [Extractor], [Env], [Provider], [Synth],
      [Evals], [Web], [Net], [Os], [JsonLib], [Yaml], [Http] and
      [Argparse]; the theorems hold for every instance, and the witnesses
      and examples run on small instances ([SimpleUrl], [SimpleSoup],
      [example_env], [example_provider], [example_web], [TableNet],
      [table_yaml]).  An instance is a function: the same request gets
      the same answer within one call.  The components up to [Interleave] see the files
      through [Evals], [Web] and [Provider]; [Files] gives these
      interfaces the instances that read a file system.
    - The file system is a record [FS] of a finite map from paths to the
      texts of the files and a finite set of directories.  An operation
      that writes is a function [FS → Result A * FS], with the bind
      [x ←ᶠ m; k] of the monad of state and errors; an error leaves the
      files as they were when it was raised.  A value of JSON or YAML is
      a [Value]; a dictionary is an association list in insertion order.
    - The environment of a process is a finite map of strings, a client
      of the store is the URL it was made for, and several servers are a
      finite map from URLs to [Redis] states.
    - The document of BeautifulSoup is a list of [Node]s; a tag carries a
      number that stands for the identity [id(el)] that the engine puts in
      its keep sets, and [wf_soup] says that the numbers of a document are
      distinct.  A mutation of the tree is a function that returns the new
      tree.
    - A generator is the list of what it yields and the way it ends; its
      consumer decides how much of the list counts.
    - Strings are [string] with 8-bit characters; [lower] is the lower
      case of ASCII.  The clock is read as an integer of [Z], as
      [int(time.time())]; a handler that reads it several times takes the
      readings as a function [clock : nat → Z], indexed in program order.
      A float is an exact rational of [Qc]: the scores are quotients of
      integers, and rounding is not modelled.
    - An object that the source mutates and passes on (the queue item, the
      prefix of a job) is a record that each step rebuilds; no object is
      shared between two owners in the modelled code.

    ** What the theorems show

    - [PyString]: [join] inverts [split] and [split] inverts [join] on
      parts without the separator; joins of initial segments are string
      prefixes.
    - [DataModels]: the merges are commutative, associative and idempotent
      up to the order of the selector lists, for every order in which a
      Python set may be listed.
    - [Json]: a dumped model validates to itself; what [ParserParameters]
      accepts; the validator of [root] never changes an outcome; a value
      that conforms to the schema of the request validates, and the
      validation accepts keys that the schema forbids; the name of a
      configuration is the name of its file.
    - [Store]: [key] is injective; [load] after [save]; [wf] is kept by
      every operation; [scan] lists what [load] finds;
      [find_prefix_for_url] answers the longest stored candidate and answers
      exactly when one is stored.
    - [Queue]: the queue is first-in first-out, by the refinement of
      [Spec]; [wf_queues] is kept; [clear_queue] and [queue_length].
    - [Url]: what [get_deepest_prefix] returns for a page, for a domain
      root and for a query after the domain, and when its result is among
      the candidates of the lookup; the normalized query is sorted,
      filtered and independent of the order of the parameters; the
      extracted links are exactly the qualifying anchors, once each.
    - [Frontier]: the handler is the relation [handled]; the result and the
      state of each branch; the handler and the loop keep [wf], [wf_queues]
      and the cap of 20 rows per prefix; a paused worker does nothing; a
      turn handles the oldest item.
    - [GenWorker]: the result and the stored status of every job; the
      retry of a failed prefix; what one more job does to a completed
      prefix; a job touches one entry of the store.
    - [Synthesizer]: the loop of [generate_parser] ends; adaptive
      degradation; the repair never succeeds; what a returned
      configuration satisfies.
    - [Dom] and [Extract]: the loop that decomposes element after element
      is the pruning in one pass; what a restriction keeps; the engine only
      takes elements away and keeps their identities distinct; the
      inserted newlines never reach the text; [parse] raises only if the
      selector engine does.
    - [Evaluation]: the bounds of the edit distance; when [evaluate] and
      the averages raise and what they return; the evaluation of a domain
      without validation pages raises.
    - [Api]: the two routes that the dispatch never reaches; when
      [get_url_details] answers; what [delete_urlprefix] removes, counts
      and leaves; [from_url_prefix]; every handler that deletes leads to a
      state with [fewer_models].
    - [Discovery]: the order of the children of an index; what
      [discover_via_sitemaps] returns; the walk ends when the indexes do
      not loop and does not end when they do.
    - [Runner]: the file a script name is resolved to, and the exit
      status.
    - [System]: [inv] holds in every state reachable by the workers, the
      handlers of the API and the evaluation in any interleaving of whole
      turns and whole calls.
    - [Interleave]: a thread that runs alone through a turn does what the
      handler in one piece does, and a schedule that runs the threads turn
      by turn is a run of [System.step]; under every interleaving of the
      store calls and every crash the store and the queues stay well
      formed and a prefix has at most 20 rows and one more for every
      parsing worker but one; a crash loses the item that was taken from
      the queue; a prefix whose generation worker died stays in progress;
      two workers lose a sample of a prefix.
    - [Integrity]: the prefix that a row names is stored, in every state
      that the workers reach under every interleaving and crash, and in
      every state of [System.step].
    - [Requests]: the calls of a handler, made in one piece, are the
      handler of [Api], and a handler that is served without a pause
      answers after finitely many calls; every event keeps the store and
      the queues well formed and the bound on the rows of a prefix; a
      paused system at rest does nothing; a deletion of a prefix that
      runs beside a parsing worker leaves a row without prefix, or is
      undone by the worker, and one answer of /system/state can
      contradict itself.
    - [FileSystem]: [mkdir] and [open_w] keep [wf]; [open_r] reads what
      [open_w] wrote; [listdir] lists the entries of a directory, each
      once; [open_r] raises [FileNotFoundError] exactly for a path without
      entry.
    - [Files]: add-evals keeps [wf]; a saved sample is loaded back, and
      two pages with the same last segment share a file; the samples that
      add-evals saved for a new domain are the ones [from_evals] loads;
      a domain without fetched validation pages cannot be loaded; the glob
      of the API lists the names that [from_config] finds, and the
      configuration that the start of the API chooses is one the
      generation worker finds; the script runs only the commands that
      its parser knows, and eval without [--config] raises; an answer of
      the provider that conforms to the schema is never refused; what
      [load_html_to_file] writes.
    - [Process]: [main] gives a worker the client of the modules, and the
      URL a worker is constructed with has no effect on the server it
      writes to; how the port of the server is read.

    ** Bounds and fuel

    - The loop of [ParserGenerator.generate_parser] is not a loop over a
      list.  [generate_loop] takes fuel, and
      [Synthesizer.generate_loop_fuel] proves that as many units as the
      prefix has samples always suffice and that more fuel changes nothing;
      [generate_parser] runs it with that fuel.
    - [Sitemap.iter_sitemap_urls] calls itself for the children of a
      sitemap index, which come from the network: its fuel is the depth of
      the nesting.  [Sitemap.iter_sitemap_urls_total] proves that fuel
      above the rank of a sitemap suffices when a rank goes down from every
      index to its children, and that more fuel changes nothing;
      [Sitemap.iter_sitemap_urls_loop] proves that no fuel suffices when
      the indexes loop, which is the behaviour of the source.
    - The loops [run] of the two workers end on an interrupt only.
      [run] and [job_run] are a number of turns chosen by the caller, and
      the invariants are proved for every number of turns and, in
      [System], for every finite interleaving.
    - A turn of a worker in [Interleave] is a number of steps that
      depends on the page: [crawl_turn] and [gen_turn] take fuel, and
      [Interleave.crawl_turn_top] and [Interleave.gen_turn_top] prove that
      some fuel gives the turn of the handler in one piece (seven steps for
      the generation worker) and that more fuel changes nothing.  A
      schedule of a pool is a finite list of actions; the invariants hold
      for every schedule.
    - A handler in [Requests] is a finite tree of calls, so it needs no
      fuel: [Requests.calls_left] counts the calls that it has left on a
      store, and [Requests.serve_alone] proves that so many steps give
      its answer.
    - The limit of 20 rows per prefix is the constant [url_limit]; the
      delay of a re-queued item is the 30 of the source.
    - [Json.conforms] recurses on the schema, which is a value: its fuel
      is the depth of the schema.  The schema of the request has depth
      three (the object, its properties, the items of a list), and the
      theorems are stated for every fuel from three on.

    ** Not modelled

    - The libraries that the sources call are interfaces, not code: the
      text that PyYAML writes and reads ([Yaml]), the parser of JSON
      ([JsonLib]), requests ([Http], [Env], [Net]), BeautifulSoup and
      soupsieve ([Bs4]), urllib ([UrlLib]), the inference client
      ([Provider]).  The pydantic validation is written out for the
      models that are built from files and from the provider; the text
      of a [ValidationError] is abstracted.
    - In the file system: symbolic links, [..], permissions, the order of
      [os.listdir], and files that change between two calls.
    - The framework of the API beyond the dispatch: request validation,
      CORS, the static file server; the Prometheus text format.  Printing
      and logging.
    - Failures of the Redis client and of the network between a process
      and its server.
    - The interleavings inside one function of db.py (the calls of the
      Redis client that [find_prefix_for_url], [scan] and [delete_all]
      make): in [Interleave] and [Requests] a call of db.py is one step.
    - As threads of [Requests]: the handlers of the API that only read
      the store and answer with a type of their own ([get_urlprefix],
      [get_url_details], the lists, the metrics), which change nothing,
      and the eval command, which is one step of [System]. *)

From Stdlib Require Export ssreflect.
From stdpp Require Export base tactics option list.
From stdpp Require Export strings sorting.
#[export] Set Warnings "-rewrite-rw".
#[global] Open Scope general_if_scope.
#[export] Set Default Proof Using "Type*".

(** ** Exceptions as values *)

(** The outcome of a Python call that may raise: [Err msg] carries [str(e)]. *)
Inductive Result (A : Type) : Type :=
| Ok (a : A)
| Err (msg : string).
Arguments Ok {A} a.
Arguments Err {A} msg.

#[export] Instance Result_eq_dec `{EqDecision A} : EqDecision (Result A).
Proof. solve_decision. Defined.

#[export] Instance Result_ret : MRet Result := @Ok.
#[export] Instance Result_bind : MBind Result := λ A B f m,
  match m with Ok a => f a | Err e => Err e end.
#[export] Instance Result_fmap : FMap Result := λ A B f m,
  match m with Ok a => Ok (f a) | Err e => Err e end.

Definition is_Ok {A} (m : Result A) : bool :=
  match m with Ok _ => true | Err _ => false end.

Definition result_to_option {A} (m : Result A) : option A :=
  match m with Ok a => Some a | Err _ => None end.

Declare Scope crawl_scope.
Delimit Scope crawl_scope with crawl.

(** The handler of a [try: ... except Exception as e: h(e)] block. *)
Definition catch {A} (m : Result A) (h : string → Result A) : Result A :=
  match m with Ok a => Ok a | Err e => h e end.

(** The monad notations of the development, in their own scope:
    [x ←ᵣ m; k] runs [k] when [m] did not raise. *)
Notation "x ←ᵣ m ; k" :=
  (match m with Ok x => k | Err e => Err e end)
  (at level 20, m at level 100, k at level 200, only parsing,
   right associativity) : crawl_scope.

(** [bool(x)] of an optional string: [None] and [""] are falsy. *)
Definition truthy (o : option string) : bool :=
  match o with Some s => negb (String.eqb s "") | None => false end.

(** ** Tactics *)

Ltac invert H := inversion H; subst; clear H.

(** Case analysis on the [Result] or [option] a goal or hypothesis matches on. *)
Ltac case_res :=
  match goal with
  | |- context [match ?m with Ok _ => _ | Err _ => _ end] =>
      let E := fresh "E" in destruct m eqn:E
  | H : context [match ?m with Ok _ => _ | Err _ => _ end] |- _ =>
      let E := fresh "E" in destruct m eqn:E
  end.

Ltac crawl_simpl :=
  repeat (simplify_eq /=; try case_match; try case_decide);
  simplify_eq /=; try done.

Create HintDb crawl discriminated.
Create HintDb crawl_rw discriminated.

(** ** Lists *)

Section lists.
Context {A : Type}.
Implicit Types l k : list A.
Implicit Types x y : A.

(** [l.pop()] from the right end, as RPOP reads a Redis list. *)
Fixpoint pop_last l : option (A * list A) :=
  match l with
  | [] => None
  | x :: l' =>
      match pop_last l' with
      | None => Some (x, [])
      | Some (y, k) => Some (y, x :: k)
      end
  end.

Lemma pop_last_snoc l x : pop_last (l ++ [x]) = Some (x, l).
Proof. induction l as [|y l IH]; simpl; [done|by rewrite IH]. Qed.

Lemma pop_last_None l : pop_last l = None ↔ l = [].
Proof.
  split; [|by intros ->].
  destruct l as [|x l]; [done|]. simpl. by repeat case_match.
Qed.

Lemma pop_last_Some l x k : pop_last l = Some (x, k) ↔ l = k ++ [x].
Proof.
  split; [|intros ->; apply pop_last_snoc].
  revert x k. induction l as [|y l IH]; intros x k; simpl; [done|].
  destruct (pop_last l) as [[z k']|] eqn:E.
  - intros [= <- <-]. by rewrite (IH z k').
  - intros [= <- <-]. by apply pop_last_None in E as ->.
Qed.

Lemma pop_last_last l : fst <$> pop_last l = last l.
Proof.
  destruct (pop_last l) as [[x k]|] eqn:E; simpl.
  - apply pop_last_Some in E as ->. by rewrite last_snoc.
  - by apply pop_last_None in E as ->.
Qed.

Lemma pop_last_length l x k : pop_last l = Some (x, k) → length l = S (length k).
Proof. intros ->%pop_last_Some. rewrite length_app /=. lia. Qed.

(** The first element of [l] on which [f] answers, with the answer: the
    [for ...: if f(x): return ...] loop. *)
Fixpoint first_some {B} (f : A → option B) l : option B :=
  match l with
  | [] => None
  | x :: l' => match f x with Some b => Some b | None => first_some f l' end
  end.

Lemma first_some_Some {B} (f : A → option B) l b :
  first_some f l = Some b ↔
  ∃ l1 x l2, l = l1 ++ x :: l2 ∧ f x = Some b ∧ Forall (λ y, f y = None) l1.
Proof.
  induction l as [|x l IH]; simpl.
  - split; [done|]. intros (l1 & y & l2 & Hl & _). by destruct l1.
  - destruct (f x) as [b'|] eqn:E.
    + split.
      * intros [= ->]. by exists [], x, l.
      * intros ([|z l1] & y & l2 & Hl & Hy & Hall); simplify_eq /=; [congruence|].
        apply Forall_cons in Hall as [? _]. congruence.
    + rewrite IH. split.
      * intros (l1 & y & l2 & -> & Hy & Hall). exists (x :: l1), y, l2.
        split_and!; [done..|]. by constructor.
      * intros ([|z l1] & y & l2 & Hl & Hy & Hall); simplify_eq /=.
        apply Forall_cons in Hall as [_ Hall]. by exists l1, y, l2.
Qed.

Lemma first_some_None {B} (f : A → option B) l :
  first_some f l = None ↔ Forall (λ y, f y = None) l.
Proof.
  induction l as [|x l IH]; simpl; [by split; [constructor|]|].
  destruct (f x) eqn:E.
  - split; [done|]. intros [? _]%Forall_cons. congruence.
  - rewrite IH. split; [by constructor|]. by intros [_ ?]%Forall_cons.
Qed.

Lemma first_some_app {B} (f : A → option B) l k :
  first_some f (l ++ k) =
  match first_some f l with Some b => Some b | None => first_some f k end.
Proof. induction l as [|x l IH]; simpl; [done|]. by destruct (f x). Qed.

End lists.

(** What follows an element of a descending range, mapped by [f], comes
    from smaller indices. *)
Lemma fmap_reverse_seq_split {B} (f : nat → B) (s n : nat) (l1 : list B) (x : B) (l2 : list B) :
  f <$> reverse (seq s n) = l1 ++ x :: l2 →
  ∃ i, x = f i ∧ ∀ y : B, y ∈ l2 → ∃ j, j < i ∧ y = f j.
Proof.
  revert l1. induction n as [|n IH]; intros l1.
  { by destruct l1. }
  rewrite seq_S reverse_snoc fmap_cons.
  destruct l1 as [|z l1]; intros Heq; simplify_eq /=; [|by eapply IH].
  exists (s + n). split; [done|].
  intros y (j & -> & Hj%elem_of_reverse%elem_of_seq)%list_elem_of_fmap.
  exists j. split; [lia|done].
Qed.


(** The de-duplication loop
    [[
      unique, seen = [], set()
      for x in l:
          if x not in seen: unique.append(x); seen.add(x)
    ]]
    with [seen] as the list of what was kept so far. *)
Section unique.
Context `{EqDecision A}.
Implicit Types l seen : list A.

Fixpoint unique_seen seen l : list A :=
  match l with
  | [] => []
  | x :: l' =>
      if decide (x ∈ seen) then unique_seen seen l'
      else x :: unique_seen (x :: seen) l'
  end.

Definition unique l : list A := unique_seen [] l.

Lemma elem_of_unique_seen seen l x :
  x ∈ unique_seen seen l ↔ x ∈ l ∧ x ∉ seen.
Proof.
  revert seen. induction l as [|y l IH]; intros seen; simpl.
  - rewrite elem_of_nil. naive_solver.
  - case_decide; rewrite ?elem_of_cons IH ?elem_of_cons; [naive_solver|].
    destruct (decide (x = y)); naive_solver.
Qed.

Lemma NoDup_unique_seen seen l : NoDup (unique_seen seen l).
Proof.
  revert seen. induction l as [|y l IH]; intros seen; simpl; [constructor|].
  case_decide; [done|]. constructor; [|done].
  rewrite elem_of_unique_seen elem_of_cons. naive_solver.
Qed.

Lemma elem_of_unique l x : x ∈ unique l ↔ x ∈ l.
Proof. rewrite /unique elem_of_unique_seen elem_of_nil. naive_solver. Qed.

Lemma NoDup_unique l : NoDup (unique l).
Proof. apply NoDup_unique_seen. Qed.

Lemma unique_seen_sublist seen l : unique_seen seen l `sublist_of` l.
Proof.
  revert seen. induction l as [|y l IH]; intros seen; simpl; [done|].
  case_decide; [by apply sublist_cons|by apply sublist_skip].
Qed.

Lemma unique_NoDup_id seen l :
  NoDup l → Forall (λ x, x ∉ seen) l → unique_seen seen l = l.
Proof.
  revert seen. induction l as [|y l IH]; intros seen Hnd Hall; simpl; [done|].
  apply NoDup_cons in Hnd as [Hy Hnd]. apply Forall_cons in Hall as [Hys Hall].
  rewrite decide_False //. f_equal. apply IH; [done|].
  apply Forall_forall. intros x Hx [->|Hs]%elem_of_cons; [done|].
  by eapply Forall_forall in Hall.
Qed.

End unique.

Lemma Sorted_impl {A} (R S : relation A) (l : list A) :
  (∀ x y, R x y → S x y) → Sorted R l → Sorted S l.
Proof.
  intros HRS. induction 1 as [|x l Hl IH Hx]; constructor; [done|].
  destruct Hx; constructor. by apply HRS.
Qed.

(** [l.sort(key=key)]: the sort is stable, so an element goes before the
    elements after it that have the same key. *)
Section sort_by.
Context {A K : Type} (le : K → K → bool) (key : A → K).
Implicit Types l : list A.

Fixpoint insert_by (x : A) l : list A :=
  match l with
  | [] => [x]
  | y :: l' => if le (key x) (key y) then x :: l else y :: insert_by x l'
  end.

Definition sort_by l : list A := foldr insert_by [] l.

Lemma insert_by_Permutation x l : insert_by x l ≡ₚ x :: l.
Proof.
  induction l as [|y l IH]; simpl; [done|]. destruct (le _ _); [done|].
  by rewrite IH Permutation_swap.
Qed.

Lemma sort_by_Permutation l : sort_by l ≡ₚ l.
Proof.
  induction l as [|x l IH]; simpl; [done|]. by rewrite insert_by_Permutation IH.
Qed.

Lemma elem_of_sort_by l x : x ∈ sort_by l ↔ x ∈ l.
Proof. by rewrite sort_by_Permutation. Qed.

Lemma length_sort_by l : length (sort_by l) = length l.
Proof. by rewrite sort_by_Permutation. Qed.

Section sorted.
Context (le_total : ∀ a b, le a b = false → le b a = true).

Lemma insert_by_Sorted x l :
  Sorted (λ x y, le (key x) (key y) = true) l →
  Sorted (λ x y, le (key x) (key y) = true) (insert_by x l).
Proof.
  induction 1 as [|y l Hl IH Hy]; simpl; [by repeat constructor|].
  destruct (le (key x) (key y)) eqn:E; [by repeat constructor|].
  constructor; [done|]. destruct Hy as [|z l Hz]; simpl in *.
  - constructor. by apply le_total.
  - destruct (le (key x) (key z)); constructor; [by apply le_total|done].
Qed.

Lemma sort_by_Sorted l : Sorted (λ x y, le (key x) (key y) = true) (sort_by l).
Proof. induction l as [|x l IH]; simpl; [constructor|by apply insert_by_Sorted]. Qed.

End sorted.

(** Stability: the elements of one key keep their order. *)
Section stable.
Context `{EqDecision K} (le_refl : ∀ a, le a a = true).

Lemma filter_insert_by k x l :
  filter (λ y, key y = k) (insert_by x l) = filter (λ y, key y = k) (x :: l).
Proof.
  induction l as [|y l IH]; simpl; [done|]. destruct (le (key x) (key y)) eqn:E; [done|].
  rewrite filter_cons IH !filter_cons. repeat case_decide; try done. congruence.
Qed.

Lemma sort_by_stable k l : filter (λ y, key y = k) (sort_by l) = filter (λ y, key y = k) l.
Proof.
  induction l as [|x l IH]; simpl; [done|]. by rewrite filter_insert_by !filter_cons IH.
Qed.

End stable.
End sort_by.

(** [omap] keeps [NoDup] where the function is injective on its domain, and
    a duplicate-free list inside another is no longer than it. *)
Lemma NoDup_omap_inj {A B} (f : A → option B) (l : list A) :
  (∀ x y z, x ∈ l → y ∈ l → f x = Some z → f y = Some z → x = y) →
  NoDup l → NoDup (omap f l).
Proof.
  intros Hinj Hnd. induction Hnd as [|x l Hx Hnd IH]; [constructor|]. simpl.
  assert (NoDup (omap f l)) as IH'.
  { apply IH. intros y y' z Hy Hy'. apply Hinj; by right. }
  destruct (f x) as [z|] eqn:Hz; [|done]. constructor; [|done].
  intros (y & Hy & Hfy)%list_elem_of_omap. apply Hx.
  by rewrite (Hinj x y z) //; [left|right].
Qed.

(** A list comprehension whose body may raise: the head of the result
    comes from the head of the list. *)
Lemma mapM_Ok_cons {A B} (f : A → Result B) (l : list A) (y : B) (ys : list B) :
  mapM f l = Ok (y :: ys) → ∃ x xs, l = x :: xs ∧ f x = Ok y ∧ mapM f xs = Ok ys.
Proof.
  destruct l as [|x xs]; [done|]. simpl. rewrite /mbind /Result_bind /mret /Result_ret.
  destruct (f x) as [y'|] eqn:Hf; [|done]. destruct (mapM f xs) as [ys'|] eqn:Hm; [|done].
  intros [= -> ->]. by exists x, xs.
Qed.

Lemma mapM_Ok_intro {A B} (f : A → Result B) (x : A) (l : list A) (y : B) (ys : list B) :
  f x = Ok y → mapM f l = Ok ys → mapM f (x :: l) = Ok (y :: ys).
Proof. intros Hx Hl. by rewrite /= /mbind /Result_bind /mret /Result_ret Hx Hl. Qed.

Lemma mapM_Ok_inv {A B} (f : A → Result B) (x : A) (l : list A) (r : list B) :
  mapM f (x :: l) = Ok r → ∃ y ys, r = y :: ys ∧ f x = Ok y ∧ mapM f l = Ok ys.
Proof.
  rewrite /= /mbind /Result_bind /mret /Result_ret.
  destruct (f x) as [y|]; [|done]. destruct (mapM f l) as [ys|]; [|done].
  intros [= <-]. by exists y, ys.
Qed.

(** A list comprehension over the same elements in another order gives the
    same results in that order, when it raises for none of them. *)
Lemma mapM_Permutation {A B} (f : A → Result B) (l k : list A) (r : list B) :
  l ≡ₚ k → mapM f l = Ok r → ∃ r', mapM f k = Ok r' ∧ r ≡ₚ r'.
Proof.
  intros Hp. revert r. induction Hp as [|x l k _ IH|x y l|l k m _ IH1 _ IH2]; intros r.
  - by exists r.
  - intros (z & zs & -> & Hz & Hzs)%mapM_Ok_inv.
    destruct (IH zs Hzs) as (r' & Hk & Hr').
    exists (z :: r'). by rewrite (mapM_Ok_intro _ _ _ _ _ Hz Hk) Hr'.
  - intros (z & zs' & -> & Hz & (w & zs & -> & Hw & Hzs)%mapM_Ok_inv)%mapM_Ok_inv.
    exists (w :: z :: zs). split; [|apply perm_swap].
    by rewrite (mapM_Ok_intro _ _ _ _ _ Hw (mapM_Ok_intro _ _ _ _ _ Hz Hzs)).
  - intros (r1 & H1 & Hr1)%IH1. destruct (IH2 r1 H1) as (r2 & H2 & Hr2).
    exists r2. split; [done|]. by etrans.
Qed.

(** Each element is the result of the one it is listed by. *)
Lemma mapM_fmap_Ok {A B} (f : A → Result B) (g : B → A) (l : list B) :
  (∀ y, y ∈ l → f (g y) = Ok y) → mapM f (g <$> l) = Ok l.
Proof.
  induction l as [|y l IH]; intros Hf; [done|].
  rewrite fmap_cons. apply mapM_Ok_intro; [apply Hf; left|].
  apply IH. intros z Hz. apply Hf. by right.
Qed.

Lemma NoDup_length_le {A} (l k : list A) :
  NoDup l → (∀ x, x ∈ l → x ∈ k) → length l ≤ length k.
Proof. intros Hnd Hsub. by apply submseteq_length, NoDup_submseteq. Qed.

Lemma forallb_ext {A} (f g : A → bool) (l : list A) :
  (∀ x, x ∈ l → f x = g x) → forallb f l = forallb g l.
Proof.
  induction l as [|x l IH]; intros Hfg; [done|]. simpl.
  rewrite Hfg; [left|]. rewrite IH //. intros y Hy. apply Hfg. by right.
Qed.

(** ** Sums over a list that is updated in place *)

Lemma sum_list_with_insert {A} (f : A → nat) (l : list A) i x y :
  l !! i = Some x → sum_list_with f (<[i:=y]> l) + f x = sum_list_with f l + f y.
Proof.
  revert i. induction l as [|z l IH]; intros [|i] Hi; simplify_eq/=; [lia|].
  specialize (IH _ Hi). lia.
Qed.

Lemma sum_list_with_le {A} (f g : A → nat) (l : list A) :
  (∀ x, f x ≤ g x) → sum_list_with f l ≤ sum_list_with g l.
Proof. intros Hle. induction l as [|x l IH]; simpl; [done|]. specialize (Hle x). lia. Qed.

#[export] Hint Resolve NoDup_unique NoDup_unique_seen : crawl.
#[export] Hint Rewrite @pop_last_snoc : crawl_rw.
