(* ===== verification/PyString.v ===== *)
(** * The Python [str] methods the sources call

    The workers compute on URLs with [str.split], [str.join],
    [str.startswith], [str.endswith], [str.lower], [str.replace], slicing and
    the [in] operator (parsing_worker.py lines 30-78, db.py lines 80-93,
    parser.py line 247).  This file defines them on [string] by structural
    recursion, so that every model of a source function that uses them
    evaluates, and proves what the components need: the round trip between
    [split] and [join], that the candidates [join (take i parts)] are string
    prefixes, and the characterisation of [in] by concatenation.

    Characters are 8-bit: [lower] is ASCII lower-casing and [isspace] covers
    the ASCII white space of Python. *)

From Stdlib Require Import Ascii.
From S2P Require Import Prelude.

Module Py.

Implicit Types s t u sep : string.
Implicit Types c a : ascii.
Implicit Types l : list string.

(** ** Definitions *)

(** [s.split(c)] for a one-character separator. *)
Fixpoint split c s : list string :=
  match s with
  | "" => [""]
  | String a s' =>
      if decide (a = c) then "" :: split c s'
      else match split c s' with
           | x :: r => String a x :: r
           | [] => [String a ""]
           end
  end.

(** [sep.join(l)]. *)
Fixpoint join sep l : string :=
  match l with
  | [] => ""
  | x :: l' => match l' with [] => x | _ :: _ => x +:+ sep +:+ join sep l' end
  end.

(** [s.startswith(t)] and [s.endswith(t)]. *)
Definition startswith s t : bool := String.prefix t s.
Definition endswith s t : bool := String.prefix (String.rev t) (String.rev s).

(** [c in s] and [t in s]. *)
Fixpoint contains_char c s : bool :=
  match s with
  | "" => false
  | String a s' => bool_decide (a = c) || contains_char c s'
  end.

Fixpoint contains t s : bool :=
  String.prefix t s ||
  match s with "" => false | String _ s' => contains t s' end.

(** [s[n:]] and [s[:-1]]. *)
Fixpoint drop (n : nat) s : string :=
  match n, s with
  | 0, _ => s
  | S n', String _ s' => drop n' s'
  | S _, "" => ""
  end.

Fixpoint drop_last s : string :=
  match s with
  | "" => ""
  | String a s' => match s' with "" => "" | String _ _ => String a (drop_last s') end
  end.

(** [s.lower()] on ASCII. *)
Definition lower_ascii a : ascii :=
  let n := nat_of_ascii a in
  if (65 <=? n) && (n <=? 90) then ascii_of_nat (n + 32) else a.

Fixpoint lower s : string :=
  match s with
  | "" => ""
  | String a s' => String (lower_ascii a) (lower s')
  end.

(** [s.replace(old, new)]: every non-overlapping occurrence, left to right.
    [skip] counts the characters of an occurrence still to be passed over. *)
Fixpoint replace_go old new (skip : nat) s : string :=
  match s with
  | "" => ""
  | String a s' =>
      match skip with
      | S k => replace_go old new k s'
      | 0 =>
          if String.prefix old s
          then new +:+ replace_go old new (String.length old - 1) s'
          else String a (replace_go old new 0 s')
      end
  end.

Definition replace old new s : string :=
  if decide (old = "") then s else replace_go old new 0 s.

(** [c.isspace()] on ASCII, and [s.strip()]. *)
Definition isspace a : bool :=
  let n := nat_of_ascii a in
  ((9 <=? n) && (n <=? 13)) || ((28 <=? n) && (n <=? 32)).

Fixpoint lstrip s : string :=
  match s with
  | "" => ""
  | String a s' => if isspace a then lstrip s' else s
  end.

Definition rstrip s : string := String.rev (lstrip (String.rev s)).
Definition strip s : string := rstrip (lstrip s).

(** ** Concatenation and prefixes *)

Lemma app_cons a s t : String a s +:+ t = String a (s +:+ t).
Proof. done. Qed.

Lemma app_nil_l s : "" +:+ s = s.
Proof. done. Qed.

Lemma app_nil_r s : s +:+ "" = s.
Proof. induction s as [|a s IH]; [done|]. by rewrite app_cons IH. Qed.

Lemma app_assoc s t u : (s +:+ t) +:+ u = s +:+ t +:+ u.
Proof. induction s as [|a s IH]; [done|]. by rewrite !app_cons IH. Qed.

Lemma length_app s t : String.length (s +:+ t) = String.length s + String.length t.
Proof. induction s as [|a s IH]; [done|]. by rewrite app_cons /= IH. Qed.

Lemma prefix_cons a b s t :
  String.prefix (String a s) (String b t) = bool_decide (a = b) && String.prefix s t.
Proof. simpl. destruct (ascii_dec a b); by [rewrite bool_decide_true|rewrite bool_decide_false]. Qed.

Lemma prefix_nil_r s : String.prefix s "" = bool_decide (s = "").
Proof. by destruct s. Qed.

(** [String.prefix] decides concatenation. *)
Lemma prefix_spec t s : String.prefix t s = true ↔ ∃ u, s = t +:+ u.
Proof.
  revert s. induction t as [|a t IH]; intros s.
  - split; [by exists s|]. by destruct s.
  - destruct s as [|b s]; [by split; [|intros [? ?]]|].
    rewrite prefix_cons andb_true_iff bool_decide_eq_true IH. split.
    + intros [-> [u ->]]. by exists u.
    + intros [u Hu]. rewrite app_cons in Hu. simplify_eq. eauto.
Qed.

Lemma startswith_spec s t : startswith s t = true ↔ ∃ u, s = t +:+ u.
Proof. apply prefix_spec. Qed.

Lemma startswith_nil s : startswith s "" = true.
Proof. by destruct s. Qed.

Lemma startswith_refl s : startswith s s = true.
Proof. apply startswith_spec. exists "". by rewrite app_nil_r. Qed.

Lemma startswith_app s t : startswith (s +:+ t) s = true.
Proof. apply startswith_spec. by exists t. Qed.

Lemma startswith_trans s t u :
  startswith s t = true → startswith t u = true → startswith s u = true.
Proof.
  rewrite !startswith_spec. intros [v ->] [w ->]. exists (w +:+ v).
  by rewrite app_assoc.
Qed.

Lemma startswith_length s t : startswith s t = true → String.length t ≤ String.length s.
Proof. intros [u ->]%startswith_spec. rewrite length_app. lia. Qed.

(** ** [in] *)

Lemma contains_unfold t s :
  contains t s =
  String.prefix t s || match s with "" => false | String _ s' => contains t s' end.
Proof. by destruct s. Qed.

Lemma contains_spec t s : contains t s = true ↔ ∃ u v, s = u +:+ t +:+ v.
Proof.
  induction s as [|a s IH]; rewrite contains_unfold.
  - rewrite orb_false_r prefix_spec. split.
    + intros [v Hv]. by exists "", v.
    + intros (u & v & Huv). destruct u; [by exists v|done].
  - rewrite orb_true_iff IH prefix_spec. split.
    + intros [[v Hv]|(u & v & ->)]; [by exists "", v|by exists (String a u), v].
    + intros ([|b u] & v & Huv); [left; by exists v|right].
      rewrite app_cons in Huv. simplify_eq. by exists u, v.
Qed.

(** ** [split] and [join] *)

Lemma contains_char_app c s t :
  contains_char c (s +:+ t) = contains_char c s || contains_char c t.
Proof. induction s as [|a s IH]; [done|]. by rewrite app_cons /= IH orb_assoc. Qed.

Lemma split_nonempty c s : split c s ≠ [].
Proof. destruct s as [|a s]; simpl; [done|]. by repeat case_match. Qed.

Lemma split_cons c s : ∃ x r, split c s = x :: r.
Proof. destruct (split c s) eqn:E; [by apply split_nonempty in E|eauto]. Qed.

Lemma contains_char_split c s : contains_char c s = false ↔ split c s = [s].
Proof.
  induction s as [|a s IH]; simpl; [done|].
  rewrite orb_false_iff bool_decide_eq_false IH. case_decide as Hac.
  - split; [naive_solver|]. intros [=].
  - destruct (split_cons c s) as (x & r & E). rewrite E. naive_solver.
Qed.

Lemma length_split c s : 1 ≤ length (split c s).
Proof. destruct (split_cons c s) as (x & r & ->). simpl. lia. Qed.

Lemma join_cons sep x y l : join sep (x :: y :: l) = x +:+ sep +:+ join sep (y :: l).
Proof. done. Qed.

Lemma join_singleton sep x : join sep [x] = x.
Proof. done. Qed.

(** Round trip: joining the parts with the separator gives the string back. *)
Lemma join_split c s : join (String c "") (split c s) = s.
Proof.
  induction s as [|a s IH]; [done|]. simpl.
  destruct (split_cons c s) as (x & r & E). rewrite E in IH |- *.
  case_decide as Hac.
  - subst a. by rewrite join_cons IH.
  - destruct r as [|y r]; [by simplify_eq /=|].
    rewrite join_cons app_cons. f_equal. by rewrite -join_cons.
Qed.

(** No part of a split holds the separator. *)
Lemma split_no_sep c s : Forall (λ x, contains_char c x = false) (split c s).
Proof.
  induction s as [|a s IH]; simpl; [by repeat constructor|].
  case_decide as Hac; [by constructor|].
  destruct (split c s) as [|x r]; [by repeat constructor; rewrite /= bool_decide_false|].
  apply Forall_cons in IH as [Hx Hr]. constructor; [|done].
  by rewrite /= Hx bool_decide_false.
Qed.

(** Round trip in the other direction, for parts that hold no separator. *)
Lemma split_join c l :
  l ≠ [] → Forall (λ x, contains_char c x = false) l →
  split c (join (String c "") l) = l.
Proof.
  induction l as [|x l IH]; [done|]. intros _ [Hx Hl]%Forall_cons.
  destruct l as [|y l]; [by apply contains_char_split|].
  rewrite join_cons. specialize (IH ltac:(done) Hl).
  induction x as [|a x IHx]; simpl in *.
  - rewrite decide_True //. by rewrite IH.
  - apply orb_false_iff in Hx as [Ha%bool_decide_eq_false Hx].
    rewrite app_cons /= decide_False // IHx //.
Qed.

(** The first [i] parts, joined, are a prefix of the whole: the candidates
    of [find_prefix_for_url] are string prefixes of the URL. *)
Lemma startswith_join_take sep l i :
  startswith (join sep l) (join sep (take i l)) = true.
Proof.
  revert i. induction l as [|x l IH]; intros i; [by destruct i|].
  destruct i as [|i]; [apply startswith_nil|].
  destruct l as [|y l]; [destruct i; apply startswith_refl|].
  destruct i as [|i]; [apply startswith_app|].
  specialize (IH (S i)). apply startswith_spec in IH as [u Hu].
  apply startswith_spec. exists u.
  change (take (S (S i)) (x :: y :: l)) with (x :: y :: take i l).
  change (take (S i) (y :: l)) with (y :: take i l) in Hu.
  by rewrite !join_cons Hu !app_assoc.
Qed.

Lemma length_join_take_mono sep l i j :
  i ≤ j → String.length (join sep (take i l)) ≤ String.length (join sep (take j l)).
Proof.
  intros Hij. apply startswith_length.
  replace (take i l) with (take i (take j l)) by (rewrite take_take; f_equal; lia).
  apply startswith_join_take.
Qed.

Lemma join_app sep l k :
  l ≠ [] → k ≠ [] → join sep (l ++ k) = join sep l +:+ sep +:+ join sep k.
Proof.
  induction l as [|x l IH]; [done|]. intros _ Hk.
  destruct l as [|y l]; [by destruct k|].
  by rewrite -!app_comm_cons !join_cons app_comm_cons IH // !app_assoc.
Qed.

(** A proper initial segment of the parts joins to a shorter string. *)
Lemma length_join_take_lt sep l i :
  0 < i < length l → sep ≠ "" →
  String.length (join sep (take i l)) < String.length (join sep l).
Proof.
  intros Hi Hsep. rewrite -{2}(take_drop i l) join_app.
  - intros E%(f_equal length). rewrite length_take /= in E. lia.
  - intros E%(f_equal length). rewrite length_drop /= in E. lia.
  - rewrite !length_app. destruct sep; [done|]. simpl. lia.
Qed.

Lemma app_inj_l s t u : s +:+ t = s +:+ u → t = u.
Proof. induction s as [|a s IH]; [done|]. rewrite !app_cons. intros [=]. auto. Qed.

(** The first part of a string ends at the first separator. *)
Lemma split_app_sep c s t :
  contains_char c s = false → split c (s +:+ String c t) = s :: split c t.
Proof.
  induction s as [|a s IH]; simpl.
  - intros _. by rewrite decide_True.
  - intros [Hac%bool_decide_eq_false Hs]%orb_false_iff.
    by rewrite decide_False // IH.
Qed.

(** A separator in the middle: the parts of the left, then the parts of
    the right. *)
Lemma split_app c s t : split c (s +:+ String c t) = split c s ++ split c t.
Proof.
  induction s as [|a s IH]; simpl; [by rewrite decide_True|].
  case_decide; [by rewrite IH|]. rewrite IH.
  by destruct (split_cons c s) as (x & r & ->).
Qed.

Lemma join_take_all sep l : join sep (take (length l) l) = join sep l.
Proof. by rewrite firstn_all. Qed.

(** A separator that the left parts do not hold splits a string in one way
    only: how a class name and an id are read back from a key. *)
Lemma app_sep_inj c s1 t1 s2 t2 :
  contains_char c s1 = false → contains_char c s2 = false →
  s1 +:+ String c t1 = s2 +:+ String c t2 → s1 = s2 ∧ t1 = t2.
Proof.
  revert s2. induction s1 as [|a s1 IH]; intros [|b s2] H1 H2 Heq;
    rewrite ?app_cons ?app_nil_l in Heq; simplify_eq /=.
  - done.
  - by rewrite bool_decide_true in H2.
  - by rewrite bool_decide_true in H1.
  - apply orb_false_iff in H1 as [_ H1]. apply orb_false_iff in H2 as [_ H2].
    by destruct (IH s2 H1 H2) as [-> ->].
Qed.

(** ** [lower] *)

Lemma lower_ascii_idemp a : lower_ascii (lower_ascii a) = lower_ascii a.
Proof. by destruct a as [[] [] [] [] [] [] [] []]. Qed.

Lemma lower_idemp s : lower (lower s) = lower s.
Proof. induction s as [|a s IH]; [done|]. by rewrite /= lower_ascii_idemp IH. Qed.

Lemma lower_app s t : lower (s +:+ t) = lower s +:+ lower t.
Proof. induction s as [|a s IH]; [done|]. by rewrite app_cons /= IH. Qed.

Lemma length_lower s : String.length (lower s) = String.length s.
Proof. induction s as [|a s IH]; [done|]. by rewrite /= IH. Qed.

(** ** Slices *)

Lemma drop_app s t : drop (String.length s) (s +:+ t) = t.
Proof. induction s as [|a s IH]; [by destruct t|]. by rewrite app_cons /=. Qed.

Lemma drop_last_snoc s a : drop_last (s +:+ String a "") = s.
Proof.
  induction s as [|b s IH]; [done|]. rewrite app_cons /= IH.
  by destruct s.
Qed.

Lemma rev_app_app_l s t u :
  String.rev_app (s +:+ t) u = String.rev_app t (String.rev_app s u).
Proof. revert u. induction s as [|b s IH]; intros u; [done|]. by rewrite app_cons /= IH. Qed.

Lemma rev_app_app_r s t u : String.rev_app s (t +:+ u) = String.rev_app s t +:+ u.
Proof. revert t. induction s as [|b s IH]; intros t; [done|]. by rewrite /= -IH app_cons. Qed.

Lemma rev_app s t : String.rev (s +:+ t) = String.rev t +:+ String.rev s.
Proof. by rewrite /String.rev rev_app_app_l -rev_app_app_r app_nil_l. Qed.

Lemma endswith_snoc s a : endswith (s +:+ String a "") (String a "") = true.
Proof.
  rewrite /endswith /String.rev rev_app_app_l.
  change (String.rev_app (String a "") ?u) with (String a u).
  rewrite prefix_cons bool_decide_true //. apply startswith_nil.
Qed.

Lemma endswith_app s t : endswith (s +:+ t) t = true.
Proof. rewrite /endswith rev_app. apply prefix_spec. by eexists. Qed.

Lemma rev_involutive s : String.rev (String.rev s) = s.
Proof.
  induction s as [|a s IH]; [done|].
  change (String a s) with (String a "" +:+ s) at 1. by rewrite !rev_app IH.
Qed.

Lemma endswith_spec s t : endswith s t = true ↔ ∃ u, s = u +:+ t.
Proof.
  rewrite /endswith prefix_spec. split.
  - intros [u Hu]. exists (String.rev u).
    by rewrite -(rev_involutive s) Hu rev_app rev_involutive.
  - intros [u ->]. exists (String.rev u). by rewrite rev_app.
Qed.

Lemma endswith_nil s : endswith s "" = true.
Proof. rewrite /endswith /=. by destruct (String.rev s). Qed.

End Py.

(** The line feed, ["\n"]. *)
Definition nl : string := String (ascii_of_nat 10) "".

#[export] Hint Rewrite Py.app_nil_r Py.app_assoc Py.join_split Py.lower_idemp : crawl_rw.
#[export] Hint Resolve Py.startswith_refl Py.startswith_app Py.startswith_join_take : crawl.
