(* ===== verification/DataModels.v ===== *)
(** * The data models (src/backend/data_models.py)

    One module per pydantic class, with the class's fields under their
    source names and a constructor [make] that fills in the defaults of the
    class declaration.  The derived [id] field of a class ([_derive_id]) is
    the function [id] of its module: the validator copies the identifying
    field and no code assigns to either afterwards.

    [Payload] is what Redis holds for a model ([model_dump] then orjson) and
    [Model] is the interface db.py and redis_queue.py use of [BaseModel]: the
    class name, [dump], [parse], and the law that parsing a dump gives the
    model back.  [HasId] adds the [id] of the classes that [db.save] accepts.

    [ParserParameters.add] is [__add__]: the union of the four selector
    lists through Python sets.  The order in which a Python set is listed is
    not specified, so it is the parameter [PySet] of the model; the merge
    laws are proved up to the equivalence [≡] (same selectors per field) for
    every [PySet], and [ListSet] is the instance the examples run on.

    [Extractor] is the interface of the extraction engine,
    [Parser(config).parse(content)], which both workers call.

    The scores of [EvaluationResult] and [EvaluationResults] are exact
    rationals; the methods of [SampleURL], [EvaluationRun] and
    [URLPrefixWithUrls] are in the files of the components that call them
    ([Evaluation], [Api]); the construction of a model from a dictionary
    of a file or of an answer is in [Json], and the methods that read and
    write files ([SampleURL.save], [SampleURL.load], [from_config]) are in
    [Files]. *)

From Stdlib Require Import Ascii QArith Qcanon.
From stdpp Require Import numbers gmap.
From S2P Require Import Prelude PyString.

(** ** Python sets listed in some order *)

(** [union_list a b] stands for [list(set(a) | set(b))]. *)
Class PySet := {
  union_list : list string → list string → list string;
  elem_of_union_list a b x : x ∈ union_list a b ↔ x ∈ a ∨ x ∈ b;
  NoDup_union_list a b : NoDup (union_list a b);
}.

(** Two lists that hold the same selectors. *)
Definition same_set (l k : list string) : Prop := ∀ x, x ∈ l ↔ x ∈ k.

#[export] Instance same_set_equivalence : Equivalence same_set.
Proof.
  split; [by intros l x|by intros l k H x|].
  intros l k m H1 H2 x. by rewrite (H1 x).
Qed.

#[export] Instance same_set_dec : RelDecision same_set.
Proof.
  intros l k.
  destruct (decide (Forall (λ x, x ∈ k) l ∧ Forall (λ x, x ∈ l) k))
    as [[H1 H2]|Hn]; [left|right].
  - rewrite !Forall_forall in H1 H2. intros x. naive_solver.
  - intros Hs. apply Hn. rewrite !Forall_forall. split; intros x; by apply Hs.
Defined.

(** The order of a [gset]: one order a set may be listed in. *)
#[export] Program Instance GsetOrder : PySet := {|
  union_list a b := elements (list_to_set a ∪ list_to_set b : gset string)
|}.
Next Obligation. intros a b x. rewrite elem_of_elements. set_solver. Qed.
Next Obligation. intros a b. apply NoDup_elements. Qed.

(** Insertion order: the left operand first, then what the right one adds. *)
Program Definition ListSet : PySet := {|
  union_list a b := unique (a ++ b)
|}.
Next Obligation. intros a b x. by rewrite elem_of_unique elem_of_app. Qed.
Next Obligation. intros a b. apply NoDup_unique. Qed.

(** ** The classes *)

Module ValidationLabel.
Record t := make { content : string }.
#[global] Instance eq_dec : EqDecision t.
Proof. solve_decision. Defined.
End ValidationLabel.

Module EvaluationResult.
Record t := make {
  levenshtein_distance_norm : Qc;
  exact_match : bool;
  missing_content : bool;
  extra_content : bool;
  config_name : string;
  domain : string;
  url : string;
  expected_content : string;
  parsed_content : string;
}.
#[global] Instance eq_dec : EqDecision t.
Proof. solve_decision. Defined.
End EvaluationResult.

(** The averages of [EvaluationResult]s; a Python float is a rational here. *)
Module EvaluationResults.
Record t := make {
  levenshtein_distance_norm : Qc;
  exact_match : Qc;
  missing_content : Qc;
  extra_content : Qc;
  domain : option string;
  config_name : option string;
}.
#[global] Instance eq_dec : EqDecision t.
Proof. solve_decision. Defined.
End EvaluationResults.

Module EvaluationRun.
Record t := make {
  results : list EvaluationResult.t;
  datetime_str : string;
}.
Definition id (r : t) : string := datetime_str r.
#[global] Instance eq_dec : EqDecision t.
Proof. solve_decision. Defined.
End EvaluationRun.

Module URL.
Record t := mk {
  url : string;
  prefix : option string;
  raw_content : option string;
  parsed_content : option string;
}.
Definition id (u : t) : string := url u.
(** [URL(url=...)] and [URL(url=..., prefix=...)]. *)
Definition make (u : string) (p : option string) : t := mk u p None None.
#[global] Instance eq_dec : EqDecision t.
Proof. solve_decision. Defined.
End URL.

Module URLQueueItem.
Record t := make {
  url : URL.t;
  process_from_unix_timestamp : Z;
  times_queued : Z;
}.
#[global] Instance eq_dec : EqDecision t.
Proof. solve_decision. Defined.
End URLQueueItem.

Module SampleURL.
Record t := mk {
  url : string;
  raw_content : option string;
  label : option ValidationLabel.t;
}.
(** [SampleURL(url=..., raw_content=...)]. *)
Definition make (u raw : string) : t := mk u (Some raw) None.
#[global] Instance eq_dec : EqDecision t.
Proof. solve_decision. Defined.
End SampleURL.

Module ParserParameters.
Record t := make {
  root : list string;
  keep : list string;
  drop : list string;
  unwrap : list string;
}.
#[global] Instance eq_dec : EqDecision t.
Proof. solve_decision. Defined.

(** [__add__]: the union of each field. *)
Definition add `{PySet} (self other : t) : t :=
  make (union_list (root self) (root other))
       (union_list (keep self) (keep other))
       (union_list (drop self) (drop other))
       (union_list (unwrap self) (unwrap other)).

(** The same selectors in each of the four fields. *)
#[global] Instance equiv : Equiv t := λ p q,
  same_set (root p) (root q) ∧ same_set (keep p) (keep q) ∧
  same_set (drop p) (drop q) ∧ same_set (unwrap p) (unwrap q).

(** Every field is duplicate free. *)
Definition nodup (p : t) : Prop :=
  NoDup (root p) ∧ NoDup (keep p) ∧ NoDup (drop p) ∧ NoDup (unwrap p).
End ParserParameters.

Module ParserConfig.
Record t := make {
  parameters : ParserParameters.t;
  prefix_name : string;
}.
Definition id (c : t) : string := prefix_name c.
#[global] Instance eq_dec : EqDecision t.
Proof. solve_decision. Defined.

(** [__add__]: the parameters are merged, the prefix is the left one's. *)
Definition add `{PySet} (self other : t) : t :=
  make (ParserParameters.add (parameters self) (parameters other))
       (prefix_name self).

#[global] Instance equiv : Equiv t := λ c d,
  parameters c ≡ parameters d ∧ prefix_name c = prefix_name d.
End ParserConfig.

Module URLPrefix.
Record t := mk {
  prefix : string;
  sample_urls : list SampleURL.t;
  validation_urls : option (list SampleURL.t);
  parser_config : option ParserConfig.t;
  processing_status : option string;
}.
Definition id (p : t) : string := prefix p.
(** [URLPrefix(prefix=..., sample_urls=...)]: the other fields at their defaults. *)
Definition make (p : string) (samples : list SampleURL.t) : t :=
  mk p samples (Some []) None None.
#[global] Instance eq_dec : EqDecision t.
Proof. solve_decision. Defined.

Definition with_status (st : option string) (p : t) : t :=
  mk (prefix p) (sample_urls p) (validation_urls p) (parser_config p) st.
Definition with_parser_config (c : option ParserConfig.t) (p : t) : t :=
  mk (prefix p) (sample_urls p) (validation_urls p) c (processing_status p).
Definition append_sample (s : SampleURL.t) (p : t) : t :=
  mk (prefix p) (sample_urls p ++ [s]) (validation_urls p) (parser_config p)
     (processing_status p).

(** The four values the workers give [processing_status]. *)
Definition status_ok (st : option string) : Prop :=
  st = None ∨ st = Some "in_progress" ∨ st = Some "completed" ∨ st = Some "failed".
End URLPrefix.

(** A prefix with every URL that belongs to it. *)
Module URLPrefixWithUrls.
Record t := make {
  url_prefix : URLPrefix.t;
  all_urls : list string;
  url_count : nat;
}.
#[global] Instance eq_dec : EqDecision t.
Proof. solve_decision. Defined.
End URLPrefixWithUrls.

Module ParserGeneratorConfig.
Record t := make {
  config_name : string;
  openai_model : string;
  reasoning_level : string;
  instructions_prompt : string;
  input_prompt_template : string;
  error_prompt : option string;
  reflection_prompt : option string;
}.
Definition id (c : t) : string := config_name c.
#[global] Instance eq_dec : EqDecision t.
Proof. solve_decision. Defined.
End ParserGeneratorConfig.

(** ** What Redis holds, and the interface of [BaseModel] *)

Inductive Payload :=
| PURL (u : URL.t)
| PURLPrefix (p : URLPrefix.t)
| PURLQueueItem (q : URLQueueItem.t)
| PEvaluationRun (r : EvaluationRun.t).

#[export] Instance Payload_eq_dec : EqDecision Payload.
Proof. solve_decision. Defined.

(** [class_name] is [cls.__name__], [dump m] the bytes written for [m],
    [parse] is the constructor call of the class on [orjson.loads(raw)], with
    [None] for a validation error. *)
Class Model (A : Type) := {
  class_name : string;
  dump : A → Payload;
  parse : Payload → option A;
  parse_dump m : parse (dump m) = Some m;
  parse_Some_dump p m : parse p = Some m → p = dump m;
  class_name_no_colon : Py.contains_char ":"%char class_name = false;
}.
Arguments class_name A {_}.
Arguments parse A {_} _.

(** The classes with an [id]: what [db.save] and [db.load] accept. *)
Class HasId (A : Type) `{Model A} := model_id : A → string.
Arguments model_id {A _ _} _.

#[export] Instance URL_model : Model URL.t.
Proof.
  by refine {| class_name := "URL"; dump := PURL;
     parse p := match p with PURL u => Some u | _ => None end |};
    [|intros [] ? [=]; subst|].
Defined.
#[export] Instance URL_id : HasId URL.t := URL.id.

#[export] Instance URLPrefix_model : Model URLPrefix.t.
Proof.
  by refine {| class_name := "URLPrefix"; dump := PURLPrefix;
     parse p := match p with PURLPrefix u => Some u | _ => None end |};
    [|intros [] ? [=]; subst|].
Defined.
#[export] Instance URLPrefix_id : HasId URLPrefix.t := URLPrefix.id.

#[export] Instance EvaluationRun_model : Model EvaluationRun.t.
Proof.
  by refine {| class_name := "EvaluationRun"; dump := PEvaluationRun;
     parse p := match p with PEvaluationRun u => Some u | _ => None end |};
    [|intros [] ? [=]; subst|].
Defined.
#[export] Instance EvaluationRun_id : HasId EvaluationRun.t := EvaluationRun.id.

#[export] Instance URLQueueItem_model : Model URLQueueItem.t.
Proof.
  by refine {| class_name := "URLQueueItem"; dump := PURLQueueItem;
     parse p := match p with PURLQueueItem u => Some u | _ => None end |};
    [|intros [] ? [=]; subst|].
Defined.

(** ** The merge is a semilattice up to [≡] *)

(** One goal per field of a statement on [ParserParameters.t]. *)
Ltac split_params :=
  rewrite /equiv /ParserParameters.equiv /ParserParameters.nodup /=; split_and!.

(** ** The extraction engine as the workers see it

    [Parser(config).parse(content)] of src/backend/parser.py: the text
    extracted from a page, or the exception raised. *)
Class Extractor := parse_content : ParserConfig.t → string → Result string.

Section merge.
Context `{PySet}.
Implicit Types p q r : ParserParameters.t.
Implicit Types c d : ParserConfig.t.

Lemma same_set_union_comm a b : same_set (union_list a b) (union_list b a).
Proof. intros x. rewrite !elem_of_union_list. tauto. Qed.

Lemma same_set_union_assoc (a b m : list string) :
  same_set (union_list (union_list a b) m) (union_list a (union_list b m)).
Proof. intros x. rewrite !elem_of_union_list. tauto. Qed.

Lemma same_set_union_idemp a : same_set (union_list a a) a.
Proof. intros x. rewrite !elem_of_union_list. tauto. Qed.

Lemma same_set_union_proper a a' b b' :
  same_set a a' → same_set b b' → same_set (union_list a b) (union_list a' b').
Proof. intros Ha Hb x. rewrite !elem_of_union_list (Ha x) (Hb x). tauto. Qed.

#[export] Instance ParserParameters_equivalence : Equivalence (≡@{ParserParameters.t}).
Proof.
  split.
  - by intros p; repeat split.
  - intros p q (?&?&?&?). split_params; by symmetry.
  - intros p q r (?&?&?&?) (?&?&?&?). split_params; by etrans.
Qed.

#[export] Instance ParserParameters_add_proper :
  Proper ((≡) ==> (≡) ==> (≡)) ParserParameters.add.
Proof.
  intros p p' (?&?&?&?) q q' (?&?&?&?).
  split_params; by apply same_set_union_proper.
Qed.

#[export] Instance ParserConfig_equivalence : Equivalence (≡@{ParserConfig.t}).
Proof.
  split.
  - by intros c; split.
  - intros c d [? ?]. split; by symmetry.
  - intros c d e [? ?] [? ?]. split; by etrans.
Qed.

#[export] Instance ParserConfig_add_proper :
  Proper ((≡) ==> (≡) ==> (≡)) ParserConfig.add.
Proof. intros c c' [Hc ?] d d' [Hd ?]. split; simpl; [by rewrite Hc Hd|done]. Qed.

Lemma params_add_comm p q : ParserParameters.add p q ≡ ParserParameters.add q p.
Proof. split_params; apply same_set_union_comm. Qed.

Lemma params_add_assoc p q r :
  ParserParameters.add (ParserParameters.add p q) r ≡
  ParserParameters.add p (ParserParameters.add q r).
Proof. split_params; apply same_set_union_assoc. Qed.

Lemma params_add_idemp p : ParserParameters.add p p ≡ p.
Proof. split_params; apply same_set_union_idemp. Qed.

(** C34: [ParserParameters.__add__] is commutative, associative and
    idempotent up to the order of the four selector lists, for every order
    in which a Python set may be listed: [a + b == b + a],
    [(a + b) + c == a + (b + c)] and [a + a == a] as sets. *)
Theorem ParserParameters_add_laws p q r :
  ParserParameters.add p q ≡ ParserParameters.add q p ∧
  ParserParameters.add (ParserParameters.add p q) r ≡
    ParserParameters.add p (ParserParameters.add q r) ∧
  ParserParameters.add p p ≡ p.
Proof. split_and!; [apply params_add_comm|apply params_add_assoc|apply params_add_idemp]. Qed.

(** The merge holds exactly the selectors of its operands, field by field. *)
Lemma elem_of_add_root p q x :
  x ∈ ParserParameters.root (ParserParameters.add p q) ↔
  x ∈ ParserParameters.root p ∨ x ∈ ParserParameters.root q.
Proof. apply elem_of_union_list. Qed.

(** A merged value lists no selector twice, whatever its operands. *)
Lemma ParserParameters_add_nodup p q :
  ParserParameters.nodup (ParserParameters.add p q).
Proof. split_params; apply NoDup_union_list. Qed.

Lemma config_add_comm c d :
  ParserConfig.prefix_name c = ParserConfig.prefix_name d →
  ParserConfig.add c d ≡ ParserConfig.add d c.
Proof. intros Hp. split; [apply params_add_comm|done]. Qed.

Lemma config_add_assoc c d e :
  ParserConfig.add (ParserConfig.add c d) e ≡
  ParserConfig.add c (ParserConfig.add d e).
Proof. split; [apply params_add_assoc|done]. Qed.

Lemma config_add_idemp c : ParserConfig.add c c ≡ c.
Proof. split; [apply params_add_idemp|done]. Qed.

(** [ParserConfig.__add__] is associative and idempotent, and
    commutative on configurations of one prefix; the result carries the
    prefix of the left operand. *)
Theorem ParserConfig_add_laws c d e :
  ParserConfig.prefix_name c = ParserConfig.prefix_name d →
  ParserConfig.add c d ≡ ParserConfig.add d c ∧
  ParserConfig.add (ParserConfig.add c d) e ≡
    ParserConfig.add c (ParserConfig.add d e) ∧
  ParserConfig.add c c ≡ c ∧
  ParserConfig.prefix_name (ParserConfig.add c d) = ParserConfig.prefix_name c.
Proof.
  intros Hp. split_and!; [by apply config_add_comm|apply config_add_assoc|
                          apply config_add_idemp|done].
Qed.

(** The merged configuration belongs to the left operand's prefix. *)
Lemma ParserConfig_add_prefix c d :
  ParserConfig.prefix_name (ParserConfig.add c d) = ParserConfig.prefix_name c.
Proof. done. Qed.

(** [reduce(lambda x, y: x + y, cs)] on a non-empty list, from the left. *)
Definition reduce_add (c : ParserConfig.t) (cs : list ParserConfig.t) : ParserConfig.t :=
  foldl ParserConfig.add c cs.

Lemma reduce_add_prefix c cs :
  ParserConfig.prefix_name (reduce_add c cs) = ParserConfig.prefix_name c.
Proof. revert c. induction cs as [|d cs IH]; intros c; [done|]. by rewrite /= IH. Qed.

(** A selector is in the merge of a list of configurations exactly when
    one of them has it. *)
Lemma elem_of_reduce_add_root c cs x :
  x ∈ ParserParameters.root (ParserConfig.parameters (reduce_add c cs)) ↔
  ∃ d, d ∈ c :: cs ∧ x ∈ ParserParameters.root (ParserConfig.parameters d).
Proof.
  revert c. induction cs as [|d cs IH]; intros c; simpl.
  - setoid_rewrite list_elem_of_singleton. naive_solver.
  - rewrite IH. split.
    + intros (e & [->|He]%elem_of_cons & Hx).
      * apply elem_of_add_root in Hx as [?|?]; [exists c|exists d]; set_solver.
      * exists e. set_solver.
    + intros (e & [->|[->|He]%elem_of_cons]%elem_of_cons & Hx).
      * exists (ParserConfig.add c d). split; [set_solver|]. apply elem_of_add_root; auto.
      * exists (ParserConfig.add c d). split; [set_solver|]. apply elem_of_add_root; auto.
      * exists e. set_solver.
Qed.

End merge.

(** The merge is not commutative on the prefix: [c + d] and [d + c] belong
    to different prefixes when [c] and [d] do. *)
Example ParserConfig_add_not_comm :
  let e := ParserParameters.make [] [] [] [] in
  ¬ (ParserConfig.add (ParserConfig.make e "a") (ParserConfig.make e "b") ≡
     ParserConfig.add (ParserConfig.make e "b") (ParserConfig.make e "a")).
Proof. by intros e [_ ?]. Qed.

(** With insertion order as the order of a set, [a + b] and [b + a] are
    different lists: equality of merged values is equality up to [≡] only. *)
Example ParserParameters_add_order :
  let a := ParserParameters.make ["main"] [] [] [] in
  let b := ParserParameters.make ["article"] [] [] [] in
  @ParserParameters.add ListSet a b ≠ @ParserParameters.add ListSet b a ∧
  @ParserParameters.add ListSet a b ≡ @ParserParameters.add ListSet b a.
Proof. split; [by vm_compute|]. apply (@params_add_comm ListSet). Qed.

Lemma ParserConfig_add_laws_witness :
  let a := ParserConfig.make (ParserParameters.make ["main"] [] ["nav"] []) "https://a.com/docs" in
  let b := ParserConfig.make (ParserParameters.make ["article"] [] [] ["span"]) "https://a.com/docs" in
  @ParserConfig.add ListSet a b ≡ @ParserConfig.add ListSet b a ∧
  @ParserConfig.add ListSet (@ParserConfig.add ListSet a b) a ≡
    @ParserConfig.add ListSet a (@ParserConfig.add ListSet b a) ∧
  @ParserConfig.add ListSet a a ≡ a ∧
  ParserConfig.prefix_name (@ParserConfig.add ListSet a b) = ParserConfig.prefix_name a.
Proof. intros a b. exact (@ParserConfig_add_laws ListSet a b a eq_refl). Defined.

