(* ===== verification/Json.v ===== *)
(** * The values of JSON and YAML, and the pydantic models over them
    (src/backend/data_models.py: the construction [cls(content)] of
    [SampleURL], [ValidationLabel], [ParserParameters] with its validator
    [_normalize_root], and [ParserGeneratorConfig]; src/backend/parser.py:
    [_format_parser_parameters] and [model_validate_json])

    [Value] is what [yaml.safe_load] and [orjson.loads] return and what
    [model_dump] builds: null, booleans, integers, strings, lists and
    dictionaries with string keys in insertion order; [VOther] stands for
    a scalar of any other type (a float, a date).

    The construction of a model from keyword arguments is written out
    field by field as pydantic 2 validates it in its default mode: a
    required field that is absent and a value of the wrong type are
    errors, a key that is no field is ignored, a field validator of mode
    after runs on the value that the type validation returned.  The text
    of a [ValidationError] is abstracted to the location and the kind of
    the first error.

    [conforms] is the meaning of the keywords of JSON Schema that the
    schema of [ParserParameters] uses; it stands for the structured
    output of the provider, which is asked for a text that conforms to
    the schema of [_format_parser_parameters].

    The theorems: a model that is dumped validates to itself
    ([SampleURL_roundtrip], [ParserParameters_roundtrip]); what
    [ParserParameters] accepts and that an additional key is ignored
    ([ParserParameters_validate_spec]); the validator [_normalize_root]
    never changes the outcome ([normalize_root_dead]); a value that
    conforms to the schema validates, and has no key but the four
    ([conforms_validates]). *)

From Stdlib Require Import Ascii.
From S2P Require Import Prelude PyString DataModels.

Local Open Scope crawl_scope.

(** ** Values *)

Unset Elimination Schemes.
Inductive Value :=
  | VNull
  | VBool (b : bool)
  | VInt (z : Z)
  | VStr (s : string)
  | VList (l : list Value)
  | VDict (d : list (string * Value))
  | VOther (repr : string).
Set Elimination Schemes.

(** A dictionary in insertion order. *)
Notation Dict := (list (string * Value)).

Section Value_ind.
Variable P : Value → Prop.
Hypothesis P_null : P VNull.
Hypothesis P_bool : ∀ b, P (VBool b).
Hypothesis P_int : ∀ z, P (VInt z).
Hypothesis P_str : ∀ s, P (VStr s).
Hypothesis P_list : ∀ l, Forall P l → P (VList l).
Hypothesis P_dict : ∀ d, Forall (λ kv, P kv.2) d → P (VDict d).
Hypothesis P_other : ∀ repr, P (VOther repr).

Fixpoint Value_ind v : P v :=
  match v with
  | VNull => P_null
  | VBool b => P_bool b
  | VInt z => P_int z
  | VStr s => P_str s
  | VList l =>
      P_list l ((fix all l : Forall P l :=
                   match l with
                   | [] => List.Forall_nil P
                   | v :: l => List.Forall_cons P v l (Value_ind v) (all l)
                   end) l)
  | VDict d =>
      P_dict d ((fix all d : Forall (λ kv, P kv.2) d :=
                   match d with
                   | [] => List.Forall_nil _
                   | kv :: d => List.Forall_cons _ kv d (Value_ind kv.2) (all d)
                   end) d)
  | VOther repr => P_other repr
  end.
End Value_ind.

#[export] Instance Value_eq_dec : EqDecision Value.
Proof.
  refine (fix go (v w : Value) {struct v} : Decision (v = w) :=
    match v, w with
    | VNull, VNull => left _
    | VBool b, VBool c => cast_if (decide (b = c))
    | VInt z, VInt y => cast_if (decide (z = y))
    | VStr s, VStr t => cast_if (decide (s = t))
    | VList l, VList k => cast_if (@decide (l = k) (@list_eq_dec _ go l k))
    | VDict d, VDict e =>
        cast_if (@decide (d = e) (@list_eq_dec _ (@prod_eq_dec _ _ _ go) d e))
    | VOther r, VOther q => cast_if (decide (r = q))
    | _, _ => right _
    end); congruence.
Defined.

(** [d.get(k)] and [d[k] = v]. *)
Definition dict_get (k : string) (d : Dict) : option Value :=
  snd <$> head (filter (λ kv, kv.1 = k) d).

Fixpoint dict_set (k : string) (v : Value) (d : Dict) : Dict :=
  match d with
  | [] => [(k, v)]
  | (k', v') :: d => if decide (k' = k) then (k, v) :: d else (k', v') :: dict_set k v d
  end.

(** [None] as [null]. *)
Definition opt_str (o : option string) : Value :=
  match o with Some s => VStr s | None => VNull end.

(** ** The validation of a field *)

(** A field of type [str] that is required.  [v] is the argument for the
    field, if one was given. *)
Definition validate_str (loc : string) (v : option Value) : Result string :=
  match v with
  | None => Err (loc +:+ ": Field required")
  | Some (VStr s) => Ok s
  | Some _ => Err (loc +:+ ": Input should be a valid string")
  end.

(** A field of type [str] with a default. *)
Definition validate_str_default (loc default : string) (v : option Value) : Result string :=
  match v with
  | None => Ok default
  | Some (VStr s) => Ok s
  | Some _ => Err (loc +:+ ": Input should be a valid string")
  end.

(** A field [Optional[str] = None]. *)
Definition validate_opt_str (loc : string) (v : option Value) : Result (option string) :=
  match v with
  | None | Some VNull => Ok None
  | Some (VStr s) => Ok (Some s)
  | Some _ => Err (loc +:+ ": Input should be a valid string")
  end.

(** A field of type [list[str]] that is required. *)
Definition validate_list_str (loc : string) (v : option Value) : Result (list string) :=
  match v with
  | None => Err (loc +:+ ": Field required")
  | Some (VList l) => mapM (λ x, validate_str loc (Some x)) l
  | Some _ => Err (loc +:+ ": Input should be a valid list")
  end.

(** [cls(content)] with the two stars: [content] has to be a mapping. *)
Definition construct {A} (validate : Dict → Result A) (content : Value) : Result A :=
  match content with
  | VDict d => validate d
  | _ => Err "argument after ** must be a mapping"
  end.

(** ** [ValidationLabel] and [SampleURL] *)

Definition ValidationLabel_validate (d : Dict) : Result ValidationLabel.t :=
  content ←ᵣ validate_str "content" (dict_get "content" d);
  Ok (ValidationLabel.make content).

(** A field [Optional[ValidationLabel] = None]. *)
Definition validate_opt_label (v : option Value) : Result (option ValidationLabel.t) :=
  match v with
  | None | Some VNull => Ok None
  | Some (VDict d) => Some <$> ValidationLabel_validate d
  | Some _ => Err "label: Input should be a valid dictionary or instance of ValidationLabel"
  end.

(** [SampleURL(content)] (data_models.py, lines 92-95 and 119). *)
Definition SampleURL_validate (d : Dict) : Result SampleURL.t :=
  url ←ᵣ validate_str "url" (dict_get "url" d);
  raw_content ←ᵣ validate_opt_str "raw_content" (dict_get "raw_content" d);
  label ←ᵣ validate_opt_label (dict_get "label" d);
  Ok (SampleURL.mk url raw_content label).

(** [self.model_dump()] of a [SampleURL] (line 104). *)
Definition SampleURL_model_dump (self : SampleURL.t) : Value :=
  VDict [("url", VStr (SampleURL.url self));
         ("raw_content", opt_str (SampleURL.raw_content self));
         ("label", match SampleURL.label self with
                   | Some label => VDict [("content", VStr (ValidationLabel.content label))]
                   | None => VNull
                   end)].

(** ** [ParserParameters] *)

(** What a validator of the field [root] can be called on. *)
Inductive RootInput :=
  | RootStr (v : string)
  | RootList (v : list string).

(** [_normalize_root(cls, v)] (lines 151-156). *)
Definition normalize_root (v : RootInput) : list string :=
  match v with
  | RootStr v => [v]
  | RootList v => v
  end.

(** The field [root] as [field_validator("root")] declares it: the mode
    is after, so the validator is called on the list that the type
    validation returned. *)
Definition validate_root (v : option Value) : Result (list string) :=
  v ←ᵣ validate_list_str "root" v;
  Ok (normalize_root (RootList v)).


(** [ParserParameters(content)] (lines 145-156). *)
Definition ParserParameters_validate (d : Dict) : Result ParserParameters.t :=
  root ←ᵣ validate_root (dict_get "root" d);
  keep ←ᵣ validate_list_str "keep" (dict_get "keep" d);
  drop ←ᵣ validate_list_str "drop" (dict_get "drop" d);
  unwrap ←ᵣ validate_list_str "unwrap" (dict_get "unwrap" d);
  Ok (ParserParameters.make root keep drop unwrap).

Definition list_str (l : list string) : Value := VList (VStr <$> l).

Definition ParserParameters_model_dump (self : ParserParameters.t) : Value :=
  VDict [("root", list_str (ParserParameters.root self));
         ("keep", list_str (ParserParameters.keep self));
         ("drop", list_str (ParserParameters.drop self));
         ("unwrap", list_str (ParserParameters.unwrap self))].

(** The parser of JSON texts. *)
Class JsonLib := json_loads : string → Result Value.

(** [ParserParameters.model_validate_json(text, strict=True)]
    (parser.py, lines 185, 199 and 224). *)
Definition model_validate_json `{JsonLib} (text : string) : Result ParserParameters.t :=
  content ←ᵣ json_loads text;
  match content with
  | VDict d => ParserParameters_validate d
  | _ => Err "Input should be an object"
  end.

(** ** [ParserGeneratorConfig] *)

(** [ParserGeneratorConfig(config)] (lines 245-252 and 272). *)
Definition ParserGeneratorConfig_validate (d : Dict) : Result ParserGeneratorConfig.t :=
  config_name ←ᵣ validate_str "config_name" (dict_get "config_name" d);
  openai_model ←ᵣ validate_str "openai_model" (dict_get "openai_model" d);
  reasoning_level ←ᵣ
    validate_str_default "reasoning_level" "minimal" (dict_get "reasoning_level" d);
  instructions_prompt ←ᵣ validate_str "instructions_prompt" (dict_get "instructions_prompt" d);
  input_prompt_template ←ᵣ
    validate_str "input_prompt_template" (dict_get "input_prompt_template" d);
  error_prompt ←ᵣ validate_opt_str "error_prompt" (dict_get "error_prompt" d);
  reflection_prompt ←ᵣ validate_opt_str "reflection_prompt" (dict_get "reflection_prompt" d);
  Ok (ParserGeneratorConfig.make config_name openai_model reasoning_level instructions_prompt
        input_prompt_template error_prompt reflection_prompt).

(** Lines 270-272 of [from_config]: the name of the file replaces the name
    in the file, and the model is built. *)
Definition config_of_yaml (config_name : string) (config : Value) : Result ParserGeneratorConfig.t :=
  match config with
  | VDict d => ParserGeneratorConfig_validate (dict_set "config_name" (VStr config_name) d)
  | _ => Err "object does not support item assignment"
  end.

(** ** The schema of the structured output *)

(** The schema of a field of type [list[str]] with its title. *)
Definition array_of_strings (title : string) : Value :=
  VDict [("items", VDict [("type", VStr "string")]);
         ("title", VStr title);
         ("type", VStr "array")].

(** [ParserParameters.model_json_schema()]. *)
Definition model_json_schema : Value :=
  VDict [("properties",
          VDict [("root", array_of_strings "Root"); ("keep", array_of_strings "Keep");
                 ("drop", array_of_strings "Drop"); ("unwrap", array_of_strings "Unwrap")]);
         ("required", VList [VStr "root"; VStr "keep"; VStr "drop"; VStr "unwrap"]);
         ("title", VStr "ParserParameters");
         ("type", VStr "object")].

(** [schema["additionalProperties"] = False] on a schema. *)
Definition closed (schema : Value) : Value :=
  match schema with
  | VDict d => VDict (dict_set "additionalProperties" (VBool false) d)
  | _ => schema
  end.

(** [self._format_parser_parameters()] (parser.py, lines 160-170). *)
Definition format_parser_parameters : Value :=
  let schema := closed model_json_schema in
  VDict [("type", VStr "json_schema");
         ("name", VStr "parser_config");
         ("strict", VBool true);
         ("schema", schema)].

(** The keywords type, items, properties, required and
    additionalProperties of JSON Schema.  The fuel is the depth of the
    schema. *)
Definition is_type (name : string) (s : Dict) : bool :=
  bool_decide (dict_get "type" s = Some (VStr name)).

Fixpoint conforms (fuel : nat) (schema v : Value) : bool :=
  match fuel, schema with
  | S fuel, VDict s =>
      if is_type "string" s then (if v is VStr _ then true else false)
      else if is_type "array" s then
        match v with
        | VList l =>
            match dict_get "items" s with
            | Some items => forallb (conforms fuel items) l
            | None => true
            end
        | _ => false
        end
      else if is_type "object" s then
        match v with
        | VDict d =>
            let properties := match dict_get "properties" s with Some (VDict p) => p | _ => [] end in
            let required := match dict_get "required" s with Some (VList r) => r | _ => [] end in
            forallb (λ r, match r with
                          | VStr k => bool_decide (is_Some (dict_get k d))
                          | _ => true
                          end) required &&
            forallb (λ kv, match dict_get kv.1 properties with
                           | Some property => conforms fuel property kv.2
                           | None =>
                               bool_decide (dict_get "additionalProperties" s ≠ Some (VBool false))
                           end) d
        | _ => false
        end
      else true
  | S _, _ => true
  | O, _ => false
  end.

(** The schema that the request carries. *)
Definition request_schema : Value :=
  match format_parser_parameters with
  | VDict d => default VNull (dict_get "schema" d)
  | _ => VNull
  end.

(** ** Dictionaries *)

Lemma dict_get_nil k : dict_get k [] = None.
Proof. done. Qed.

Lemma dict_get_cons k k' v d :
  dict_get k ((k', v) :: d) = if decide (k' = k) then Some v else dict_get k d.
Proof. rewrite /dict_get filter_cons /=. by case_decide. Qed.

Lemma dict_get_set_eq k v d : dict_get k (dict_set k v d) = Some v.
Proof.
  induction d as [|[k' v'] d IH]; simpl; [by rewrite dict_get_cons decide_True|].
  case_decide; rewrite dict_get_cons; [by rewrite decide_True|by rewrite decide_False].
Qed.

Lemma dict_get_set_ne k k' v d : k' ≠ k → dict_get k' (dict_set k v d) = dict_get k' d.
Proof.
  intros Hne. induction d as [|[k0 v0] d IH]; simpl.
  { by rewrite dict_get_cons decide_False. }
  case_decide as Hk; rewrite !dict_get_cons; [|by rewrite IH].
  subst k0. by rewrite !decide_False.
Qed.

(** [d[k] = v] followed by [d.get]: the key reads the value that was
    set, every other key what it read before, and the dictionary gets
    longer by one exactly when the key is new. *)
Theorem dict_get_set k k' v d :
  dict_get k' (dict_set k v d) = (if decide (k' = k) then Some v else dict_get k' d) ∧
  length (dict_set k v d) = (if dict_get k d is Some _ then length d else S (length d)).
Proof.
  split.
  - case_decide as Hk; [subst; apply dict_get_set_eq|by apply dict_get_set_ne].
  - induction d as [|[k0 v0] d IH]; simpl; [done|].
    rewrite dict_get_cons. case_decide; simpl; [done|]. rewrite IH. by destruct (dict_get k d).
Qed.

(** ** The fields *)

#[export] Instance VStr_inj : Inj (=) (=) VStr.
Proof. by intros s t [=]. Qed.

Lemma mapM_validate_str loc (l : list Value) (k : list string) :
  mapM (λ x, validate_str loc (Some x)) l = Ok k ↔ l = VStr <$> k.
Proof.
  revert k. induction l as [|x l IH]; intros k.
  { destruct k; naive_solver. }
  cbn. destruct x; simpl; try (split; [done|by destruct k]).
  destruct (mapM _ l) as [ks|e] eqn:E; simpl.
  - pose proof (proj1 (IH ks) eq_refl) as ->. split; [by intros [= <-]|].
    destruct k as [|s' k]; [done|]. intros [= -> ->%(inj (fmap VStr))]. done.
  - split; [done|]. destruct k as [|s' k]; [done|]. intros [= -> Hl]. by apply IH in Hl.
Qed.

Lemma validate_list_str_Ok loc v l : validate_list_str loc v = Ok l ↔ v = Some (list_str l).
Proof.
  destruct v as [[]|]; simpl; try (split; [done|by intros [=]]).
  rewrite mapM_validate_str /list_str. naive_solver.
Qed.

Lemma validate_list_str_dump loc l : validate_list_str loc (Some (list_str l)) = Ok l.
Proof. by apply validate_list_str_Ok. Qed.


(** ** Round trips *)

(** A [SampleURL] that is dumped and built again is the same
    [SampleURL], with or without content and label. *)
Theorem SampleURL_roundtrip (self : SampleURL.t) :
  construct SampleURL_validate (SampleURL_model_dump self) = Ok self.
Proof. by destruct self as [url [raw|] [[content]|]]. Qed.

Lemma ParserParameters_validate_Ok d p :
  ParserParameters_validate d = Ok p ↔
  dict_get "root" d = Some (list_str (ParserParameters.root p)) ∧
  dict_get "keep" d = Some (list_str (ParserParameters.keep p)) ∧
  dict_get "drop" d = Some (list_str (ParserParameters.drop p)) ∧
  dict_get "unwrap" d = Some (list_str (ParserParameters.unwrap p)).
Proof.
  rewrite /ParserParameters_validate /validate_root. split.
  - intros Hv. repeat match type of Hv with context [validate_list_str ?loc ?v] =>
      destruct (validate_list_str loc v) as [?|?] eqn:?E; simpl in Hv; [|done] end.
    simplify_eq/=. by repeat match goal with E : validate_list_str _ _ = Ok _ |- _ =>
      apply validate_list_str_Ok in E as -> end.
  - intros (-> & -> & -> & ->). rewrite !validate_list_str_dump /=. by destruct p.
Qed.

Lemma ParserParameters_roundtrip (self : ParserParameters.t) :
  construct ParserParameters_validate (ParserParameters_model_dump self) = Ok self.
Proof. simpl. by apply ParserParameters_validate_Ok. Qed.

(** The names of the fields of [ParserParameters]. *)
Definition fields : list string := ["root"; "keep"; "drop"; "unwrap"].

(** [ParserParameters] is built exactly from a dictionary that has a
    list of strings under each of the four names; a dumped model is built
    again, and a key that is none of the four is ignored, whatever it
    holds. *)
Theorem ParserParameters_validate_spec d p k x :
  (ParserParameters_validate d = Ok p ↔
   dict_get "root" d = Some (list_str (ParserParameters.root p)) ∧
   dict_get "keep" d = Some (list_str (ParserParameters.keep p)) ∧
   dict_get "drop" d = Some (list_str (ParserParameters.drop p)) ∧
   dict_get "unwrap" d = Some (list_str (ParserParameters.unwrap p))) ∧
  construct ParserParameters_validate (ParserParameters_model_dump p) = Ok p ∧
  (k ∉ fields → ParserParameters_validate ((k, x) :: d) = ParserParameters_validate d).
Proof.
  split_and!; [apply ParserParameters_validate_Ok|apply ParserParameters_roundtrip|].
  intros Hk. rewrite /ParserParameters_validate !dict_get_cons.
  rewrite !decide_False //; intros ->; apply Hk; by apply (bool_decide_unpack _).
Qed.

(** ** The schema *)

Definition is_str (v : Value) : bool := if v is VStr _ then true else false.

Definition is_list_str (v : Value) : bool :=
  if v is VList l then forallb is_str l else false.

Lemma is_list_str_spec v : is_list_str v = true ↔ ∃ l, v = list_str l.
Proof.
  destruct v as [| | | |l| |]; simpl; try (split; [done|by intros [? [=]]]).
  rewrite -Is_true_true forallb_True. split.
  - intros Hall. induction Hall as [|x l Hx _ [k IH]]; [by exists []|].
    destruct x as [| | |s| | |]; try done. exists (s :: k). rewrite /list_str in IH |- *.
    by simplify_eq/=.
  - intros [k [= ->]]. apply Forall_fmap, Forall_true. done.
Qed.

Lemma conforms_string n v : conforms (S n) (VDict [("type", VStr "string")]) v = is_str v.
Proof. done. Qed.

Lemma conforms_array n title v :
  conforms (S (S n)) (array_of_strings title) v = is_list_str v.
Proof.
  by destruct v.
Qed.

(** The properties of the schema. *)
Definition properties : Dict :=
  [("root", array_of_strings "Root"); ("keep", array_of_strings "Keep");
   ("drop", array_of_strings "Drop"); ("unwrap", array_of_strings "Unwrap")].

Lemma conforms_request_schema_unfold n d :
  conforms (S n) request_schema (VDict d) =
  forallb (λ k, bool_decide (is_Some (dict_get k d))) fields &&
  forallb (λ kv, match dict_get kv.1 properties with
                 | Some property => conforms n property kv.2
                 | None => false
                 end) d.
Proof. reflexivity. Qed.

(** The schema of the request on a dictionary: the four names are
    present, and every member is one of the four and a list of strings. *)
Lemma conforms_request_schema n d :
  conforms (S (S (S n))) request_schema (VDict d) =
  forallb (λ k, bool_decide (is_Some (dict_get k d))) fields &&
  forallb (λ kv, bool_decide (kv.1 ∈ fields) && is_list_str kv.2) d.
Proof.
  rewrite conforms_request_schema_unfold. f_equal. apply forallb_ext. intros [k v] _.
  rewrite /properties /fst /snd !dict_get_cons dict_get_nil.
  destruct (decide (k ∈ fields)) as [Hin|Hout].
  - rewrite bool_decide_true //. rewrite /fields !elem_of_cons elem_of_nil in Hin.
    destruct Hin as [->|[->|[->|[->|[]]]]]; by rewrite -(conforms_array n "").
  - rewrite bool_decide_false //. rewrite /fields !elem_of_cons elem_of_nil in Hout.
    repeat case_decide; naive_solver.
Qed.

Lemma dict_get_Some_elem k x d : dict_get k d = Some x → (k, x) ∈ d.
Proof.
  induction d as [|[k' v'] d IH]; [done|]. rewrite dict_get_cons.
  case_decide; [intros [= ->]; subst; left|right; auto].
Qed.

Lemma dict_get_NoDup k x d : NoDup d.*1 → (k, x) ∈ d → dict_get k d = Some x.
Proof.
  induction d as [|[k' v'] d IH]; [by intros _ ?%elem_of_nil|].
  rewrite fmap_cons NoDup_cons dict_get_cons. intros [Hk Hnd] [[= -> ->]|Hin]%elem_of_cons.
  - by rewrite decide_True.
  - rewrite decide_False; [|by apply IH]. intros ->. apply Hk.
    apply list_elem_of_fmap. by exists (k, x).
Qed.

Lemma conforms_not_dict n v :
  conforms (S n) request_schema v = true → ∃ d, v = VDict d.
Proof. destruct v; try done. by eexists. Qed.

(** The list of strings under a name that the schema requires. *)
Lemma conforms_field n d k :
  conforms (S (S (S n))) request_schema (VDict d) = true → k ∈ fields →
  ∃ l, dict_get k d = Some (list_str l).
Proof.
  rewrite conforms_request_schema andb_true_iff -!Is_true_true !forallb_True !Forall_forall.
  intros [Hreq Hall] Hk. apply Hreq, bool_decide_unpack in Hk as [x Hx].
  apply dict_get_Some_elem in Hx as Hin. apply Hall in Hin.
  apply andb_True in Hin as [_ Hl%Is_true_true%is_list_str_spec]. destruct Hl as [l Hl].
  simpl in Hl. subst x. by exists l.
Qed.

(** A value that conforms is a dictionary of the four lists and of nothing
    else. *)
Lemma conforms_dict n v :
  conforms (S (S (S n))) request_schema v = true →
  ∃ d p, v = VDict d ∧ ParserParameters_validate d = Ok p ∧
         Forall (λ kv, kv.1 ∈ fields) d.
Proof.
  intros Hc. destruct (conforms_not_dict _ _ Hc) as [d ->].
  destruct (conforms_field n d "root" Hc) as [root Hroot]; [by apply (bool_decide_unpack _)|].
  destruct (conforms_field n d "keep" Hc) as [keep Hkeep]; [by apply (bool_decide_unpack _)|].
  destruct (conforms_field n d "drop" Hc) as [drop Hdrop]; [by apply (bool_decide_unpack _)|].
  destruct (conforms_field n d "unwrap" Hc) as [unwrap Hu]; [by apply (bool_decide_unpack _)|].
  exists d, (ParserParameters.make root keep drop unwrap). split_and!; [done| |].
  - by apply ParserParameters_validate_Ok.
  - revert Hc. rewrite conforms_request_schema andb_true_iff -!Is_true_true !forallb_True.
    intros [_ Hall]. eapply Forall_impl; [done|].
    by intros kv [?%bool_decide_unpack _]%andb_True.
Qed.

(** C17: A value that conforms to the schema of the request is a
    dictionary from which [ParserParameters] is built, and it has no key
    but the four names; a dictionary from which the model is built and
    that has no other key conforms.  So the validation of line 185 cannot
    fail on the structured output of a provider that honours the schema,
    and it accepts more than the schema: the additional keys that the
    schema forbids. *)
Theorem conforms_validates n v :
  (conforms (S (S (S n))) request_schema v = true →
   ∃ d p, v = VDict d ∧ ParserParameters_validate d = Ok p ∧
          Forall (λ kv, kv.1 ∈ fields) d) ∧
  (∀ d p, v = VDict d → NoDup d.*1 → ParserParameters_validate d = Ok p →
          Forall (λ kv, kv.1 ∈ fields) d →
          conforms (S (S (S n))) request_schema v = true).
Proof.
  split; [apply conforms_dict|].
  intros d p -> Hnd (Hroot & Hkeep & Hdrop & Hu)%ParserParameters_validate_Ok Hkeys.
  rewrite conforms_request_schema andb_true_iff -!Is_true_true !forallb_True. split.
  - rewrite /fields. repeat constructor; apply bool_decide_pack; by eexists.
  - rewrite Forall_forall in Hkeys. apply Forall_forall. intros [k x] Hin.
    apply andb_True. split; [by apply bool_decide_pack, (Hkeys (k, x))|].
    apply Is_true_true, is_list_str_spec. apply (dict_get_NoDup _ _ _ Hnd) in Hin as Hget.
    specialize (Hkeys _ Hin). rewrite /fields !elem_of_cons elem_of_nil /= in Hkeys.
    destruct Hkeys as [->|[->|[->|[->|[]]]]]; simplify_eq; by eexists.
Qed.

(** A text with one more key than the schema allows, and what the
    validation makes of it. *)
Example extra_key_accepted :
  let d := [("root", list_str ["main"]); ("keep", list_str []); ("drop", list_str ["nav"]);
            ("unwrap", list_str []); ("comment", VStr "the main column")] in
  conforms 3 request_schema (VDict d) = false ∧
  ParserParameters_validate d = Ok (ParserParameters.make ["main"] [] ["nav"] []).
Proof. by vm_compute. Qed.

(** The configuration that [from_config] builds carries the name of
    the file, whatever name the file gives itself; a file that holds no
    mapping, or lacks one of the three required texts, is an error; the
    reasoning level defaults to minimal. *)
Theorem config_of_yaml_spec config_name config :
  (∀ c, config_of_yaml config_name config = Ok c →
        ParserGeneratorConfig.config_name c = config_name) ∧
  (∀ d, config = VDict d →
        dict_get "openai_model" d = None ∨ dict_get "instructions_prompt" d = None ∨
        dict_get "input_prompt_template" d = None →
        is_Ok (config_of_yaml config_name config) = false) ∧
  (∀ model instructions template,
     config = VDict [("openai_model", VStr model); ("instructions_prompt", VStr instructions);
                     ("input_prompt_template", VStr template)] →
     config_of_yaml config_name config =
     Ok (ParserGeneratorConfig.make config_name model "minimal" instructions template None None)).
Proof.
  split_and!.
  - intros c. destruct config as [| | | | |d|]; try done. simpl.
    rewrite /ParserGeneratorConfig_validate dict_get_set_eq /=.
    intros Hc. repeat case_match; by simplify_eq.
  - intros d -> Hnone. simpl. rewrite /ParserGeneratorConfig_validate dict_get_set_eq /=.
    rewrite !dict_get_set_ne //. destruct Hnone as [->|[->| ->]]; simpl; by repeat case_match.
  - by intros model instructions template ->.
Qed.
