(* ===== verification/Store.v ===== *)
(** * The object store (src/backend/db.py)

    [Redis] is the state of the Redis server both workers talk to.  The
    functions of db.py are state transformers on it: [key], [save], [load],
    [scan], [count], [delete_all], [delete], the production-config and
    system-state singletons, [find_prefix_for_url] and
    [find_urls_with_prefix].

    [load] and [scan] answer [None] (or leave out the entry) where the
    constructor of the class would raise on the stored bytes.  The
    invariant [wf] (every entry sits under the key of its own class and id)
    holds initially and is kept by every operation, and under it that case
    does not arise ([load_wf], [length_scan]).

    [R.keys(key(cls, "*"))] lists the keys that start with [key(cls, "")]:
    the pattern has no other wildcard.  Redis lists them in no specified
    order; the model lists them in the order of the map, and the theorems
    on [scan] speak of membership and length only.

    [URL_save] and [URL_load] are the two methods of the class [URL] that
    call [save] and [load].  Which server a process talks to is in
    [Process]. *)

From Stdlib Require Import Ascii.
From stdpp Require Import gmap.
From S2P Require Import Prelude PyString DataModels.

(** ** The state *)

Record Redis := mkRedis {
  models : gmap string Payload;
  production_config : option string;
  system_state : option string;
  queues : gmap string (list Payload);
}.

Definition empty_redis : Redis := mkRedis ∅ None None ∅.

Definition set_models (f : gmap string Payload → gmap string Payload) (R : Redis) : Redis :=
  mkRedis (f (models R)) (production_config R) (system_state R) (queues R).

Definition set_queues (f : gmap string (list Payload) → gmap string (list Payload))
    (R : Redis) : Redis :=
  mkRedis (models R) (production_config R) (system_state R) (f (queues R)).

(** ** Models *)

Section db.
Context {A : Type} `{HasId A}.
Implicit Types R : Redis.
Implicit Types m : A.
Implicit Types id k : string.

(** [key(model_or_cls, id_)]. *)
Definition key id : string := "model:" +:+ class_name A +:+ ":" +:+ id.

(** [save(model)]. *)
Definition save m R : Redis :=
  set_models (insert (key (model_id m)) (dump m)) R.

(** [load(cls, id_)]. *)
Definition load id R : option A := models R !! key id ≫= parse A.

(** [R.keys(key(cls, "*"))]. *)
Definition keys R : list string :=
  filter (λ k, Py.startswith k (key "") = true) (fst <$> map_to_list (models R)).

(** [scan(cls)]. *)
Definition scan R : list A := omap (λ k, models R !! k ≫= parse A) (keys R).

(** [count(cls)]. *)
Definition count R : nat := length (keys R).

(** [delete_all(cls)]: the new state and the number of deleted keys. *)
Definition delete_all R : nat * Redis :=
  (length (keys R), set_models (λ ms, foldr delete ms (keys R)) R).

(** [delete(cls, id_)]: whether the key was there, and the new state. *)
Definition delete id R : bool * Redis :=
  if decide (is_Some (models R !! key id))
  then (true, set_models (base.delete (key id)) R)
  else (false, R).

End db.

(** [URL.save(self)] and [URL.load(url)] (data_models.py, lines 71-78): the
    methods of the class are the functions of the store. *)
Definition URL_save (self : URL.t) (R : Redis) : Redis := save self R.
Definition URL_load (url : string) (R : Redis) : option URL.t := load (A := URL.t) url R.

Arguments key A {_} id.
Arguments load A {_} id R.
Arguments keys A {_} R.
Arguments scan A {_} R.
Arguments count A {_} R.
Arguments delete_all A {_} R.
Arguments delete A {_} id R.

(** ** Singletons *)

(** [get_production_config()]: an empty value reads as no value. *)
Definition get_production_config (R : Redis) : option string :=
  if truthy (production_config R) then production_config R else None.

Definition set_production_config (config_name : string) (R : Redis) : Redis :=
  mkRedis (models R) (Some config_name) (system_state R) (queues R).

(** [get_system_state()]: RUNNING unless a value is set. *)
Definition get_system_state (R : Redis) : string :=
  if truthy (system_state R) then default "RUNNING" (system_state R) else "RUNNING".

(** [set_system_state(state)]: only "PAUSE" and "RUNNING" are accepted. *)
Definition set_system_state (state : string) (R : Redis) : Result Redis :=
  if decide (state ∈ ["PAUSE"; "RUNNING"])
  then Ok (mkRedis (models R) (production_config R) (Some state) (queues R))
  else Err "State must be either 'PAUSE' or 'RUNNING'".

Definition is_system_running (R : Redis) : bool :=
  bool_decide (get_system_state R = "RUNNING").

(** ** Prefix resolution *)

(** The candidates of [find_prefix_for_url], the longest first:
    ['/'.join(url_parts[:i])] for [i] from [len(url_parts)] down to 1. *)
Definition candidates (url : string) : list string :=
  let url_parts := Py.split "/" url in
  (λ i, Py.join "/" (take i url_parts)) <$> reverse (seq 1 (length url_parts)).

(** [find_prefix_for_url(url)]. *)
Definition find_prefix_for_url (url : string) (R : Redis) : option URLPrefix.t :=
  first_some (λ potential_prefix, load URLPrefix.t potential_prefix R) (candidates url).

(** [find_urls_with_prefix(prefix)]. *)
Definition find_urls_with_prefix (prefix : string) (R : Redis) : list URL.t :=
  filter (λ url_obj, URL.prefix url_obj = Some prefix) (scan URL.t R).

(** ** Well-formed keyspace *)

(** The key an entry must sit under. *)
Definition entry_key (p : Payload) : option string :=
  match p with
  | PURL u => Some (key URL.t (model_id u))
  | PURLPrefix p => Some (key URLPrefix.t (model_id p))
  | PEvaluationRun r => Some (key EvaluationRun.t (model_id r))
  | PURLQueueItem _ => None
  end.

Definition wf (R : Redis) : Prop :=
  ∀ k p, models R !! k = Some p → entry_key p = Some k.

(** The classes whose dumps sit under their own key: what [save] may write. *)
Class Storable (A : Type) `{HasId A} :=
  entry_key_dump (m : A) : entry_key (dump m) = Some (key A (model_id m)).

#[export] Instance URL_storable : Storable URL.t.
Proof. by intros m. Qed.
#[export] Instance URLPrefix_storable : Storable URLPrefix.t.
Proof. by intros m. Qed.
#[export] Instance EvaluationRun_storable : Storable EvaluationRun.t.
Proof. by intros m. Qed.

(** ** Keys *)

Section keys.
Context {A : Type} `{Model A}.
Implicit Types R : Redis.
Implicit Types m : A.
Implicit Types id k : string.

Lemma key_app id : key A id = key A "" +:+ id.
Proof. by rewrite /key !Py.app_assoc. Qed.

Lemma startswith_key id : Py.startswith (key A id) (key A "") = true.
Proof. rewrite key_app. apply Py.startswith_app. Qed.

Lemma key_eq_inv {B} `{Model B} id id' :
  key A id = key B id' → class_name A = class_name B ∧ id = id'.
Proof.
  rewrite /key. intros Heq%(inj (String.app "model:")).
  eapply Py.app_sep_inj; [apply class_name_no_colon..|done].
Qed.

(** Two keys are equal exactly when they are built from the same class
    name and the same id: no two models share a key. *)
Theorem key_injective {B} `{Model B} id id' :
  key A id = key B id' ↔ class_name A = class_name B ∧ id = id'.
Proof. split; [apply key_eq_inv|]. rewrite /key. by intros [-> ->]. Qed.

#[export] Instance key_inj_id : Inj (=) (=) (key A).
Proof. intros id id' Heq. by apply key_eq_inv in Heq as [_ ?]. Qed.

Lemma startswith_key_inv {B} `{Model B} id :
  Py.startswith (key B id) (key A "") = true → class_name A = class_name B.
Proof.
  intros [u Hu]%Py.startswith_spec. rewrite -key_app in Hu.
  symmetry in Hu. by apply key_eq_inv in Hu as [? _].
Qed.

(** The keys of the models are none of the other keys of the server. *)
Lemma key_not_singleton id :
  key A id ≠ "production_config" ∧ key A id ≠ "system_state" ∧
  Py.startswith (key A id) "queue:" = false.
Proof. by rewrite /key. Qed.

End keys.

(** ** [save], [load], [delete] *)

Section load_save_lemmas.
Context {A : Type} `{HasId A}.
Implicit Types R : Redis.
Implicit Types m : A.
Implicit Types id k : string.

Lemma load_save_eq m R : load A (model_id m) (save m R) = Some m.
Proof. by rewrite /load /save /= lookup_insert_eq /= parse_dump. Qed.

Lemma load_save_id m id R : model_id m = id → load A id (save m R) = Some m.
Proof. intros <-. apply load_save_eq. Qed.

Lemma load_save_ne m id R : id ≠ model_id m → load A id (save m R) = load A id R.
Proof.
  intros Hne. rewrite /load /save /= lookup_insert_ne //.
  intros Heq%(inj (key A)). done.
Qed.

(** C19: reading back after [save]: the saved model under its own id, the
    previous answer under every other id. *)
Theorem load_save m id R :
  load A id (save m R) = if decide (id = model_id m) then Some m else load A id R.
Proof. case_decide as Hid; [subst; apply load_save_eq|by apply load_save_ne]. Qed.

(** A [save] of one class is invisible to the loads of another. *)
Lemma load_save_other {B} `{HasId B} m id R :
  class_name B ≠ class_name A → load B id (save m R) = load B id R.
Proof.
  intros Hne. rewrite /load /save /= lookup_insert_ne //.
  intros [? _]%key_eq_inv. done.
Qed.

Lemma load_delete_eq id R : load A id (delete A id R).2 = None.
Proof.
  rewrite /delete /load. case_decide as Hk; simpl.
  - by rewrite lookup_delete_eq.
  - by apply eq_None_not_Some in Hk as ->.
Qed.

Lemma delete_fst id R : (delete A id R).1 = bool_decide (is_Some (models R !! key A id)).
Proof. rewrite /delete. case_decide; by [rewrite bool_decide_true|rewrite bool_decide_false]. Qed.

End load_save_lemmas.

Lemma wf_empty : wf empty_redis.
Proof. by intros k p. Qed.

Section store.
Context {A : Type} `{Storable A}.
Implicit Types R : Redis.
Implicit Types m : A.
Implicit Types id k : string.

Lemma wf_save m R : wf R → wf (save m R).
Proof.
  intros Hwf k p. rewrite /save /= lookup_insert.
  case_decide as Hk; [|by apply Hwf]. intros [= <-]. by rewrite entry_key_dump Hk.
Qed.

Lemma wf_set_models_subseteq (f : gmap string Payload → gmap string Payload) R :
  f (models R) ⊆ models R → wf R → wf (set_models f R).
Proof. intros Hsub Hwf k p Hk. apply Hwf. by eapply lookup_weaken. Qed.

Lemma foldr_delete_subseteq (ks : list string) (ms : gmap string Payload) :
  foldr base.delete ms ks ⊆ ms.
Proof.
  induction ks as [|k ks IH]; simpl; [done|].
  etrans; [apply delete_subseteq|done].
Qed.

Lemma wf_delete id R : wf R → wf (delete A id R).2.
Proof.
  intros Hwf. rewrite /delete. case_decide; [|done].
  apply wf_set_models_subseteq; [apply delete_subseteq|done].
Qed.

Lemma wf_delete_all R : wf R → wf (delete_all A R).2.
Proof. apply wf_set_models_subseteq, foldr_delete_subseteq. Qed.

Lemma wf_set_system_state state R R' : wf R → set_system_state state R = Ok R' → wf R'.
Proof. rewrite /set_system_state. case_decide; [|done]. by intros ? [= <-]. Qed.

(** Every operation of db.py keeps each entry of the keyspace under the
    key of its own class and id. *)
Theorem wf_preserved m id state config_name R :
  wf R →
  wf (save m R) ∧ wf (delete A id R).2 ∧ wf (delete_all A R).2 ∧
  wf (set_production_config config_name R) ∧
  (∀ R', set_system_state state R = Ok R' → wf R').
Proof.
  intros Hwf. split_and!; [by apply wf_save|by apply wf_delete|by apply wf_delete_all|done|].
  intros R'. by apply wf_set_system_state.
Qed.

(** Under [wf], what [load] returns has the id that was asked for. *)
Lemma load_wf id m R : wf R → load A id R = Some m → model_id m = id.
Proof.
  intros Hwf. rewrite /load. destruct (models R !! key A id) as [p|] eqn:Hk; [|done].
  simpl. intros Hp%parse_Some_dump. subst p. apply Hwf in Hk.
  rewrite entry_key_dump in Hk. by simplify_eq.
Qed.

(** ** [scan] *)

Lemma elem_of_keys k R :
  k ∈ keys A R ↔ is_Some (models R !! k) ∧ Py.startswith k (key A "") = true.
Proof.
  rewrite /keys list_elem_of_filter list_elem_of_fmap. split.
  - intros [? ([k' p] & -> & Hin%elem_of_map_to_list)]. eauto.
  - intros [[p Hp] ?]. split; [done|]. exists (k, p). by rewrite elem_of_map_to_list.
Qed.

Lemma NoDup_keys R : NoDup (keys A R).
Proof. apply NoDup_filter, NoDup_fst_map_to_list. Qed.

(** Under [wf], the keys of a class are the keys of the models it can load,
    given that no other storable class has its name. *)
Definition class_names_distinct : Prop :=
  ∀ p k, entry_key p = Some k → Py.startswith k (key A "") = true →
    ∃ m, p = dump m.

Lemma elem_of_scan_load m R :
  wf R → class_names_distinct →
  m ∈ scan A R ↔ load A (model_id m) R = Some m.
Proof.
  intros Hwf Hdist. rewrite /scan list_elem_of_omap. split.
  - intros (k & [[p Hp] Hk]%elem_of_keys & Hm). rewrite Hp /= in Hm.
    apply parse_Some_dump in Hm as ->. pose proof (Hwf _ _ Hp) as Hkey.
    rewrite entry_key_dump in Hkey. simplify_eq.
    by rewrite /load Hp /= parse_dump.
  - rewrite /load. destruct (models R !! key A (model_id m)) as [p|] eqn:Hp; [|done].
    intros Hm. exists (key A (model_id m)). rewrite Hp. split; [|done].
    apply elem_of_keys. split; [by eexists|apply startswith_key].
Qed.

(** Under [wf], [scan] parses every key of the class: nothing is left out. *)
Lemma length_scan R : wf R → class_names_distinct → length (scan A R) = count A R.
Proof.
  intros Hwf Hdist. rewrite /scan /count.
  assert (Forall (λ k, is_Some (models R !! k ≫= parse A)) (keys A R)) as Hall.
  { apply Forall_forall. intros k [[p Hp] Hk]%elem_of_keys.
    destruct (Hdist p k (Hwf _ _ Hp) Hk) as [m ->]. rewrite Hp /= parse_dump. by eexists. }
  induction Hall as [|k ks [m Hm] _ IH]; [done|]. by rewrite /= Hm /= IH.
Qed.

(** Under [wf], no model is listed twice. *)
Lemma NoDup_scan R : wf R → NoDup (scan A R).
Proof.
  intros Hwf. apply NoDup_omap_inj; [|apply NoDup_keys].
  intros k k' m [[p Hp] _]%elem_of_keys [[p' Hp'] _]%elem_of_keys.
  rewrite Hp Hp' /=. intros ->%parse_Some_dump ->%parse_Some_dump.
  apply Hwf in Hp, Hp'. congruence.
Qed.

End store.

Arguments class_names_distinct A {_}.

(** The four classes of the program have four names. *)
Lemma URL_names_distinct : class_names_distinct URL.t.
Proof.
  intros [u|p|q|r] k [= <-] Hk; try by apply startswith_key_inv in Hk.
  by exists u.
Qed.

Lemma URLPrefix_names_distinct : class_names_distinct URLPrefix.t.
Proof.
  intros [u|p|q|r] k [= <-] Hk; try by apply startswith_key_inv in Hk.
  by exists p.
Qed.

(** ** Singletons *)

Lemma get_system_state_default : get_system_state empty_redis = "RUNNING".
Proof. done. Qed.

(** The run-state flag only ever holds "PAUSE" or "RUNNING" once set
    through [set_system_state], and reads back as written. *)
Theorem set_system_state_spec state R :
  match set_system_state state R with
  | Ok R' => (state = "PAUSE" ∨ state = "RUNNING") ∧ get_system_state R' = state ∧
             models R' = models R ∧ queues R' = queues R
  | Err _ => state ≠ "PAUSE" ∧ state ≠ "RUNNING"
  end.
Proof.
  rewrite /set_system_state. case_decide as Hs.
  - rewrite !elem_of_cons elem_of_nil in Hs.
    split_and!; [tauto| |done..]. by destruct Hs as [->|[->|[]]].
  - rewrite !elem_of_cons elem_of_nil in Hs. split; intros ->; tauto.
Qed.

(** The value the specification calls PAUSED is refused. *)
Example set_system_state_PAUSED R : is_Ok (set_system_state "PAUSED" R) = false.
Proof. done. Qed.

Lemma is_system_running_set_PAUSE R R' :
  set_system_state "PAUSE" R = Ok R' → is_system_running R' = false.
Proof. by intros [= <-]. Qed.

(** ** [find_prefix_for_url] *)

Section find_prefix.
Implicit Types R : Redis.
Implicit Types url : string.

Lemma candidates_head url : ∃ cs, candidates url = url :: cs.
Proof.
  rewrite /candidates. destruct (Py.split_cons "/" url) as (x & r & E).
  pose proof (Py.join_split "/" url) as Hj. rewrite E in Hj |- *.
  change (length (x :: r)) with (S (length r)).
  rewrite seq_S reverse_snoc fmap_cons. eexists. f_equal.
  by rewrite -Hj (firstn_all (x :: r)).
Qed.

Lemma elem_of_candidates url c :
  c ∈ candidates url ↔
  ∃ i, 1 ≤ i ≤ length (Py.split "/" url) ∧ c = Py.join "/" (take i (Py.split "/" url)).
Proof.
  rewrite /candidates list_elem_of_fmap. setoid_rewrite elem_of_reverse.
  setoid_rewrite elem_of_seq. split; intros (i & ? & ?); exists i; split; (done || lia).
Qed.

(** Every candidate is a string prefix of the URL. *)
(** A candidate is the URL itself or ends where a slash of the URL stands. *)
Lemma candidates_cut url c :
  c ∈ candidates url → c = url ∨ ∃ rest, url = c +:+ "/" +:+ rest.
Proof.
  intros (i & Hi & ->)%elem_of_candidates.
  destruct (decide (i = length (Py.split "/" url))) as [->|Hne].
  - left. by rewrite Py.join_take_all Py.join_split.
  - right. exists (Py.join "/" (drop i (Py.split "/" url))).
    rewrite -Py.join_app ?take_drop ?Py.join_split //.
    + intros E%(f_equal length). rewrite length_take /= in E. lia.
    + intros E%(f_equal length). rewrite length_drop /= in E. lia.
Qed.

Lemma candidates_startswith url c : c ∈ candidates url → Py.startswith url c = true.
Proof.
  intros (i & _ & ->)%elem_of_candidates.
  rewrite -{1}(Py.join_split "/" url). apply Py.startswith_join_take.
Qed.

(** What [find_prefix_for_url] returns: the entry of a candidate, with
    every candidate before it (the longer ones) absent. *)
Lemma find_prefix_for_url_Some url R p :
  wf R → find_prefix_for_url url R = Some p →
  load URLPrefix.t (URLPrefix.prefix p) R = Some p ∧
  URLPrefix.prefix p ∈ candidates url ∧
  ∀ c, c ∈ candidates url → String.length (URLPrefix.prefix p) < String.length c →
       load URLPrefix.t c R = None.
Proof.
  intros Hwf (l1 & c' & l2 & Hcs & Hload & Hnone)%first_some_Some.
  pose proof (load_wf _ _ _ Hwf Hload) as Hid.
  rewrite /model_id /URLPrefix_id /URLPrefix.id in Hid. subst c'.
  split_and!; [done|rewrite Hcs; set_solver|]. intros c Hc Hlen.
  rewrite Hcs in Hc. apply elem_of_app in Hc as [Hc|Hc].
  { by eapply Forall_forall in Hnone. }
  apply fmap_reverse_seq_split in Hcs as (i & Hi & Hafter).
  apply elem_of_cons in Hc as [->|Hc]; [lia|].
  destruct (Hafter _ Hc) as (j & Hj & ->). rewrite Hi in Hlen.
  pose proof (Py.length_join_take_mono "/" (Py.split "/" url) j i). lia.
Qed.

Lemma find_prefix_for_url_is_Some url R c p :
  c ∈ candidates url → load URLPrefix.t c R = Some p →
  is_Some (find_prefix_for_url url R).
Proof.
  intros Hc Hload. rewrite /find_prefix_for_url.
  destruct (first_some _ _) eqn:E; [by eexists|].
  apply first_some_None in E. eapply Forall_forall in E; [|done]. congruence.
Qed.

(** The prefix found for a URL is stored under a string prefix of the
    URL, and is the entry of its own prefix string. *)
Theorem find_prefix_for_url_startswith url R p :
  wf R → find_prefix_for_url url R = Some p →
  Py.startswith url (URLPrefix.prefix p) = true ∧
  load URLPrefix.t (URLPrefix.prefix p) R = Some p.
Proof.
  intros Hwf (Hload & Hc & _)%find_prefix_for_url_Some; [|done].
  split; [by apply candidates_startswith|done].
Qed.

(** C4: the most specific match wins: no candidate longer than the prefix
    that is returned is stored. *)
Theorem find_prefix_for_url_longest url R p c :
  wf R → find_prefix_for_url url R = Some p → c ∈ candidates url →
  String.length (URLPrefix.prefix p) < String.length c →
  load URLPrefix.t c R = None.
Proof. intros Hwf (_ & _ & Hlong)%find_prefix_for_url_Some; [|done]. apply Hlong. Qed.

(** A URL one of whose candidates is stored finds a prefix, and a URL
    none of whose candidates is stored finds none. *)
Theorem find_prefix_for_url_complete url R :
  is_Some (find_prefix_for_url url R) ↔
  ∃ c, c ∈ candidates url ∧ is_Some (load URLPrefix.t c R).
Proof.
  split.
  - intros [p (l1 & c & l2 & Hcs & Hload & _)%first_some_Some].
    exists c. split; [rewrite Hcs; set_solver|by eexists].
  - intros (c & Hc & [p Hp]). by eapply find_prefix_for_url_is_Some.
Qed.

(** No candidate stored: no prefix. *)
Lemma find_prefix_for_url_None url R :
  find_prefix_for_url url R = None ↔
  ∀ c, c ∈ candidates url → load URLPrefix.t c R = None.
Proof. by rewrite /find_prefix_for_url first_some_None Forall_forall. Qed.

End find_prefix.

(** ** [find_urls_with_prefix] *)

Lemma elem_of_find_urls_with_prefix prefix R u :
  wf R →
  u ∈ find_urls_with_prefix prefix R ↔
  load URL.t (URL.url u) R = Some u ∧ URL.prefix u = Some prefix.
Proof.
  intros Hwf. rewrite /find_urls_with_prefix list_elem_of_filter.
  rewrite (elem_of_scan_load (A:=URL.t) u R Hwf URL_names_distinct).
  by split; intros [? ?].
Qed.

Lemma NoDup_find_urls_with_prefix prefix R : wf R → NoDup (find_urls_with_prefix prefix R).
Proof. intros Hwf. by apply NoDup_filter, NoDup_scan. Qed.

(** Saving a URL row adds at most that row to the rows of its prefix and
    nothing to the rows of another prefix. *)
Lemma length_find_urls_with_prefix_save prefix (u : URL.t) R :
  wf R →
  length (find_urls_with_prefix prefix (save u R)) ≤
  length (find_urls_with_prefix prefix R) +
  (if decide (URL.prefix u = Some prefix) then 1 else 0).
Proof.
  intros Hwf. pose proof (wf_save u R Hwf) as Hwf'.
  assert (∀ x, x ∈ find_urls_with_prefix prefix (save u R) →
               x = u ∨ x ∈ find_urls_with_prefix prefix R) as Hin.
  { intros x [Hl Hp]%elem_of_find_urls_with_prefix; [|done].
    destruct (decide (URL.url x = URL.url u)) as [E|Hne].
    - left. rewrite E (load_save_eq u) in Hl. by simplify_eq.
    - right. rewrite load_save_ne // in Hl. by apply elem_of_find_urls_with_prefix. }
  case_decide as Hu.
  - rewrite Nat.add_1_r -/(length (u :: _)).
    apply NoDup_length_le; [by apply NoDup_find_urls_with_prefix|].
    intros x [->|Hx]%Hin; [left|by right].
  - rewrite Nat.add_0_r. apply NoDup_length_le; [by apply NoDup_find_urls_with_prefix|].
    intros x Hx. destruct (Hin x Hx) as [->|?]; [|done].
    by apply elem_of_find_urls_with_prefix in Hx as [_ ?].
Qed.

(** The rows of a prefix are counted the same in two well-formed states
    that load the same URL rows. *)
Lemma length_find_urls_with_prefix_ext prefix R R' :
  wf R → wf R' → (∀ id, load URL.t id R' = load URL.t id R) →
  length (find_urls_with_prefix prefix R') = length (find_urls_with_prefix prefix R).
Proof.
  intros Hwf Hwf' Hload. apply Nat.le_antisymm.
  all: apply NoDup_length_le; [by apply NoDup_find_urls_with_prefix|]; intros x.
  all: rewrite !elem_of_find_urls_with_prefix // Hload //.
Qed.

(** ** States with fewer models *)

Section delete_lemmas.
Context {A : Type} `{HasId A}.
Implicit Types R : Redis.
Implicit Types id : string.

Lemma models_delete id R : models (delete A id R).2 = base.delete (key A id) (models R).
Proof.
  rewrite /delete. case_decide as Hk; [done|].
  by rewrite delete_id //; apply eq_None_not_Some.
Qed.

Lemma models_delete_all R : models (delete_all A R).2 = foldr base.delete (models R) (keys A R).
Proof. done. Qed.

Lemma load_delete_ne id id' R : id' ≠ id → load A id' (delete A id R).2 = load A id' R.
Proof.
  intros Hne. rewrite /load models_delete lookup_delete_ne //.
  by intros Heq%(inj (key A)).
Qed.

Lemma load_delete_other {B} `{HasId B} id id' R :
  class_name B ≠ class_name A → load B id' (delete A id R).2 = load B id' R.
Proof.
  intros Hne. rewrite /load models_delete lookup_delete_ne //.
  by intros [? _]%key_eq_inv.
Qed.

(** [delete_all] of one class is invisible to the loads of another. *)
Lemma load_delete_all_other {B} `{HasId B} id R :
  class_name A ≠ class_name B → load B id (delete_all A R).2 = load B id R.
Proof.
  intros Hne. rewrite /load models_delete_all.
  assert (key B id ∉ keys A R) as Hk.
  { rewrite /keys. intros [Hs _]%list_elem_of_filter. by apply startswith_key_inv in Hs. }
  revert Hk. induction (keys A R) as [|k ks IH]; [done|].
  intros [Hk Hks]%not_elem_of_cons. rewrite /= lookup_delete_ne //. by apply IH.
Qed.

Lemma queues_delete id R : queues (delete A id R).2 = queues R.
Proof. rewrite /delete. by case_decide. Qed.

(** [delete] changes the models only. *)
Lemma delete_snd id R : (delete A id R).2 = set_models (base.delete (key A id)) R.
Proof.
  rewrite /delete. case_decide as Hk; [done|].
  apply eq_None_not_Some in Hk. rewrite /set_models (delete_id _ _ Hk). by destruct R.
Qed.

(** What [delete] answers counts the keys it removes. *)
Lemma delete_size id R :
  (if (delete A id R).1 then 1 else 0) + size (models (delete A id R).2) = size (models R).
Proof.
  rewrite /delete. case_decide as Hk; [|done].
  rewrite /= map_size_delete_Some //. apply map_size_ne_0_lookup_2 in Hk. lia.
Qed.

End delete_lemmas.

(** The keys that a loop of [DEL] leaves. *)
Lemma lookup_foldl_delete {V} (ks : list string) (ms : gmap string V) k :
  foldl (λ ms k, base.delete k ms) ms ks !! k = if decide (k ∈ ks) then None else ms !! k.
Proof.
  revert ms. induction ks as [|k' ks IH]; intros ms; simpl; [done|]. rewrite IH.
  destruct (decide (k = k')) as [->|Hne].
  - rewrite lookup_delete_eq. repeat case_decide; try done; set_solver.
  - rewrite lookup_delete_ne //. repeat case_decide; try done; set_solver.
Qed.

Lemma load_subseteq {A} `{Model A} id m R R' :
  models R' ⊆ models R → load A id R' = Some m → load A id R = Some m.
Proof.
  intros Hsub. rewrite /load. destruct (models R' !! _) as [p|] eqn:Hp; [|done].
  by rewrite (lookup_weaken _ _ _ _ Hp Hsub).
Qed.

Lemma wf_subseteq R R' : models R' ⊆ models R → wf R → wf R'.
Proof. intros Hsub Hwf k p Hk. apply Hwf. by eapply lookup_weaken. Qed.

(** A state with fewer models has fewer rows of every prefix. *)
Lemma length_find_urls_with_prefix_subseteq prefix R R' :
  models R' ⊆ models R → wf R →
  length (find_urls_with_prefix prefix R') ≤ length (find_urls_with_prefix prefix R).
Proof.
  intros Hsub Hwf. pose proof (wf_subseteq R R' Hsub Hwf) as Hwf'.
  apply NoDup_length_le; [by apply NoDup_find_urls_with_prefix|]. intros u.
  rewrite !elem_of_find_urls_with_prefix //. intros [Hu ?]. split; [|done].
  by eapply load_subseteq.
Qed.

(** A state that comes from another by deleting models: what the
    handlers that only delete do to the store. *)
Definition fewer_models (R R' : Redis) : Prop :=
  models R' ⊆ models R ∧ queues R' = queues R.

#[export] Instance fewer_models_preorder : PreOrder fewer_models.
Proof.
  split; [done|]. intros R1 R2 R3 [Hm Hq] [Hm' Hq']. split; [by etrans|congruence].
Qed.

Lemma fewer_models_delete {A} `{HasId A} id R : fewer_models R (delete A id R).2.
Proof. split; [rewrite models_delete; apply delete_subseteq|apply queues_delete]. Qed.

Lemma fewer_models_delete_all {A} `{HasId A} R : fewer_models R (delete_all A R).2.
Proof. split; [apply foldr_delete_subseteq|done]. Qed.

(** ** States with the same models *)

Lemma wf_models R R' : models R' = models R → wf R → wf R'.
Proof. rewrite /wf. by intros ->. Qed.

Lemma load_models {A} `{Model A} id R R' : models R' = models R → load A id R' = load A id R.
Proof. rewrite /load. by intros ->. Qed.

Lemma find_urls_with_prefix_models prefix R R' :
  models R' = models R → find_urls_with_prefix prefix R' = find_urls_with_prefix prefix R.
Proof. rewrite /find_urls_with_prefix /scan /keys. by intros ->. Qed.

Lemma find_prefix_for_url_models url R R' :
  models R' = models R → find_prefix_for_url url R' = find_prefix_for_url url R.
Proof. rewrite /find_prefix_for_url /load. by intros ->. Qed.

(** On a well-formed keyspace [scan(URL)] lists exactly the URL rows that
    [load] finds, parses every key of the class, and
    [find_urls_with_prefix] selects the rows of the prefix among them. *)
Theorem scan_URL_spec prefix R u :
  wf R →
  (u ∈ scan URL.t R ↔ load URL.t (URL.url u) R = Some u) ∧
  length (scan URL.t R) = count URL.t R ∧
  (u ∈ find_urls_with_prefix prefix R ↔
   load URL.t (URL.url u) R = Some u ∧ URL.prefix u = Some prefix).
Proof.
  intros Hwf. split_and!.
  - apply (elem_of_scan_load (A:=URL.t) u R Hwf URL_names_distinct).
  - apply (length_scan (A:=URL.t) R Hwf URL_names_distinct).
  - by apply elem_of_find_urls_with_prefix.
Qed.

(** ** Witnesses on a small store *)

Definition example_prefix : URLPrefix.t := URLPrefix.make "https://a.com/docs" [].
Definition example_url : URL.t :=
  URL.mk "https://a.com/docs/intro.html" (Some "https://a.com/docs") (Some "<html/>") (Some "intro").
Definition example_redis : Redis := save example_url (save example_prefix empty_redis).

Lemma wf_example_redis : wf example_redis.
Proof. apply wf_save, wf_save, wf_empty. Defined.

Lemma find_prefix_example :
  find_prefix_for_url "https://a.com/docs/intro.html" example_redis = Some example_prefix.
Proof. by vm_compute. Defined.

Lemma wf_preserved_witness :
  wf example_redis ∧
  wf (save example_url example_redis) ∧
  wf (delete URL.t "https://a.com/docs/intro.html" example_redis).2 ∧
  wf (delete_all URL.t example_redis).2 ∧
  wf (set_production_config "baseline" example_redis) ∧
  (∀ R', set_system_state "PAUSE" example_redis = Ok R' → wf R').
Proof.
  split; [exact wf_example_redis|].
  exact (wf_preserved example_url "https://a.com/docs/intro.html" "PAUSE" "baseline"
           example_redis wf_example_redis).
Defined.

Lemma find_prefix_for_url_startswith_witness :
  Py.startswith "https://a.com/docs/intro.html" (URLPrefix.prefix example_prefix) = true ∧
  load URLPrefix.t (URLPrefix.prefix example_prefix) example_redis = Some example_prefix.
Proof.
  exact (find_prefix_for_url_startswith "https://a.com/docs/intro.html" example_redis
           example_prefix wf_example_redis find_prefix_example).
Defined.

Lemma find_prefix_for_url_longest_witness :
  load URLPrefix.t "https://a.com/docs/intro.html" example_redis = None.
Proof.
  refine (find_prefix_for_url_longest "https://a.com/docs/intro.html" example_redis
            example_prefix "https://a.com/docs/intro.html" wf_example_redis
            find_prefix_example _ _).
  - by vm_compute; left.
  - vm_compute. lia.
Defined.

Lemma scan_URL_spec_witness :
  (example_url ∈ scan URL.t example_redis ↔
   load URL.t (URL.url example_url) example_redis = Some example_url) ∧
  length (scan URL.t example_redis) = count URL.t example_redis ∧
  (example_url ∈ find_urls_with_prefix "https://a.com/docs" example_redis ↔
   load URL.t (URL.url example_url) example_redis = Some example_url ∧
   URL.prefix example_url = Some "https://a.com/docs").
Proof. exact (scan_URL_spec "https://a.com/docs" example_redis example_url wf_example_redis). Defined.

Example scan_example : scan URL.t example_redis = [example_url].
Proof. by vm_compute. Qed.

#[export] Hint Resolve wf_empty wf_save wf_delete wf_delete_all : crawl.
#[export] Hint Resolve fewer_models_delete fewer_models_delete_all : crawl.
#[export] Hint Rewrite @load_save_eq : crawl_rw.
