(* ===== verification/Queue.v ===== *)
(** * The work queues (src/backend/redis_queue.py)

    A queue is a Redis list under the name "queue:<class name in lower
    case>".  [add_to_queue] pushes at the left end (LPUSH),
    [get_from_queue] pops at the right end (RPOP), [peek_from_queue] reads the
    right end (LINDEX -1), [queue_length] is LLEN and [clear_queue] deletes
    the key.  A Redis list that becomes empty ceases to exist, so the
    [queues] field never maps a name to the empty list ([put_queue]).

    Failures of the Redis client itself are not modelled: [add_to_queue]
    always answers [true].  What is modelled of the [except] branches is
    the payload that does not parse in [get_from_queue] (the item is
    popped and lost, the answer is [None]) and the missing arguments of
    [queue_length] and [clear_queue].

    [Spec] is the queue the specification describes (push at the tail, pop
    at the head) and [absq] the abstraction function; the refinement
    lemmas make [add_to_queue] and [get_from_queue] its push and pop. *)

From stdpp Require Import gmap.
From S2P Require Import Prelude PyString DataModels Store.

(** ** The specification: a first-in first-out list *)

Module Spec.
Definition queue := list Payload.
Definition push (x : Payload) (q : queue) : queue := q ++ [x].
Definition pop (q : queue) : option Payload * queue :=
  match q with
  | [] => (None, [])
  | x :: q' => (Some x, q')
  end.
End Spec.

(** ** Redis lists *)

Implicit Types R : Redis.
Implicit Types name : string.

(** The list under a name: a missing key reads as the empty list. *)
Definition get_queue name R : list Payload := default [] (queues R !! name).

(** Writing a list back: the empty list removes the key. *)
Definition put_queue name (l : list Payload) R : Redis :=
  set_queues (λ qs, match l with [] => base.delete name qs | _ :: _ => <[name := l]> qs end) R.

(** [f"queue:{cls.__name__.lower()}"]. *)
Definition queue_name_of (cls_name : string) : string := "queue:" +:+ Py.lower cls_name.

Section queue.
Context {A : Type} `{Model A}.

(** [add_to_queue(model, queue_name)]. *)
Definition add_to_queue (model : A) (queue_name : option string) R : bool * Redis :=
  let queue_name := default (queue_name_of (class_name A)) queue_name in
  let serialized_data := dump model in
  (true, put_queue queue_name (serialized_data :: get_queue queue_name R) R).

(** [get_from_queue(model_class, queue_name)]. *)
Definition get_from_queue (queue_name : option string) R : option A * Redis :=
  let queue_name := default (queue_name_of (class_name A)) queue_name in
  match pop_last (get_queue queue_name R) with
  | None => (None, R)
  | Some (serialized_data, rest) => (parse A serialized_data, put_queue queue_name rest R)
  end.

(** [peek_from_queue(model_class, queue_name)]. *)
Definition peek_from_queue (queue_name : option string) R : option A :=
  let queue_name := default (queue_name_of (class_name A)) queue_name in
  last (get_queue queue_name R) ≫= parse A.

End queue.

Arguments get_from_queue A {_} queue_name R.
Arguments peek_from_queue A {_} queue_name R.

(** [queue_length(queue_name, model_class)]: 0 when neither is given. *)
Definition queue_length (queue_name : option string) (model_class : option string) R : nat :=
  match queue_name, model_class with
  | Some q, _ => length (get_queue q R)
  | None, Some cls_name => length (get_queue (queue_name_of cls_name) R)
  | None, None => 0
  end.

(** [clear_queue(queue_name, model_class)]: [false] when neither is given. *)
Definition clear_queue (queue_name : option string) (model_class : option string) R : bool * Redis :=
  match queue_name, model_class with
  | Some q, _ => (true, put_queue q [] R)
  | None, Some cls_name => (true, put_queue (queue_name_of cls_name) [] R)
  | None, None => (false, R)
  end.

(** The queue in the order its items will be popped. *)
Definition absq name R : Spec.queue := reverse (get_queue name R).

(** Every payload of the two queues of the program parses as the class the
    queue is named after. *)
Definition queue_typed (A : Type) `{Model A} R : Prop :=
  Forall (λ p, is_Some (parse A p)) (get_queue (queue_name_of (class_name A)) R).

Definition wf_queues R : Prop :=
  queue_typed URLQueueItem.t R ∧ queue_typed URLPrefix.t R ∧
  ∀ name, queues R !! name ≠ Some [].

(** ** Redis lists: reading after writing *)

Lemma get_put_queue_eq name l R : get_queue name (put_queue name l R) = l.
Proof.
  rewrite /get_queue /put_queue /=. destruct l.
  - by rewrite lookup_delete_eq.
  - by rewrite lookup_insert_eq.
Qed.

Lemma get_put_queue_ne name name' l R :
  name ≠ name' → get_queue name' (put_queue name l R) = get_queue name' R.
Proof.
  intros Hne. rewrite /get_queue /put_queue /=. destruct l.
  - by rewrite lookup_delete_ne.
  - by rewrite lookup_insert_ne.
Qed.

Lemma get_put_queue name name' l R :
  get_queue name' (put_queue name l R) =
  if decide (name = name') then l else get_queue name' R.
Proof. case_decide; [subst; apply get_put_queue_eq|by apply get_put_queue_ne]. Qed.

Lemma models_put_queue name l R : models (put_queue name l R) = models R.
Proof. done. Qed.

Lemma put_queue_nonempty name l R :
  (∀ n, queues R !! n ≠ Some []) → ∀ n, queues (put_queue name l R) !! n ≠ Some [].
Proof.
  intros Hne n. rewrite /put_queue /=. destruct l.
  - rewrite lookup_delete. case_decide; [done|apply Hne].
  - rewrite lookup_insert. case_decide; [done|apply Hne].
Qed.

(** The names of the two queues of the program. *)
Lemma queue_name_URLQueueItem : queue_name_of (class_name URLQueueItem.t) = "queue:urlqueueitem".
Proof. done. Qed.

Lemma queue_name_URLPrefix : queue_name_of (class_name URLPrefix.t) = "queue:urlprefix".
Proof. done. Qed.

(** ** The operations *)

Section queue_lemmas.
Context {A : Type} `{Model A}.
Implicit Types m : A.
Implicit Types qn : option string.

Definition qname qn : string := default (queue_name_of (class_name A)) qn.

Lemma add_to_queue_fst m qn R : (add_to_queue m qn R).1 = true.
Proof. done. Qed.

Lemma get_queue_add m qn R :
  get_queue (qname qn) (add_to_queue m qn R).2 = dump m :: get_queue (qname qn) R.
Proof. by rewrite /add_to_queue /= get_put_queue_eq. Qed.

Lemma get_queue_add_ne m qn name R :
  qname qn ≠ name → get_queue name (add_to_queue m qn R).2 = get_queue name R.
Proof. intros Hne. by rewrite /add_to_queue /= get_put_queue_ne. Qed.

Lemma models_add_to_queue m qn R : models (add_to_queue m qn R).2 = models R.
Proof. done. Qed.

Lemma models_get_from_queue qn R : models (get_from_queue A qn R).2 = models R.
Proof. rewrite /get_from_queue. by repeat case_match. Qed.

(** Refinement: [add_to_queue] is the push of the specification. *)
Lemma absq_add_to_queue m qn R :
  absq (qname qn) (add_to_queue m qn R).2 = Spec.push (dump m) (absq (qname qn) R).
Proof. by rewrite /absq get_queue_add reverse_cons. Qed.

(** Refinement: [get_from_queue] is the pop of the specification, followed
    by the parse of what was popped. *)
Lemma absq_get_from_queue qn R :
  let '(x, q') := Spec.pop (absq (qname qn) R) in
  (get_from_queue A qn R).1 = x ≫= parse A ∧
  absq (qname qn) (get_from_queue A qn R).2 = q'.
Proof.
  rewrite /absq /get_from_queue -/(qname qn).
  destruct (pop_last (get_queue (qname qn) R)) as [[x rest]|] eqn:E.
  - apply pop_last_Some in E. rewrite E reverse_snoc /= get_put_queue_eq. done.
  - apply pop_last_None in E. by rewrite E.
Qed.

Lemma get_from_queue_empty qn R :
  get_queue (qname qn) R = [] → get_from_queue A qn R = (None, R).
Proof. intros E. by rewrite /get_from_queue -/(qname qn) E. Qed.

Lemma get_from_queue_snoc qn R l p :
  get_queue (qname qn) R = l ++ [p] →
  get_from_queue A qn R = (parse A p, put_queue (qname qn) l R).
Proof. intros E. by rewrite /get_from_queue -/(qname qn) E pop_last_snoc. Qed.

(** What was pushed first is popped first. *)
Lemma get_add_empty m qn R :
  get_queue (qname qn) R = [] →
  (get_from_queue A qn (add_to_queue m qn R).2).1 = Some m.
Proof.
  intros E. rewrite (get_from_queue_snoc _ _ [] (dump m)).
  - by rewrite get_queue_add E.
  - by rewrite /= parse_dump.
Qed.

Lemma peek_get_from_queue qn R : peek_from_queue A qn R = (get_from_queue A qn R).1.
Proof.
  rewrite /peek_from_queue /get_from_queue -/(qname qn) -pop_last_last.
  by destruct (pop_last _) as [[? ?]|].
Qed.

End queue_lemmas.

(** ** First in, first out *)

Section fifo.
Context {A : Type} `{Model A}.
Implicit Types m : A.
Implicit Types ms : list A.

(** Pushing a list of models one after the other. *)
Definition add_all ms R : Redis :=
  foldl (λ R m, (add_to_queue m None R).2) R ms.

(** Popping [n] times, collecting the answers. *)
Fixpoint get_n (n : nat) R : list (option A) * Redis :=
  match n with
  | 0 => ([], R)
  | S n' =>
      let '(x, R') := get_from_queue A None R in
      let '(xs, R'') := get_n n' R' in
      (x :: xs, R'')
  end.

Lemma absq_add_all ms R :
  absq (qname None) (add_all ms R) = absq (qname None) R ++ (dump <$> ms).
Proof.
  revert R. induction ms as [|m ms IH]; intros R; simpl.
  - by rewrite app_nil_r.
  - by rewrite IH (absq_add_to_queue m None) /Spec.push -app_assoc.
Qed.

Lemma get_n_absq n R q :
  absq (qname None) R = (dump <$> take n q) ++ (dump <$> drop n q) →
  n ≤ length q →
  (get_n n R).1 = Some <$> take n q ∧
  absq (qname None) (get_n n R).2 = dump <$> drop n q.
Proof.
  revert R q. induction n as [|n IH]; intros R q Hq Hn; simpl.
  { by rewrite drop_0 take_0 /= in Hq |- *. }
  destruct q as [|m q]; [simpl in Hn; lia|]. simpl in Hq, Hn.
  pose proof (absq_get_from_queue (A:=A) None R) as Hpop. rewrite Hq /= in Hpop.
  destruct (get_from_queue A None R) as [x R']. simpl in Hpop.
  destruct Hpop as [Hx HR']. rewrite parse_dump in Hx. subst x.
  destruct (IH R' q HR' ltac:(lia)) as [IH1 IH2].
  destruct (get_n n R') as [xs R'']. simpl in *. by rewrite IH1.
Qed.

(** C5: the queue is first-in first-out: after pushing [ms] on an empty
    queue, popping [length ms] times returns them in the order they were
    pushed, and leaves the queue empty. *)
Theorem queue_fifo ms R :
  get_queue (qname None) R = [] →
  (get_n (length ms) (add_all ms R)).1 = Some <$> ms ∧
  get_queue (qname None) (get_n (length ms) (add_all ms R)).2 = [].
Proof.
  intros E.
  assert (absq (qname None) (add_all ms R) =
          (dump <$> take (length ms) ms) ++ (dump <$> drop (length ms) ms)) as Hq.
  { by rewrite absq_add_all /absq E firstn_all drop_all /= app_nil_r. }
  destruct (get_n_absq (length ms) (add_all ms R) ms Hq ltac:(done)) as [H1 H2].
  rewrite firstn_all in H1. rewrite drop_all /absq /= in H2.
  apply (f_equal reverse) in H2. by rewrite reverse_involutive /= in H2.
Qed.

End fifo.

Arguments get_n A {_} n R.

(** ** The invariant of the two queues *)

Section typed.
Context {A : Type} `{Model A}.
Implicit Types m : A.

Lemma queue_typed_add m R : queue_typed A R → queue_typed A (add_to_queue m None R).2.
Proof.
  rewrite /queue_typed (get_queue_add m None). intros Hall.
  constructor; [|done]. rewrite parse_dump. by eexists.
Qed.

Lemma queue_typed_get R : queue_typed A R → queue_typed A (get_from_queue A None R).2.
Proof.
  rewrite /queue_typed /get_from_queue /=.
  destruct (pop_last _) as [[x rest]|] eqn:E; [|done].
  apply pop_last_Some in E. rewrite E get_put_queue_eq. by intros [? _]%Forall_app.
Qed.

(** Under the invariant, a pop answers [None] on the empty queue only: no
    item is lost to a parse failure. *)
Lemma get_from_queue_typed R :
  queue_typed A R →
  (get_from_queue A None R).1 = None ↔ get_queue (queue_name_of (class_name A)) R = [].
Proof.
  rewrite /queue_typed /get_from_queue /=. intros Hall.
  destruct (pop_last _) as [[x rest]|] eqn:E.
  - apply pop_last_Some in E. rewrite E in Hall |- *.
    apply Forall_app in Hall as [_ [[m Hm] _]%Forall_cons]. rewrite /= Hm.
    split; [done|]. by destruct rest.
  - by apply pop_last_None in E.
Qed.

End typed.

(** The invariant reads the queues only. *)
Lemma wf_queues_queues R R' : queues R' = queues R → wf_queues R → wf_queues R'.
Proof. rewrite /wf_queues /queue_typed /get_queue. by intros ->. Qed.

Lemma wf_queues_save {A} `{HasId A} (m : A) R : wf_queues R → wf_queues (save m R).
Proof. by apply wf_queues_queues. Qed.

Lemma wf_queues_add_item (item : URLQueueItem.t) R :
  wf_queues R → wf_queues (add_to_queue item None R).2.
Proof.
  intros (Hi & Hp & Hne). split_and!; [by apply queue_typed_add| |by apply put_queue_nonempty].
  by rewrite /queue_typed (get_queue_add_ne item None).
Qed.

Lemma wf_queues_add_prefix (job : URLPrefix.t) R :
  wf_queues R → wf_queues (add_to_queue job None R).2.
Proof.
  intros (Hi & Hp & Hne). split_and!; [|by apply queue_typed_add|by apply put_queue_nonempty].
  by rewrite /queue_typed (get_queue_add_ne job None).
Qed.

Lemma wf_queues_put_rest name l x R :
  get_queue name R = l ++ [x] → wf_queues R → wf_queues (put_queue name l R).
Proof.
  intros E (Hi & Hp & Hne). rewrite /wf_queues /queue_typed !get_put_queue.
  split_and!; [| |by apply put_queue_nonempty].
  all: case_decide as Hn; [|done]; rewrite /queue_typed -Hn E in Hi Hp.
  - by apply Forall_app in Hi as [? _].
  - by apply Forall_app in Hp as [? _].
Qed.

Lemma wf_queues_get {A} `{Model A} R : wf_queues R → wf_queues (get_from_queue A None R).2.
Proof.
  intros Hwf. rewrite /get_from_queue.
  destruct (pop_last _) as [[x rest]|] eqn:E; [|done].
  apply pop_last_Some in E. by eapply wf_queues_put_rest.
Qed.

(** [add_to_queue] and [get_from_queue] under their default names keep
    both queues well typed and free of empty lists, and do not touch the
    models. *)
Theorem wf_queues_preserved (item : URLQueueItem.t) (job : URLPrefix.t) R :
  wf_queues R →
  wf_queues (add_to_queue item None R).2 ∧ wf_queues (add_to_queue job None R).2 ∧
  wf_queues (get_from_queue URLQueueItem.t None R).2 ∧
  wf_queues (get_from_queue URLPrefix.t None R).2 ∧
  models (add_to_queue item None R).2 = models R ∧
  models (get_from_queue URLPrefix.t None R).2 = models R.
Proof.
  intros Hwf. split_and!; [| | | |done|apply models_get_from_queue].
  - by apply wf_queues_add_item.
  - by apply wf_queues_add_prefix.
  - by apply wf_queues_get.
  - by apply wf_queues_get.
Qed.

Lemma wf_queues_empty : wf_queues empty_redis.
Proof. split_and!; [by constructor..|]. intros name. by rewrite lookup_empty. Qed.

(** ** Lengths *)

Lemma queue_length_add {A} `{Model A} (m : A) R :
  queue_length None (Some (class_name A)) (add_to_queue m None R).2 =
  S (queue_length None (Some (class_name A)) R).
Proof. by rewrite /queue_length (get_queue_add m None). Qed.

Lemma queue_length_get {A} `{Model A} R :
  queue_length None (Some (class_name A)) (get_from_queue A None R).2 =
  pred (queue_length None (Some (class_name A)) R).
Proof.
  rewrite /queue_length /get_from_queue /=.
  destruct (pop_last _) as [[x rest]|] eqn:E.
  - apply pop_last_length in E. rewrite get_put_queue_eq E. done.
  - apply pop_last_None in E. by rewrite E.
Qed.

(** The queue a call names: the explicit name first, then the class. *)
Definition resolved (queue_name model_class : option string) : option string :=
  match queue_name, model_class with
  | Some q, _ => Some q
  | None, Some cls_name => Some (queue_name_of cls_name)
  | None, None => None
  end.

(** [queue_length] is the number of items of the named queue and
    [clear_queue] empties that queue and no other, leaving the models alone;
    without a name the first answers 0 and the second [false], changing
    nothing. *)
Theorem clear_queue_spec qn cls R :
  match resolved qn cls with
  | None => clear_queue qn cls R = (false, R) ∧ queue_length qn cls R = 0
  | Some target =>
      (clear_queue qn cls R).1 = true ∧
      queue_length qn cls R = length (get_queue target R) ∧
      get_queue target (clear_queue qn cls R).2 = [] ∧
      models (clear_queue qn cls R).2 = models R ∧
      ∀ name, target ≠ name →
        get_queue name (clear_queue qn cls R).2 = get_queue name R
  end.
Proof.
  destruct qn as [q|], cls as [c|]; simpl; rewrite ?get_put_queue_eq;
    split_and!; try done; intros name Hne; by rewrite get_put_queue_ne.
Qed.

(** ** Witness *)

Definition example_item (u : string) : URLQueueItem.t :=
  URLQueueItem.make (URL.make u None) 0 0.

Lemma queue_fifo_witness :
  let ms := [example_item "https://a.com/1"; example_item "https://a.com/2";
             example_item "https://a.com/3"] in
  (get_n URLQueueItem.t 3 (add_all ms empty_redis)).1 = Some <$> ms ∧
  get_queue (qname (A:=URLQueueItem.t) None)
    (get_n URLQueueItem.t 3 (add_all ms empty_redis)).2 = [].
Proof. intros ms. exact (queue_fifo ms empty_redis eq_refl). Defined.

Lemma wf_queues_preserved_witness :
  let item := example_item "https://a.com/1" in
  let job := URLPrefix.make "https://a.com" [] in
  wf_queues (add_to_queue item None empty_redis).2 ∧
  wf_queues (add_to_queue job None empty_redis).2 ∧
  wf_queues (get_from_queue URLQueueItem.t None empty_redis).2 ∧
  wf_queues (get_from_queue URLPrefix.t None empty_redis).2 ∧
  models (add_to_queue item None empty_redis).2 = models empty_redis ∧
  models (get_from_queue URLPrefix.t None empty_redis).2 = models empty_redis.
Proof. intros item job. exact (wf_queues_preserved item job empty_redis wf_queues_empty). Defined.

#[export] Hint Rewrite get_put_queue_eq : crawl_rw.
#[export] Hint Resolve wf_queues_empty : crawl.
