(* ===== verification/Url.v ===== *)
(** * The URL functions of the parsing worker
    (src/backend/workers/parsing_worker.py, lines 30-176)

    [get_deepest_prefix] is pure string code and is modelled in full.

    [normalize_url] and [extract_links_from_html] call urllib
    ([urlparse], [parse_qs], [urlencode], [urljoin]) and BeautifulSoup
    ([find_all('a', href=True)]).  Those are the fields of the interface
    [UrlLib]; what the source does between the calls is modelled step by
    step: [normalize_netloc] (lines 60-71), [normalize_path] (lines 73-78),
    [normalize_query] (lines 80-104), [link_of] (the body of the loop over the
    anchors, lines 129-162) and the de-duplication (lines 164-172).

    [SimpleUrl] is a small instance of [UrlLib] for absolute URLs of the
    form [scheme://netloc/path?query]; the examples and witnesses run on
    it, the theorems do not depend on it. *)

From Stdlib Require Import Ascii.
From stdpp Require Import sorting.
From S2P Require Import Prelude PyString DataModels Store.

Implicit Types url s : string.
Implicit Types parts : list string.

(** ** [get_deepest_prefix] *)

(** [if c in url: url = url.split(c)[0]]. *)
Definition strip_after (c : ascii) url : string :=
  if Py.contains_char c url then default "" (head (Py.split c url)) else url.

(** [while parts and not parts[-1]: parts.pop()]. *)
Fixpoint pop_trailing_empty parts : list string :=
  match parts with
  | [] => []
  | x :: r =>
      match pop_trailing_empty r with
      | [] => if decide (x = "") then [] else [x]
      | y :: r' => x :: y :: r'
      end
  end.

(** [if parts: parts.pop()]. *)
Definition pop parts : list string :=
  match pop_last parts with Some (_, r) => r | None => parts end.

Definition get_deepest_prefix url : string :=
  let url := strip_after "?" url in
  let url := strip_after "#" url in
  let parts := Py.split "/" url in
  if decide (3 < length parts)
  then Py.join "/" (pop (pop_trailing_empty parts))
  else Py.join "/" parts.

(** ** [normalize_url] *)

(** The six fields of [urllib.parse.ParseResult]. *)
Record ParseResult := mkParseResult {
  scheme : string;
  netloc : string;
  path : string;
  params : string;
  query : string;
  fragment : string;
}.

(** urllib and the anchor extraction of BeautifulSoup. [parse_qs] answers
    the keys in the order of the query with the values of each. *)
Class UrlLib := {
  urlparse : string → Result ParseResult;
  parse_qs : string → list (string * list string);
  urlencode : list (string * string) → string;
  urljoin : string → string → Result string;
  anchor_hrefs : string → Result (list string);
}.

(** Lines 60-71: lower case, one leading "www." removed, the default port
    removed wherever its text occurs. *)
Definition normalize_netloc (scheme netloc : string) : string :=
  let netloc := Py.lower netloc in
  let netloc := if Py.startswith netloc "www." then Py.drop 4 netloc else netloc in
  if bool_decide (scheme = "https") && Py.contains ":443" netloc
  then Py.replace ":443" "" netloc
  else if bool_decide (scheme = "http") && Py.contains ":80" netloc
  then Py.replace ":80" "" netloc
  else netloc.

(** Lines 73-78: one trailing slash removed, except from the root path. *)
Definition normalize_path (path : string) : string :=
  if bool_decide (path ≠ "/") && Py.endswith path "/" then Py.drop_last path else path.

Definition tracking_params : list string :=
  ["utm_source"; "utm_medium"; "utm_campaign"; "utm_term"; "utm_content";
   "fbclid"; "gclid"; "msclkid"; "ref"; "source"; "campaign";
   "sessionid"; "sid"; "token"; "auth"; "key"].

(** The order of [list.sort()] on pairs of strings. *)
Definition pair_le (a b : string * string) : Prop :=
  strict String.le a.1 b.1 ∨ (a.1 = b.1 ∧ String.le a.2 b.2).

#[export] Instance pair_le_dec : RelDecision pair_le.
Proof. intros a b. rewrite /pair_le. apply _. Defined.

(** Lines 95-101: tracking keys and blank values dropped. *)
Definition query_filter (params : list (string * list string)) : list (string * string) :=
  '(key, values) ← params;
  if decide (Py.lower key ∈ tracking_params) then []
  else (λ v, (key, v)) <$> filter (λ v, Py.strip v ≠ "") values.

(** Lines 95-104: the kept parameters, sorted. *)
Definition normalize_query (params : list (string * list string)) : list (string * string) :=
  merge_sort pair_le (query_filter params).

Section normalize.
Context `{UrlLib}.

Definition normalize_url url : string :=
  match urlparse url with
  | Err _ => url
  | Ok parsed =>
      let scheme := Py.lower (scheme parsed) in
      let netloc := normalize_netloc scheme (netloc parsed) in
      let path := normalize_path (path parsed) in
      let query_params :=
        if decide (query parsed = "") then []
        else normalize_query (parse_qs (query parsed)) in
      let normalized_url := scheme +:+ "://" +:+ netloc +:+ path in
      match query_params with
      | [] => normalized_url
      | _ :: _ => normalized_url +:+ "?" +:+ urlencode query_params
      end
  end.

(** ** [extract_links_from_html] *)

(** The body of the loop over the anchors: the link to append, or [None]
    where the source continues with the next anchor. *)
Definition link_of (base_url target_prefix href : string) : option string :=
  if decide (href = "") then None else
  match urljoin base_url href with
  | Err _ => None
  | Ok absolute_url =>
      let absolute_url := strip_after "#" absolute_url in
      let normalized_url := normalize_url absolute_url in
      match urlparse normalized_url with
      | Err _ => None
      | Ok parsed_url =>
          if decide (scheme parsed_url ∉ ["http"; "https"]) then None
          else if decide (normalized_url = normalize_url base_url) then None
          else if Py.startswith normalized_url target_prefix then Some normalized_url
          else None
      end
  end.

Definition extract_links_from_html (html_content base_url target_prefix : string) : list string :=
  match anchor_hrefs html_content with
  | Err _ => []
  | Ok hrefs => unique (omap (link_of base_url target_prefix) hrefs)
  end.

End normalize.

(** ** A small urllib *)

(** The text before the first occurrence of [sep], and the text after it. *)
Fixpoint partition (sep : string) s : string * option string :=
  match s with
  | "" => ("", if decide (sep = "") then Some "" else None)
  | String a s' =>
      if String.prefix sep s then ("", Some (Py.drop (String.length sep) s))
      else let '(before, after) := partition sep s' in (String a before, after)
  end.

(** The index of the first of the characters "/", "?", "#". *)
Fixpoint split_netloc s : string * string :=
  match s with
  | "" => ("", "")
  | String a s' =>
      if bool_decide (a ∈ ["/"; "?"; "#"]%char) then ("", s)
      else let '(host, rest) := split_netloc s' in (String a host, rest)
  end.

Definition simple_urlparse url : Result ParseResult :=
  let '(sch, rest) := partition "://" url in
  match rest with
  | None => Ok (mkParseResult "" "" url "" "" "")
  | Some rest =>
      let '(host, rest) := split_netloc rest in
      let '(rest, frag) := partition "#" rest in
      let '(pth, qry) := partition "?" rest in
      Ok (mkParseResult (Py.lower sch) host pth "" (default "" qry) (default "" frag))
  end.

Definition simple_parse_qs (q : string) : list (string * list string) :=
  omap (λ kv, let '(k, v) := partition "=" kv in
              match v with Some v => if decide (v = "") then None else Some (k, [v])
                         | None => None end)
       (Py.split "&" q).

Definition simple_urlencode (l : list (string * string)) : string :=
  Py.join "&" ((λ '(k, v), k +:+ "=" +:+ v) <$> l).

(** References with a scheme replace the base, others are appended to its
    domain or to its directory. *)
Definition simple_urljoin (base href : string) : Result string :=
  if Py.contains_char ":" href then Ok href
  else if Py.startswith href "/" then
    match simple_urlparse base with
    | Ok p => Ok (scheme p +:+ "://" +:+ netloc p +:+ href)
    | Err e => Err e
    end
  else Ok (Py.join "/" (pop (Py.split "/" base)) +:+ "/" +:+ href).

Definition SimpleUrl (anchors : string → Result (list string)) : UrlLib := {|
  urlparse := simple_urlparse;
  parse_qs := simple_parse_qs;
  urlencode := simple_urlencode;
  urljoin := simple_urljoin;
  anchor_hrefs := anchors;
|}.

(** ** Lemmas on [get_deepest_prefix] *)

Lemma pop_snoc parts x : pop (parts ++ [x]) = parts.
Proof. by rewrite /pop pop_last_snoc. Qed.

Lemma pop_take parts : pop parts = take (length parts - 1) parts.
Proof.
  destruct parts as [|y parts _] using rev_ind; [done|].
  rewrite pop_snoc length_app /= Nat.add_sub take_app_length //.
Qed.

Lemma pop_trailing_empty_snoc parts x :
  x ≠ "" → pop_trailing_empty (parts ++ [x]) = parts ++ [x].
Proof.
  intros Hx. induction parts as [|y parts IH]; simpl.
  - by rewrite decide_False.
  - rewrite IH. by destruct parts.
Qed.

Lemma pop_trailing_empty_snoc_nil parts :
  pop_trailing_empty (parts ++ [""]) = pop_trailing_empty parts.
Proof. induction parts as [|y parts IH]; simpl; [done|]. by rewrite IH. Qed.

(** The loop leaves an initial segment of the parts. *)
Lemma pop_trailing_empty_take parts :
  ∃ n, n ≤ length parts ∧ pop_trailing_empty parts = take n parts.
Proof.
  induction parts as [|y parts IH] using rev_ind; [by exists 0|].
  destruct (decide (y = "")) as [->|Hy].
  - destruct IH as (n & Hn & E). exists n. rewrite pop_trailing_empty_snoc_nil E.
    rewrite length_app take_app_le //. split; [lia|done].
  - exists (length (parts ++ [y])). by rewrite pop_trailing_empty_snoc // firstn_all.
Qed.

Lemma pop_pop_trailing_empty_take parts :
  parts ≠ [] →
  ∃ n, n < length parts ∧ pop (pop_trailing_empty parts) = take n parts.
Proof.
  intros Hne. destruct (pop_trailing_empty_take parts) as (n & Hn & ->).
  rewrite pop_take take_take length_take. exists ((n `min` length parts - 1) `min` n).
  split; [|done]. destruct parts; [done|]. simpl in *. lia.
Qed.

Lemma strip_after_id c url : Py.contains_char c url = false → strip_after c url = url.
Proof. rewrite /strip_after. by intros ->. Qed.

Lemma strip_after_startswith c url : Py.startswith url (strip_after c url) = true.
Proof.
  rewrite /strip_after. destruct (Py.contains_char c url); [|apply Py.startswith_refl].
  rewrite -{1}(Py.join_split c url). destruct (Py.split_cons c url) as (x & r & ->).
  apply (Py.startswith_join_take _ (x :: r) 1).
Qed.

Lemma strip_after_no_sep c url : Py.contains_char c (strip_after c url) = false.
Proof.
  rewrite /strip_after. destruct (Py.contains_char c url) eqn:E; [|done].
  pose proof (Py.split_no_sep c url) as Hall.
  destruct (Py.split_cons c url) as (x & r & Hs). rewrite Hs in Hall |- *.
  by inversion Hall.
Qed.

(** The result joins an initial segment of the parts of the stripped URL,
    a proper one when the URL has a path. *)
Lemma get_deepest_prefix_take url :
  let parts := Py.split "/" (strip_after "#" (strip_after "?" url)) in
  ∃ n, n ≤ length parts ∧ (3 < length parts → n < length parts) ∧
       get_deepest_prefix url = Py.join "/" (take n parts).
Proof.
  intros parts. rewrite /get_deepest_prefix -/parts. case_decide as Hlen.
  - destruct (pop_pop_trailing_empty_take parts) as (n & Hn & ->).
    { intros E. rewrite E /= in Hlen. lia. }
    exists n. split_and!; [lia|done|done].
  - exists (length parts). split_and!; [done|done|]. by rewrite firstn_all.
Qed.

(** The parts of a URL that ends in a file name. *)
Lemma split_page p f :
  Py.contains_char "/" f = false →
  Py.split "/" (p +:+ "/" +:+ f) = Py.split "/" p ++ [f].
Proof.
  intros Hf. rewrite -{1}(Py.join_split "/" p) -(Py.join_singleton "/" f) -Py.join_app;
    [apply Py.split_nonempty|done|].
  apply Py.split_join; [by destruct (Py.split "/" p)|].
  apply Forall_app. split; [apply Py.split_no_sep|by constructor].
Qed.

(** The deepest prefix of a URL is an initial part of the URL itself. *)
Theorem get_deepest_prefix_startswith url :
  Py.startswith url (get_deepest_prefix url) = true.
Proof.
  destruct (get_deepest_prefix_take url) as (n & _ & _ & ->).
  eapply Py.startswith_trans; [apply (strip_after_startswith "?")|].
  eapply Py.startswith_trans; [apply (strip_after_startswith "#")|].
  rewrite -{1}(Py.join_split "/" (strip_after "#" _)). apply Py.startswith_join_take.
Qed.

Lemma strip_after_sep c s : strip_after c (String c s) = "".
Proof. rewrite /strip_after /= bool_decide_true // decide_True //. Qed.

Lemma strip_after_cons a c s :
  a ≠ c → strip_after c (String a s) = String a (strip_after c s).
Proof.
  intros Hac. rewrite /strip_after /= bool_decide_false // decide_False //=.
  destruct (Py.contains_char c s); [|done]. by destruct (Py.split_cons c s) as (x & r & ->).
Qed.

Lemma strip_after_app c s t :
  Py.contains_char c s = false → strip_after c (s +:+ t) = s +:+ strip_after c t.
Proof.
  induction s as [|a s IH]; [done|]. simpl.
  intros [Hac%bool_decide_eq_false Hs]%orb_false_iff.
  by rewrite !Py.app_cons strip_after_cons // IH.
Qed.

(** What the first four lines of [get_deepest_prefix] leave of a URL with
    a query or a fragment. *)
Lemma strip_query_fragment s rest :
  Py.contains_char "?" s = false → Py.contains_char "#" s = false →
  rest = "" ∨ Py.startswith rest "?" = true ∨ Py.startswith rest "#" = true →
  strip_after "#" (strip_after "?" (s +:+ rest)) = s.
Proof.
  intros Hq Hh Hrest. rewrite strip_after_app //.
  destruct Hrest as [->|[[r ->]%Py.startswith_spec|[r ->]%Py.startswith_spec]].
  - by rewrite Py.app_nil_r strip_after_id.
  - by rewrite Py.app_cons strip_after_sep Py.app_nil_r strip_after_id.
  - by rewrite Py.app_cons strip_after_cons // strip_after_app // strip_after_sep Py.app_nil_r.
Qed.

(** For a page [p/f] below the domain, with a file name [f] that is not
    empty, the deepest prefix is the directory [p] (without the trailing
    slash of the docstring), whatever query and fragment follow. *)
Theorem get_deepest_prefix_page p f rest :
  3 ≤ length (Py.split "/" p) →
  Py.contains_char "?" p = false → Py.contains_char "#" p = false →
  f ≠ "" → Py.contains_char "/" f = false →
  Py.contains_char "?" f = false → Py.contains_char "#" f = false →
  rest = "" ∨ Py.startswith rest "?" = true ∨ Py.startswith rest "#" = true →
  get_deepest_prefix ((p +:+ "/" +:+ f) +:+ rest) = p.
Proof.
  intros Hp Hpq Hph Hf Hfs Hfq Hfh Hrest.
  rewrite /get_deepest_prefix strip_query_fragment //.
  1,2: by rewrite !Py.contains_char_app /= ?Hpq ?Hph ?Hfq ?Hfh.
  rewrite split_page // length_app /= decide_True; [lia|].
  by rewrite pop_trailing_empty_snoc // pop_snoc Py.join_split.
Qed.

Lemma get_deepest_prefix_page_witness :
  get_deepest_prefix "https://example.com/path/page.html?x=1#top" = "https://example.com/path".
Proof.
  apply (get_deepest_prefix_page "https://example.com/path" "page.html" "?x=1#top");
    [vm_compute; lia|done..|by right; left].
Defined.

(** A URL with a path and without query or fragment has its deepest
    prefix among the candidates that [find_prefix_for_url] tries for it,
    and the prefix is a proper one; the only exception is the empty prefix. *)
Theorem get_deepest_prefix_candidate url :
  Py.contains_char "?" url = false → Py.contains_char "#" url = false →
  3 < length (Py.split "/" url) →
  get_deepest_prefix url ≠ "" →
  get_deepest_prefix url ∈ candidates url ∧ get_deepest_prefix url ≠ url.
Proof.
  intros Hq Hh Hlen Hne.
  destruct (get_deepest_prefix_take url) as (n & Hn & Hlt & E).
  rewrite !strip_after_id // in Hn Hlt E; try by rewrite strip_after_id.
  split.
  - apply elem_of_candidates. exists n. split; [|done].
    destruct n; [by rewrite E in Hne|lia].
  - rewrite E. intros Heq. apply (f_equal String.length) in Heq.
    specialize (Hlt Hlen). destruct n; [by rewrite E in Hne|].
    pose proof (Py.length_join_take_lt "/" (Py.split "/" url) (S n)) as Hl.
    rewrite Py.join_split in Hl. specialize (Hl ltac:(lia) ltac:(done)). lia.
Qed.

Lemma get_deepest_prefix_candidate_witness :
  get_deepest_prefix "https://a.com/docs/intro.html" ∈ candidates "https://a.com/docs/intro.html" ∧
  get_deepest_prefix "https://a.com/docs/intro.html" ≠ "https://a.com/docs/intro.html".
Proof.
  apply get_deepest_prefix_candidate; [done|done|vm_compute; lia|done].
Defined.

(** The root page of a domain written with its slash,
    [scheme://host/], has the scheme with one slash as its deepest prefix:
    the loop drops the empty last part and the pop drops the host.  That
    prefix is a candidate of every URL of the scheme. *)
Theorem get_deepest_prefix_domain_root sch host :
  Forall (λ c, Py.contains_char c sch = false ∧ Py.contains_char c host = false)
         ["/"; "?"; "#"]%char →
  host ≠ "" →
  get_deepest_prefix (sch +:+ "//" +:+ host +:+ "/") = sch +:+ "/" ∧
  ∀ rest, sch +:+ "/" ∈ candidates (sch +:+ "//" +:+ rest).
Proof.
  rewrite !Forall_cons. intros ([Hs1 Hh1] & [Hs2 Hh2] & [Hs3 Hh3] & _) Hhost.
  assert (∀ rest, Py.split "/" (sch +:+ "//" +:+ rest) = sch :: "" :: Py.split "/" rest) as Hsplit.
  { intros rest. by rewrite (Py.split_app_sep "/" sch) // (Py.split_app_sep "/" ""). }
  split.
  - rewrite /get_deepest_prefix !strip_after_id ?Py.contains_char_app /= ?Hs2 ?Hs3 ?Hh2 ?Hh3 //.
    rewrite Hsplit (Py.split_app_sep "/" host) //= decide_False //.
  - intros rest. apply elem_of_candidates. exists 2. rewrite Hsplit /=.
    split; [|done]. pose proof (Py.length_split "/" rest). lia.
Qed.

Lemma get_deepest_prefix_domain_root_witness :
  get_deepest_prefix "https://a.com/" = "https:/" ∧
  ∀ rest, "https:/" ∈ candidates ("https://" +:+ rest).
Proof. apply (get_deepest_prefix_domain_root "https:" "a.com"); [by repeat constructor|done]. Defined.

(** For a URL whose query follows the domain directly, the deepest
    prefix is the URL without the query, and that is none of the
    candidates which the lookup of the prefix tries for the URL. *)
Theorem get_deepest_prefix_query_not_candidate base q :
  Py.contains_char "?" base = false → Py.contains_char "#" base = false →
  length (Py.split "/" base) ≤ 3 →
  get_deepest_prefix (base +:+ "?" +:+ q) = base ∧
  base ∉ candidates (base +:+ "?" +:+ q).
Proof.
  intros Hq Hh Hlen. split.
  - rewrite /get_deepest_prefix strip_query_fragment //;
      [right; left; apply (Py.startswith_app "?" q)|].
    rewrite decide_False; [lia|]. apply Py.join_split.
  - intros [E|[rest E]]%candidates_cut.
    + apply (f_equal String.length) in E. rewrite !Py.length_app /= in E. lia.
    + by apply Py.app_inj_l in E.
Qed.

Lemma get_deepest_prefix_query_not_candidate_witness :
  get_deepest_prefix "https://a.com?x=1" = "https://a.com" ∧
  "https://a.com" ∉ candidates "https://a.com?x=1".
Proof. apply (get_deepest_prefix_query_not_candidate "https://a.com" "x=1"); [done..|vm_compute; lia]. Defined.

(** A directory URL yields the parent of the directory. *)
Example get_deepest_prefix_directory :
  get_deepest_prefix "https://a.com/docs/" = "https://a.com".
Proof. done. Qed.

(** ** Lemmas on [normalize_url] *)

#[export] Instance pair_le_total : Total pair_le.
Proof.
  intros [k1 v1] [k2 v2]. rewrite /pair_le /=.
  destruct (decide (k1 = k2)) as [->|Hk].
  - destruct (total String.le v1 v2); [left|right]; by right.
  - destruct (total String.le k1 k2) as [Hle|Hle]; [left|right]; left; split; [done| |done|].
    all: intros Hge; apply Hk; by apply (anti_symm String.le).
Qed.

#[export] Instance pair_le_trans : Transitive pair_le.
Proof.
  intros [k1 v1] [k2 v2] [k3 v3]. rewrite /pair_le /=.
  intros [H12|[-> H12]] [H23|[-> H23]]; [left|left|left|right]; try done.
  - by etrans.
  - split; [done|]. by etrans.
Qed.

#[export] Instance pair_le_antisymm : AntiSymm (=) pair_le.
Proof.
  intros [k1 v1] [k2 v2]. rewrite /pair_le /=.
  intros [[H1 H1']|[-> H1]] [[H2 H2']|[E H2]]; try done.
  - by subst.
  - f_equal. by apply (anti_symm String.le).
Qed.

Lemma elem_of_query_filter params k v :
  (k, v) ∈ query_filter params ↔
  ∃ values, (k, values) ∈ params ∧ v ∈ values ∧
            Py.lower k ∉ tracking_params ∧ Py.strip v ≠ "".
Proof.
  rewrite /query_filter list_elem_of_bind. split.
  - intros ([k' values] & Hin & Hp). case_decide as Ht; [by apply elem_of_nil in Hin|].
    apply list_elem_of_fmap in Hin as (v' & [= -> ->] & [Hv Hin]%list_elem_of_filter).
    by exists values.
  - intros (values & Hp & Hv & Ht & Hs). exists (k, values). split; [|done].
    rewrite decide_False //. apply list_elem_of_fmap. exists v. split; [done|].
    by apply list_elem_of_filter.
Qed.

(** The query of a normalized URL lists, in ascending order of key and
    value, exactly the parameters of the parsed query whose key is no
    tracking parameter and whose value is not blank. *)
Theorem normalize_query_spec params :
  StronglySorted pair_le (normalize_query params) ∧
  normalize_query params ≡ₚ query_filter params ∧
  ∀ k v, (k, v) ∈ normalize_query params ↔
         ∃ values, (k, values) ∈ params ∧ v ∈ values ∧
                   Py.lower k ∉ tracking_params ∧ Py.strip v ≠ "".
Proof.
  split_and!.
  - apply (StronglySorted_merge_sort _).
  - apply merge_sort_Permutation.
  - intros k v. by rewrite /normalize_query merge_sort_Permutation elem_of_query_filter.
Qed.

(** The normalized query does not depend on the order in which the
    parameters are written in the URL. *)
Theorem normalize_query_order params1 params2 :
  params1 ≡ₚ params2 → normalize_query params1 = normalize_query params2.
Proof.
  intros Hp. apply (StronglySorted_unique pair_le); try apply (StronglySorted_merge_sort _).
  rewrite /normalize_query !merge_sort_Permutation /query_filter. by rewrite Hp.
Qed.

Lemma normalize_query_order_witness :
  normalize_query [("b", ["2"]); ("utm_source", ["x"]); ("a", ["1"; " "])] =
  normalize_query [("a", ["1"; " "]); ("b", ["2"]); ("utm_source", ["x"])].
Proof.
  apply normalize_query_order.
  etrans; [apply perm_skip, perm_swap|apply perm_swap].
Defined.

Example normalize_query_example :
  normalize_query [("b", ["2"]); ("utm_source", ["x"]); ("a", ["1"; " "])] = [("a", "1"); ("b", "2")].
Proof. by vm_compute. Qed.

(** The removal of the default port removes its digits from any port that
    starts with them, and a second leading "www." survives: the netloc of a
    normalized URL is not always normal. *)
Example normalize_netloc_port :
  normalize_netloc "http" "localhost:8080" = "localhost80" ∧
  normalize_netloc "https" "a.com:4430" = "a.com0".
Proof. done. Qed.

Example normalize_netloc_not_idempotent :
  normalize_netloc "http" (normalize_netloc "http" "www.www.a.com") ≠
  normalize_netloc "http" "www.www.a.com".
Proof. done. Qed.

Example normalize_path_not_idempotent :
  normalize_path (normalize_path "/a//") ≠ normalize_path "/a//".
Proof. done. Qed.

Section normalize_lemmas.
Context `{UrlLib}.

Lemma normalize_url_Err url e : urlparse url = Err e → normalize_url url = url.
Proof. rewrite /normalize_url. by intros ->. Qed.

(** What an anchor contributes to the links of a page. *)
Lemma link_of_Some base_url target_prefix href link :
  link_of base_url target_prefix href = Some link ↔
  href ≠ "" ∧
  ∃ absolute_url parsed_url,
    urljoin base_url href = Ok absolute_url ∧
    link = normalize_url (strip_after "#" absolute_url) ∧
    urlparse link = Ok parsed_url ∧
    scheme parsed_url ∈ ["http"; "https"] ∧
    link ≠ normalize_url base_url ∧
    Py.startswith link target_prefix = true.
Proof.
  rewrite /link_of. split.
  - repeat (case_decide || case_match); try done. intros [= <-].
    split; [done|]. eexists _, _. split_and!; try done.
  - intros (Hh & a & p & -> & -> & -> & Hs & Hb & ->).
    rewrite !decide_False //. by intros ?.
Qed.

(** The links extracted from a page are, without repetition and in the
    order of their first occurrence, the normalized targets of its anchors
    that are http(s) URLs, differ from the normalized address of the page
    itself and start with the target prefix; a page that BeautifulSoup
    cannot read has no links. *)
Theorem extract_links_from_html_spec html_content base_url target_prefix :
  let links := extract_links_from_html html_content base_url target_prefix in
  NoDup links ∧
  (∀ link, link ∈ links ↔
     ∃ hrefs href, anchor_hrefs html_content = Ok hrefs ∧ href ∈ hrefs ∧
                   link_of base_url target_prefix href = Some link) ∧
  (∀ link, link ∈ links →
     Py.startswith link target_prefix = true ∧ link ≠ normalize_url base_url) ∧
  (∀ hrefs, anchor_hrefs html_content = Ok hrefs →
     links `sublist_of` omap (link_of base_url target_prefix) hrefs).
Proof.
  intros links. subst links. rewrite /extract_links_from_html.
  assert (∀ link, link ∈ match anchor_hrefs html_content with
                         | Ok hrefs => unique (omap (link_of base_url target_prefix) hrefs)
                         | Err _ => []
                         end ↔
     ∃ hrefs href, anchor_hrefs html_content = Ok hrefs ∧ href ∈ hrefs ∧
                   link_of base_url target_prefix href = Some link) as Hin.
  { intros link. destruct (anchor_hrefs html_content) as [hrefs|e].
    - rewrite elem_of_unique list_elem_of_omap. naive_solver.
    - split; [by intros ?%elem_of_nil|]. by intros (? & ? & [=] & _). }
  split_and!; [|done| |].
  - destruct (anchor_hrefs html_content); [apply NoDup_unique|constructor].
  - intros link (hrefs & href & _ & _ & Hl)%Hin.
    apply link_of_Some in Hl as (_ & a & p & _ & _ & _ & _ & Hb & Hs). done.
  - intros hrefs ->. apply unique_seen_sublist.
Qed.

End normalize_lemmas.

Example extract_links_example :
  @extract_links_from_html
    (SimpleUrl (λ _, Ok ["next.html"; "/docs/next.html#top"; "https://other.org/x";
                         "intro.html"; "mailto:me"; "/blog/post"; "b.html?utm_source=z&q=1"]))
    "<html>" "https://a.com/docs/intro.html" "https://a.com/docs"
  = ["https://a.com/docs/next.html"; "https://a.com/docs/b.html?q=1"].
Proof. by vm_compute. Qed.
