(* ===== verification/Frontier.v ===== *)
(** * The parsing worker: the handler of one queue item and the worker loop
    (src/backend/workers/parsing_worker.py, lines 178-406)

    [process_url_queue_item] is the whole handler: the deferral of an item
    that is not due, the lookup of the prefix, the cap of 20 rows per
    prefix, the branch that parses with the stored configuration
    ([process_with_parser]: skip, fetch, parse, save, enqueue the outlinks
    with [enqueue_links]) and the branch that records the page as a sample
    of its deepest prefix ([create_url_prefix]: fetch, append or create,
    save, enqueue the prefix, re-queue the item thirty seconds later).  Each
    [return] of the source is a constructor of [ItemResult].

    The world outside the store is the interface [Env]: the HTTP fetch
    [load_raw_html], the extraction [parse_content] of the interface
    [Extractor] (the call [Parser(config).parse(raw)]) and [UrlLib]; a
    raised exception is [Err].
    [time.time()] is read more than once in a call: the handler takes the
    readings as [clock : nat → Z], reading [clock 0] first and the next
    index at each later read.

    [run_iteration] is one turn of the loop of [run] and [run] a bounded
    number of turns; the loop of the source only ends on an interrupt.

    The theorems give the result and the state of every branch, the
    invariants the handler keeps ([wf], [wf_queues], at most 20 rows per
    prefix) and what a turn of the loop does to the queue. *)

From Stdlib Require Import Ascii.
From stdpp Require Import gmap.
From S2P Require Import Prelude PyString DataModels Store Queue Url.

(** ** The environment *)

Class Env := {
  env_urllib :: UrlLib;
  env_extractor :: Extractor;
  load_raw_html : string → Result string;
}.

(** The dictionaries that [process_url_queue_item] returns, by their status. *)
Inductive ItemResult :=
  | Deferred (url : string)
  | Dropped (url prefix : string) (url_count : nat)
  | Skipped (url : string)
  | Error (url error : string)
  | Success (url parsed_content prefix : string) (urls_added_to_queue : nat)
  | Requeued (url : string) (next_process_time times_queued : Z).

#[export] Instance ItemResult_eq_dec : EqDecision ItemResult.
Proof. solve_decision. Defined.

(** The limit of line 205. *)
Definition url_limit : nat := 20.

(** [existing and existing.parsed_content] of lines 217-218 and 262-263. *)
Definition already_parsed (url : string) (R : Redis) : bool :=
  match load URL.t url R with
  | Some existing_url => truthy (URL.parsed_content existing_url)
  | None => false
  end.

Section worker.
Context `{Env}.
Implicit Types R : Redis.
Implicit Types clock : nat → Z.

(** Lines 260-279: the loop over the links; [n] counts the clock reads. *)
Fixpoint enqueue_links (links : list string) (prefix : string) clock (n : nat)
    (added_to_queue : nat) R : nat * Redis :=
  match links with
  | [] => (added_to_queue, R)
  | link_url :: links =>
      if already_parsed link_url R then enqueue_links links prefix clock n added_to_queue R
      else
        let url_obj := URL.make link_url (Some prefix) in
        let url_queue_item := URLQueueItem.make url_obj (clock n) 0 in
        let '(ok, R) := add_to_queue url_queue_item None R in
        enqueue_links links prefix clock (S n) (if ok then S added_to_queue else added_to_queue) R
  end.

(** Lines 213-295: the prefix has a parser configuration. *)
Definition process_with_parser (queue_item : URLQueueItem.t) (url_prefix : URLPrefix.t)
    (parser_config : ParserConfig.t) clock R : ItemResult * Redis :=
  let url := URL.url (URLQueueItem.url queue_item) in
  if already_parsed url R then (Skipped url, R) else
  match load_raw_html url with
  | Err e => (Error url ("Failed to load HTML: " +:+ e), R)
  | Ok raw_content =>
      match parse_content parser_config raw_content with
      | Err e => (Error url ("Failed to parse content: " +:+ e), R)
      | Ok parsed_content =>
          let prefix := URLPrefix.prefix url_prefix in
          let R := save (URL.mk url (Some prefix) (Some raw_content) (Some parsed_content)) R in
          let links_with_prefix := extract_links_from_html raw_content url prefix in
          let '(added_to_queue, R) := enqueue_links links_with_prefix prefix clock 1 0 R in
          (Success url parsed_content prefix added_to_queue, R)
      end
  end.

(** Lines 297-347: no prefix, or a prefix without a configuration. *)
Definition create_url_prefix (queue_item : URLQueueItem.t) clock R : ItemResult * Redis :=
  let url := URL.url (URLQueueItem.url queue_item) in
  let deepest_prefix := get_deepest_prefix url in
  match load_raw_html url with
  | Err e => (Error url ("Failed to create URLPrefix: " +:+ e), R)
  | Ok raw_content =>
      let sample_url := SampleURL.make url raw_content in
      let prefix_obj :=
        match load URLPrefix.t deepest_prefix R with
        | Some existing_prefix => URLPrefix.append_sample sample_url existing_prefix
        | None => URLPrefix.make deepest_prefix [sample_url]
        end in
      let R := save prefix_obj R in
      let R := (add_to_queue prefix_obj None R).2 in
      let next_process_time := (clock 1%nat + 30)%Z in
      let times_queued := (URLQueueItem.times_queued queue_item + 1)%Z in
      let queue_item := URLQueueItem.make (URLQueueItem.url queue_item) next_process_time times_queued in
      let R := (add_to_queue queue_item None R).2 in
      (Requeued url next_process_time times_queued, R)
  end.

(** [process_url_queue_item(queue_item)]. *)
Definition process_url_queue_item (queue_item : URLQueueItem.t) clock R : ItemResult * Redis :=
  let url := URL.url (URLQueueItem.url queue_item) in
  let current_time := clock 0 in
  if decide (current_time < URLQueueItem.process_from_unix_timestamp queue_item)%Z
  then (Deferred url, (add_to_queue queue_item None R).2)
  else
    match find_prefix_for_url url R with
    | Some url_prefix =>
        let url_count := length (find_urls_with_prefix (URLPrefix.prefix url_prefix) R) in
        if decide (url_limit ≤ url_count)
        then (Dropped url (URLPrefix.prefix url_prefix) url_count, R)
        else
          match URLPrefix.parser_config url_prefix with
          | Some parser_config => process_with_parser queue_item url_prefix parser_config clock R
          | None => create_url_prefix queue_item clock R
          end
    | None => create_url_prefix queue_item clock R
    end.

(** ** The loop *)

(** What one turn of the loop of [run] did. *)
Inductive Turn :=
  | Paused
  | Idle
  | Processed (queue_item : URLQueueItem.t) (result : ItemResult).

(** Lines 382-396: no sleep after a deferred or a dropped item. *)
Definition should_sleep (result : ItemResult) : bool :=
  match result with
  | Deferred _ | Dropped _ _ _ => false
  | _ => true
  end.

(** Lines 362-399: one turn. *)
Definition run_iteration clock R : Turn * Redis :=
  if negb (is_system_running R) then (Paused, R)
  else
    match get_from_queue URLQueueItem.t None R with
    | (None, R) => (Idle, R)
    | (Some queue_item, R) =>
        let '(result, R) := process_url_queue_item queue_item clock R in
        (Processed queue_item result, R)
    end.

(** [n] turns of the loop; turn [i] reads the clock [clocks i]. *)
Fixpoint run (n : nat) (clocks : nat → nat → Z) R : list Turn * Redis :=
  match n with
  | O => ([], R)
  | S n =>
      let '(turn, R) := run_iteration (clocks 0) R in
      let '(turns, R) := run n (λ i, clocks (S i)) R in
      (turn :: turns, R)
  end.

End worker.

(** ** The two queues and the items of the outlinks *)

Definition item_queue : string := queue_name_of (class_name URLQueueItem.t).
Definition prefix_queue : string := queue_name_of (class_name URLPrefix.t).

(** The items that the loop over the links pushes, in the order of the
    links: one for each link that is not stored with parsed content, stamped
    with the successive readings of the clock. *)
Definition link_items (links : list string) (prefix : string) (clock : nat → Z) (n : nat)
    (R : Redis) : list URLQueueItem.t :=
  imap (λ i link_url, URLQueueItem.make (URL.make link_url (Some prefix)) (clock (n + i)) 0)
       (filter (λ link_url, already_parsed link_url R = false) links).

(** At most [url_limit] rows of every prefix. *)
Definition cap_inv (R : Redis) : Prop :=
  ∀ prefix, length (find_urls_with_prefix prefix R) ≤ url_limit.

Lemma already_parsed_models url R R' :
  models R' = models R → already_parsed url R' = already_parsed url R.
Proof. intros E. by rewrite /already_parsed (load_models (A:=URL.t) url R R' E). Qed.

Lemma link_items_models links prefix clock n R R' :
  models R' = models R → link_items links prefix clock n R' = link_items links prefix clock n R.
Proof.
  intros E. rewrite /link_items. f_equal. apply list_filter_iff.
  intros link_url. by rewrite (already_parsed_models _ R R').
Qed.

Lemma link_items_cons_skip link_url links prefix clock n R :
  already_parsed link_url R = true →
  link_items (link_url :: links) prefix clock n R = link_items links prefix clock n R.
Proof. intros E. rewrite /link_items filter_cons_False //. by rewrite E. Qed.

Lemma link_items_cons_keep link_url links prefix clock n R :
  already_parsed link_url R = false →
  link_items (link_url :: links) prefix clock n R =
  URLQueueItem.make (URL.make link_url (Some prefix)) (clock n) 0
    :: link_items links prefix clock (S n) R.
Proof.
  intros E. rewrite /link_items filter_cons_True //= Nat.add_0_r. f_equal.
  apply imap_ext. intros i x _. simpl. do 2 f_equal. lia.
Qed.

Lemma elem_of_link_items item links prefix clock n R :
  item ∈ link_items links prefix clock n R →
  ∃ link_url i, link_url ∈ links ∧ already_parsed link_url R = false ∧
    item = URLQueueItem.make (URL.make link_url (Some prefix)) (clock (n + i)) 0.
Proof.
  rewrite /link_items. intros (i & link_url & -> & Hl)%elem_of_lookup_imap.
  apply list_elem_of_lookup_2, list_elem_of_filter in Hl as [Hp Hl]. by exists link_url, i.
Qed.

Lemma cap_inv_models R R' : models R' = models R → cap_inv R → cap_inv R'.
Proof.
  intros E Hcap prefix. rewrite (find_urls_with_prefix_models prefix R R') //.
Qed.

Lemma cap_inv_subseteq R R' : models R' ⊆ models R → wf R → cap_inv R → cap_inv R'.
Proof.
  intros Hsub Hwf Hcap prefix.
  etrans; [by apply (length_find_urls_with_prefix_subseteq prefix R R')|apply Hcap].
Qed.

Lemma cap_inv_empty : cap_inv empty_redis.
Proof. intros prefix. rewrite /url_limit. vm_compute. lia. Qed.

Lemma models_add_all {A} `{Model A} (ms : list A) R : models (add_all ms R) = models R.
Proof. revert R. induction ms as [|m ms IH]; intros R; [done|]. by rewrite /= IH. Qed.

Lemma get_queue_add_all_ne {A} `{Model A} (ms : list A) name R :
  queue_name_of (class_name A) ≠ name → get_queue name (add_all ms R) = get_queue name R.
Proof.
  intros Hne. revert R. induction ms as [|m ms IH]; intros R; [done|].
  by rewrite /= IH (get_queue_add_ne m None).
Qed.

Lemma wf_queues_add_all (items : list URLQueueItem.t) R :
  wf_queues R → wf_queues (add_all items R).
Proof.
  revert R. induction items as [|item items IH]; intros R Hwf; [done|].
  by apply IH, wf_queues_add_item.
Qed.

(** The prefix that [create_url_prefix] saves and the item it pushes. *)
Definition prefix_with_sample (url raw_content : string) (R : Redis) : URLPrefix.t :=
  let sample_url := SampleURL.make url raw_content in
  match load URLPrefix.t (get_deepest_prefix url) R with
  | Some existing_prefix => URLPrefix.append_sample sample_url existing_prefix
  | None => URLPrefix.make (get_deepest_prefix url) [sample_url]
  end.

Definition requeued (queue_item : URLQueueItem.t) (clock : nat → Z) : URLQueueItem.t :=
  URLQueueItem.make (URLQueueItem.url queue_item) (clock 1%nat + 30)
                    (URLQueueItem.times_queued queue_item + 1).

Lemma link_items_urls links prefix clock n R :
  URL.url ∘ URLQueueItem.url <$> link_items links prefix clock n R =
  filter (λ link_url, already_parsed link_url R = false) links.
Proof.
  revert n. induction links as [|link_url links IH]; intros n; [done|].
  destruct (already_parsed link_url R) eqn:E.
  - rewrite link_items_cons_skip // filter_cons_False //. by rewrite E.
  - by rewrite link_items_cons_keep // filter_cons_True // fmap_cons IH.
Qed.

Lemma absq_save {A} `{HasId A} (m : A) name R : absq name (save m R) = absq name R.
Proof. done. Qed.

Lemma absq_add_all_ne {A} `{Model A} (ms : list A) name R :
  queue_name_of (class_name A) ≠ name → absq name (add_all ms R) = absq name R.
Proof. intros Hne. by rewrite /absq get_queue_add_all_ne. Qed.

Lemma prefix_with_sample_prefix url raw_content R :
  wf R → URLPrefix.prefix (prefix_with_sample url raw_content R) = get_deepest_prefix url.
Proof.
  intros Hwf. rewrite /prefix_with_sample.
  destruct (load URLPrefix.t _ R) as [p|] eqn:Hp; [|done]. by apply load_wf in Hp.
Qed.

Lemma prefix_with_sample_last url raw_content R :
  last (URLPrefix.sample_urls (prefix_with_sample url raw_content R)) =
  Some (SampleURL.make url raw_content).
Proof.
  rewrite /prefix_with_sample. destruct (load URLPrefix.t _ R); [|done]. by rewrite /= last_snoc.
Qed.

Section worker_lemmas.
Context `{Env}.
Implicit Types R : Redis.
Implicit Types clock : nat → Z.
Implicit Types queue_item : URLQueueItem.t.

(** The loop over the links pushes [link_items] and counts them. *)
Lemma enqueue_links_spec links prefix clock n added R :
  enqueue_links links prefix clock n added R =
  (added + length (link_items links prefix clock n R),
   add_all (link_items links prefix clock n R) R).
Proof.
  revert n added R. induction links as [|link_url links IH]; intros n added R; simpl.
  { by rewrite Nat.add_0_r. }
  destruct (already_parsed link_url R) eqn:E.
  - by rewrite IH link_items_cons_skip.
  - rewrite IH link_items_cons_keep //= (link_items_models _ _ _ _ R) //.
    f_equal. lia.
Qed.

(** *** The branches *)

Lemma process_with_parser_Ok queue_item url_prefix parser_config clock R raw_content parsed_content :
  let url := URL.url (URLQueueItem.url queue_item) in
  let prefix := URLPrefix.prefix url_prefix in
  let row := URL.mk url (Some prefix) (Some raw_content) (Some parsed_content) in
  let items := link_items (extract_links_from_html raw_content url prefix) prefix clock 1
                          (save row R) in
  already_parsed url R = false →
  load_raw_html url = Ok raw_content →
  parse_content parser_config raw_content = Ok parsed_content →
  process_with_parser queue_item url_prefix parser_config clock R =
  (Success url parsed_content prefix (length items), add_all items (save row R)).
Proof.
  intros url prefix row items Hp Hl Hc.
  by rewrite /process_with_parser Hp Hl Hc enqueue_links_spec.
Qed.

Lemma create_url_prefix_Ok queue_item clock R raw_content :
  let url := URL.url (URLQueueItem.url queue_item) in
  let prefix_obj := prefix_with_sample url raw_content R in
  load_raw_html url = Ok raw_content →
  create_url_prefix queue_item clock R =
  (Requeued url (clock 1%nat + 30)%Z (URLQueueItem.times_queued queue_item + 1)%Z,
   (add_to_queue (requeued queue_item clock) None
      (add_to_queue prefix_obj None (save prefix_obj R)).2).2).
Proof. intros url prefix_obj Hl. by rewrite /create_url_prefix Hl. Qed.

(** ** The handler as a relation

    [handled queue_item clock R result R'] has one rule for each [return] of
    [process_url_queue_item]: the conditions under which it is reached, the
    dictionary returned and the state left.  [due] says that the item is
    not deferred; [with_parser] and [without_parser] are the two ways past
    the cap. *)

Definition due queue_item clock : Prop :=
  (URLQueueItem.process_from_unix_timestamp queue_item ≤ clock 0%nat)%Z.

Definition with_parser queue_item R (url_prefix : URLPrefix.t) (parser_config : ParserConfig.t) : Prop :=
  find_prefix_for_url (URL.url (URLQueueItem.url queue_item)) R = Some url_prefix ∧
  length (find_urls_with_prefix (URLPrefix.prefix url_prefix) R) < url_limit ∧
  URLPrefix.parser_config url_prefix = Some parser_config.

Definition without_parser queue_item R : Prop :=
  match find_prefix_for_url (URL.url (URLQueueItem.url queue_item)) R with
  | Some url_prefix =>
      length (find_urls_with_prefix (URLPrefix.prefix url_prefix) R) < url_limit ∧
      URLPrefix.parser_config url_prefix = None
  | None => True
  end.

Inductive handled queue_item clock R : ItemResult → Redis → Prop :=
  | handled_deferred :
      (clock 0%nat < URLQueueItem.process_from_unix_timestamp queue_item)%Z →
      handled queue_item clock R
        (Deferred (URL.url (URLQueueItem.url queue_item))) (add_to_queue queue_item None R).2
  | handled_dropped url_prefix :
      due queue_item clock →
      find_prefix_for_url (URL.url (URLQueueItem.url queue_item)) R = Some url_prefix →
      url_limit ≤ length (find_urls_with_prefix (URLPrefix.prefix url_prefix) R) →
      handled queue_item clock R
        (Dropped (URL.url (URLQueueItem.url queue_item)) (URLPrefix.prefix url_prefix)
                 (length (find_urls_with_prefix (URLPrefix.prefix url_prefix) R))) R
  | handled_skipped url_prefix parser_config :
      due queue_item clock → with_parser queue_item R url_prefix parser_config →
      already_parsed (URL.url (URLQueueItem.url queue_item)) R = true →
      handled queue_item clock R (Skipped (URL.url (URLQueueItem.url queue_item))) R
  | handled_load_error url_prefix parser_config e :
      due queue_item clock → with_parser queue_item R url_prefix parser_config →
      already_parsed (URL.url (URLQueueItem.url queue_item)) R = false →
      load_raw_html (URL.url (URLQueueItem.url queue_item)) = Err e →
      handled queue_item clock R
        (Error (URL.url (URLQueueItem.url queue_item)) ("Failed to load HTML: " +:+ e)) R
  | handled_parse_error url_prefix parser_config raw_content e :
      due queue_item clock → with_parser queue_item R url_prefix parser_config →
      already_parsed (URL.url (URLQueueItem.url queue_item)) R = false →
      load_raw_html (URL.url (URLQueueItem.url queue_item)) = Ok raw_content →
      parse_content parser_config raw_content = Err e →
      handled queue_item clock R
        (Error (URL.url (URLQueueItem.url queue_item)) ("Failed to parse content: " +:+ e)) R
  | handled_success url_prefix parser_config raw_content parsed_content :
      let url := URL.url (URLQueueItem.url queue_item) in
      let prefix := URLPrefix.prefix url_prefix in
      let row := URL.mk url (Some prefix) (Some raw_content) (Some parsed_content) in
      let items := link_items (extract_links_from_html raw_content url prefix) prefix clock 1
                              (save row R) in
      due queue_item clock → with_parser queue_item R url_prefix parser_config →
      already_parsed url R = false →
      load_raw_html url = Ok raw_content →
      parse_content parser_config raw_content = Ok parsed_content →
      handled queue_item clock R
        (Success url parsed_content prefix (length items)) (add_all items (save row R))
  | handled_sample_error e :
      due queue_item clock → without_parser queue_item R →
      load_raw_html (URL.url (URLQueueItem.url queue_item)) = Err e →
      handled queue_item clock R
        (Error (URL.url (URLQueueItem.url queue_item)) ("Failed to create URLPrefix: " +:+ e)) R
  | handled_requeued raw_content :
      let url := URL.url (URLQueueItem.url queue_item) in
      let prefix_obj := prefix_with_sample url raw_content R in
      due queue_item clock → without_parser queue_item R →
      load_raw_html url = Ok raw_content →
      handled queue_item clock R
        (Requeued url (clock 1%nat + 30)%Z (URLQueueItem.times_queued queue_item + 1)%Z)
        (add_to_queue (requeued queue_item clock) None
           (add_to_queue prefix_obj None (save prefix_obj R)).2).2.

Lemma process_with_parser_handled queue_item clock R url_prefix parser_config :
  due queue_item clock → with_parser queue_item R url_prefix parser_config →
  handled queue_item clock R
    (process_with_parser queue_item url_prefix parser_config clock R).1
    (process_with_parser queue_item url_prefix parser_config clock R).2.
Proof.
  intros Hdue Hwith. rewrite /process_with_parser.
  destruct (already_parsed _ R) eqn:Hp; [by eapply handled_skipped|].
  destruct (load_raw_html _) as [raw_content|e] eqn:Hl; [|by eapply handled_load_error].
  destruct (parse_content _ _) as [parsed_content|e] eqn:Hc; [|by eapply handled_parse_error].
  rewrite enqueue_links_spec /=. by eapply handled_success.
Qed.

Lemma create_url_prefix_handled queue_item clock R :
  due queue_item clock → without_parser queue_item R →
  handled queue_item clock R
    (create_url_prefix queue_item clock R).1 (create_url_prefix queue_item clock R).2.
Proof.
  intros Hdue Hwithout. rewrite /create_url_prefix.
  destruct (load_raw_html _) as [raw_content|e] eqn:Hl; [|by eapply handled_sample_error].
  by apply handled_requeued.
Qed.

(** The handler follows the rules. *)
Lemma process_url_queue_item_handled queue_item clock R :
  handled queue_item clock R
    (process_url_queue_item queue_item clock R).1 (process_url_queue_item queue_item clock R).2.
Proof.
  rewrite /process_url_queue_item. case_decide as Hdue; [by apply handled_deferred|].
  apply Z.nlt_ge in Hdue.
  destruct (find_prefix_for_url _ R) as [url_prefix|] eqn:Hf; last first.
  { apply create_url_prefix_handled; [done|]. by rewrite /without_parser Hf. }
  case_decide as Hcap; [by apply handled_dropped|]. apply Nat.nle_gt in Hcap.
  destruct (URLPrefix.parser_config url_prefix) as [parser_config|] eqn:Hc.
  - by apply process_with_parser_handled.
  - apply create_url_prefix_handled; [done|]. by rewrite /without_parser Hf.
Qed.

(** The rules determine the handler. *)
Lemma handled_process queue_item clock R result R' :
  handled queue_item clock R result R' →
  process_url_queue_item queue_item clock R = (result, R').
Proof.
  assert (∀ url_prefix parser_config,
    due queue_item clock → with_parser queue_item R url_prefix parser_config →
    process_url_queue_item queue_item clock R =
    process_with_parser queue_item url_prefix parser_config clock R) as Hwith.
  { intros p c Hdue (Hf & Hcap & Hc). rewrite /process_url_queue_item /due in Hdue |- *.
    rewrite decide_False; [lia|]. rewrite Hf decide_False; [lia|]. by rewrite Hc. }
  assert (due queue_item clock → without_parser queue_item R →
    process_url_queue_item queue_item clock R = create_url_prefix queue_item clock R) as Hwithout.
  { intros Hdue. rewrite /process_url_queue_item /without_parser /due in Hdue |- *.
    rewrite decide_False; [lia|]. destruct (find_prefix_for_url _ R); [|done].
    intros [Hcap ->]. rewrite decide_False //. lia. }
  destruct 1 as [Hd|p Hdue Hf Hcap|p c Hdue Hw Hp|p c e Hdue Hw Hp Hl|p c raw e Hdue Hw Hp Hl Hc
                |p c raw parsed url prefix row items Hdue Hw Hp Hl Hc|e Hdue Hw Hl|raw url pre Hdue Hw Hl].
  - by rewrite /process_url_queue_item decide_True.
  - rewrite /process_url_queue_item /due in Hdue |- *.
    rewrite decide_False; [lia|]. by rewrite Hf decide_True.
  - by rewrite (Hwith p c) // /process_with_parser Hp.
  - by rewrite (Hwith p c) // /process_with_parser Hp Hl.
  - by rewrite (Hwith p c) // /process_with_parser Hp Hl Hc.
  - by rewrite (Hwith p c) // (process_with_parser_Ok _ _ _ _ _ raw parsed).
  - by rewrite Hwithout // /create_url_prefix Hl.
  - by rewrite Hwithout // (create_url_prefix_Ok _ _ _ raw).
Qed.

(** *** What the rules preserve *)

Lemma handled_models queue_item clock R result R' :
  handled queue_item clock R result R' →
  models R' = models R ∨
  (∃ row items, R' = add_all items (save row R) ∧
      URL.prefix row = Some (default "" (URLPrefix.prefix <$>
        find_prefix_for_url (URL.url (URLQueueItem.url queue_item)) R)) ∧
      length (find_urls_with_prefix (default "" (URL.prefix row)) R) < url_limit) ∨
  (∃ prefix_obj : URLPrefix.t, models R' = models (save prefix_obj R)).
Proof.
  destruct 1 as [Hd|p Hdue Hf Hcap|p c Hdue Hw Hp|p c e Hdue Hw Hp Hl|p c raw e Hdue Hw Hp Hl Hc
                |p c raw parsed url prefix row items Hdue Hw Hp Hl Hc|e Hdue Hw Hl|raw url pre Hdue Hw Hl];
    try (by left).
  - right; left. destruct Hw as (Hf & Hcap & _). exists row, items. by rewrite Hf.
  - right; right. by exists pre.
Qed.

Lemma handled_wf queue_item clock R result R' :
  handled queue_item clock R result R' → wf R → wf R'.
Proof.
  intros [E|[(row & items & -> & _)|[p E]]]%handled_models Hwf.
  - by apply (wf_models R).
  - apply (wf_models (save row R)); [apply models_add_all|by apply wf_save].
  - apply (wf_models (save p R)); [done|by apply wf_save].
Qed.

Lemma cap_inv_save_row (row : URL.t) R :
  wf R → cap_inv R →
  length (find_urls_with_prefix (default "" (URL.prefix row)) R) < url_limit →
  cap_inv (save row R).
Proof.
  intros Hwf Hcap Hlt prefix.
  pose proof (length_find_urls_with_prefix_save prefix row R Hwf) as Hle.
  case_decide as Hp; [rewrite Hp /= in Hlt; lia|]. specialize (Hcap prefix). lia.
Qed.

(** Saving a model that is not a URL row adds no row to a prefix. *)
Lemma cap_inv_save_other {A} `{Storable A} (m : A) R :
  class_name URL.t ≠ class_name A → wf R → cap_inv R → cap_inv (save m R).
Proof.
  intros Hne Hwf Hcap prefix.
  rewrite (length_find_urls_with_prefix_ext prefix R) //; [by apply wf_save|].
  intros id. by apply load_save_other.
Qed.

Lemma cap_inv_save_prefix (prefix_obj : URLPrefix.t) R :
  wf R → cap_inv R → cap_inv (save prefix_obj R).
Proof. by apply cap_inv_save_other. Qed.

Lemma cap_inv_fewer_models R R' : fewer_models R R' → wf R → cap_inv R → cap_inv R'.
Proof. intros [Hsub _]. by apply cap_inv_subseteq. Qed.

Lemma handled_cap_inv queue_item clock R result R' :
  handled queue_item clock R result R' → wf R → cap_inv R → cap_inv R'.
Proof.
  intros [E|[(row & items & -> & _ & Hlt)|[p E]]]%handled_models Hwf Hcap.
  - by apply (cap_inv_models R).
  - apply (cap_inv_models (save row R)); [apply models_add_all|by apply cap_inv_save_row].
  - apply (cap_inv_models (save p R)); [done|by apply cap_inv_save_prefix].
Qed.

Lemma handled_wf_queues queue_item clock R result R' :
  handled queue_item clock R result R' → wf_queues R → wf_queues R'.
Proof.
  destruct 1; intros Hwf; try done.
  - by apply wf_queues_add_item.
  - by apply wf_queues_add_all, wf_queues_save.
  - by apply wf_queues_add_item, wf_queues_add_prefix, wf_queues_save.
Qed.

(** ** The handler *)

(** C2: [process_url_queue_item] returns a result and leaves a state exactly
    when a rule of [handled] gives them: the rules are the handler. *)
Theorem process_url_queue_item_iff queue_item clock R result R' :
  process_url_queue_item queue_item clock R = (result, R') ↔
  handled queue_item clock R result R'.
Proof.
  split; [|apply handled_process].
  intros E. pose proof (process_url_queue_item_handled queue_item clock R) as Hh.
  by rewrite E in Hh.
Qed.

(** C1: the handler keeps at most 20 URL rows for every prefix: a row is
    saved only under a prefix that has fewer than 20. *)
Theorem process_url_queue_item_cap queue_item clock R :
  wf R → cap_inv R → cap_inv (process_url_queue_item queue_item clock R).2.
Proof. eapply handled_cap_inv, process_url_queue_item_handled. Qed.

(** The handler keeps the keyspace and the two queues well formed. *)
Theorem process_url_queue_item_wf queue_item clock R :
  wf R → wf_queues R →
  wf (process_url_queue_item queue_item clock R).2 ∧
  wf_queues (process_url_queue_item queue_item clock R).2.
Proof.
  intros Hwf Hq. pose proof (process_url_queue_item_handled queue_item clock R) as Hh.
  split; [by eapply handled_wf|by eapply handled_wf_queues].
Qed.

(** C7: an item that is not due is put back at the tail of its queue as it
    was, with the same time stamp and the same count, and nothing else
    changes. *)
Theorem process_url_queue_item_deferred queue_item clock R :
  (clock 0%nat < URLQueueItem.process_from_unix_timestamp queue_item)%Z →
  let '(result, R') := process_url_queue_item queue_item clock R in
  result = Deferred (URL.url (URLQueueItem.url queue_item)) ∧
  absq item_queue R' = absq item_queue R ++ [dump queue_item] ∧
  absq prefix_queue R' = absq prefix_queue R ∧
  models R' = models R.
Proof.
  intros Hd. rewrite (handled_process _ _ _ _ _ (handled_deferred _ _ _ Hd)).
  split_and!; [done|apply (absq_add_to_queue queue_item None)| |done].
  by rewrite /absq (get_queue_add_ne queue_item None).
Qed.

(** Once the prefix of the URL has 20 rows, the item is dropped: the
    result is [Dropped] with the prefix and the count, nothing is saved and
    nothing is queued. *)
Theorem process_url_queue_item_dropped queue_item clock R url_prefix :
  due queue_item clock →
  find_prefix_for_url (URL.url (URLQueueItem.url queue_item)) R = Some url_prefix →
  url_limit ≤ length (find_urls_with_prefix (URLPrefix.prefix url_prefix) R) →
  process_url_queue_item queue_item clock R =
  (Dropped (URL.url (URLQueueItem.url queue_item)) (URLPrefix.prefix url_prefix)
           (length (find_urls_with_prefix (URLPrefix.prefix url_prefix) R)), R).
Proof. intros Hdue Hf Hcap. by apply handled_process, handled_dropped. Qed.

(** C29: a dropped, skipped or failed item leaves the state as it was: the
    item is gone from the queue and is not queued again, also when the fetch
    fails before any prefix exists. *)
Theorem process_url_queue_item_discarded queue_item clock R :
  match (process_url_queue_item queue_item clock R).1 with
  | Dropped _ _ _ | Skipped _ | Error _ _ => (process_url_queue_item queue_item clock R).2 = R
  | Deferred _ | Success _ _ _ _ | Requeued _ _ _ => True
  end.
Proof. by destruct (process_url_queue_item_handled queue_item clock R). Qed.

(** C8: with a parser configuration, a page that is fetched and parsed
    is saved with its raw and parsed content under the prefix; every link
    of the page below the prefix that is not stored with parsed content is
    pushed once, in the order of the page, as a new item that is due at
    once; the count returned is the number of items pushed. *)
Theorem process_url_queue_item_success queue_item clock R url_prefix parser_config
    raw_content parsed_content :
  let url := URL.url (URLQueueItem.url queue_item) in
  let prefix := URLPrefix.prefix url_prefix in
  let row := URL.mk url (Some prefix) (Some raw_content) (Some parsed_content) in
  let links := extract_links_from_html raw_content url prefix in
  due queue_item clock → with_parser queue_item R url_prefix parser_config →
  already_parsed url R = false →
  load_raw_html url = Ok raw_content →
  parse_content parser_config raw_content = Ok parsed_content →
  ∃ items R',
    process_url_queue_item queue_item clock R =
      (Success url parsed_content prefix (length items), R') ∧
    load URL.t url R' = Some row ∧
    (∀ id, id ≠ url → load URL.t id R' = load URL.t id R) ∧
    absq item_queue R' = absq item_queue R ++ (dump <$> items) ∧
    absq prefix_queue R' = absq prefix_queue R ∧
    URL.url ∘ URLQueueItem.url <$> items =
      filter (λ link_url, already_parsed link_url R' = false) links ∧
    ∀ i item, items !! i = Some item →
      URLQueueItem.times_queued item = 0%Z ∧
      URLQueueItem.process_from_unix_timestamp item = clock (S i) ∧
      URLQueueItem.url item = URL.make (URL.url (URLQueueItem.url item)) (Some prefix).
Proof.
  intros url prefix row links Hdue Hw Hp Hl Hc.
  pose proof (handled_success _ _ _ _ _ _ _ Hdue Hw Hp Hl Hc) as Hh%handled_process.
  eexists _, _. split; [exact Hh|]. fold url prefix row links.
  set (R1 := save row R). set (items := link_items links prefix clock 1 R1).
  assert (models (add_all items R1) = models R1) as Hm by apply models_add_all.
  split_and!.
  - rewrite (load_models (A:=URL.t) url R1 _ Hm). by apply load_save_id.
  - intros id Hid. rewrite (load_models (A:=URL.t) id R1 _ Hm). by apply (load_save_ne row).
  - by rewrite (absq_add_all items R1).
  - by rewrite absq_add_all_ne.
  - rewrite link_items_urls. apply list_filter_iff. intros link_url.
    by rewrite (already_parsed_models _ R1).
  - intros i item. rewrite /items /link_items list_lookup_imap_Some.
    by intros (link_url & _ & ->).
Qed.

(** C9: without a parser configuration, a page that is fetched becomes the
    last sample of the prefix stored under its deepest prefix (appended to
    the stored one, or the first of a new one); the prefix is pushed on
    the generation queue and the item is pushed again, due 30 seconds
    after the second reading of the clock, with its count increased by
    one; no URL row changes. *)
Theorem process_url_queue_item_requeued queue_item clock R raw_content :
  let url := URL.url (URLQueueItem.url queue_item) in
  let prefix_obj := prefix_with_sample url raw_content R in
  wf R → due queue_item clock → without_parser queue_item R →
  load_raw_html url = Ok raw_content →
  ∃ R',
    process_url_queue_item queue_item clock R =
      (Requeued url (clock 1%nat + 30)%Z (URLQueueItem.times_queued queue_item + 1)%Z, R') ∧
    load URLPrefix.t (get_deepest_prefix url) R' = Some prefix_obj ∧
    last (URLPrefix.sample_urls prefix_obj) = Some (SampleURL.make url raw_content) ∧
    absq prefix_queue R' = absq prefix_queue R ++ [dump prefix_obj] ∧
    absq item_queue R' = absq item_queue R ++ [dump (requeued queue_item clock)] ∧
    (∀ id, load URL.t id R' = load URL.t id R).
Proof.
  intros url prefix_obj Hwf Hdue Hw Hl.
  pose proof (handled_requeued _ _ _ _ Hdue Hw Hl) as Hh%handled_process.
  eexists. split; [exact Hh|]. fold url prefix_obj.
  set (R1 := save prefix_obj R). set (R2 := (add_to_queue prefix_obj None R1).2).
  split_and!.
  - rewrite (load_models (A:=URLPrefix.t) _ R1) //.
    apply load_save_id. by apply prefix_with_sample_prefix.
  - apply prefix_with_sample_last.
  - rewrite /absq (get_queue_add_ne (requeued queue_item clock) None) //.
    apply (absq_add_to_queue prefix_obj None R1).
  - rewrite (absq_add_to_queue (requeued queue_item clock) None R2) /Spec.push. f_equal.
    by rewrite /absq (get_queue_add_ne prefix_obj None).
  - intros id. rewrite (load_models (A:=URL.t) _ R1) //. by apply (load_save_other prefix_obj).
Qed.

(** After a re-queue, the lookup of the prefix of the same URL
    succeeds whenever the deepest prefix of the URL is one of its
    candidates: the next visit of the item finds the prefix that this
    visit stored. *)
Theorem requeued_finds_prefix queue_item clock R :
  let url := URL.url (URLQueueItem.url queue_item) in
  wf R →
  (∃ t q, (process_url_queue_item queue_item clock R).1 = Requeued url t q) →
  get_deepest_prefix url ∈ candidates url →
  is_Some (find_prefix_for_url url (process_url_queue_item queue_item clock R).2).
Proof.
  intros url Hwf (t & q & Hres) Hc.
  destruct (process_url_queue_item_handled queue_item clock R); try done.
  eapply find_prefix_for_url_is_Some; [exact Hc|].
  rewrite (load_models (A:=URLPrefix.t) _ (save prefix_obj R)) //.
  apply load_save_id. by apply prefix_with_sample_prefix.
Qed.

(** ** The loop *)

Lemma run_iteration_paused clock R :
  is_system_running R = false → run_iteration clock R = (Paused, R).
Proof. rewrite /run_iteration. by intros ->. Qed.

(** While the system is not running the worker does nothing: every
    turn of the loop is a pause and the state stays as it is. *)
Theorem run_paused n clocks R :
  is_system_running R = false → run n clocks R = (replicate n Paused, R).
Proof.
  intros Hp. revert clocks. induction n as [|n IH]; intros clocks; [done|].
  by rewrite /= run_iteration_paused // IH.
Qed.

(** A turn of the running worker takes the oldest item of the queue and
    handles it in the state without it; on an empty queue the turn is
    idle and changes nothing. *)
Theorem run_iteration_oldest clock R :
  is_system_running R = true →
  match absq item_queue R with
  | [] => run_iteration clock R = (Idle, R)
  | p :: q =>
      let R0 := (get_from_queue URLQueueItem.t None R).2 in
      models R0 = models R ∧ absq item_queue R0 = q ∧
      absq prefix_queue R0 = absq prefix_queue R ∧
      ∀ queue_item, p = dump queue_item →
        run_iteration clock R =
        (Processed queue_item (process_url_queue_item queue_item clock R0).1,
         (process_url_queue_item queue_item clock R0).2)
  end.
Proof.
  intros Hrun. rewrite /run_iteration Hrun /=.
  pose proof (absq_get_from_queue (A:=URLQueueItem.t) None R) as Hpop.
  change (qname None) with item_queue in Hpop.
  destruct (absq item_queue R) as [|p q] eqn:Hq; simpl in Hpop.
  - rewrite get_from_queue_empty //. by apply (inj reverse).
  - destruct Hpop as [Hx Hq']. split_and!; [apply models_get_from_queue|done| |].
    + rewrite /get_from_queue. destruct (pop_last _) as [[? ?]|]; [|done].
      by rewrite /absq /= get_put_queue_ne.
    + intros queue_item ->. simpl in Hx.
      destruct (get_from_queue URLQueueItem.t None R) as [x R0]. simpl in *. subst x.
      by destruct (process_url_queue_item queue_item clock R0).
Qed.

Lemma run_iteration_invariant clock R :
  wf R ∧ wf_queues R ∧ cap_inv R →
  wf (run_iteration clock R).2 ∧ wf_queues (run_iteration clock R).2 ∧
  cap_inv (run_iteration clock R).2.
Proof.
  intros (Hwf & Hq & Hcap). rewrite /run_iteration.
  destruct (is_system_running R); [|done]. simpl.
  pose proof (models_get_from_queue (A:=URLQueueItem.t) None R) as Hm.
  pose proof (wf_queues_get (A:=URLQueueItem.t) R Hq) as Hq0.
  destruct (get_from_queue URLQueueItem.t None R) as [[queue_item|] R0]; simpl in *.
  - pose proof (process_url_queue_item_handled queue_item clock R0) as Hh.
    destruct (process_url_queue_item queue_item clock R0) as [result R']. simpl in *.
    assert (wf R0) by by apply (wf_models R). assert (cap_inv R0) by by apply (cap_inv_models R).
    split_and!; [by eapply handled_wf|by eapply handled_wf_queues|by eapply handled_cap_inv].
  - split_and!; [by apply (wf_models R)|done|by apply (cap_inv_models R)].
Qed.

(** Every state the worker reaches from a state that is well formed
    and within the cap is well formed and within the cap, whatever the
    environment answers and the clock reads. *)
Theorem run_invariant n clocks R :
  wf R → wf_queues R → cap_inv R →
  wf (run n clocks R).2 ∧ wf_queues (run n clocks R).2 ∧ cap_inv (run n clocks R).2.
Proof.
  intros Hwf Hq Hcap. assert (wf R ∧ wf_queues R ∧ cap_inv R) as Hinv by done.
  clear Hwf Hq Hcap. revert clocks R Hinv. induction n as [|n IH]; intros clocks R Hinv; [done|].
  simpl. apply (run_iteration_invariant (clocks 0)) in Hinv.
  destruct (run_iteration (clocks 0) R) as [turn R1]. simpl in Hinv.
  specialize (IH (λ i, clocks (S i)) R1 Hinv). by destruct (run n _ R1).
Qed.

End worker_lemmas.

(** ** A small world

    One site: every page whose address does not hold the word [missing] is
    fetched as a list of references separated by blanks, which are its
    anchors; the extraction answers the text [text] unless the page is
    empty.  The clock reads 1000, 1001, ... *)

Definition example_env : Env := {|
  env_urllib := SimpleUrl (λ html, Ok (Py.split " "%char html));
  env_extractor := λ _ raw, if decide (raw = "") then Err "no text" else Ok "text";
  load_raw_html := λ url,
    if Py.contains "missing" url then Err "404" else Ok "next.html /docs/b.html /blog/c.html";
|}.

Definition example_clock : nat → Z := λ n, (1000 + Z.of_nat n)%Z.

Definition example_config : ParserConfig.t :=
  ParserConfig.make (ParserParameters.make ["main"] [] ["script"] []) "https://a.com/docs".

Definition docs_prefix : URLPrefix.t :=
  URLPrefix.with_parser_config (Some example_config) (URLPrefix.make "https://a.com/docs" []).

Definition docs_redis : Redis := save docs_prefix empty_redis.

Definition item_of (url : string) : URLQueueItem.t := URLQueueItem.make (URL.make url None) 100 0.

Definition intro_item : URLQueueItem.t := item_of "https://a.com/docs/intro.html".

(** Twenty rows under the prefix of the documentation. *)
Definition full_redis : Redis :=
  foldr (λ i, save (URL.mk ("https://a.com/docs/" +:+ String (ascii_of_nat (97 + i)) "")
                           (Some "https://a.com/docs") None (Some "text")))
        docs_redis (seq 0 20).

Lemma wf_docs_redis : wf docs_redis.
Proof. apply wf_save, wf_empty. Qed.

Lemma wf_full_redis : wf full_redis.
Proof.
  rewrite /full_redis. induction (seq 0 20) as [|i l IH]; [apply wf_docs_redis|].
  by apply wf_save.
Qed.

Lemma cap_inv_full_redis : cap_inv full_redis.
Proof.
  intros prefix. rewrite /full_redis.
  assert (∀ l, length l ≤ 20 → length (find_urls_with_prefix prefix
            (foldr (λ i, save (URL.mk ("https://a.com/docs/" +:+ String (ascii_of_nat (97 + i)) "")
                                     (Some "https://a.com/docs") None (Some "text")))
                   docs_redis l)) ≤ length l) as Hlen; [|by apply (Hlen (seq 0 20))].
  induction l as [|i l IH]; intros Hl; [by vm_compute|]. simpl in *.
  etrans; [apply length_find_urls_with_prefix_save|].
  - clear IH Hl. induction l as [|j l IH]; [apply wf_docs_redis|by apply wf_save].
  - specialize (IH ltac:(lia)). case_decide; lia.
Qed.

Lemma process_url_queue_item_cap_witness :
  cap_inv (process_url_queue_item (H:=example_env) intro_item example_clock full_redis).2.
Proof. apply process_url_queue_item_cap; [apply wf_full_redis|apply cap_inv_full_redis]. Defined.

Lemma process_url_queue_item_wf_witness :
  wf (process_url_queue_item (H:=example_env) intro_item example_clock docs_redis).2 ∧
  wf_queues (process_url_queue_item (H:=example_env) intro_item example_clock docs_redis).2.
Proof.
  apply process_url_queue_item_wf; [apply wf_docs_redis|].
  apply wf_queues_save, wf_queues_empty.
Defined.

Lemma process_url_queue_item_deferred_witness :
  let '(result, R') :=
    process_url_queue_item (H:=example_env) intro_item (λ _, 99%Z) docs_redis in
  result = Deferred "https://a.com/docs/intro.html" ∧
  absq item_queue R' = absq item_queue docs_redis ++ [dump intro_item] ∧
  absq prefix_queue R' = absq prefix_queue docs_redis ∧
  models R' = models docs_redis.
Proof. by apply (process_url_queue_item_deferred (H:=example_env) intro_item (λ _, 99%Z)). Defined.

Lemma process_url_queue_item_dropped_witness :
  process_url_queue_item (H:=example_env) intro_item example_clock full_redis =
  (Dropped "https://a.com/docs/intro.html" "https://a.com/docs" 20, full_redis).
Proof.
  apply (process_url_queue_item_dropped (H:=example_env) intro_item example_clock full_redis
           docs_prefix); [by vm_compute|by vm_compute|vm_compute; lia].
Defined.

Lemma process_url_queue_item_success_witness :
  ∃ items R',
    process_url_queue_item (H:=example_env) intro_item example_clock docs_redis =
      (Success "https://a.com/docs/intro.html" "text" "https://a.com/docs" (length items), R') ∧
    load URL.t "https://a.com/docs/intro.html" R' =
      Some (URL.mk "https://a.com/docs/intro.html" (Some "https://a.com/docs")
                   (Some "next.html /docs/b.html /blog/c.html") (Some "text")) ∧
    (∀ id, id ≠ "https://a.com/docs/intro.html" → load URL.t id R' = load URL.t id docs_redis) ∧
    absq item_queue R' = absq item_queue docs_redis ++ (dump <$> items) ∧
    absq prefix_queue R' = absq prefix_queue docs_redis ∧
    URL.url ∘ URLQueueItem.url <$> items =
      filter (λ link_url, already_parsed link_url R' = false)
        (extract_links_from_html (H:=@env_urllib example_env)
           "next.html /docs/b.html /blog/c.html"
           "https://a.com/docs/intro.html" "https://a.com/docs") ∧
    ∀ i item, items !! i = Some item →
      URLQueueItem.times_queued item = 0%Z ∧
      URLQueueItem.process_from_unix_timestamp item = example_clock (S i) ∧
      URLQueueItem.url item =
        URL.make (URL.url (URLQueueItem.url item)) (Some "https://a.com/docs").
Proof.
  apply (process_url_queue_item_success (H:=example_env) intro_item example_clock docs_redis
           docs_prefix example_config); try by vm_compute.
  split_and!; [by vm_compute|vm_compute; lia|by vm_compute].
Defined.

Definition guide_item : URLQueueItem.t := item_of "https://a.com/guide/start.html".

Lemma process_url_queue_item_requeued_witness :
  ∃ R',
    process_url_queue_item (H:=example_env) guide_item example_clock docs_redis =
      (Requeued "https://a.com/guide/start.html" 1031 1, R') ∧
    load URLPrefix.t "https://a.com/guide" R' =
      Some (URLPrefix.make "https://a.com/guide"
              [SampleURL.make "https://a.com/guide/start.html" "next.html /docs/b.html /blog/c.html"]) ∧
    last (URLPrefix.sample_urls
            (prefix_with_sample "https://a.com/guide/start.html"
               "next.html /docs/b.html /blog/c.html" docs_redis)) =
      Some (SampleURL.make "https://a.com/guide/start.html" "next.html /docs/b.html /blog/c.html") ∧
    absq prefix_queue R' =
      absq prefix_queue docs_redis ++
      [dump (prefix_with_sample "https://a.com/guide/start.html"
               "next.html /docs/b.html /blog/c.html" docs_redis)] ∧
    absq item_queue R' = absq item_queue docs_redis ++ [dump (requeued guide_item example_clock)] ∧
    (∀ id, load URL.t id R' = load URL.t id docs_redis).
Proof.
  apply (process_url_queue_item_requeued (H:=example_env) guide_item example_clock docs_redis
           "next.html /docs/b.html /blog/c.html"); [apply wf_docs_redis|by vm_compute..].
Defined.

Lemma requeued_finds_prefix_witness :
  is_Some (find_prefix_for_url "https://a.com/guide/start.html"
             (process_url_queue_item (H:=example_env) guide_item example_clock docs_redis).2).
Proof.
  apply (requeued_finds_prefix (H:=example_env) guide_item example_clock docs_redis).
  - apply wf_docs_redis.
  - by exists 1031%Z, 1%Z.
  - by apply (bool_decide_unpack _).
Defined.

Definition paused_redis : Redis :=
  mkRedis (models docs_redis) None (Some "PAUSE") (queues (add_to_queue intro_item None docs_redis).2).

Lemma run_paused_witness :
  run (H:=example_env) 5 (λ _, example_clock) paused_redis = (replicate 5 Paused, paused_redis).
Proof. by apply run_paused. Defined.

Lemma run_iteration_oldest_witness :
  match absq item_queue (add_to_queue intro_item None docs_redis).2 with
  | [] => run_iteration (H:=example_env) example_clock (add_to_queue intro_item None docs_redis).2 =
          (Idle, (add_to_queue intro_item None docs_redis).2)
  | p :: q =>
      let R := (add_to_queue intro_item None docs_redis).2 in
      let R0 := (get_from_queue URLQueueItem.t None R).2 in
      models R0 = models R ∧ absq item_queue R0 = q ∧
      absq prefix_queue R0 = absq prefix_queue R ∧
      ∀ queue_item, p = dump queue_item →
        run_iteration (H:=example_env) example_clock R =
        (Processed queue_item
           (process_url_queue_item (H:=example_env) queue_item example_clock R0).1,
         (process_url_queue_item (H:=example_env) queue_item example_clock R0).2)
  end.
Proof. by apply (run_iteration_oldest (H:=example_env) example_clock). Defined.

Lemma run_invariant_witness :
  let R' := (run (H:=example_env) 3 (λ _, example_clock)
               (add_to_queue intro_item None docs_redis).2).2 in
  wf R' ∧ wf_queues R' ∧ cap_inv R'.
Proof.
  apply (run_invariant (H:=example_env) 3 (λ _, example_clock)).
  - apply wf_docs_redis.
  - apply wf_queues_add_item, wf_queues_save, wf_queues_empty.
  - apply (cap_inv_models docs_redis); [done|]. intros prefix. vm_compute. lia.
Defined.

(** ** What the examples show *)

(** A page that cannot be fetched before any prefix exists is not queued
    again: the item is lost. *)
Example fetch_error_without_prefix :
  process_url_queue_item (H:=example_env) (item_of "https://a.com/missing") example_clock
    empty_redis =
  (Error "https://a.com/missing" "Failed to create URLPrefix: 404", empty_redis).
Proof. by vm_compute. Qed.

(** A URL with a query directly after the domain is stored as a sample of
    a prefix that the lookup never tries for it: each visit re-queues the
    item and appends the same sample once more. *)
Example query_url_requeued_again :
  let item := item_of "https://a.com?x=1" in
  let R1 := (process_url_queue_item (H:=example_env) item example_clock empty_redis).2 in
  let R2 := (process_url_queue_item (H:=example_env) item example_clock R1).2 in
  find_prefix_for_url "https://a.com?x=1" R1 = None ∧
  find_prefix_for_url "https://a.com?x=1" R2 = None ∧
  (length ∘ URLPrefix.sample_urls) <$> load URLPrefix.t "https://a.com" R1 = Some 1 ∧
  (length ∘ URLPrefix.sample_urls) <$> load URLPrefix.t "https://a.com" R2 = Some 2.
Proof. by vm_compute. Qed.

(** The root page of a domain, written with its slash, is stored under the
    prefix ["https:/"], which the lookup then finds for the pages of every
    other https site. *)
Example domain_root_prefix_captures :
  let R1 := (process_url_queue_item (H:=example_env) (item_of "https://a.com/") example_clock
               empty_redis).2 in
  URLPrefix.prefix <$> find_prefix_for_url "https://b.org/page" R1 = Some "https:/".
Proof. by vm_compute. Qed.
