(* ===== verification/GenWorker.v ===== *)
(** * The parser generation worker
    (src/backend/workers/parser_generation_worker.py, lines 25-169)

    The worker takes [URLPrefix] jobs from the generation queue.  A job is
    the copy of the prefix that was pushed, not the stored one:
    [process_url_prefix_job] loads the stored prefix to decide (skip when
    it is in progress, reset and continue with the stored copy when it
    failed, continue with the job in every other case), marks the prefix in
    progress, generates, and saves the prefix as completed with the new
    configuration or as failed.

    The synthesizer is the interface [Synth]: the YAML loader
    [from_config] and [run_generator], the call
    [ParserGenerator(config).generate_parser(url_prefix).config]; a raised
    exception is [Err] with its message.

    The theorems give the result and the state of each branch, the status
    the stored prefix is left with, the invariants of the store and what
    happens to a prefix that was completed when one more job for it is
    taken from the queue. *)

From stdpp Require Import gmap.
From S2P Require Import Prelude PyString DataModels Store Queue.

(** ** The synthesizer *)

Class Synth := {
  from_config : string → Result ParserGeneratorConfig.t;
  run_generator : ParserGeneratorConfig.t → URLPrefix.t → Result ParserConfig.t;
}.

(** The dictionaries that [process_url_prefix_job] returns, by their status. *)
Inductive JobResult :=
  | JobSkipped (url_prefix_id : string)
  | JobSuccess (url_prefix_id : string) (parser_config : option ParserConfig.t)
  | JobError (url_prefix_id error : string).

#[export] Instance JobResult_eq_dec : EqDecision JobResult.
Proof. solve_decision. Defined.

Section worker.
Context `{Synth}.
Implicit Types R : Redis.
Implicit Types url_prefix : URLPrefix.t.

(** [get_production_generator_config()]. *)
Definition get_production_generator_config R : Result ParserGeneratorConfig.t :=
  let config_name := get_production_config R in
  if truthy config_name then from_config (default "" config_name)
  else Err "No production config set".

(** [reset_failed_url_prefix(url_prefix)]: the prefix as it is afterwards,
    and the state. *)
Definition reset_failed_url_prefix url_prefix R : URLPrefix.t * Redis :=
  let url_prefix := URLPrefix.with_status None url_prefix in
  (url_prefix, save url_prefix R).

(** [generate_parser_for_url_prefix(url_prefix)]. *)
Definition generate_parser_for_url_prefix url_prefix R : Result URLPrefix.t :=
  match get_production_generator_config R with
  | Err e => Err e
  | Ok generator_config =>
      match run_generator generator_config url_prefix with
      | Err e => Err e
      | Ok parser_config => Ok (URLPrefix.with_parser_config (Some parser_config) url_prefix)
      end
  end.

(** Lines 93-128: mark, generate, and save as completed or as failed. *)
Definition generate_and_save url_prefix R : JobResult * Redis :=
  let url_prefix := URLPrefix.with_status (Some "in_progress") url_prefix in
  let R := save url_prefix R in
  match generate_parser_for_url_prefix url_prefix R with
  | Ok updated_url_prefix =>
      let updated_url_prefix := URLPrefix.with_status (Some "completed") updated_url_prefix in
      (JobSuccess (URLPrefix.prefix url_prefix) (URLPrefix.parser_config updated_url_prefix),
       save updated_url_prefix R)
  | Err e =>
      let url_prefix := URLPrefix.with_status (Some "failed") url_prefix in
      (JobError (URLPrefix.prefix url_prefix) e, save url_prefix R)
  end.

(** [process_url_prefix_job(url_prefix)]. *)
Definition process_url_prefix_job url_prefix R : JobResult * Redis :=
  match load URLPrefix.t (URLPrefix.prefix url_prefix) R with
  | Some existing_prefix =>
      if decide (URLPrefix.processing_status existing_prefix = Some "in_progress")
      then (JobSkipped (URLPrefix.prefix url_prefix), R)
      else if decide (URLPrefix.processing_status existing_prefix = Some "failed")
      then
        let '(existing_prefix, R) := reset_failed_url_prefix existing_prefix R in
        generate_and_save existing_prefix R
      else generate_and_save url_prefix R
  | None => generate_and_save url_prefix R
  end.

(** ** The loop *)

Inductive JobTurn :=
  | JobPaused
  | JobIdle
  | JobProcessed (url_prefix : URLPrefix.t) (result : JobResult).

(** Lines 135-162: one turn. *)
Definition job_iteration R : JobTurn * Redis :=
  if negb (is_system_running R) then (JobPaused, R)
  else
    match get_from_queue URLPrefix.t None R with
    | (None, R) => (JobIdle, R)
    | (Some url_prefix, R) =>
        let '(result, R) := process_url_prefix_job url_prefix R in
        (JobProcessed url_prefix result, R)
    end.

(** [n] turns of the loop of [run]. *)
Fixpoint job_run (n : nat) R : list JobTurn * Redis :=
  match n with
  | O => ([], R)
  | S n =>
      let '(turn, R) := job_iteration R in
      let '(turns, R) := job_run n R in
      (turn :: turns, R)
  end.

End worker.

(** ** What a job leaves in the store *)

(** The prefix as [generate_and_save] leaves it: completed with the
    generated configuration, or failed with the configuration it had. *)
Definition completed (parser_config : ParserConfig.t) (url_prefix : URLPrefix.t) : URLPrefix.t :=
  URLPrefix.with_status (Some "completed")
    (URLPrefix.with_parser_config (Some parser_config) url_prefix).

Definition failed (url_prefix : URLPrefix.t) : URLPrefix.t :=
  URLPrefix.with_status (Some "failed") url_prefix.

(** Saving prefixes one after the other. *)
Definition save_all (ps : list URLPrefix.t) (R : Redis) : Redis :=
  foldl (λ R p, save p R) R ps.

Lemma save_all_app ps qs R : save_all (ps ++ qs) R = save_all qs (save_all ps R).
Proof. apply foldl_app. Qed.

Lemma wf_save_all ps R : wf R → wf (save_all ps R).
Proof. revert R. induction ps as [|p ps IH]; intros R Hwf; [done|]. by apply IH, wf_save. Qed.

Lemma wf_queues_save_all ps R : wf_queues R → wf_queues (save_all ps R).
Proof.
  revert R. induction ps as [|p ps IH]; intros R Hwf; [done|]. by apply IH, wf_queues_save.
Qed.

Lemma load_save_all_other {B} `{HasId B} ps id R :
  class_name B ≠ class_name URLPrefix.t → load B id (save_all ps R) = load B id R.
Proof.
  intros Hne. revert R. induction ps as [|p ps IH]; intros R; [done|].
  by rewrite /= IH (load_save_other p).
Qed.

Lemma queues_save_all ps R : queues (save_all ps R) = queues R.
Proof. revert R. induction ps as [|p ps IH]; intros R; [done|]. by rewrite /= IH. Qed.

Lemma singletons_save_all ps R :
  production_config (save_all ps R) = production_config R ∧
  system_state (save_all ps R) = system_state R.
Proof.
  revert R. induction ps as [|p ps IH]; intros R; [done|].
  by rewrite /= !(proj1 (IH _)) !(proj2 (IH _)).
Qed.

(** The last prefix saved under an id is the one that is loaded. *)
Lemma load_save_all_last ps p R :
  load URLPrefix.t (URLPrefix.prefix p) (save_all (ps ++ [p]) R) = Some p.
Proof. rewrite save_all_app /=. by apply load_save_id. Qed.

Section worker_lemmas.
Context `{Synth}.
Implicit Types R : Redis.
Implicit Types url_prefix job : URLPrefix.t.

(** The configuration is read from the singleton, which no save changes. *)
Lemma get_production_generator_config_save url_prefix R :
  get_production_generator_config (save url_prefix R) = get_production_generator_config R.
Proof. done. Qed.

Lemma generate_and_save_Ok url_prefix R generator_config parser_config :
  let marked := URLPrefix.with_status (Some "in_progress") url_prefix in
  get_production_generator_config R = Ok generator_config →
  run_generator generator_config marked = Ok parser_config →
  generate_and_save url_prefix R =
  (JobSuccess (URLPrefix.prefix url_prefix) (Some parser_config),
   save_all [marked; completed parser_config url_prefix] R).
Proof.
  intros marked Hc Hg.
  by rewrite /generate_and_save /generate_parser_for_url_prefix
       get_production_generator_config_save Hc Hg.
Qed.

Lemma generate_and_save_Err url_prefix R e :
  let marked := URLPrefix.with_status (Some "in_progress") url_prefix in
  generate_parser_for_url_prefix marked (save marked R) = Err e →
  generate_and_save url_prefix R =
  (JobError (URLPrefix.prefix url_prefix) e, save_all [marked; failed url_prefix] R).
Proof. intros marked He. by rewrite /generate_and_save He. Qed.

(** [generate_and_save] ends in one of two ways. *)
Lemma generate_and_save_cases url_prefix R :
  let marked := URLPrefix.with_status (Some "in_progress") url_prefix in
  (∃ generator_config parser_config,
     get_production_generator_config R = Ok generator_config ∧
     run_generator generator_config marked = Ok parser_config ∧
     generate_and_save url_prefix R =
       (JobSuccess (URLPrefix.prefix url_prefix) (Some parser_config),
        save_all [marked; completed parser_config url_prefix] R)) ∨
  (∃ e, generate_parser_for_url_prefix marked (save marked R) = Err e ∧
     generate_and_save url_prefix R =
       (JobError (URLPrefix.prefix url_prefix) e, save_all [marked; failed url_prefix] R)).
Proof.
  intros marked.
  destruct (generate_parser_for_url_prefix marked (save marked R)) as [u|e] eqn:Hg; last first.
  { right. exists e. split; [done|]. by apply generate_and_save_Err. }
  left. move: Hg. rewrite /generate_parser_for_url_prefix get_production_generator_config_save.
  destruct (get_production_generator_config R) as [generator_config|] eqn:Hc; [|done].
  destruct (run_generator generator_config marked) as [parser_config|] eqn:Hp; [|done].
  intros _. exists generator_config, parser_config. split_and!; [done..|].
  by apply (generate_and_save_Ok _ _ generator_config).
Qed.

(** The prefix with which the generation runs: the stored copy after a
    failure, the job otherwise; [None] when the job is skipped. *)
Definition job_subject job R : option (URLPrefix.t * list URLPrefix.t) :=
  match load URLPrefix.t (URLPrefix.prefix job) R with
  | Some existing_prefix =>
      if decide (URLPrefix.processing_status existing_prefix = Some "in_progress") then None
      else if decide (URLPrefix.processing_status existing_prefix = Some "failed")
      then Some (URLPrefix.with_status None existing_prefix,
                 [URLPrefix.with_status None existing_prefix])
      else Some (job, [])
  | None => Some (job, [])
  end.

Lemma process_url_prefix_job_subject job R :
  process_url_prefix_job job R =
  match job_subject job R with
  | None => (JobSkipped (URLPrefix.prefix job), R)
  | Some (url_prefix, resets) => generate_and_save url_prefix (save_all resets R)
  end.
Proof.
  rewrite /process_url_prefix_job /job_subject.
  destruct (load URLPrefix.t _ R) as [existing_prefix|]; [|done].
  by repeat case_decide.
Qed.

Lemma job_subject_prefix job R url_prefix resets :
  wf R → job_subject job R = Some (url_prefix, resets) →
  URLPrefix.prefix url_prefix = URLPrefix.prefix job ∧
  Forall (λ q, URLPrefix.prefix q = URLPrefix.prefix job) resets.
Proof.
  intros Hwf. rewrite /job_subject.
  destruct (load URLPrefix.t _ R) as [existing_prefix|] eqn:Hl; last first.
  { intros [= <- <-]. by split. }
  apply load_wf in Hl; [|done]. repeat case_decide; intros [= <- <-]; try done.
  split; [done|]. by repeat constructor.
Qed.

Lemma job_subject_None job R :
  job_subject job R = None ↔
  ∃ existing_prefix, load URLPrefix.t (URLPrefix.prefix job) R = Some existing_prefix ∧
    URLPrefix.processing_status existing_prefix = Some "in_progress".
Proof.
  rewrite /job_subject. destruct (load URLPrefix.t _ R) as [existing_prefix|]; last first.
  { split; [done|]. by intros (? & [=] & _). }
  repeat case_decide; split; try done; try by eexists.
  all: intros (? & [= <-] & ?); congruence.
Qed.

(** The state after a job: the saves of the job, applied to the state before. *)
Lemma process_url_prefix_job_saves job R :
  wf R →
  ∃ ps, (process_url_prefix_job job R).2 = save_all ps R ∧
        Forall (λ q, URLPrefix.prefix q = URLPrefix.prefix job) ps.
Proof.
  intros Hwf. rewrite process_url_prefix_job_subject.
  destruct (job_subject job R) as [[url_prefix resets]|] eqn:Hs; [|by exists []].
  destruct (job_subject_prefix _ _ _ _ Hwf Hs) as [Hp Hr].
  destruct (generate_and_save_cases url_prefix (save_all resets R))
    as [(g & c & _ & _ & ->)|(e & _ & ->)]; simpl.
  all: eexists (resets ++ [_; _]); rewrite save_all_app; split; [done|].
  all: apply Forall_app; split; [done|]; by repeat constructor.
Qed.

(** C10: a job ends in one of three ways.  It is skipped, with the state
    unchanged, exactly when the stored prefix is in progress.  Otherwise the
    generation runs on the stored copy after a failure and on the job in
    every other case, and the prefix is stored as completed with the
    generated configuration or as failed: no job that runs leaves the
    prefix in progress. *)
Theorem process_url_prefix_job_spec job R :
  wf R →
  let '(result, R') := process_url_prefix_job job R in
  match result with
  | JobSkipped id =>
      id = URLPrefix.prefix job ∧ R' = R ∧ job_subject job R = None
  | JobSuccess id parser_config =>
      id = URLPrefix.prefix job ∧
      ∃ url_prefix resets c, job_subject job R = Some (url_prefix, resets) ∧
        parser_config = Some c ∧
        load URLPrefix.t (URLPrefix.prefix job) R' = Some (completed c url_prefix)
  | JobError id e =>
      id = URLPrefix.prefix job ∧
      ∃ url_prefix resets, job_subject job R = Some (url_prefix, resets) ∧
        load URLPrefix.t (URLPrefix.prefix job) R' = Some (failed url_prefix)
  end.
Proof.
  intros Hwf. rewrite process_url_prefix_job_subject.
  destruct (job_subject job R) as [[url_prefix resets]|] eqn:Hs; [|done].
  destruct (job_subject_prefix _ _ _ _ Hwf Hs) as [Hp Hr].
  destruct (generate_and_save_cases url_prefix (save_all resets R))
    as [(g & c & _ & _ & ->)|(e & _ & ->)]; (split; [done|]).
  - exists url_prefix, resets, c. split_and!; [done..|].
    rewrite -Hp. apply (load_save_all_last [_] (completed c url_prefix)).
  - exists url_prefix, resets. split; [done|].
    rewrite -Hp. apply (load_save_all_last [_] (failed url_prefix)).
Qed.

(** A job touches the entry of its own prefix only: the keyspace stays
    well formed, the queues, the singletons, the URL rows and every other
    prefix are as before. *)
Theorem process_url_prefix_job_frame job R :
  wf R →
  let R' := (process_url_prefix_job job R).2 in
  wf R' ∧ queues R' = queues R ∧
  production_config R' = production_config R ∧ system_state R' = system_state R ∧
  (∀ id, load URL.t id R' = load URL.t id R) ∧
  (∀ id, id ≠ URLPrefix.prefix job → load URLPrefix.t id R' = load URLPrefix.t id R).
Proof.
  intros Hwf. destruct (process_url_prefix_job_saves job R Hwf) as (ps & -> & Hps). simpl.
  split_and!.
  - by apply wf_save_all.
  - apply queues_save_all.
  - apply singletons_save_all.
  - apply singletons_save_all.
  - intros id. by apply load_save_all_other.
  - intros id Hid. clear Hwf. revert R. induction Hps as [|p ps Hp _ IH]; intros R; [done|].
    rewrite /= IH load_save_ne //. by rewrite /model_id /URLPrefix_id /URLPrefix.id Hp.
Qed.

(** A prefix that failed is retried: the job is not skipped, the
    stored copy is saved with its status reset, and the generation runs on
    the stored copy, whatever the job holds. *)
Theorem failed_prefix_retried job R existing_prefix :
  load URLPrefix.t (URLPrefix.prefix job) R = Some existing_prefix →
  URLPrefix.processing_status existing_prefix = Some "failed" →
  let reset := URLPrefix.with_status None existing_prefix in
  process_url_prefix_job job R = generate_and_save reset (save reset R) ∧
  ∀ id, (process_url_prefix_job job R).1 ≠ JobSkipped id.
Proof.
  intros Hl Hs reset.
  assert (process_url_prefix_job job R = generate_and_save reset (save reset R)) as E.
  { rewrite /process_url_prefix_job Hl. by repeat case_decide; try congruence. }
  split; [done|]. rewrite E. intros id.
  by destruct (generate_and_save_cases reset (save reset R)) as [(g & c & _ & _ & ->)|(e & _ & ->)].
Qed.

(** C33: one more job for a prefix that is stored as completed runs the
    generation again on the job, and the job replaces the stored prefix:
    when the generation fails, the stored prefix is the job marked as
    failed, with the configuration the job was pushed with and not the one
    that was stored. *)
Theorem completed_prefix_regenerated job R existing_prefix e :
  let marked := URLPrefix.with_status (Some "in_progress") job in
  load URLPrefix.t (URLPrefix.prefix job) R = Some existing_prefix →
  URLPrefix.processing_status existing_prefix = Some "completed" →
  generate_parser_for_url_prefix marked (save marked R) = Err e →
  process_url_prefix_job job R = (JobError (URLPrefix.prefix job) e, save_all [marked; failed job] R) ∧
  load URLPrefix.t (URLPrefix.prefix job) (process_url_prefix_job job R).2 = Some (failed job).
Proof.
  intros marked Hl Hs He.
  assert (process_url_prefix_job job R =
          (JobError (URLPrefix.prefix job) e, save_all [marked; failed job] R)) as E.
  { rewrite /process_url_prefix_job Hl. repeat case_decide; try congruence.
    by apply generate_and_save_Err. }
  split; [done|]. rewrite E. apply (load_save_all_last [marked] (failed job)).
Qed.

(** ** The loop *)

Lemma job_run_paused n R : is_system_running R = false → job_run n R = (replicate n JobPaused, R).
Proof.
  intros Hp. induction n as [|n IH]; [done|].
  by rewrite /= /job_iteration Hp /= IH.
Qed.

Lemma job_iteration_invariant R :
  wf R ∧ wf_queues R → wf (job_iteration R).2 ∧ wf_queues (job_iteration R).2.
Proof.
  intros [Hwf Hq]. rewrite /job_iteration. destruct (is_system_running R); [|done]. simpl.
  pose proof (models_get_from_queue (A:=URLPrefix.t) None R) as Hm.
  pose proof (wf_queues_get (A:=URLPrefix.t) R Hq) as Hq0.
  destruct (get_from_queue URLPrefix.t None R) as [[job|] R0]; simpl in *.
  - assert (wf R0) as Hwf0 by by apply (wf_models R).
    destruct (process_url_prefix_job_saves job R0 Hwf0) as (ps & E & _).
    destruct (process_url_prefix_job job R0) as [result R']. simpl in *. subst R'.
    split; [by apply wf_save_all|by apply wf_queues_save_all].
  - split; [by apply (wf_models R)|done].
Qed.

(** A turn of the generation worker changes no URL row. *)
Lemma job_iteration_load_URL R id :
  wf R → load URL.t id (job_iteration R).2 = load URL.t id R.
Proof.
  intros Hwf. rewrite /job_iteration. destruct (is_system_running R); [|done]. simpl.
  pose proof (models_get_from_queue (A:=URLPrefix.t) None R) as Hm.
  destruct (get_from_queue URLPrefix.t None R) as [[job|] R0]; simpl in *.
  - assert (wf R0) as Hwf0 by by apply (wf_models R).
    destruct (process_url_prefix_job_saves job R0 Hwf0) as (ps & E & _).
    destruct (process_url_prefix_job job R0) as [result R']. simpl in *. subst R'.
    by rewrite load_save_all_other // (load_models (A:=URL.t) id R R0).
  - by apply load_models.
Qed.

Lemma job_run_invariant n R :
  wf R ∧ wf_queues R → wf (job_run n R).2 ∧ wf_queues (job_run n R).2.
Proof.
  revert R. induction n as [|n IH]; intros R Hinv; [done|]. simpl.
  apply job_iteration_invariant in Hinv. destruct (job_iteration R) as [turn R1].
  specialize (IH R1 Hinv). by destruct (job_run n R1).
Qed.

End worker_lemmas.

(** ** A small synthesizer

    One configuration file, [default]; the generation succeeds with one
    fixed recipe on a prefix that has samples and fails on one that has
    none. *)

Definition example_generator_config : ParserGeneratorConfig.t :=
  ParserGeneratorConfig.make "default" "model" "minimal" "instructions" "{html_content}" None None.

Definition example_synth : Synth := {|
  from_config := λ config_name,
    if decide (config_name = "default") then Ok example_generator_config
    else Err "No such file or directory";
  run_generator := λ _ url_prefix,
    match URLPrefix.sample_urls url_prefix with
    | [] => Err "Failed to generate parser"
    | _ :: _ =>
        Ok (ParserConfig.make (ParserParameters.make ["main"] [] ["script"] [])
                              (URLPrefix.prefix url_prefix))
    end;
|}.

Definition guide_job : URLPrefix.t :=
  URLPrefix.make "https://a.com/guide" [SampleURL.make "https://a.com/guide/start.html" "<html>"].

Definition empty_job : URLPrefix.t := URLPrefix.make "https://a.com/guide" [].

Definition guide_config : ParserConfig.t :=
  ParserConfig.make (ParserParameters.make ["main"] [] ["script"] []) "https://a.com/guide".

Definition configured_redis : Redis := set_production_config "default" empty_redis.

Definition failed_redis : Redis := save (failed guide_job) configured_redis.

Definition completed_redis : Redis := save (completed guide_config guide_job) configured_redis.

Lemma wf_configured_redis : wf configured_redis.
Proof. apply wf_empty. Qed.

Lemma process_url_prefix_job_spec_witness :
  let '(result, R') := process_url_prefix_job (H:=example_synth) guide_job configured_redis in
  match result with
  | JobSkipped id =>
      id = URLPrefix.prefix guide_job ∧ R' = configured_redis ∧
      job_subject guide_job configured_redis = None
  | JobSuccess id parser_config =>
      id = URLPrefix.prefix guide_job ∧
      ∃ url_prefix resets c, job_subject guide_job configured_redis = Some (url_prefix, resets) ∧
        parser_config = Some c ∧
        load URLPrefix.t (URLPrefix.prefix guide_job) R' = Some (completed c url_prefix)
  | JobError id e =>
      id = URLPrefix.prefix guide_job ∧
      ∃ url_prefix resets, job_subject guide_job configured_redis = Some (url_prefix, resets) ∧
        load URLPrefix.t (URLPrefix.prefix guide_job) R' = Some (failed url_prefix)
  end.
Proof.
  apply (process_url_prefix_job_spec (H:=example_synth) guide_job configured_redis).
  apply wf_configured_redis.
Defined.

Lemma process_url_prefix_job_frame_witness :
  let R' := (process_url_prefix_job (H:=example_synth) guide_job failed_redis).2 in
  wf R' ∧ queues R' = queues failed_redis ∧
  production_config R' = production_config failed_redis ∧
  system_state R' = system_state failed_redis ∧
  (∀ id, load URL.t id R' = load URL.t id failed_redis) ∧
  (∀ id, id ≠ URLPrefix.prefix guide_job →
     load URLPrefix.t id R' = load URLPrefix.t id failed_redis).
Proof.
  apply (process_url_prefix_job_frame (H:=example_synth) guide_job failed_redis).
  apply wf_save, wf_configured_redis.
Defined.

Lemma failed_prefix_retried_witness :
  let reset := URLPrefix.with_status None (failed guide_job) in
  process_url_prefix_job (H:=example_synth) empty_job failed_redis =
    generate_and_save (H:=example_synth) reset (save reset failed_redis) ∧
  ∀ id, (process_url_prefix_job (H:=example_synth) empty_job failed_redis).1 ≠ JobSkipped id.
Proof.
  by apply (failed_prefix_retried (H:=example_synth) empty_job failed_redis (failed guide_job)).
Defined.

Lemma completed_prefix_regenerated_witness :
  process_url_prefix_job (H:=example_synth) empty_job completed_redis =
    (JobError "https://a.com/guide" "Failed to generate parser",
     save_all [URLPrefix.with_status (Some "in_progress") empty_job; failed empty_job]
       completed_redis) ∧
  load URLPrefix.t "https://a.com/guide"
    (process_url_prefix_job (H:=example_synth) empty_job completed_redis).2 =
  Some (failed empty_job).
Proof.
  by apply (completed_prefix_regenerated (H:=example_synth) empty_job completed_redis
              (completed guide_config guide_job)).
Defined.

(** The retry of a failed prefix uses the samples that are stored, and the
    configuration of a completed prefix is lost to a later job that fails. *)
Example failed_prefix_recovers :
  (process_url_prefix_job (H:=example_synth) empty_job failed_redis).1 =
  JobSuccess "https://a.com/guide" (Some guide_config).
Proof. by vm_compute. Qed.

Example completed_prefix_loses_config :
  URLPrefix.parser_config <$> load URLPrefix.t "https://a.com/guide" completed_redis =
    Some (Some guide_config) ∧
  URLPrefix.parser_config <$> load URLPrefix.t "https://a.com/guide"
    (process_url_prefix_job (H:=example_synth) empty_job completed_redis).2 = Some None.
Proof. by vm_compute. Qed.
