(* ===== verification/Synthesizer.v ===== *)
(** * The parser synthesizer ([ParserGenerator], src/backend/parser.py, lines 122-259)

    [generate_parser] asks the inference provider for a recipe on the first
    [num_examples] samples of a prefix, validates it on all samples, asks
    for a repair when the validation fails, and lowers [num_examples] when
    the provider reports that the input exceeds its context window.  After
    a success it may ask for one reflection per sample and merge the
    answers.

    What the sources only call is the interface [Provider]: the request to
    the inference client, the JSON validation of its answer, [clean_html],
    [str.format] on the prompt template, the JSON dump of a configuration
    and the printing of a list.  The provider is a function of the request:
    the same request gets the same answer.  The extraction is the
    interface [Extractor].  [Files.file_provider] is the provider whose
    answers are validated by the model of pydantic in [Json] and whose
    configurations are read from the files.

    A variable of the source holds a [Parser] at one point and a
    [ParserConfig] at another: [ParserObject] keeps the two apart, and
    [object_parse] is the method call [parser.parse(...)] on either.

    The loop of [generate_parser] is [generate_loop], with fuel; an
    attempt lowers [num_examples], ends the loop, or leaves it as it is,
    and [generate_loop_fuel] shows that the last case does not arise on a
    prefix with samples, so that [num_examples] units of fuel are enough.
    [generate_parser] runs the loop with that fuel. *)

From Stdlib Require Import Ascii.
From S2P Require Import Prelude PyString DataModels GenWorker.

#[local] Open Scope crawl_scope.

(** ** The provider *)

Class Provider := {
  (** [client.responses.create(model, instructions, reasoning effort, input)]:
      the output text. *)
  create_response : string → string → string → string → Result string;
  (** [ParserParameters.model_validate_json(text, strict=True)]. *)
  model_validate_json : string → Result ParserParameters.t;
  (** [clean_html(raw_content)]. *)
  clean_html : option string → Result string;
  (** [template.format(html_content, previous_parser_config,
      parsed_content_str, error_message)]. *)
  format_prompt : string → string → string → string → string → Result string;
  (** [config.model_dump_json()] and the printing of a list of strings. *)
  model_dump_json : ParserConfig.t → string;
  repr_list : list string → string;
  (** [ParserGeneratorConfig.from_config(config_name)]. *)
  load_generator_config : string → Result ParserGeneratorConfig.t;
}.

Definition context_window_message : string :=
  "Your input exceeds the context window of this model".

(** What the variable [parser] holds. *)
Inductive ParserObject :=
  | AParser (config : ParserConfig.t)
  | AConfig (config : ParserConfig.t).

Definition object_config (parser : ParserObject) : ParserConfig.t :=
  match parser with AParser c | AConfig c => c end.

(** What is passed for [parsed_content]: a list of strings, or a string. *)
Inductive Printed :=
  | PrintedList (l : list string)
  | PrintedStr (s : string).

Definition printed_truthy (p : option Printed) : bool :=
  match p with
  | Some (PrintedList l) => bool_decide (l ≠ [])
  | Some (PrintedStr s) => bool_decide (s ≠ "")
  | None => false
  end.

(** The outcome of one turn of the loop of [generate_parser]. *)
Inductive Attempt :=
  | Succeeded (parser : ParserObject)
  | Overflow
  | Again
  | Raised (e : string).

Section generator.
Context `{PySet} `{Extractor} `{Provider}.
Variable config : ParserGeneratorConfig.t.
Implicit Types url_prefix : URLPrefix.t.
Implicit Types sample_url : SampleURL.t.
Implicit Types sample_urls : list SampleURL.t.

Definition print (p : Printed) : string :=
  match p with PrintedList l => repr_list l | PrintedStr s => s end.

(** [parser.parse(content)]. *)
Definition object_parse (parser : ParserObject) (content : option string) : Result string :=
  match parser with
  | AParser c =>
      match content with
      | Some s => parse_content c s
      | None => Err "object of type 'NoneType' has no len()"
      end
  | AConfig _ => Err "'ParserConfig' object has no attribute 'parse'"
  end.

(** [_generate_html_content_snippet(sample_url)]. *)
Definition generate_html_content_snippet sample_url : Result string :=
  clean_html (SampleURL.raw_content sample_url).

(** [_generate_input_prompt(sample_urls, previous_parser_config,
    parsed_content, error_message)]. *)
Definition generate_input_prompt sample_urls (previous_parser_config : option ParserConfig.t)
    (parsed_content : option Printed) (error_message : option string) : Result string :=
  snippets ←ᵣ mapM generate_html_content_snippet sample_urls;
  let html_content := Py.join nl snippets in
  let previous_parser_config_str :=
    match previous_parser_config with
    | Some c => "Here is the previous parser config: " +:+ model_dump_json c
    | None => ""
    end in
  let parsed_content_str :=
    match parsed_content with
    | Some p =>
        if printed_truthy parsed_content
        then "Here is the parsed content based on the previous parser config: " +:+ print p
        else ""
    | None => ""
    end in
  let error_message_str :=
    if truthy error_message then "Here is the error message: " +:+ default "" error_message
    else "" in
  format_prompt (ParserGeneratorConfig.input_prompt_template config)
    html_content previous_parser_config_str parsed_content_str error_message_str.

(** The request and the validation of the answer, common to the three uses. *)
Definition request (instructions effort input_prompt : string) : Result ParserParameters.t :=
  output_text ←ᵣ create_response (ParserGeneratorConfig.openai_model config)
                   instructions effort input_prompt;
  model_validate_json output_text.

(** [_generate_parser_num_examples(url_prefix, num_examples)]. *)
Definition generate_parser_num_examples url_prefix (num_examples : nat) : Result ParserObject :=
  input_prompt ←ᵣ
    generate_input_prompt (take num_examples (URLPrefix.sample_urls url_prefix)) None None None;
  parser_parameters ←ᵣ
    request (ParserGeneratorConfig.instructions_prompt config)
            (ParserGeneratorConfig.reasoning_level config) input_prompt;
  Ok (AParser (ParserConfig.make parser_parameters (URLPrefix.prefix url_prefix))).

(** [_generate_parser_with_parsing_mistake(sample_url, previous_parser_config,
    error_message)]: the third argument is passed in the place of
    [parsed_content], and the result is a configuration, not a parser. *)
Definition generate_parser_with_parsing_mistake sample_url
    (previous_parser_config : ParserConfig.t) (error_message : string) : Result ParserObject :=
  input_prompt ←ᵣ
    generate_input_prompt [sample_url] (Some previous_parser_config)
      (Some (PrintedStr error_message)) None;
  match ParserGeneratorConfig.error_prompt config with
  | None => Err "can only concatenate str (not 'NoneType') to str"
  | Some error_prompt =>
      parser_parameters ←ᵣ
        request (ParserGeneratorConfig.instructions_prompt config +:+ nl +:+ error_prompt)
                "minimal" input_prompt;
      Ok (AConfig (ParserConfig.make parser_parameters
                     (ParserConfig.prefix_name previous_parser_config)))
  end.

(** [_validate_parser(parser, sample_urls)]: the first sample that does not
    parse, with the message. *)
Definition validate_parser (parser : ParserObject) sample_urls : option (SampleURL.t * string) :=
  first_some (λ sample_url,
    match object_parse parser (SampleURL.raw_content sample_url) with
    | Ok _ => None
    | Err e => Some (sample_url, e)
    end) sample_urls.

(** The body of the loop of [_reflect_on_parser]. *)
Definition reflect_on_sample (parser : ParserObject) (prefix_name : string) sample_url :
    Result ParserConfig.t :=
  parsed_content ←ᵣ object_parse parser (SampleURL.raw_content sample_url);
  input_prompt ←ᵣ
    generate_input_prompt [sample_url] (Some (object_config parser))
      (Some (PrintedList [parsed_content])) None;
  match ParserGeneratorConfig.reflection_prompt config with
  | None => Err "can only concatenate str (not 'NoneType') to str"
  | Some reflection_prompt =>
      parser_parameters ←ᵣ
        request (ParserGeneratorConfig.instructions_prompt config +:+ nl +:+ reflection_prompt)
                "minimal" input_prompt;
      Ok (ParserConfig.make parser_parameters prefix_name)
  end.

(** [_reflect_on_parser(parser, sample_urls, prefix_name)]. *)
Definition reflect_on_parser (parser : ParserObject) sample_urls (prefix_name : string) :
    Result ParserConfig.t :=
  parser_configs ←ᵣ mapM (reflect_on_sample parser prefix_name) sample_urls;
  match parser_configs with
  | [] => Err "reduce() of empty iterable with no initial value"
  | c :: cs => Ok (reduce_add c cs)
  end.

(** Lines 233-246: the [try] block of the loop; [Ok None] when the block
    ends without setting [success]. *)
Definition attempt_body url_prefix (num_examples : nat) : Result (option ParserObject) :=
  parser ←ᵣ generate_parser_num_examples url_prefix num_examples;
  match validate_parser parser (URLPrefix.sample_urls url_prefix) with
  | Some (sample_url, error_message) =>
      let failure := Err ("Failed to generate parser with error: " +:+ error_message) in
      match ParserGeneratorConfig.error_prompt config with
      | Some _ =>
          parser ←ᵣ
            generate_parser_with_parsing_mistake sample_url (object_config parser) error_message;
          match validate_parser parser (URLPrefix.sample_urls url_prefix) with
          | Some _ => failure
          | None => Ok None
          end
      | None => failure
      end
  | None => Ok (Some parser)
  end.

(** Lines 247-251: the handler of the block. *)
Definition handle (e : string) : Attempt :=
  if Py.contains context_window_message e then Overflow else Raised e.

(** Lines 233-251: the block with its handler. *)
Definition attempt url_prefix (num_examples : nat) : Attempt :=
  match attempt_body url_prefix num_examples with
  | Ok (Some parser) => Succeeded parser
  | Ok None => Again
  | Err e => handle e
  end.

(** Lines 232-251: the loop; [None] when the fuel runs out. *)
Fixpoint generate_loop (fuel : nat) url_prefix (num_examples : nat) : option (Result ParserObject) :=
  match num_examples with
  | 0 => Some (Err "Failed to generate parser")
  | S n =>
      match fuel with
      | 0 => None
      | S fuel =>
          match attempt url_prefix num_examples with
          | Succeeded parser => Some (Ok parser)
          | Overflow => generate_loop fuel url_prefix n
          | Again => generate_loop fuel url_prefix num_examples
          | Raised e => Some (Err e)
          end
      end
  end.

(** Lines 252-259: after the loop. *)
Definition finish url_prefix (outcome : Result ParserObject) : Result ParserConfig.t :=
  parser ←ᵣ outcome;
  match ParserGeneratorConfig.reflection_prompt config with
  | Some _ =>
      reflect_on_parser parser (URLPrefix.sample_urls url_prefix) (URLPrefix.prefix url_prefix)
  | None => Ok (object_config parser)
  end.

(** [generate_parser(url_prefix)]: the configuration of the parser returned. *)
Definition generate_parser url_prefix : Result ParserConfig.t :=
  let num_examples := length (URLPrefix.sample_urls url_prefix) in
  match generate_loop num_examples url_prefix num_examples with
  | Some outcome => finish url_prefix outcome
  | None => Err "out of fuel"
  end.

End generator.

(** The synthesizer of the generation worker. *)
Definition generator_synth `{PySet} `{Extractor} `{Provider} : Synth := {|
  from_config := load_generator_config;
  run_generator := generate_parser;
|}.

(** ** Validation *)

Section generator_lemmas.
Context `{PySet} `{Extractor} `{Provider}.
Variable config : ParserGeneratorConfig.t.
Implicit Types url_prefix : URLPrefix.t.
Implicit Types sample_urls : list SampleURL.t.
Implicit Types parser : ParserObject.

Lemma validate_parser_None parser sample_urls :
  validate_parser parser sample_urls = None ↔
  Forall (λ s, is_Ok (object_parse parser (SampleURL.raw_content s)) = true) sample_urls.
Proof.
  rewrite /validate_parser first_some_None. apply Forall_iff. intros s.
  by destruct (object_parse parser _).
Qed.

(** A configuration has no method [parse]: its validation fails on the
    first sample. *)
Lemma validate_parser_AConfig c sample_urls :
  sample_urls ≠ [] → is_Some (validate_parser (AConfig c) sample_urls).
Proof. destruct sample_urls; [done|]. by eexists. Qed.

Lemma validate_parser_nil parser : validate_parser parser [] = None.
Proof. done. Qed.

Lemma generate_parser_num_examples_AParser url_prefix n parser :
  generate_parser_num_examples config url_prefix n = Ok parser →
  ∃ c, parser = AParser c ∧ ParserConfig.prefix_name c = URLPrefix.prefix url_prefix.
Proof.
  rewrite /generate_parser_num_examples. repeat case_match; try done.
  intros [= <-]. by eexists.
Qed.

Lemma generate_parser_with_parsing_mistake_AConfig sample_url c error_message parser :
  generate_parser_with_parsing_mistake config sample_url c error_message = Ok parser →
  ∃ c', parser = AConfig c'.
Proof.
  rewrite /generate_parser_with_parsing_mistake. repeat case_match; try done.
  intros [= <-]. by eexists.
Qed.

(** ** One attempt *)

(** An attempt succeeds exactly when the first answer of the provider
    parses every sample. *)
Lemma attempt_Succeeded url_prefix n parser :
  attempt config url_prefix n = Succeeded parser ↔
  generate_parser_num_examples config url_prefix n = Ok parser ∧
  validate_parser parser (URLPrefix.sample_urls url_prefix) = None.
Proof.
  rewrite /attempt /attempt_body /handle.
  destruct (generate_parser_num_examples config url_prefix n) as [p|e].
  - destruct (validate_parser p _) as [[s msg]|] eqn:Hv.
    + split; [|intros [[= ->] ?]; congruence].
      repeat case_match; simplify_eq; done.
    + split; [by intros [= ->]|by intros [[= ->] _]].
  - split; [by case_match|by intros [? _]].
Qed.

(** The block ends without [success] only when the repaired object passes
    the validation, which it cannot on a prefix with samples. *)
Lemma attempt_Again url_prefix n :
  attempt config url_prefix n = Again → URLPrefix.sample_urls url_prefix = [].
Proof.
  rewrite /attempt /attempt_body.
  destruct (generate_parser_num_examples config url_prefix n) as [p|e];
    [|rewrite /handle; by case_match].
  destruct (validate_parser p _) as [[s msg]|] eqn:Hv; [|done].
  destruct (URLPrefix.sample_urls url_prefix) as [|s0 l]; [done|].
  destruct (ParserGeneratorConfig.error_prompt config) eqn:Hep;
    [|rewrite /handle; by case_match].
  destruct (generate_parser_with_parsing_mistake _ _ _ _) as [p'|e] eqn:Hr;
    [|rewrite /handle; by case_match].
  apply generate_parser_with_parsing_mistake_AConfig in Hr as [c ->].
  destruct (validate_parser_AConfig c (s0 :: l)) as [? ->]; [done|].
  rewrite /handle; by case_match.
Qed.

(** ** The loop *)

Lemma generate_loop_0 fuel url_prefix :
  generate_loop config fuel url_prefix 0 = Some (Err "Failed to generate parser").
Proof. by destruct fuel. Qed.

(** [num_examples] units of fuel are enough, and more change nothing. *)
Lemma generate_loop_fuel fuel url_prefix n :
  n ≤ length (URLPrefix.sample_urls url_prefix) → n ≤ fuel →
  is_Some (generate_loop config n url_prefix n) ∧
  generate_loop config fuel url_prefix n = generate_loop config n url_prefix n.
Proof.
  revert fuel. induction n as [|n IH]; intros fuel Hn Hfuel.
  { rewrite !generate_loop_0. split; [by eexists|done]. }
  destruct fuel as [|fuel]; [lia|]. simpl.
  destruct (attempt config url_prefix (S n)) eqn:Ha; try (split; [by eexists|done]).
  - apply IH; lia.
  - apply attempt_Again in Ha. rewrite Ha /= in Hn. lia.
Qed.

(** A run of overflows lowers [num_examples] step by step. *)
Lemma generate_loop_overflows url_prefix n k :
  k ≤ n → (∀ i, k < i ≤ n → attempt config url_prefix i = Overflow) →
  generate_loop config n url_prefix n = generate_loop config k url_prefix k.
Proof.
  intros Hk. induction Hk as [|n Hk IH]; intros Hov; [done|].
  rewrite /= Hov; [lia|]. apply IH. intros i Hi. apply Hov. lia.
Qed.

(** A success of the loop is the success of one attempt. *)
Lemma generate_loop_Ok fuel url_prefix n parser :
  generate_loop config fuel url_prefix n = Some (Ok parser) →
  n ≤ length (URLPrefix.sample_urls url_prefix) →
  ∃ k, 0 < k ≤ n ∧ attempt config url_prefix k = Succeeded parser.
Proof.
  revert n. induction fuel as [|fuel IH]; intros [|n]; simpl; try done.
  destruct (attempt config url_prefix (S n)) eqn:Ha; try done.
  - intros [= ->] _. exists (S n). split; [lia|done].
  - intros Hl Hn. destruct (IH n Hl ltac:(lia)) as (k & ? & ?). exists k. split; [lia|done].
  - intros _ Hn. apply attempt_Again in Ha. rewrite Ha /= in Hn. lia.
Qed.

(** ** Reflection *)

Lemma reflect_on_sample_prefix parser prefix_name sample_url c :
  reflect_on_sample config parser prefix_name sample_url = Ok c →
  ParserConfig.prefix_name c = prefix_name.
Proof. rewrite /reflect_on_sample. repeat case_match; try done. by intros [= <-]. Qed.

Lemma reflect_on_parser_prefix parser sample_urls prefix_name c :
  reflect_on_parser config parser sample_urls prefix_name = Ok c →
  ParserConfig.prefix_name c = prefix_name.
Proof.
  rewrite /reflect_on_parser.
  destruct (mapM _ sample_urls) as [[|c1 cs]|] eqn:Hm; try done.
  intros [= <-]. rewrite reduce_add_prefix.
  apply mapM_Ok_cons in Hm as (x & xs & _ & Hx & _). by eapply reflect_on_sample_prefix.
Qed.

(** ** The generator *)

(** C18: the loop of [generate_parser] ends: on every prefix, as many units
    of fuel as the prefix has samples give an outcome, more fuel gives the
    same outcome, and [generate_parser] is what follows the loop on that
    outcome. *)
Theorem generate_parser_total url_prefix :
  let n := length (URLPrefix.sample_urls url_prefix) in
  ∃ outcome,
    generate_loop config n url_prefix n = Some outcome ∧
    (∀ fuel, n ≤ fuel → generate_loop config fuel url_prefix n = Some outcome) ∧
    generate_parser config url_prefix = finish config url_prefix outcome.
Proof.
  intros n. destruct (generate_loop_fuel n url_prefix n) as [[outcome Ho] _]; [done..|].
  exists outcome. split_and!; [done| |by rewrite /generate_parser -/n Ho].
  intros fuel Hfuel. by destruct (generate_loop_fuel fuel url_prefix n) as [_ ->].
Qed.

(** C30: adaptive degradation: when the attempts on [n] down to [k + 1]
    samples overflow the context window, the loop continues as from [k];
    it fails for good when [k] is 0, and when the attempt on [k] samples
    succeeds, the parser returned is the one generated from the first [k]
    samples, and it parses every sample. *)
Theorem generate_loop_degrades url_prefix n k :
  k ≤ n → (∀ i, k < i ≤ n → attempt config url_prefix i = Overflow) →
  generate_loop config n url_prefix n = generate_loop config k url_prefix k ∧
  (k = 0 → generate_loop config n url_prefix n = Some (Err "Failed to generate parser")) ∧
  (∀ parser, 0 < k → attempt config url_prefix k = Succeeded parser →
     generate_loop config n url_prefix n = Some (Ok parser) ∧
     generate_parser_num_examples config url_prefix k = Ok parser ∧
     validate_parser parser (URLPrefix.sample_urls url_prefix) = None).
Proof.
  intros Hk Hov. rewrite (generate_loop_overflows url_prefix n k) //. split_and!; [done| |].
  - by intros ->.
  - intros parser Hpos Ha. destruct k as [|k]; [lia|]. rewrite /= Ha.
    by apply attempt_Succeeded in Ha as [? ?].
Qed.

(** C31: a parser that fails the validation is never repaired.  The result
    of the repair request is a configuration, on which the second
    validation calls a method that it does not have: whatever the provider
    answers, the attempt ends in the handler, with the failure of the first
    validation or with the exception that the repair raised. *)
Theorem repair_never_succeeds url_prefix n parser sample_url error_message :
  generate_parser_num_examples config url_prefix n = Ok parser →
  validate_parser parser (URLPrefix.sample_urls url_prefix) = Some (sample_url, error_message) →
  attempt config url_prefix n =
  handle
    match ParserGeneratorConfig.error_prompt config,
          generate_parser_with_parsing_mistake config sample_url (object_config parser)
            error_message with
    | Some _, Err e => e
    | _, _ => "Failed to generate parser with error: " +:+ error_message
    end.
Proof.
  intros Hg Hv. rewrite /attempt /attempt_body Hg Hv.
  assert (URLPrefix.sample_urls url_prefix ≠ []) as Hne.
  { intros E. by rewrite E in Hv. }
  destruct (ParserGeneratorConfig.error_prompt config) eqn:Hep; [|done].
  destruct (generate_parser_with_parsing_mistake _ _ _ _) as [p|e] eqn:Hr; [|done].
  apply generate_parser_with_parsing_mistake_AConfig in Hr as [c ->].
  by destruct (validate_parser_AConfig c _ Hne) as [? ->].
Qed.

(** C32: a configuration that [generate_parser] returns belongs to the
    prefix, which has samples; without a reflection prompt it parses every
    sample of the prefix. *)
Theorem generate_parser_Ok url_prefix c :
  generate_parser config url_prefix = Ok c →
  URLPrefix.sample_urls url_prefix ≠ [] ∧
  ParserConfig.prefix_name c = URLPrefix.prefix url_prefix ∧
  (ParserGeneratorConfig.reflection_prompt config = None →
   validate_parser (AParser c) (URLPrefix.sample_urls url_prefix) = None).
Proof.
  rewrite /generate_parser.
  destruct (generate_loop _ _ _ _) as [[parser|]|] eqn:Hl; try done.
  apply generate_loop_Ok in Hl as (k & Hk & Ha); [|done].
  apply attempt_Succeeded in Ha as [Hg Hv].
  apply generate_parser_num_examples_AParser in Hg as (c0 & -> & Hp).
  rewrite /finish. intros Hf. split_and!.
  - intros E. rewrite E /= in Hk. lia.
  - destruct (ParserGeneratorConfig.reflection_prompt config); [|by simplify_eq].
    by apply reflect_on_parser_prefix in Hf.
  - intros Hr. rewrite Hr in Hf. by simplify_eq.
Qed.

End generator_lemmas.

(** ** A small provider

    The provider answers the recipe [root = main, drop = script] to every
    request of at most [limit] lines and reports a context overflow on a
    longer one; the prompt is the four parts of the template separated by
    bars; the extraction fails on the page [broken]. *)

Definition example_provider (limit : nat) : Provider := {|
  create_response := λ _ _ _ input,
    if decide (limit < length (Py.split (ascii_of_nat 10) input))
    then Err ("Error code: 400 - " +:+ context_window_message)
    else Ok "main,script";
  model_validate_json := λ text,
    if decide (text = "main,script") then Ok (ParserParameters.make ["main"] [] ["script"] [])
    else Err "1 validation error for ParserParameters";
  clean_html := λ raw,
    match raw with Some s => Ok s | None => Err "object of type 'NoneType' has no len()" end;
  format_prompt := λ _ html previous parsed error,
    Ok (html +:+ "|" +:+ previous +:+ "|" +:+ parsed +:+ "|" +:+ error);
  model_dump_json := ParserConfig.prefix_name;
  repr_list := Py.join ", ";
  load_generator_config := λ config_name,
    if decide (config_name = "default") then Ok example_generator_config
    else Err "No such file or directory";
|}.

Definition example_extractor : Extractor :=
  λ _ raw, if decide (raw = "broken") then Err "cannot parse" else Ok "text".

Definition repairing_config : ParserGeneratorConfig.t :=
  ParserGeneratorConfig.make "default" "model" "minimal" "instructions" "{html_content}"
    (Some "repair") None.

Definition five_samples : URLPrefix.t :=
  URLPrefix.make "https://a.com/docs"
    ((λ u, SampleURL.make u "<main>text</main>") <$> ["u1"; "u2"; "u3"; "u4"; "u5"]).

Definition broken_sample : URLPrefix.t :=
  URLPrefix.make "https://a.com/docs"
    [SampleURL.make "u1" "<main>text</main>"; SampleURL.make "u2" "broken"].

Definition docs_recipe : ParserConfig.t :=
  ParserConfig.make (ParserParameters.make ["main"] [] ["script"] []) "https://a.com/docs".

Lemma generate_loop_degrades_witness :
  let G := @generate_loop example_extractor (example_provider 2) example_generator_config in
  let A := @attempt example_extractor (example_provider 2) example_generator_config in
  G 5 five_samples 5 = G 2 five_samples 2 ∧
  (2 = 0 → G 5 five_samples 5 = Some (Err "Failed to generate parser")) ∧
  (∀ parser, 0 < 2 → A five_samples 2 = Succeeded parser →
     G 5 five_samples 5 = Some (Ok parser) ∧
     @generate_parser_num_examples (example_provider 2) example_generator_config five_samples 2
       = Ok parser ∧
     @validate_parser example_extractor parser (URLPrefix.sample_urls five_samples) = None).
Proof.
  apply (@generate_loop_degrades example_extractor (example_provider 2) example_generator_config
           five_samples 5 2); [lia|].
  intros i Hi. assert (i = 3 ∨ i = 4 ∨ i = 5) as [->|[->| ->]] by lia; by vm_compute.
Defined.

Lemma repair_never_succeeds_witness :
  @attempt example_extractor (example_provider 2) repairing_config broken_sample 2 =
  handle
    match ParserGeneratorConfig.error_prompt repairing_config,
          @generate_parser_with_parsing_mistake (example_provider 2) repairing_config
            (SampleURL.make "u2" "broken") (object_config (AParser docs_recipe)) "cannot parse" with
    | Some _, Err e => e
    | _, _ => "Failed to generate parser with error: " +:+ "cannot parse"
    end.
Proof.
  by apply (@repair_never_succeeds example_extractor (example_provider 2) repairing_config
              broken_sample 2 (AParser docs_recipe)).
Defined.

Lemma generate_parser_Ok_witness :
  URLPrefix.sample_urls five_samples ≠ [] ∧
  ParserConfig.prefix_name docs_recipe = URLPrefix.prefix five_samples ∧
  (ParserGeneratorConfig.reflection_prompt example_generator_config = None →
   @validate_parser example_extractor (AParser docs_recipe) (URLPrefix.sample_urls five_samples)
     = None).
Proof.
  by apply (@generate_parser_Ok ListSet example_extractor (example_provider 2)
              example_generator_config five_samples docs_recipe).
Defined.

(** Five samples, a provider that takes two: the generator returns the
    recipe without raising. *)
Example adaptive_degradation_example :
  @generate_parser ListSet example_extractor (example_provider 2) example_generator_config
    five_samples = Ok docs_recipe.
Proof. by vm_compute. Qed.

(** The repair request carries the message of the failure under the
    heading of the parsed content, and its answer is thrown away. *)
Example repair_prompt_example :
  @generate_input_prompt (example_provider 2) repairing_config
    [SampleURL.make "u2" "broken"] (Some docs_recipe) (Some (PrintedStr "cannot parse")) None =
  Ok ("broken|Here is the previous parser config: https://a.com/docs|" +:+
      "Here is the parsed content based on the previous parser config: cannot parse|") ∧
  @generate_parser ListSet example_extractor (example_provider 2) repairing_config broken_sample =
  Err "Failed to generate parser with error: cannot parse".
Proof. by vm_compute. Qed.
