(* ===== verification/Dom.v ===== *)
(** * The document tree of BeautifulSoup
    (the objects src/backend/parser.py and src/backend/clean_html.py work on)

    A parsed page is a forest of [Node]s, the contents of the
    [BeautifulSoup] object.  A [Tag] carries the number [id(el)] that the
    source puts in its keep-sets, its name, its attributes and its
    contents; a [NavigableString] is a string [get_text] returns and a
    [Comment] is a string of a type it leaves out (comments, declarations
    and the text the parser types as script or style).

    The methods of the library that the sources call are functions on the
    forest that name the element by its id: [find_all], [descendants],
    [parents], [decompose], [unwrap], [replace_with], [insert_before],
    [append], [get_text].  The ones that rebuild the tree are instances of
    one traversal, [transform], and share its lemmas: the ids of the result
    are a sublist of the ids of the input ([sublist_ids_transform]), hence
    [wf_soup], the uniqueness of the ids, is preserved.

    [prune] is the loop of [Parser._trim_soup] that decomposes what is not
    in the keep-set; [prune_pass] is the same as one pass from the root, and
    [prune_prune_pass] proves them equal on a well-formed document. *)

From stdpp Require Import gmap.
From S2P Require Import Prelude PyString.

(** ** The tree *)

Unset Elimination Schemes.
Inductive Node :=
  | NavigableString (s : string)
  | Comment (s : string)
  | Tag (id : nat) (name : string) (attrs : list (string * string)) (contents : list Node).
Set Elimination Schemes.

(** [soup.contents]. *)
Notation BeautifulSoup := (list Node).

Implicit Types n : Node.
Implicit Types soup cs : list Node.
Implicit Types el i j : nat.
Implicit Types name : string.
Implicit Types attrs : list (string * string).

Section Node_ind.
Variable P : Node → Prop.
Hypothesis P_string : ∀ s, P (NavigableString s).
Hypothesis P_comment : ∀ s, P (Comment s).
Hypothesis P_tag : ∀ i name attrs cs, Forall P cs → P (Tag i name attrs cs).

Fixpoint Node_ind n : P n :=
  match n with
  | NavigableString s => P_string s
  | Comment s => P_comment s
  | Tag i name attrs cs =>
      P_tag i name attrs cs
        ((fix all cs : Forall P cs :=
            match cs with
            | [] => List.Forall_nil P
            | n :: cs => List.Forall_cons P n cs (Node_ind n) (all cs)
            end) cs)
  end.
End Node_ind.

(** A property of every node gives the property of every forest. *)
Lemma soup_ind (P : Node → Prop) (Q : list Node → Prop) :
  (∀ soup, Forall P soup → Q soup) →
  (∀ s, P (NavigableString s)) → (∀ s, P (Comment s)) →
  (∀ i name attrs cs, Forall P cs → Q cs → P (Tag i name attrs cs)) →
  ∀ soup, Q soup.
Proof.
  intros HQ Hs Hc Ht soup. apply HQ, Forall_forall. intros n _.
  induction n as [| |i name attrs cs IH] using Node_ind; auto.
Qed.

(** ** Reading the tree *)

(** The tags of a subtree in document order, the element itself first. *)
Fixpoint elements n : list Node :=
  match n with
  | Tag _ _ _ cs => n :: (cs ≫= elements)
  | _ => []
  end.

Definition tag_id n : nat := match n with Tag i _ _ _ => i | _ => 0 end.
Definition tag_name n : string := match n with Tag _ name _ _ => name | _ => "" end.
Definition tag_attrs n : list (string * string) :=
  match n with Tag _ _ attrs _ => attrs | _ => [] end.
Definition tag_contents n : list Node :=
  match n with Tag _ _ _ cs => cs | _ => [] end.

(** The ids of the tags of a forest, in document order. *)
Definition ids soup : list nat := tag_id <$> (soup ≫= elements).

(** [soup.find_all(f)] for a filter [f] on the name ([True], a name, a set
    of names): the ids of the tags it accepts. *)
Definition find_all (f : string → bool) soup : list nat :=
  tag_id <$> filter (λ n, f (tag_name n)) (soup ≫= elements).

(** The element with id [el], if it is in the tree. *)
Definition find_tag el soup : option Node :=
  head (filter (λ n, tag_id n = el) (soup ≫= elements)).

(** [el.name] of an element of the tree; [None] when nothing is left of
    it. *)
Definition name_of el soup : option string := tag_name <$> find_tag el soup.

(** The tags among [el.descendants]. *)
Definition descendants el soup : list nat :=
  match find_tag el soup with
  | Some n => ids (tag_contents n)
  | None => []
  end.

(** The tags among [el.parents], from the parent outwards. *)
Definition parents el soup : list nat :=
  reverse (tag_id <$> filter (λ n, el ∈ ids (tag_contents n)) (soup ≫= elements)).

(** No two tags share an id: the elements are distinct objects. *)
Definition wf_soup soup : Prop := NoDup (ids soup).

(** The strings [get_text] sees, in document order. *)
Fixpoint strings n : list string :=
  match n with
  | NavigableString s => [s]
  | Comment _ => []
  | Tag _ _ _ cs => cs ≫= strings
  end.

(** What [get_text(strip=True)] keeps of them. *)
Definition stripped (l : list string) : list string :=
  filter (λ s, s ≠ "") (Py.strip <$> l).

(** [soup.get_text(separator=separator, strip=True)]. *)
Definition get_text (separator : string) soup : string :=
  Py.join separator (stripped (soup ≫= strings)).

(** ** Rebuilding the tree *)

(** One traversal from the leaves up: [f] says what a tag with rebuilt
    contents becomes. *)
Fixpoint transform (f : nat → string → list (string * string) → list Node → list Node)
    n : list Node :=
  match n with
  | Tag i name attrs cs => f i name attrs (cs ≫= transform f)
  | _ => [n]
  end.

(** The tags that [d] names leave the tree with all they hold. *)
Definition remove (d : nat → string → bool) soup : list Node :=
  soup ≫= transform (λ i name attrs cs, if d i name then [] else [Tag i name attrs cs]).

(** [el.decompose()]. *)
Definition decompose el soup : list Node := remove (λ i _, bool_decide (i = el)) soup.

(** [el.unwrap()]: the contents of the element take its place. *)
Definition unwrap el soup : list Node :=
  soup ≫= transform (λ i name attrs cs, if decide (i = el) then cs else [Tag i name attrs cs]).

(** [el.replace_with(NavigableString(s))]. *)
Definition replace_with el (s : string) soup : list Node :=
  soup ≫= transform (λ i name attrs cs,
    if decide (i = el) then [NavigableString s] else [Tag i name attrs cs]).

(** [el.insert_before(NavigableString(s))]. *)
Definition insert_before el (s : string) soup : list Node :=
  soup ≫= transform (λ i name attrs cs,
    if decide (i = el) then [NavigableString s; Tag i name attrs cs]
    else [Tag i name attrs cs]).

(** [el.append(NavigableString(s))]. *)
Definition append el (s : string) soup : list Node :=
  soup ≫= transform (λ i name attrs cs,
    if decide (i = el) then [Tag i name attrs (cs ++ [NavigableString s])]
    else [Tag i name attrs cs]).

(** ** The pruning loop of [_trim_soup] *)

(** [el.name in ("html", "head", "body")]. *)
Definition protected (name : option string) : bool :=
  bool_decide (name ∈ [Some "html"; Some "head"; Some "body"]).

(** The set a root or kept element adds to the keep-set: itself, its tag
    descendants and its tag parents. *)
Definition keep_set_add (soup : list Node) (keep_set : gset nat) el : gset nat :=
  keep_set ∪ {[el]} ∪ list_to_set (descendants el soup) ∪ list_to_set (parents el soup).

(** [keep_set = set(); for r in roots: ...]. *)
Definition make_keep_set (roots : list nat) soup : gset nat :=
  foldl (keep_set_add soup) ∅ roots.

(** The body of [for el in list(soup.find_all(True))]. *)
Definition prune_step (keep_set : gset nat) soup el : list Node :=
  if protected (name_of el soup) then soup
  else if decide (el ∈ keep_set) then soup
  else decompose el soup.

Definition prune (keep_set : gset nat) soup : list Node :=
  foldl (prune_step keep_set) soup (find_all (λ _, true) soup).

(** What the loop means to remove: the tags that are neither protected nor
    in the keep-set. *)
Definition unwanted (keep_set : gset nat) i name : bool :=
  negb (protected (Some name) || bool_decide (i ∈ keep_set)).

(** The same in one pass from the root: an unwanted tag goes with all it
    holds. *)
Definition prune_pass (keep_set : gset nat) soup : list Node :=
  remove (unwanted keep_set) soup.

(** ** Lemmas on the traversals *)

Lemma ids_nil : ids [] = [].
Proof. done. Qed.

Lemma ids_app soup soup' : ids (soup ++ soup') = ids soup ++ ids soup'.
Proof. by rewrite /ids bind_app fmap_app. Qed.

Lemma ids_cons n soup : ids (n :: soup) = ids [n] ++ ids soup.
Proof. apply (ids_app [n]). Qed.

Lemma ids_tag i name attrs cs : ids [Tag i name attrs cs] = i :: ids cs.
Proof. by rewrite /ids /= app_nil_r. Qed.

Lemma ids_string s : ids [NavigableString s] = [].
Proof. done. Qed.

Lemma ids_comment s : ids [Comment s] = [].
Proof. done. Qed.

Lemma elem_of_ids i soup : i ∈ ids soup ↔ ∃ n, n ∈ soup ≫= elements ∧ tag_id n = i.
Proof. rewrite /ids list_elem_of_fmap. naive_solver. Qed.

Lemma elements_tag i name attrs cs :
  [Tag i name attrs cs] ≫= elements = Tag i name attrs cs :: (cs ≫= elements).
Proof. by rewrite /= app_nil_r. Qed.

(** What [elements] lists are tags. *)
Lemma elements_is_tag n soup :
  n ∈ soup ≫= elements → n = Tag (tag_id n) (tag_name n) (tag_attrs n) (tag_contents n).
Proof.
  revert soup n.
  pose (P := λ n, n = Tag (tag_id n) (tag_name n) (tag_attrs n) (tag_contents n)).
  apply (soup_ind (λ m, ∀ n, n ∈ elements m → P n) (λ soup, ∀ n, n ∈ soup ≫= elements → P n)).
  - intros soup Hall n (m & Hn & Hm)%list_elem_of_bind.
    rewrite Forall_forall in Hall. by apply (Hall m).
  - by intros s n ?%elem_of_nil.
  - by intros s n ?%elem_of_nil.
  - intros i name attrs cs _ IH n [->|Hn]%elem_of_cons; [done|by apply IH].
Qed.

(** The tags of the contents of a tag of the tree are tags of the tree. *)
Lemma elements_contents n soup m :
  n ∈ soup ≫= elements → m ∈ tag_contents n ≫= elements → m ∈ soup ≫= elements.
Proof.
  revert soup n.
  apply (soup_ind (λ k, ∀ n, n ∈ elements k → m ∈ tag_contents n ≫= elements → m ∈ elements k)
                  (λ soup, ∀ n, n ∈ soup ≫= elements → m ∈ tag_contents n ≫= elements →
                           m ∈ soup ≫= elements)).
  - intros soup Hall n (k & Hn & Hk)%list_elem_of_bind Hm.
    rewrite Forall_forall in Hall. apply list_elem_of_bind. exists k. eauto.
  - by intros s n ?%elem_of_nil.
  - by intros s n ?%elem_of_nil.
  - intros i name attrs cs _ IH n [->|Hn]%elem_of_cons Hm; right; [done|by eapply IH].
Qed.

Section transform.
Implicit Types f g : nat → string → list (string * string) → list Node → list Node.

(** Two functions that agree on the tags of the tree rebuild it alike. *)
Lemma transform_ext f g soup :
  Forall (λ n, ∀ cs,
    f (tag_id n) (tag_name n) (tag_attrs n) cs = g (tag_id n) (tag_name n) (tag_attrs n) cs)
    (soup ≫= elements) →
  soup ≫= transform f = soup ≫= transform g.
Proof.
  pose (P := λ m, ∀ cs,
    f (tag_id m) (tag_name m) (tag_attrs m) cs = g (tag_id m) (tag_name m) (tag_attrs m) cs).
  change (Forall P (soup ≫= elements) → soup ≫= transform f = soup ≫= transform g).
  revert soup.
  apply (soup_ind (λ n, Forall P (elements n) → transform f n = transform g n)
                  (λ soup, Forall P (soup ≫= elements) → soup ≫= transform f = soup ≫= transform g)).
  - intros soup Hall. induction Hall as [|n soup Hn _ IH]; [done|].
    rewrite !bind_cons Forall_app. intros [??]. by rewrite Hn ?IH.
  - done.
  - done.
  - intros i name attrs cs _ IH [Hi Hcs]%Forall_cons. by rewrite /= IH // (Hi _).
Qed.

(** A function that answers with tags of its argument, in their order, gives
    a tree whose ids are a sublist of the ids it had. *)
Lemma sublist_ids_transform f soup :
  (∀ i name attrs cs, ids (f i name attrs cs) `sublist_of` i :: ids cs) →
  ids (soup ≫= transform f) `sublist_of` ids soup.
Proof.
  intros Hf. revert soup.
  apply (soup_ind (λ n, ids (transform f n) `sublist_of` ids [n])).
  - intros soup Hall. induction Hall as [|n soup Hn _ IH]; [done|].
    rewrite bind_cons ids_app (ids_cons n). by apply sublist_app.
  - done.
  - done.
  - intros i name attrs cs _ IH. rewrite ids_tag /=. etrans; [apply Hf|]. by apply sublist_skip.
Qed.

Lemma wf_soup_transform f soup :
  (∀ i name attrs cs, ids (f i name attrs cs) `sublist_of` i :: ids cs) →
  wf_soup soup → wf_soup (soup ≫= transform f).
Proof. intros Hf Hwf. eapply sublist_NoDup; [done|by apply sublist_ids_transform]. Qed.

Lemma stripped_app l k : stripped (l ++ k) = stripped l ++ stripped k.
Proof. by rewrite /stripped fmap_app filter_app. Qed.

(** A function that keeps the strings that [get_text] shows keeps the text. *)
Lemma stripped_transform f soup :
  (∀ i name attrs cs, stripped (f i name attrs cs ≫= strings) = stripped (cs ≫= strings)) →
  stripped ((soup ≫= transform f) ≫= strings) = stripped (soup ≫= strings).
Proof.
  intros Hf. revert soup.
  apply (soup_ind (λ n, stripped (transform f n ≫= strings) = stripped (strings n))).
  - intros soup Hall. induction Hall as [|n soup Hn _ IH]; [done|].
    by rewrite !bind_cons bind_app !stripped_app Hn IH.
  - done.
  - done.
  - intros i name attrs cs _ IH. by rewrite /= Hf.
Qed.

End transform.

(** ** Removal *)

(** The id and the name of every tag, in document order. *)
Definition tags soup : list (nat * string) :=
  (λ n, (tag_id n, tag_name n)) <$> (soup ≫= elements).

Lemma ids_tags soup : ids soup = (tags soup).*1.
Proof. by rewrite /ids /tags -list_fmap_compose. Qed.

Lemma tags_app soup soup' : tags (soup ++ soup') = tags soup ++ tags soup'.
Proof. by rewrite /tags bind_app fmap_app. Qed.

Lemma tags_tag i name attrs cs : tags [Tag i name attrs cs] = (i, name) :: tags cs.
Proof. by rewrite /tags /= app_nil_r. Qed.

Lemma elem_of_tags_ids i name soup : (i, name) ∈ tags soup → i ∈ ids soup.
Proof. rewrite ids_tags. apply (list_elem_of_fmap_2 fst _ (i, name)). Qed.

(** On a well-formed tree the id fixes the name. *)
Lemma wf_soup_name soup i name name' :
  wf_soup soup → (i, name) ∈ tags soup → (i, name') ∈ tags soup → name = name'.
Proof.
  rewrite /wf_soup ids_tags. induction (tags soup) as [|[j x] l IH]; [by intros _ ?%elem_of_nil|].
  rewrite fmap_cons NoDup_cons !elem_of_cons. intros [Hj Hl] [?|H1] [?|H2]; simplify_eq; auto.
  - destruct Hj. apply (list_elem_of_fmap_2 fst _ _ H2).
  - destruct Hj. apply (list_elem_of_fmap_2 fst _ _ H1).
Qed.

Lemma remove_app d soup soup' : remove d (soup ++ soup') = remove d soup ++ remove d soup'.
Proof. apply bind_app. Qed.

Lemma remove_cons d n soup : remove d (n :: soup) = remove d [n] ++ remove d soup.
Proof. apply (remove_app d [n]). Qed.

Lemma remove_tag d i name attrs cs :
  remove d [Tag i name attrs cs] = if d i name then [] else [Tag i name attrs (remove d cs)].
Proof. by rewrite /remove /= app_nil_r. Qed.

Lemma remove_ext d d' soup :
  Forall (λ t, d t.1 t.2 = d' t.1 t.2) (tags soup) → remove d soup = remove d' soup.
Proof.
  rewrite Forall_fmap. intros Hd. apply transform_ext.
  eapply Forall_impl; [done|]. intros n Hn cs. simpl in Hn. by rewrite Hn.
Qed.

Lemma transform_tag soup : soup ≫= transform (λ i name attrs cs, [Tag i name attrs cs]) = soup.
Proof.
  revert soup. pose (f := λ i name attrs cs, [Tag i name attrs cs]).
  apply (soup_ind (λ n, transform f n = [n]) (λ soup, soup ≫= transform f = soup)).
  - intros soup Hall. induction Hall as [|n soup Hn _ IH]; [done|]. by rewrite bind_cons Hn IH.
  - done.
  - done.
  - intros i name attrs cs _ IH. by rewrite /= IH.
Qed.

(** Nothing named, nothing removed. *)
Lemma remove_id d soup : Forall (λ t, d t.1 t.2 = false) (tags soup) → remove d soup = soup.
Proof. intros Hd. rewrite (remove_ext d (λ _ _, false)) //. apply transform_tag. Qed.

(** Two removals in a row are the removal of what either names. *)
Lemma remove_remove d d' soup :
  remove d' (remove d soup) = remove (λ i name, d i name || d' i name) soup.
Proof.
  revert soup. pose (d2 := λ i name, d i name || d' i name).
  apply (soup_ind (λ n, remove d' (remove d [n]) = remove d2 [n])
                  (λ soup, remove d' (remove d soup) = remove d2 soup)).
  - intros soup Hall. induction Hall as [|n soup Hn _ IH]; [done|].
    by rewrite (remove_cons d) (remove_cons d2) remove_app Hn IH.
  - done.
  - done.
  - intros i name attrs cs _ IH. rewrite !remove_tag /d2.
    destruct (d i name); [done|]. rewrite remove_tag /=. destruct (d' i name); [done|].
    by rewrite IH.
Qed.

(** What is left was there, in the same order, and was not named. *)
Lemma tags_remove d soup :
  tags (remove d soup) `sublist_of` filter (λ t, d t.1 t.2 = false) (tags soup).
Proof.
  revert soup. pose (P := λ t : nat * string, d t.1 t.2 = false).
  apply (soup_ind (λ n, tags (remove d [n]) `sublist_of` filter P (tags [n]))
                  (λ soup, tags (remove d soup) `sublist_of` filter P (tags soup))).
  - intros soup Hall. induction Hall as [|n soup Hn _ IH]; [done|].
    rewrite remove_cons (tags_app [n]) tags_app filter_app. by apply sublist_app.
  - done.
  - done.
  - intros i name attrs cs _ IH. rewrite remove_tag tags_tag filter_cons /P /=.
    destruct (d i name); case_decide; try done; [apply sublist_nil_l|].
    rewrite tags_tag. by apply sublist_skip.
Qed.

Lemma elem_of_tags_remove d soup i name :
  (i, name) ∈ tags (remove d soup) → (i, name) ∈ tags soup ∧ d i name = false.
Proof.
  intros Hi. eapply elem_of_sublist in Hi; [|apply tags_remove].
  by apply list_elem_of_filter in Hi as [??].
Qed.

Lemma sublist_ids_remove d soup : ids (remove d soup) `sublist_of` ids soup.
Proof.
  rewrite !ids_tags. apply fmap_sublist. etrans; [apply tags_remove|apply sublist_filter].
Qed.

Lemma wf_soup_remove d soup : wf_soup soup → wf_soup (remove d soup).
Proof. intros Hwf. eapply sublist_NoDup; [done|apply sublist_ids_remove]. Qed.

(** Whether [d] names [el] makes no difference when [el] is not in what
    [d] leaves. *)
Lemma remove_absent d d' el soup :
  (∀ i name, i ≠ el → d' i name = d i name) → (∀ name, d el name = false) →
  el ∉ ids (remove d soup) → remove d' soup = remove d soup.
Proof.
  intros Hne Hel. revert soup.
  apply (soup_ind (λ n, el ∉ ids (remove d [n]) → remove d' [n] = remove d [n])
                  (λ soup, el ∉ ids (remove d soup) → remove d' soup = remove d soup)).
  - intros soup Hall. induction Hall as [|n soup Hn _ IH]; [done|].
    rewrite (remove_cons d) (remove_cons d') ids_app not_elem_of_app. intros [??].
    by rewrite Hn ?IH.
  - done.
  - done.
  - intros i name attrs cs _ IH. rewrite !remove_tag.
    destruct (decide (i = el)) as [->|Hi].
    + rewrite Hel ids_tag. intros []. by left.
    + rewrite (Hne _ _ Hi). destruct (d i name); [done|].
      rewrite ids_tag not_elem_of_cons. intros [_ ?]. by rewrite IH.
Qed.

(** ** Finding an element *)

Lemma find_all_True soup : find_all (λ _, true) soup = ids soup.
Proof.
  rewrite /find_all /ids. f_equal. induction (soup ≫= elements) as [|n l IH]; [done|].
  by rewrite filter_cons_True // IH.
Qed.

Lemma name_of_None el soup : name_of el soup = None ↔ el ∉ ids soup.
Proof.
  rewrite /name_of /find_tag fmap_None head_None elem_of_ids. split.
  - intros Hnil (n & Hn & Hid). by eapply (filter_nil_not_elem_of _ _ n).
  - intros Hel. destruct (filter _ _) as [|n l] eqn:E; [done|]. destruct Hel. exists n.
    apply and_comm, (list_elem_of_filter (λ n, tag_id n = el)). rewrite E. by left.
Qed.

Lemma name_of_Some el soup name : name_of el soup = Some name → (el, name) ∈ tags soup.
Proof.
  rewrite /name_of /find_tag fmap_Some. intros (n & Hn%head_Some_elem_of & ->).
  apply list_elem_of_filter in Hn as [<- Hn]. apply list_elem_of_fmap. eauto.
Qed.

(** Decomposing what is not in the tree changes nothing. *)
Lemma decompose_absent el soup : el ∉ ids soup → decompose el soup = soup.
Proof.
  intros Hel. apply remove_id, Forall_forall. intros [i name] Hi%elem_of_tags_ids.
  apply bool_decide_eq_false. simpl. by intros ->.
Qed.

(** ** The loop of [_trim_soup] is one pass from the root *)

Section prune.
Variable keep_set : gset nat.
Implicit Types seen : gset nat.

(** The unwanted tags among the ones the loop has visited. *)
Local Notation visited seen := (λ i name, bool_decide (i ∈ seen) && unwanted keep_set i name).

Lemma visited_other seen el i name :
  i ≠ el → visited ({[el]} ∪ seen) i name = visited seen i name.
Proof. intros Hi. simpl. f_equal. apply bool_decide_ext. set_solver. Qed.

(** One turn of the loop on what the turns before it left. *)
Lemma prune_step_visited seen el soup :
  wf_soup soup → el ∉ seen →
  prune_step keep_set (remove (visited seen) soup) el = remove (visited ({[el]} ∪ seen)) soup.
Proof.
  intros Hwf Hel. rewrite /prune_step.
  destruct (name_of el (remove (visited seen) soup)) as [name|] eqn:E.
  - apply name_of_Some, elem_of_tags_remove in E as [Hin _].
    assert (∀ i name', (i, name') ∈ tags soup → i = el → name' = name) as Hname.
    { intros i name' Hi ->. by eapply wf_soup_name. }
    destruct (protected (Some name)) eqn:Hp; [|case_decide as Hk].
    + apply remove_ext, Forall_forall. intros [i name'] Hi. simpl.
      destruct (decide (i = el)) as [Heq|]; [|by rewrite visited_other].
      rewrite (Hname _ _ Hi Heq) /unwanted Hp /=. by rewrite !andb_false_r.
    + apply remove_ext, Forall_forall. intros [i name'] Hi. simpl.
      destruct (decide (i = el)) as [->|]; [|by rewrite visited_other].
      by rewrite /unwanted (bool_decide_eq_true_2 _ Hk) orb_true_r !andb_false_r.
    + rewrite /decompose remove_remove. apply remove_ext, Forall_forall.
      intros [i name'] Hi. simpl.
      destruct (decide (i = el)) as [Heq|Hne].
      * rewrite (Hname _ _ Hi Heq) /unwanted Hp. subst i.
        rewrite (bool_decide_eq_false_2 _ Hk) (bool_decide_eq_true_2 (el = el)) // orb_true_r.
        symmetry. apply andb_true_intro.
        split; [apply bool_decide_eq_true; set_solver|done].
      * by rewrite (bool_decide_eq_false_2 _ Hne) orb_false_r visited_other.
  - apply name_of_None in E.
    assert (remove (visited ({[el]} ∪ seen)) soup = remove (visited seen) soup) as ->.
    { apply (remove_absent _ _ el); [by intros; apply visited_other| |done].
      intros name. by rewrite (bool_decide_eq_false_2 _ Hel). }
    rewrite decompose_absent //. by case_decide.
Qed.

Lemma prune_loop l seen soup :
  wf_soup soup → NoDup l → (∀ i, i ∈ l → i ∉ seen) →
  foldl (prune_step keep_set) (remove (visited seen) soup) l
  = remove (visited (list_to_set l ∪ seen)) soup.
Proof.
  intros Hwf. revert seen. induction l as [|el l IH]; intros seen Hl Hseen; simpl.
  - by rewrite (left_id_L ∅ (∪)).
  - apply NoDup_cons in Hl as [Hel Hl].
    rewrite prune_step_visited; [done|by apply Hseen; left|].
    rewrite IH; [done|set_solver|].
    by rewrite (assoc_L (∪)) (comm_L (∪) (list_to_set l)).
Qed.

End prune.

Lemma prune_prune_pass keep_set soup :
  wf_soup soup → prune keep_set soup = prune_pass keep_set soup.
Proof.
  intros Hwf. rewrite /prune /prune_pass find_all_True.
  pose proof (prune_loop keep_set (ids soup) ∅ soup Hwf Hwf) as Hloop.
  rewrite remove_id in Hloop; [by apply Forall_forall|].
  rewrite Hloop; [set_solver|]. apply remove_ext, Forall_forall.
  intros [i name] Hi%elem_of_tags_ids. rewrite /= bool_decide_eq_true_2 //. set_solver.
Qed.

(** ** The keep-set *)

Lemma elem_of_make_keep_set roots soup i :
  i ∈ make_keep_set roots soup ↔
  ∃ r, r ∈ roots ∧ (i = r ∨ i ∈ descendants r soup ∨ i ∈ parents r soup).
Proof.
  rewrite /make_keep_set.
  assert (∀ ks, i ∈ foldl (keep_set_add soup) ks roots ↔
    i ∈ ks ∨ ∃ r, r ∈ roots ∧ (i = r ∨ i ∈ descendants r soup ∨ i ∈ parents r soup)) as H.
  { induction roots as [|r roots IH]; intros ks; simpl.
    - split; [by left|]. intros [?|(r & ?%elem_of_nil & _)]; done.
    - rewrite IH /keep_set_add !elem_of_union !elem_of_list_to_set elem_of_singleton.
      setoid_rewrite elem_of_cons. naive_solver. }
  rewrite H. set_solver.
Qed.

Lemma elem_of_parents el soup i :
  i ∈ parents el soup ↔ ∃ n, n ∈ soup ≫= elements ∧ tag_id n = i ∧ el ∈ ids (tag_contents n).
Proof.
  rewrite /parents elem_of_reverse list_elem_of_fmap.
  setoid_rewrite list_elem_of_filter. naive_solver.
Qed.

(** The element an id names is one: two tags of a well-formed tree with the
    same id are the same tag. *)
Lemma wf_soup_tag soup n m :
  wf_soup soup → n ∈ soup ≫= elements → m ∈ soup ≫= elements → tag_id n = tag_id m → n = m.
Proof.
  rewrite /wf_soup /ids. induction (soup ≫= elements) as [|k l IH]; [by intros _ ?%elem_of_nil|].
  rewrite fmap_cons NoDup_cons !elem_of_cons. intros [Hk Hl] [->|Hn] [->|Hm] Heq; auto.
  - destruct Hk. rewrite Heq. by apply list_elem_of_fmap_2.
  - destruct Hk. rewrite -Heq. by apply list_elem_of_fmap_2.
Qed.

Lemma find_tag_Some el soup n :
  wf_soup soup → find_tag el soup = Some n ↔ n ∈ soup ≫= elements ∧ tag_id n = el.
Proof.
  intros Hwf. rewrite /find_tag. split.
  - intros Hn%head_Some_elem_of. apply list_elem_of_filter in Hn. tauto.
  - intros [Hn Hid].
    destruct (head _) as [m|] eqn:E.
    + apply head_Some_elem_of, list_elem_of_filter in E as [Hm ?].
      f_equal. apply (wf_soup_tag soup); congruence.
    + apply head_None in E. by destruct (filter_nil_not_elem_of _ _ n E).
Qed.

Lemma find_tag_None el soup : find_tag el soup = None ↔ el ∉ ids soup.
Proof. rewrite -name_of_None /name_of. by destruct (find_tag el soup). Qed.

Lemma find_tag_app el soup soup' :
  find_tag el (soup ++ soup') =
  match find_tag el soup with Some n => Some n | None => find_tag el soup' end.
Proof.
  rewrite /find_tag bind_app filter_app. by destruct (filter _ (soup ≫= elements)).
Qed.

Lemma find_tag_tag el i name attrs cs :
  find_tag el [Tag i name attrs cs] =
  if decide (i = el) then Some (Tag i name attrs cs) else find_tag el cs.
Proof. rewrite /find_tag elements_tag filter_cons /=. by case_decide. Qed.

Lemma wf_soup_app soup soup' :
  wf_soup (soup ++ soup') ↔
  wf_soup soup ∧ (∀ i, i ∈ ids soup → i ∉ ids soup') ∧ wf_soup soup'.
Proof. rewrite /wf_soup ids_app. apply NoDup_app. Qed.

Lemma wf_soup_tag_inv i name attrs cs :
  wf_soup [Tag i name attrs cs] ↔ i ∉ ids cs ∧ wf_soup cs.
Proof. rewrite /wf_soup ids_tag. apply NoDup_cons. Qed.

(** An element that [d] does not name, under parents it does not name and
    over descendants it does not name, is in what [d] leaves as it was. *)
Lemma find_tag_remove d el soup :
  el ∈ ids soup →
  Forall (λ n, tag_id n = el ∨ el ∈ ids (tag_contents n) → d (tag_id n) (tag_name n) = false)
    (soup ≫= elements) →
  Forall (λ n, tag_id n = el → Forall (λ t, d t.1 t.2 = false) (tags (tag_contents n)))
    (soup ≫= elements) →
  find_tag el (remove d soup) = find_tag el soup.
Proof.
  pose (H1 := λ n, tag_id n = el ∨ el ∈ ids (tag_contents n) → d (tag_id n) (tag_name n) = false).
  pose (H2 := λ n, tag_id n = el → Forall (λ t, d t.1 t.2 = false) (tags (tag_contents n))).
  revert soup.
  apply (soup_ind
    (λ n, el ∈ ids [n] → Forall H1 (elements n) → Forall H2 (elements n) →
          find_tag el (remove d [n]) = find_tag el [n])
    (λ soup, el ∈ ids soup → Forall H1 (soup ≫= elements) → Forall H2 (soup ≫= elements) →
             find_tag el (remove d soup) = find_tag el soup)).
  - intros soup Hall. induction Hall as [|n soup Hn _ IH]; [by intros ?%elem_of_nil|].
    rewrite bind_cons !Forall_app remove_cons find_tag_app (find_tag_app _ [n]).
    intros Hel [??] [??]. destruct (decide (el ∈ ids [n])) as [Hin|Hin].
    + rewrite Hn ?app_nil_r //. by destruct (find_tag el [n]) eqn:E; [|apply find_tag_None in E].
    + rewrite ids_cons elem_of_app in Hel. destruct Hel as [?|Hel]; [done|].
      assert (find_tag el (remove d [n]) = None) as ->.
      { apply find_tag_None. intros Hr. destruct Hin.
        eapply elem_of_sublist; [done|apply sublist_ids_remove]. }
      apply find_tag_None in Hin as ->. by apply IH.
  - by intros s ?%elem_of_nil.
  - by intros s ?%elem_of_nil.
  - intros i name attrs cs _ IH. rewrite ids_tag elem_of_cons !Forall_cons remove_tag.
    intros Hel [Hi ?] [Hi' ?]. rewrite Hi; [simpl; naive_solver|]. rewrite !find_tag_tag.
    case_decide as Heq; [by rewrite remove_id //; apply Hi'|].
    apply IH; [|done..]. by destruct Hel.
Qed.

(** ** The other methods *)

Lemma stripped_cons_blank s l : Py.strip s = "" → stripped (s :: l) = stripped l.
Proof. intros Hs. by rewrite /stripped fmap_cons filter_cons_False // Hs; intros []. Qed.

Lemma sublist_ids_decompose el soup : ids (decompose el soup) `sublist_of` ids soup.
Proof. apply sublist_ids_remove. Qed.

Lemma sublist_ids_unwrap el soup : ids (unwrap el soup) `sublist_of` ids soup.
Proof.
  apply sublist_ids_transform. intros i name attrs cs.
  case_decide; [by apply sublist_cons|by rewrite ids_tag].
Qed.

Lemma sublist_ids_replace_with el s soup : ids (replace_with el s soup) `sublist_of` ids soup.
Proof.
  apply sublist_ids_transform. intros i name attrs cs.
  case_decide; [apply sublist_nil_l|by rewrite ids_tag].
Qed.

Lemma ids_insert_before el s soup : ids (insert_before el s soup) `sublist_of` ids soup.
Proof.
  apply sublist_ids_transform. intros i name attrs cs.
  case_decide; [rewrite (ids_cons (NavigableString s) [_]) ids_string /=|]; by rewrite ids_tag.
Qed.

Lemma ids_append el s soup : ids (append el s soup) `sublist_of` ids soup.
Proof.
  apply sublist_ids_transform. intros i name attrs cs.
  case_decide; by rewrite ids_tag ?ids_app ?app_nil_r.
Qed.

(** Unwrapping moves no string. *)
Lemma stripped_unwrap el soup :
  stripped (unwrap el soup ≫= strings) = stripped (soup ≫= strings).
Proof.
  apply stripped_transform. intros i name attrs cs. case_decide; [done|by rewrite /= app_nil_r].
Qed.

(** A string of white space next to an element does not show in the text. *)
Lemma stripped_insert_before el s soup :
  Py.strip s = "" → stripped (insert_before el s soup ≫= strings) = stripped (soup ≫= strings).
Proof.
  intros Hs. apply stripped_transform. intros i name attrs cs.
  case_decide; rewrite /= ?app_nil_r //. by apply stripped_cons_blank.
Qed.

Lemma stripped_append el s soup :
  Py.strip s = "" → stripped (append el s soup ≫= strings) = stripped (soup ≫= strings).
Proof.
  intros Hs. apply stripped_transform. intros i name attrs cs.
  case_decide; rewrite /= ?app_nil_r // bind_app stripped_app /= stripped_cons_blank //.
  by rewrite app_nil_r.
Qed.

#[export] Hint Resolve sublist_ids_remove sublist_ids_decompose sublist_ids_unwrap sublist_ids_replace_with
  ids_insert_before ids_append : crawl.
