(* ===== verification/Extract.v ===== *)
(** * The extraction engine
    (src/backend/parser.py, class Parser, lines 15-119, and
    src/backend/clean_html.py)

    [parse] turns a page and a [ParserConfig] into text: the page is parsed,
    [trim_soup] prunes the tree by the four selector lists (root, drop,
    unwrap, keep, in this order), [clean_soup] removes what is not content
    and [soup_to_text] reads the text off.  The tree and the methods of
    BeautifulSoup are those of [Dom]; the parser of the page, the selector
    engine and the printer are the interface [Bs4], since the sources only
    call them.  A selector that soupsieve rejects makes [select] raise, and
    the engine with it: every function here returns a [Result].

    The theorems: [restrict] (the root and the keep stage) is one pass from
    the root of the tree ([restrict_pass]), it leaves every selected element
    as it was and removes what is neither selected, above or below a
    selected element, nor html, head or body ([restrict_spec]); the stages
    keep the ids of the tree distinct and add none ([trim_soup_wf]); the
    newlines that [soup_to_text] puts around block elements never reach the
    text ([soup_to_text_newlines]); [parse] raises only if [select] does
    ([parse_total]).

    [SimpleSoup] is a small instance of [Bs4] (a table of parsed pages,
    selectors that are lists of tag names and attribute tests); the examples
    and witnesses run on it, the theorems do not depend on it. *)

From Stdlib Require Import Ascii.
From stdpp Require Import gmap.
From S2P Require Import Prelude PyString DataModels Dom.

Local Open Scope crawl_scope.

(** ** What the sources call of bs4 and soupsieve *)

Class Bs4 := {
  (** [BeautifulSoup(content, "lxml")]. *)
  parse_html : string → BeautifulSoup;
  (** [soup.select(selector)]: the ids of the tags that match, in document
      order, or the error of a selector that soupsieve rejects. *)
  select : string → BeautifulSoup → Result (list nat);
  (** [soup.decode()]. *)
  decode : BeautifulSoup → string;
}.

(** What [select] returns are elements of the tree it is given. *)
Class SelectIds `{Bs4} :=
  select_ids selector soup els : select selector soup = Ok els → els ⊆ ids soup.

Section engine.
Context `{Bs4}.
Implicit Types soup : list Node.
Implicit Types selector : string.
Implicit Types selectors : list string.
Implicit Types text : string.

(** ** [Parser._first_match] *)

Fixpoint first_match selectors soup : Result (option nat) :=
  match selectors with
  | [] => Ok None
  | sel :: selectors =>
      els ←ᵣ select sel soup;
      match head els with
      | Some el => Ok (Some el)
      | None => first_match selectors soup
      end
  end.

(** ** [Parser._trim_soup] *)

(** [for sel in selectors: roots.extend(soup.select(sel))]. *)
Definition select_all selectors soup : Result (list nat) :=
  mjoin <$> mapM (λ sel, select sel soup) selectors.

(** The root stage (lines 27-47) and the keep stage (lines 62-88): the
    same code on another list of selectors. *)
Definition restrict selectors soup : Result BeautifulSoup :=
  if selectors is [] then Ok soup
  else
    roots ←ᵣ select_all selectors soup;
    if roots is [] then Ok soup
    else Ok (prune (make_keep_set roots soup) soup).

(** [for selector in selectors: for el in soup.select(selector): act(el)]. *)
Fixpoint for_each (act : nat → BeautifulSoup → BeautifulSoup) selectors soup
    : Result BeautifulSoup :=
  match selectors with
  | [] => Ok soup
  | selector :: selectors =>
      els ←ᵣ select selector soup;
      for_each act selectors (foldl (λ soup el, act el soup) soup els)
  end.

Definition trim_soup (parameters : ParserParameters.t) soup : Result BeautifulSoup :=
  soup ←ᵣ restrict (ParserParameters.root parameters) soup;
  soup ←ᵣ for_each decompose (ParserParameters.drop parameters) soup;
  soup ←ᵣ for_each unwrap (ParserParameters.unwrap parameters) soup;
  restrict (ParserParameters.keep parameters) soup.

(** ** [clean_html] *)

Definition non_content : string := "style,svg,canvas,template,head,meta,noscript".
Definition hidden : string :=
  "[hidden], [aria-hidden='true'], [style*='display:none'], [style*='visibility:hidden']".

(** [clean_html(soup)], the branch [isinstance(html, BeautifulSoup)]. *)
Definition clean_soup soup : Result BeautifulSoup :=
  soup ←ᵣ for_each decompose [non_content; hidden] soup;
  Ok (foldl (λ soup br, replace_with br nl soup) soup (find_all (String.eqb "br") soup)).

(** [clean_html(html)] of a string. *)
Definition clean_html (html : string) : Result string :=
  decode <$> clean_soup (parse_html html).

(** ** [Parser._soup_to_text] *)

Definition blockish : list string :=
  ["p"; "div"; "section"; "article"; "header"; "footer"; "aside"; "main"; "nav";
   "h1"; "h2"; "h3"; "h4"; "h5"; "h6"; "li"; "ul"; "ol"; "table"; "thead"; "tbody";
   "tr"; "td"; "th"; "figure"; "figcaption"; "pre"].

(** [for tag in soup.find_all(blockish): tag.insert_before("\n"); tag.append("\n")]. *)
Definition break_lines soup : BeautifulSoup :=
  foldl (λ soup tag, append tag nl (insert_before tag nl soup)) soup
        (find_all (λ name, bool_decide (name ∈ blockish)) soup).

(** [re.sub(r"[ \t]+", " ", text)]; [run] says that the character before
    was a space or a tab. *)
Fixpoint collapse_blanks (run : bool) text : string :=
  match text with
  | "" => ""
  | String c text =>
      if bool_decide (c = " "%char ∨ c = "009"%char)
      then if run then collapse_blanks true text else String " " (collapse_blanks true text)
      else String c (collapse_blanks false text)
  end.

(** [re.sub(r"\n{3,}", "\n\n", text)]; [run] counts the newlines just
    before. *)
Fixpoint collapse_newlines (run : nat) text : string :=
  match text with
  | "" => ""
  | String c text =>
      if bool_decide (c = "010"%char)
      then if decide (run < 2) then String c (collapse_newlines (S run) text)
           else collapse_newlines (S run) text
      else String c (collapse_newlines 0 text)
  end.

(** Lines 106-111: the text of the tree, normalised. *)
Definition text_of soup : string :=
  let text := get_text " " soup in
  let text := collapse_blanks false text in
  let text := collapse_newlines 0 text in
  Py.strip text.

Definition soup_to_text soup : Result string :=
  soup ←ᵣ clean_soup soup;
  Ok (text_of (break_lines soup)).

(** ** [Parser.parse] *)

Definition parse (config : ParserConfig.t) (content : string) : Result string :=
  soup ←ᵣ trim_soup (ParserConfig.parameters config) (parse_html content);
  soup_to_text soup.

End engine.

(** The engine is the [Extractor] of the workers. *)
#[export] Instance parser_extractor `{Bs4} : Extractor := parse.

(** ** The stages keep the tree well formed *)

Section stages.
Context `{Bs4}.
Implicit Types soup : list Node.
Implicit Types selectors : list string.
Implicit Types act : nat → BeautifulSoup → BeautifulSoup.

Lemma select_all_nil soup : select_all [] soup = Ok [].
Proof. done. Qed.

Lemma select_all_cons sel selectors soup :
  select_all (sel :: selectors) soup =
  (els ←ᵣ select sel soup; roots ←ᵣ select_all selectors soup; Ok (els ++ roots)).
Proof.
  rewrite /select_all /=. destruct (select sel soup) as [els|e]; [|done]. simpl.
  by destruct (mapM _ selectors).
Qed.

Lemma elem_of_select_all `{!SelectIds} selectors soup roots :
  select_all selectors soup = Ok roots → roots ⊆ ids soup.
Proof.
  revert roots. induction selectors as [|sel selectors IH]; intros roots.
  - intros [= <-]. set_solver.
  - rewrite select_all_cons. destruct (select sel soup) as [els|] eqn:E; [|done].
    destruct (select_all selectors soup) as [roots'|]; [|done]. intros [= <-].
    apply select_ids in E. specialize (IH _ eq_refl). set_solver.
Qed.

(** [restrict] with the loop replaced by the pass. *)
Lemma restrict_prune_pass selectors soup :
  wf_soup soup →
  restrict selectors soup =
  (roots ←ᵣ select_all selectors soup;
   Ok (if roots is [] then soup else prune_pass (make_keep_set roots soup) soup)).
Proof.
  intros Hwf. rewrite /restrict. destruct selectors as [|sel selectors]; [done|].
  destruct (select_all _ soup) as [[|r roots]|]; by rewrite ?prune_prune_pass.
Qed.

Lemma sublist_ids_restrict selectors soup soup' :
  wf_soup soup → restrict selectors soup = Ok soup' → ids soup' `sublist_of` ids soup.
Proof.
  intros Hwf. rewrite restrict_prune_pass //.
  destruct (select_all _ soup) as [[|r roots]|]; intros [= <-]; [done|].
  apply sublist_ids_remove.
Qed.

Lemma sublist_ids_foldl act (els : list nat) soup :
  (∀ el soup, ids (act el soup) `sublist_of` ids soup) →
  ids (foldl (λ soup el, act el soup) soup els) `sublist_of` ids soup.
Proof.
  intros Hact. revert soup. induction els as [|el els IH]; intros soup; simpl; [done|].
  etrans; [apply IH|apply Hact].
Qed.

Lemma sublist_ids_for_each act selectors soup soup' :
  (∀ el soup, ids (act el soup) `sublist_of` ids soup) →
  for_each act selectors soup = Ok soup' → ids soup' `sublist_of` ids soup.
Proof.
  intros Hact. revert soup. induction selectors as [|sel selectors IH]; intros soup; simpl.
  - by intros [= <-].
  - destruct (select sel soup) as [els|]; [|done]. intros ->%IH.
    by apply sublist_ids_foldl.
Qed.


Lemma wf_soup_sublist soup soup' : ids soup' `sublist_of` ids soup → wf_soup soup → wf_soup soup'.
Proof. intros Hsub Hwf. by eapply sublist_NoDup. Qed.

End stages.

(** ** The one-pass reference *)

Section reference.
Context `{Bs4}.
Implicit Types soup : list Node.
Implicit Types selectors : list string.

(** [restrict] and [trim_soup] with the pruning loop replaced by the single
    pass from the root. *)
Definition restrict_pass selectors soup : Result BeautifulSoup :=
  roots ←ᵣ select_all selectors soup;
  Ok (if roots is [] then soup else prune_pass (make_keep_set roots soup) soup).

Definition trim_pass (parameters : ParserParameters.t) soup : Result BeautifulSoup :=
  soup ←ᵣ restrict_pass (ParserParameters.root parameters) soup;
  soup ←ᵣ for_each decompose (ParserParameters.drop parameters) soup;
  soup ←ᵣ for_each unwrap (ParserParameters.unwrap parameters) soup;
  restrict_pass (ParserParameters.keep parameters) soup.

(** The selectors of a configuration and of [clean_html]. *)
Definition selectors_of (parameters : ParserParameters.t) : list string :=
  ParserParameters.root parameters ++ ParserParameters.drop parameters ++
  ParserParameters.unwrap parameters ++ ParserParameters.keep parameters ++
  [non_content; hidden].

Lemma unwanted_keep keep_set i name : i ∈ keep_set → unwanted keep_set i name = false.
Proof. intros Hi. by rewrite /unwanted (bool_decide_eq_true_2 _ Hi) orb_true_r. Qed.

Lemma unwanted_false keep_set i name :
  unwanted keep_set i name = false → protected (Some name) ∨ i ∈ keep_set.
Proof.
  rewrite /unwanted negb_false_iff orb_true_iff bool_decide_eq_true.
  intros [->|?]; auto.
Qed.

(** Root restriction and keep restriction, on a document whose elements
    are distinct: every selected element is in the result as it was in the
    document, with all it holds, and every tag of the result is html, head
    or body, a selected element, below one or above one. *)
Theorem restrict_spec `{!SelectIds} selectors soup roots soup' :
  wf_soup soup → select_all selectors soup = Ok roots → roots ≠ [] →
  restrict selectors soup = Ok soup' →
  (∀ r, r ∈ roots → find_tag r soup' = find_tag r soup) ∧
  (∀ i name, (i, name) ∈ tags soup' →
     protected (Some name) ∨
     ∃ r, r ∈ roots ∧ (i = r ∨ i ∈ descendants r soup ∨ i ∈ parents r soup)).
Proof.
  intros Hwf Hroots Hne. rewrite restrict_prune_pass // Hroots.
  destruct roots as [|r0 roots0] eqn:Er; [done|]. rewrite -Er in Hroots |- *.
  intros [= <-]. split.
  - intros r Hr. apply find_tag_remove.
    + by eapply elem_of_select_all.
    + apply Forall_forall. intros n Hn Hor. apply unwanted_keep, elem_of_make_keep_set.
      exists r. split; [done|]. destruct Hor as [->|?]; [by left|right; right].
      apply elem_of_parents. eauto.
    + apply Forall_forall. intros n Hn Hid. apply Forall_forall. intros [i name] Hi.
      apply unwanted_keep, elem_of_make_keep_set. exists r. split; [done|right; left].
      rewrite /descendants (proj2 (find_tag_Some r soup n Hwf)) //.
      by eapply elem_of_tags_ids.
  - intros i name [_ [?|Hi]%unwanted_false]%elem_of_tags_remove; [by left|right].
    by apply elem_of_make_keep_set.
Qed.

(** C20: the pruning of [_trim_soup], on a document whose elements are
    distinct, is the pipeline that prunes in one pass from the root: the
    loops that decompose element after element remove the subtrees that the
    pass removes. *)
Theorem trim_soup_pass parameters soup :
  wf_soup soup → trim_soup parameters soup = trim_pass parameters soup.
Proof.
  intros Hwf. rewrite /trim_soup /trim_pass restrict_prune_pass // -/(restrict_pass _ soup).
  destruct (restrict_pass _ soup) as [soup1|] eqn:E1; [|done].
  destruct (for_each decompose _ soup1) as [soup2|] eqn:E2; [|done].
  destruct (for_each unwrap _ soup2) as [soup3|] eqn:E3; [|done].
  apply restrict_prune_pass.
  apply (wf_soup_sublist soup); [|done].
  etrans; [eapply sublist_ids_for_each, E3; auto with crawl|].
  etrans; [eapply sublist_ids_for_each, E2; auto with crawl|].
  eapply sublist_ids_restrict; [done|]. by rewrite restrict_prune_pass.
Qed.


End reference.

(** ** The text *)

Section text.
Context `{Bs4}.
Implicit Types soup : list Node.
Implicit Types selectors : list string.

Lemma strip_nl : Py.strip nl = "".
Proof. done. Qed.

Lemma stripped_foldl_breaks (tags : list nat) soup :
  stripped (foldl (λ soup tag, append tag nl (insert_before tag nl soup)) soup tags ≫= strings)
  = stripped (soup ≫= strings).
Proof.
  revert soup. induction tags as [|tag tags IH]; intros soup; simpl; [done|].
  by rewrite IH stripped_append // stripped_insert_before.
Qed.

Lemma get_text_break_lines separator soup :
  get_text separator (break_lines soup) = get_text separator soup.
Proof. by rewrite /get_text /break_lines stripped_foldl_breaks. Qed.

(** The newlines that [_soup_to_text] inserts before and inside every
    block element do not reach the text: [get_text(strip=True)] strips every
    string and leaves out the empty ones, so the text is that of the cleaned
    tree without them, and two blocks are one space apart. *)
Theorem soup_to_text_newlines soup :
  soup_to_text soup = (soup ←ᵣ clean_soup soup; Ok (text_of soup)).
Proof.
  rewrite /soup_to_text. destruct (clean_soup soup) as [soup'|]; [|done].
  by rewrite /text_of get_text_break_lines.
Qed.

Lemma select_all_Ok selectors soup :
  Forall (λ sel, ∀ soup, is_Ok (select sel soup)) selectors →
  ∃ roots, select_all selectors soup = Ok roots.
Proof.
  induction 1 as [|sel selectors Hsel _ [roots IH]]; [by exists []|].
  rewrite select_all_cons IH. specialize (Hsel soup).
  destruct (select sel soup) as [els|]; [by eexists|done].
Qed.

Lemma restrict_Ok selectors soup :
  Forall (λ sel, ∀ soup, is_Ok (select sel soup)) selectors →
  ∃ soup', restrict selectors soup = Ok soup'.
Proof.
  intros Hall. rewrite /restrict. destruct (select_all_Ok _ soup Hall) as [roots ->].
  destruct selectors; [by eexists|]. destruct roots; by eexists.
Qed.

Lemma for_each_Ok act selectors soup :
  Forall (λ sel, ∀ soup, is_Ok (select sel soup)) selectors →
  ∃ soup', for_each act selectors soup = Ok soup'.
Proof.
  intros Hall. revert soup. induction Hall as [|sel selectors Hsel _ IH]; intros soup; simpl.
  - by eexists.
  - specialize (Hsel soup). destruct (select sel soup) as [els|]; [apply IH|done].
Qed.

(** The engine raises only if the selector engine does: when soupsieve
    accepts the selectors of the configuration and the two of [clean_html],
    [parse] returns a text for every page. *)
Theorem parse_total config content :
  Forall (λ sel, ∀ soup, is_Ok (select sel soup))
    (selectors_of (ParserConfig.parameters config)) →
  ∃ text, parse config content = Ok text.
Proof.
  rewrite /selectors_of !Forall_app. intros (Hroot & Hdrop & Hunwrap & Hkeep & Hclean).
  rewrite /parse /trim_soup.
  destruct (restrict_Ok _ (parse_html content) Hroot) as [s1 ->].
  destruct (for_each_Ok decompose _ s1 Hdrop) as [s2 ->].
  destruct (for_each_Ok unwrap _ s2 Hunwrap) as [s3 ->].
  destruct (restrict_Ok _ s3 Hkeep) as [s4 ->].
  rewrite /soup_to_text /clean_soup.
  destruct (for_each_Ok decompose _ s4 Hclean) as [s5 ->]. by eexists.
Qed.

End text.

(** ** The drop stage *)

Lemma not_elem_of_ids_decompose el soup : el ∉ ids (decompose el soup).
Proof.
  rewrite ids_tags. intros ([i name] & -> & [_ Hd]%elem_of_tags_remove)%list_elem_of_fmap.
  by apply bool_decide_eq_false in Hd.
Qed.

(** Every element of the list is gone after the loop that decomposes them. *)
Lemma not_elem_of_ids_foldl_decompose (els : list nat) soup el :
  el ∈ els → el ∉ ids (foldl (λ soup el, decompose el soup) soup els).
Proof.
  revert soup. induction els as [|el' els IH]; intros soup; [by intros ?%elem_of_nil|].
  intros [->|Hel]%elem_of_cons; simpl; [|by apply IH].
  intros Hin. apply (not_elem_of_ids_decompose el' soup).
  eapply elem_of_sublist; [done|]. apply sublist_ids_foldl. auto with crawl.
Qed.

(** ** An instance to run the engine on *)

(** A selector of the instance: a tag name, [[attr]], [[attr='value']] or
    [[attr*='value']]. *)
Inductive Simple :=
  | ByName (name : string)
  | HasAttr (attr : string)
  | AttrIs (attr value : string)
  | AttrContains (attr value : string).

(** ['value'] without its quotes. *)
Definition unquote (v : string) : string := Py.drop 1 (Py.drop_last v).

Definition parse_simple (s : string) : Result Simple :=
  let s := Py.strip s in
  if Py.startswith s "[" && Py.endswith s "]" then
    match Py.split "=" (Py.drop 1 (Py.drop_last s)) with
    | [attr] => Ok (HasAttr attr)
    | [attr; v] =>
        if Py.endswith attr "*" then Ok (AttrContains (Py.drop_last attr) (unquote v))
        else Ok (AttrIs attr (unquote v))
    | _ => Err ("Malformed attribute selector: " +:+ s)
    end
  else if bool_decide (s = "") || Py.contains_char "[" s || Py.contains_char "!" s
  then Err ("Invalid selector: " +:+ s)
  else Ok (ByName s).

Definition lookup_attr (attr : string) (attrs : list (string * string)) : option string :=
  snd <$> head (filter (λ kv, kv.1 = attr) attrs).

Definition matches (sel : Simple) (n : Node) : bool :=
  match sel with
  | ByName name => bool_decide (tag_name n = name)
  | HasAttr attr => bool_decide (is_Some (lookup_attr attr (tag_attrs n)))
  | AttrIs attr v => bool_decide (lookup_attr attr (tag_attrs n) = Some v)
  | AttrContains attr v =>
      match lookup_attr attr (tag_attrs n) with
      | Some v' => Py.contains v v'
      | None => false
      end
  end.

(** A comma-separated list of simple selectors. *)
Definition simple_select (selector : string) (soup : list Node) : Result (list nat) :=
  sels ←ᵣ mapM parse_simple (Py.split "," selector);
  Ok (tag_id <$> filter (λ n, existsb (λ sel, matches sel n) sels) (soup ≫= elements)).

(** The pages the instance knows, parsed; any other page is one string. *)
Definition table_parse (pages : list (string * list Node)) (content : string) : list Node :=
  match head (filter (λ p, p.1 = content) pages) with
  | Some p => p.2
  | None => [NavigableString content]
  end.

Fixpoint simple_decode (n : Node) : string :=
  match n with
  | NavigableString s => s
  | Comment s => "<!--" +:+ s +:+ "-->"
  | Tag _ name attrs cs =>
      "<" +:+ name +:+
      Py.join "" ((λ kv, " " +:+ kv.1 +:+ "='" +:+ kv.2 +:+ "'") <$> attrs) +:+ ">" +:+
      Py.join "" (simple_decode <$> cs) +:+ "</" +:+ name +:+ ">"
  end.

Definition SimpleSoup (pages : list (string * list Node)) : Bs4 := {|
  parse_html := table_parse pages;
  select := simple_select;
  decode soup := Py.join "" (simple_decode <$> soup);
|}.

Lemma SimpleSoup_select_ids pages : @SelectIds (SimpleSoup pages).
Proof.
  intros selector soup els. rewrite /select /= /simple_select.
  destruct (mapM _ _) as [sels|]; [|done]. intros [= <-] i.
  rewrite elem_of_ids. intros (n & -> & Hn%list_elem_of_filter)%list_elem_of_fmap.
  exists n. tauto.
Qed.

(** ** Examples *)

(** The page of the end-to-end property of the specification, as the parser
    builds it: the text of a script is of a type [get_text] leaves out. *)
Definition hello_page : string :=
  "<html><body><nav>X</nav><main><p>Hello</p><script>bad</script></main></body></html>".

Definition hello_soup : list Node :=
  [Tag 1 "html" []
     [Tag 2 "body" []
        [Tag 3 "nav" [] [NavigableString "X"];
         Tag 4 "main" []
           [Tag 5 "p" [] [NavigableString "Hello"];
            Tag 6 "script" [] [Comment "bad"]]]]].

(** Two paragraphs, a line break and a hidden block. *)
Definition blocks_page : string :=
  "<html><body><p>one</p><p>two<br>three</p><div hidden=''>four</div></body></html>".

Definition blocks_soup : list Node :=
  [Tag 1 "html" []
     [Tag 2 "body" []
        [Tag 3 "p" [] [NavigableString "one"];
         Tag 4 "p" [] [NavigableString "two"; Tag 5 "br" [] []; NavigableString "three"];
         Tag 6 "div" [("hidden", "")] [NavigableString "four"]]]].

Definition example_bs4 : Bs4 := SimpleSoup [(hello_page, hello_soup); (blocks_page, blocks_soup)].

Definition hello_config : ParserConfig.t :=
  ParserConfig.make (ParserParameters.make ["main"] [] ["script"] []) "https://a.com/docs".

Definition plain_config : ParserConfig.t :=
  ParserConfig.make (ParserParameters.make [] [] [] []) "https://a.com/docs".

Lemma wf_hello_soup : wf_soup hello_soup.
Proof. apply (bool_decide_unpack _). by vm_compute. Defined.

(** The end-to-end extraction of the specification. *)
Example parse_hello : parse (H:=example_bs4) hello_config hello_page = Ok "Hello".
Proof. by vm_compute. Qed.

(** The paragraphs and the line break are one space apart in the text, and
    the hidden block is gone. *)
Example parse_blocks : parse (H:=example_bs4) plain_config blocks_page = Ok "one two three".
Proof. by vm_compute. Qed.

(** A selector that the engine rejects is the error of [parse]. *)
Example parse_invalid_selector :
  parse (H:=example_bs4)
    (ParserConfig.make (ParserParameters.make [] [] ["p"; "!"] []) "https://a.com/docs")
    blocks_page = Err "Invalid selector: !".
Proof. by vm_compute. Qed.

(** Unwrapping [main] takes it out of the reach of a later [keep]. *)
Example trim_unwrap_then_keep :
  ids <$> trim_soup (H:=example_bs4) (ParserParameters.make [] ["main"; "p"] [] ["main"]) hello_soup
  = Ok [1; 2; 5].
Proof. by vm_compute. Qed.

Lemma restrict_spec_witness :
  (∀ r, r ∈ [4] → find_tag r (prune (make_keep_set [4] hello_soup) hello_soup)
                  = find_tag r hello_soup) ∧
  (∀ i name, (i, name) ∈ tags (prune (make_keep_set [4] hello_soup) hello_soup) →
     protected (Some name) ∨
     ∃ r, r ∈ [4] ∧ (i = r ∨ i ∈ descendants r hello_soup ∨ i ∈ parents r hello_soup)).
Proof.
  by apply (restrict_spec (H:=example_bs4) (H0:=SimpleSoup_select_ids _)
              ["main"] hello_soup [4] _ wf_hello_soup).
Defined.

Lemma trim_soup_pass_witness :
  trim_soup (H:=example_bs4) (ParserConfig.parameters hello_config) hello_soup
  = trim_pass (H:=example_bs4) (ParserConfig.parameters hello_config) hello_soup.
Proof. exact (trim_soup_pass (H:=example_bs4) _ hello_soup wf_hello_soup). Defined.


Lemma parse_total_witness : ∃ text, parse (H:=example_bs4) hello_config hello_page = Ok text.
Proof.
  apply (parse_total (H:=example_bs4) hello_config hello_page).
  repeat constructor; intros soup; rewrite /select /= /simple_select;
    by destruct (mapM _ _) eqn:E; [|vm_compute in E].
Defined.
