(* ===== verification/Evaluation.v ===== *)
(** * Evaluation of a parser against labelled pages
    (src/backend/data_models.py: [SampleURL.evaluate], [SampleURL.from_url],
    [EvaluationRun.get_evaluation_results]; src/backend/evaluation.py)

    [distance] is the edit distance of the Levenshtein package by its
    recurrence.  A Python float is a rational ([Qc]): the quotients are
    exact, rounding is not modelled, and a division by zero is the
    [ZeroDivisionError] of Python.

    [evaluate] compares the text extracted from a page with its label;
    [aggregate_evaluation_results] averages a list of comparisons and
    [get_evaluation_results] is the method of [EvaluationRun] with the same
    body.  [eval_parser_generator] generates a parser for every domain of
    the evaluation set and evaluates it on the validation pages, and
    [eval_command] is the command [eval] of the script: the results of every
    configuration are saved as one [EvaluationRun].  The directory of the
    evaluation set is the interface [Evals], with a listing that raises
    when the directory is missing; [from_evals] reads a domain of it.
    [Files] gives the interface its instance over a file system, and holds
    the command add-evals and the dispatch of [main].

    The theorems: the distance is zero exactly between equal strings and is
    between the difference of the lengths and the longer length
    ([distance_bounds]); [evaluate] raises on a page without label or with
    an empty label, and its normalised distance is the distance over the
    length of the label, which is above one when the extraction is longer
    than the label by more than the label ([evaluate_spec]); the averages
    raise on an empty selection and are between zero and one for the three
    flags ([aggregate_evaluation_results_spec]). *)

From Stdlib Require Import Ascii QArith Qcanon.
From stdpp Require Import numbers gmap.
From S2P Require Import Prelude PyString DataModels Store Frontier GenWorker Synthesizer.

Local Open Scope crawl_scope.

(** ** [Levenshtein.distance] *)

Fixpoint distance (s : string) : string → nat :=
  match s with
  | "" => String.length
  | String a s' =>
      fix inner (t : string) : nat :=
        match t with
        | "" => S (String.length s')
        | String b t' =>
            if decide (a = b) then distance s' t'
            else S (distance s' t `min` inner t' `min` distance s' t')
        end
  end.

(** ** Numbers *)

Definition Qc_of_nat (n : nat) : Qc := Qc_of_Z (Z.of_nat n).

(** [a / b]. *)
Definition true_div (a : Qc) (b : nat) : Result Qc :=
  if decide (b = 0) then Err "division by zero" else Ok (a / Qc_of_nat b)%Qc.

(** [sum(l)]. *)
Definition sum (l : list Qc) : Qc := foldl Qcplus 0%Qc l.

(** A [bool] as the number Python adds up. *)
Definition Qc_of_bool (b : bool) : Qc := if b then 1%Qc else 0%Qc.

(** ** [SampleURL] *)

(** [SampleURL.from_url(url)]. *)
Definition from_url `{Env} (url : string) : Result SampleURL.t :=
  raw_content ←ᵣ load_raw_html url;
  Ok (SampleURL.make url raw_content).

(** [self.evaluate(parsed_content, config_name, domain)]. *)
Definition evaluate (self : SampleURL.t) (parsed_content config_name domain : string)
    : Result EvaluationResult.t :=
  match SampleURL.label self with
  | None => Err "'NoneType' object has no attribute 'content'"
  | Some label =>
      let content := ValidationLabel.content label in
      let levenshtein_distance := distance content parsed_content in
      levenshtein_distance_norm ←ᵣ
        true_div (Qc_of_nat levenshtein_distance) (String.length content);
      Ok (EvaluationResult.make levenshtein_distance_norm
            (bool_decide (content = parsed_content))
            (negb (Py.contains content parsed_content))
            (negb (Py.contains parsed_content content))
            config_name domain (SampleURL.url self) content parsed_content)
  end.

(** ** The averages *)

(** [if domain is not None: results = [... if result.domain == domain]] and
    the same for [config_name]. *)
Definition selected (results : list EvaluationResult.t) (domain config_name : option string)
    : list EvaluationResult.t :=
  let results :=
    match domain with
    | Some d => filter (λ result, EvaluationResult.domain result = d) results
    | None => results
    end in
  match config_name with
  | Some c => filter (λ result, EvaluationResult.config_name result = c) results
  | None => results
  end.

(** [aggregate_evaluation_results(evaluation_results, domain, config_name)]
    of evaluation.py. *)
Definition aggregate_evaluation_results (evaluation_results : list EvaluationResult.t)
    (domain config_name : option string) : Result EvaluationResults.t :=
  let evaluation_results := selected evaluation_results domain config_name in
  let n := length evaluation_results in
  levenshtein_distance_norm ←ᵣ
    true_div (sum (EvaluationResult.levenshtein_distance_norm <$> evaluation_results)) n;
  exact_match ←ᵣ
    true_div (sum (Qc_of_bool ∘ EvaluationResult.exact_match <$> evaluation_results)) n;
  missing_content ←ᵣ
    true_div (sum (Qc_of_bool ∘ EvaluationResult.missing_content <$> evaluation_results)) n;
  extra_content ←ᵣ
    true_div (sum (Qc_of_bool ∘ EvaluationResult.extra_content <$> evaluation_results)) n;
  Ok (EvaluationResults.make levenshtein_distance_norm exact_match missing_content
        extra_content domain config_name).

(** [self.get_evaluation_results(domain, config_name)] of [EvaluationRun]:
    the same lines on [self.results]. *)
Definition get_evaluation_results (self : EvaluationRun.t) (domain config_name : option string)
    : Result EvaluationResults.t :=
  aggregate_evaluation_results (EvaluationRun.results self) domain config_name.

(** ** The evaluation script *)

(** The directory of the evaluation set. *)
Class Evals := {
  (** [os.listdir(EVALS_PATH)], which raises when the directory is
      missing. *)
  listdir_evals : Result (list string);
  (** [[SampleURL.load(domain, file_name, validation) for file_name in
      os.listdir(EVALS_PATH / domain / ...)]]: the pages of the input or of
      the validation directory of a domain. *)
  load_samples : string → bool → Result (list SampleURL.t);
}.

Section script.
Context `{Evals} `{Extractor} `{Synth}.

(** [URLPrefix.from_evals(domain)] (data_models.py, lines 194-205). *)
Definition from_evals (domain : string) : Result URLPrefix.t :=
  sample_urls ←ᵣ load_samples domain false;
  validation_urls ←ᵣ load_samples domain true;
  Ok (URLPrefix.mk domain sample_urls
        (if validation_urls is [] then None else Some validation_urls) None None).

Definition list_domains (domains : option (list string)) : Result (list string) :=
  match domains with
  | None => listdir_evals
  | Some domains => filter (λ d, d ∈ domains) <$> listdir_evals
  end.

(** The body of [for sample_url in url_prefix.validation_urls]: the result
    to append, if the page has a label. *)
Definition eval_sample (parser : ParserConfig.t) (config_name domain : string)
    (sample_url : SampleURL.t) : Result (option EvaluationResult.t) :=
  parsed_content ←ᵣ object_parse (AParser parser) (SampleURL.raw_content sample_url);
  match SampleURL.label sample_url with
  | Some _ => Some <$> evaluate sample_url parsed_content config_name domain
  | None => Ok None
  end.

(** The body of [for domain in list_domains(domains)]. *)
Definition eval_domain (parser_generator : ParserGeneratorConfig.t) (config_name domain : string)
    : Result (list EvaluationResult.t) :=
  url_prefix ←ᵣ from_evals domain;
  parser ←ᵣ run_generator parser_generator url_prefix;
  match URLPrefix.validation_urls url_prefix with
  | None => Err "'NoneType' object is not iterable"
  | Some validation_urls =>
      omap id <$> mapM (eval_sample parser config_name domain) validation_urls
  end.

Definition eval_parser_generator (parser_generator : ParserGeneratorConfig.t)
    (config_name : string) (domains : option (list string)) : Result (list EvaluationResult.t) :=
  listed ←ᵣ list_domains domains;
  mjoin <$> mapM (eval_domain parser_generator config_name) listed.

(** The command [eval] of [main] (lines 129-141): [now] is
    [datetime.now().isoformat()].  The run is built with the name of the
    last configuration, which the model of the run ignores and which is
    not bound when there is no configuration. *)
Definition eval_command (configs : list string) (domains : option (list string))
    (now : string) (R : Redis) : Result Redis :=
  evaluation_results ←ᵣ
    mapM (λ config_name,
            parser_generator ←ᵣ from_config config_name;
            eval_parser_generator parser_generator config_name domains) configs;
  match last configs with
  | Some config_name => Ok (save (EvaluationRun.make (mjoin evaluation_results) now) R)
  | None => Err "name 'config_name' is not defined"
  end.

(** [create_sample_urls(urls)]: the pages that could be fetched. *)
Definition create_sample_urls `{Env} (urls : list string) : list SampleURL.t :=
  omap (λ url, result_to_option (from_url url)) urls.

End script.

(** ** The distance *)

Lemma distance_nil_r s : distance s "" = String.length s.
Proof. by destruct s. Qed.

Lemma distance_cons a s b t :
  distance (String a s) (String b t) =
  if decide (a = b) then distance s t
  else S (distance s (String b t) `min` distance (String a s) t `min` distance s t).
Proof. done. Qed.

Lemma distance_refl s : distance s s = 0.
Proof. induction s as [|a s IH]; [done|]. by rewrite distance_cons decide_True. Qed.

Lemma distance_le_max s t : distance s t ≤ String.length s `max` String.length t.
Proof.
  revert t. induction s as [|a s IHs]; intros t; [simpl; lia|].
  induction t as [|b t IHt]; [simpl; lia|].
  rewrite distance_cons. specialize (IHs t). case_decide; simpl in *; lia.
Qed.

Lemma distance_ge_diff s t :
  String.length s - String.length t ≤ distance s t ∧
  String.length t - String.length s ≤ distance s t.
Proof.
  revert t. induction s as [|a s IHs]; intros t; [simpl; lia|].
  induction t as [|b t IHt]; [simpl; lia|].
  rewrite distance_cons. pose proof (IHs t). pose proof (IHs (String b t)).
  case_decide; simpl in *; lia.
Qed.

Lemma distance_eq_0 s t : distance s t = 0 → s = t.
Proof.
  revert t. induction s as [|a s IHs]; intros [|b t]; try done.
  rewrite distance_cons. case_decide as Hab; [|done]. intros ->%IHs. by rewrite Hab.
Qed.

(** The edit distance is zero exactly between equal strings, at least
    the difference of the lengths and at most the longer length. *)
Theorem distance_bounds s t :
  (distance s t = 0 ↔ s = t) ∧
  String.length s - String.length t ≤ distance s t ∧
  String.length t - String.length s ≤ distance s t ∧
  distance s t ≤ String.length s `max` String.length t.
Proof.
  split_and!; [|apply distance_ge_diff..|apply distance_le_max].
  split; [apply distance_eq_0|intros ->; apply distance_refl].
Qed.

(** ** Quotients *)

Lemma Qc_of_nat_pos n : n ≠ 0 → (0 < Qc_of_nat n)%Qc.
Proof. intros Hn. rewrite /Qc_of_nat -Z2Qc_inj_0 -Z2Qc_inj_lt. lia. Qed.

Lemma Qc_of_nat_le n m : n ≤ m ↔ (Qc_of_nat n ≤ Qc_of_nat m)%Qc.
Proof. rewrite /Qc_of_nat -Z2Qc_inj_le. lia. Qed.

Lemma true_div_Ok a b q : true_div a b = Ok q ↔ b ≠ 0 ∧ (q * Qc_of_nat b)%Qc = a.
Proof.
  rewrite /true_div. case_decide as Hb; [naive_solver|]. split.
  - intros [= <-]. split; [done|]. apply test_field.
    intros E. apply Qc_of_nat_pos in Hb. rewrite E in Hb. by apply Qclt_not_eq in Hb.
  - intros [_ <-]. f_equal. rewrite /Qcdiv -Qcmult_assoc Qcmult_inv_r ?Qcmult_1_r //.
    intros E. apply Qc_of_nat_pos in Hb. rewrite E in Hb. by apply Qclt_not_eq in Hb.
Qed.

Lemma true_div_Err a b e : true_div a b = Err e ↔ b = 0 ∧ e = "division by zero".
Proof. rewrite /true_div. case_decide; naive_solver. Qed.

(** A quotient is where its numerator is, relative to the denominator. *)
Lemma true_div_le a b q (lo hi : Qc) :
  true_div a b = Ok q → (lo * Qc_of_nat b ≤ a)%Qc → (a ≤ hi * Qc_of_nat b)%Qc →
  (lo ≤ q ≤ hi)%Qc.
Proof.
  intros [Hb <-]%true_div_Ok Hlo Hhi. apply Qc_of_nat_pos in Hb.
  split; by eapply Qcmult_le_mono_pos_r.
Qed.

(** ** [evaluate] *)

Lemma contains_refl s : Py.contains s s = true.
Proof. destruct s; by rewrite /= ?Py.startswith_refl ?orb_true_l //; apply orb_true_intro; left; apply (Py.startswith_refl (String _ _)). Qed.

(** [evaluate] raises on a page without a label and, by a division by
    zero, on an empty label; otherwise the normalised distance times the
    length of the label is the edit distance, so it is never negative, at
    most one when the extraction is not longer than the label, and zero
    exactly on an exact match, which is neither missing nor extra content. *)
Theorem evaluate_spec self parsed_content config_name domain :
  match SampleURL.label self with
  | None =>
      evaluate self parsed_content config_name domain
      = Err "'NoneType' object has no attribute 'content'"
  | Some label =>
      let content := ValidationLabel.content label in
      if decide (content = "") then
        evaluate self parsed_content config_name domain = Err "division by zero"
      else
        ∃ r, evaluate self parsed_content config_name domain = Ok r ∧
          (EvaluationResult.levenshtein_distance_norm r * Qc_of_nat (String.length content))%Qc
            = Qc_of_nat (distance content parsed_content) ∧
          (0 ≤ EvaluationResult.levenshtein_distance_norm r)%Qc ∧
          (String.length parsed_content ≤ String.length content →
           (EvaluationResult.levenshtein_distance_norm r ≤ 1)%Qc) ∧
          (EvaluationResult.exact_match r = true ↔
           EvaluationResult.levenshtein_distance_norm r = 0%Qc) ∧
          (EvaluationResult.exact_match r = true →
           EvaluationResult.missing_content r = false ∧
           EvaluationResult.extra_content r = false)
  end.
Proof.
  rewrite /evaluate. destruct (SampleURL.label self) as [[content]|]; [simpl|done].
  case_decide as Hc; [by subst|].
  destruct (true_div _ _) as [q|e] eqn:E.
  2:{ apply true_div_Err in E as [E _]. by destruct content. }
  eexists. split; [done|]. simpl.
  pose proof E as [Hlen Hq]%true_div_Ok.
  split_and!; [done| | | |].
  - apply (true_div_le _ _ _ 0%Qc q E); [|by rewrite Hq].
    rewrite Qcmult_0_l. apply (Qc_of_nat_le 0). lia.
  - intros Hle. apply (true_div_le _ _ _ q 1%Qc E); [by rewrite Hq|].
    rewrite Qcmult_1_l -Qc_of_nat_le. pose proof (distance_le_max content parsed_content). lia.
  - rewrite bool_decide_eq_true. split.
    + intros <-. rewrite distance_refl in E.
      destruct (true_div_le _ _ _ 0%Qc 0%Qc E) as [??]; rewrite ?Qcmult_0_l //.
      by apply Qcle_antisym.
    + intros ->. rewrite Qcmult_0_l in Hq. apply distance_eq_0.
      apply (inj Z.of_nat), Z2Qc_inj. by rewrite /= Z2Qc_inj_0 Hq.
  - intros <-%bool_decide_eq_true. by rewrite contains_refl.
Qed.

(** ** The averages *)

Lemma foldl_Qcplus a l : foldl Qcplus a l = (a + sum l)%Qc.
Proof.
  rewrite /sum. revert a. induction l as [|y l IH]; intros a; simpl; [ring|].
  rewrite IH (IH (0 + y)%Qc). ring.
Qed.

Lemma sum_cons x l : sum (x :: l) = (x + sum l)%Qc.
Proof. rewrite {1}/sum /= foldl_Qcplus. ring. Qed.

(** The sum of flags is between zero and their number. *)
Lemma sum_flags {A} (f : A → bool) (l : list A) :
  (0 ≤ sum (Qc_of_bool ∘ f <$> l) ≤ Qc_of_nat (length l))%Qc.
Proof.
  induction l as [|x l [IH1 IH2]]; [done|]. rewrite fmap_cons sum_cons /=.
  destruct (f x); simpl.
  - rewrite /Qc_of_nat Nat2Z.inj_succ -Z.add_1_l Z2Qc_inj_add Z2Qc_inj_1.
    split; [|by apply Qcplus_le_mono_l].
    replace 0%Qc with (0 + 0)%Qc by ring. by apply Qcplus_le_compat.
  - rewrite Qcplus_0_l. split; [done|]. etrans; [done|]. apply Qc_of_nat_le. lia.
Qed.

Lemma true_div_flags {A} (f : A → bool) (l : list A) q :
  true_div (sum (Qc_of_bool ∘ f <$> l)) (length l) = Ok q → (0 ≤ q ≤ 1)%Qc.
Proof.
  intros E. eapply true_div_le; [done|..]; rewrite ?Qcmult_0_l ?Qcmult_1_l; apply sum_flags.
Qed.

(** The averages of a list of results raise a division by zero when
    no result is selected (an empty run, or a domain or configuration that
    no result has); otherwise the three rates are between zero and one, and
    the distance is the sum of the distances over their number. *)
Theorem aggregate_evaluation_results_spec results domain config_name :
  let chosen := selected results domain config_name in
  if decide (chosen = []) then
    aggregate_evaluation_results results domain config_name = Err "division by zero"
  else
    ∃ a, aggregate_evaluation_results results domain config_name = Ok a ∧
      EvaluationResults.domain a = domain ∧ EvaluationResults.config_name a = config_name ∧
      (0 ≤ EvaluationResults.exact_match a ≤ 1)%Qc ∧
      (0 ≤ EvaluationResults.missing_content a ≤ 1)%Qc ∧
      (0 ≤ EvaluationResults.extra_content a ≤ 1)%Qc ∧
      (EvaluationResults.levenshtein_distance_norm a * Qc_of_nat (length chosen))%Qc
        = sum (EvaluationResult.levenshtein_distance_norm <$> chosen).
Proof.
  intros chosen. rewrite /aggregate_evaluation_results -/chosen.
  case_decide as Hc; [by rewrite Hc|].
  assert (length chosen ≠ 0) as Hn by by destruct chosen.
  destruct (true_div _ _) as [q1|e] eqn:E1; [|by apply true_div_Err in E1 as [??]].
  destruct (true_div _ _) as [q2|e] eqn:E2 in |- *; [|by apply true_div_Err in E2 as [??]].
  destruct (true_div _ _) as [q3|e] eqn:E3 in |- *; [|by apply true_div_Err in E3 as [??]].
  destruct (true_div _ _) as [q4|e] eqn:E4 in |- *; [|by apply true_div_Err in E4 as [??]].
  eexists. split; [done|]. simpl.
  split_and!; try done; try by eapply true_div_flags.
  by apply true_div_Ok in E1 as [_ ?].
Qed.

(** ** The script *)

Section script_lemmas.
Context `{Evals} `{Extractor} `{Synth}.

(** The evaluation of a domain that has no validation page raises:
    [from_evals] gives such a prefix [None] as its validation pages, and
    [eval_parser_generator] iterates over them after the parser has been
    generated. *)
Theorem eval_domain_no_validation parser_generator config_name domain sample_urls parser :
  load_samples domain false = Ok sample_urls →
  load_samples domain true = Ok [] →
  run_generator parser_generator (URLPrefix.mk domain sample_urls None None None) = Ok parser →
  eval_domain parser_generator config_name domain = Err "'NoneType' object is not iterable".
Proof. intros Hs Hv Hg. by rewrite /eval_domain /from_evals Hs Hv Hg. Qed.

End script_lemmas.

(** ** Examples *)

Definition labelled (content : string) : SampleURL.t :=
  SampleURL.mk "https://a.com/docs/a.html" (Some "<p>ab</p>") (Some (ValidationLabel.make content)).

(** An extraction three times as long as the label is at distance two of
    it: the accuracy [1 - distance] that the API reports is negative. *)
Example evaluate_above_one :
  ∃ r, evaluate (labelled "ab") "abcdef" "default" "a.com" = Ok r ∧
       EvaluationResult.levenshtein_distance_norm r = 2%Qc ∧
       EvaluationResult.extra_content r = true.
Proof. eexists. split_and!; [done| |done]. by apply Qc_is_canon. Qed.

Example evaluate_empty_label :
  evaluate (labelled "") "abcdef" "default" "a.com" = Err "division by zero".
Proof. done. Qed.

(** The averages of a run without results. *)
Example get_evaluation_results_empty :
  get_evaluation_results (EvaluationRun.make [] "2025-01-01T00:00:00") None None
  = Err "division by zero".
Proof. done. Qed.

(** A domain with one input page and no validation page. *)
Definition example_evals : Evals := {|
  listdir_evals := Ok ["a.com"];
  load_samples domain validation :=
    if validation then Ok [] else Ok [SampleURL.make "https://a.com/docs/a.html" "<p>ab</p>"];
|}.

Definition fixed_synth : Synth := {|
  from_config name := Ok (ParserGeneratorConfig.make name "model" "minimal" "" "" None None);
  run_generator _ url_prefix :=
    Ok (ParserConfig.make (ParserParameters.make [] [] [] []) (URLPrefix.prefix url_prefix));
|}.

Lemma eval_domain_no_validation_witness :
  eval_domain (H:=example_evals) (H0:=example_extractor) (H1:=fixed_synth)
    (ParserGeneratorConfig.make "default" "model" "minimal" "" "" None None) "default" "a.com"
  = Err "'NoneType' object is not iterable".
Proof.
  by eapply (eval_domain_no_validation (H:=example_evals) (H0:=example_extractor)
               (H1:=fixed_synth)).
Defined.

(** The command [eval] on that evaluation set saves nothing. *)
Example eval_command_raises :
  eval_command (H:=example_evals) (H0:=example_extractor) (H1:=fixed_synth)
    ["default"] None "2025-01-01T00:00:00" empty_redis
  = Err "'NoneType' object is not iterable".
Proof. done. Qed.
