(* ===== verification/Api.v ===== *)
(** * The HTTP API (src/backend/api.py, src/backend/metrics_collector.py)
    and [URLPrefixWithUrls.from_url_prefix] (src/backend/data_models.py)

    Every route handler is a function of the Redis state that returns the
    value of the handler ([Returned]) or the [HTTPException] it raises,
    with the state it leaves: a handler that raises half-way leaves what it
    has written, there is no transaction.  A dictionary that a handler
    returns is a [Dict] with the keys and the formatted message of the
    source.  [except HTTPException: raise] and [except Exception: ... 500]
    are the two arms of [guard].

    What the sources only call is the interface [Web]: [urllib.parse.unquote],
    the list of the files of the configuration directory and whether the
    built front end exists; fetching a page is [Env] and loading a
    configuration is [Synth].  [Files.file_web] reads the interface from a
    file system.  The dictionaries are values of [Json].

    [http_exception_handler] and [general_exception_handler] build what
    the client receives for an exception, and [respond] is the answer to a
    call.

    [routes] is the table of the application in the order of registration
    and [resolve] is the dispatch of the framework on it: the first route
    whose path matches and whose method agrees, otherwise the first whose
    path matches (method not allowed), otherwise not found.

    The theorems: every GET below [/api/urls/] is answered by [get_url],
    so [get_evaluated_urls] and [get_url_details] are never called
    ([resolve_urls_shadowed]); [get_url_details] answers only for a stored
    URL without evaluation result ([get_url_details_spec]);
    [delete_urlprefix] removes the prefix, the rows of its samples and the
    rows with the prefix, counts them, and keeps the invariants of the store
    ([delete_urlprefix_spec]); [from_url_prefix] lists every URL once, in
    order, and counts them ([from_url_prefix_spec]). *)

From Stdlib Require Import Ascii QArith Qcanon.
From stdpp Require Import gmap sorting pretty.
From S2P Require Import Prelude PyString DataModels Json Store Queue Url Frontier GenWorker.
From S2P Require Import Evaluation.

Local Open Scope crawl_scope.

(** ** Responses *)

(** What a handler gives the framework: its return value or the exception
    it raises. *)
Inductive Response (A : Type) : Type :=
  | Returned (a : A)
  | HTTPException (status_code : nat) (detail : string).
Arguments Returned {A} a.
Arguments HTTPException {A} status_code detail.

(** The dictionaries that the handlers return are values of JSON
    ([Json.Value]). *)

(** [try: ... except HTTPException: raise; except Exception as e: raise
    HTTPException(status_code=500, detail=detail)]. *)
Definition guard {A} (detail : string) (m : Result (Response A)) : Response A :=
  match m with
  | Ok r => r
  | Err _ => HTTPException 500 detail
  end.

(** ** What the sources only call *)

Class Web := {
  (** [urllib.parse.unquote]. *)
  unquote : string → string;
  (** The stems of [glob("configs/*.yaml")], in the order of the glob. *)
  glob_configs : list string;
  (** [INDEX_FILE.exists()]. *)
  index_file_exists : bool;
}.

(** The request bodies. *)
Module AddURLPrefixRequest.
Record t := make {
  prefix : string;
  sample_urls : list string;
}.
End AddURLPrefixRequest.

Module AddURLQueueItemRequest.
Record t := make {
  url : string;
  process_from_unix_timestamp : option Z;
  times_queued : Z;
}.
End AddURLQueueItemRequest.

(** ** [URLPrefixWithUrls.from_url_prefix] *)

Definition from_url_prefix (url_prefix : URLPrefix.t) (R : Redis) : URLPrefixWithUrls.t :=
  let all_urls :=
    (SampleURL.url <$> URLPrefix.sample_urls url_prefix) ++
    (SampleURL.url <$> default [] (URLPrefix.validation_urls url_prefix)) ++
    (URL.url <$> find_urls_with_prefix (URLPrefix.prefix url_prefix) R) in
  let unique_urls := merge_sort String.le (unique all_urls) in
  URLPrefixWithUrls.make url_prefix unique_urls (length unique_urls).

(** ** The collectors of the metrics *)

(** [RedisModelCollector(count, [EvaluationRun, URLPrefix, URL]).collect()]:
    the label and the value of every sample of the gauge. *)
Definition collect_models (R : Redis) : list (string * nat) :=
  [("EvaluationRun", count EvaluationRun.t R);
   ("URLPrefix", count URLPrefix.t R);
   ("URL", count URL.t R)].

(** [RedisQueueCollector(queue_length, [URLQueueItem, URLPrefix]).collect()]. *)
Definition collect_queues (R : Redis) : list (string * nat) :=
  [("URLQueueItem", queue_length None (Some "URLQueueItem") R);
   ("URLPrefix", queue_length None (Some "URLPrefix") R)].

Section handlers.
Context `{Env} `{Synth} `{Web}.
Implicit Types R : Redis.
Implicit Types id config_name model_name state prefix_id url_id : string.

(** ** The start of the application: [lifespan] *)

Definition lifespan (R : Redis) : Redis :=
  match get_production_config R with
  | Some _ => R
  | None =>
      match merge_sort String.le glob_configs with
      | first_config_name :: _ => set_production_config first_config_name R
      | [] => R
      end
  end.

(** ** Evaluation runs *)

Definition get_evaluation_runs R : list EvaluationRun.t := scan EvaluationRun.t R.

Definition get_evaluation_run id R : option EvaluationRun.t := load EvaluationRun.t id R.

Definition delete_evaluation_run id R : Response Dict * Redis :=
  match load EvaluationRun.t id R with
  | None => (HTTPException 404 ("Evaluation run '" +:+ id +:+ "' not found"), R)
  | Some _ =>
      let R := (delete EvaluationRun.t id R).2 in
      (Returned [("message", VStr ("Successfully deleted evaluation run '" +:+ id +:+ "'"));
                 ("deleted_id", VStr id)], R)
  end.

Definition clear_evaluation_runs R : Response Dict * Redis :=
  let '(deleted_count, R) := delete_all EvaluationRun.t R in
  (Returned [("message", VStr ("Cleared " +:+ pretty deleted_count +:+ " evaluation runs"));
             ("deleted_count", VInt (Z.of_nat deleted_count))], R).

Definition clear_model_data model_name R : Response Dict * Redis :=
  let cleared '(deleted_count, R) :=
    (Returned [("message", VStr ("Cleared " +:+ pretty deleted_count +:+ " " +:+ model_name));
               ("deleted_count", VInt (Z.of_nat deleted_count));
               ("model_name", VStr model_name)], R) in
  if decide (model_name = "evaluation_runs") then cleared (delete_all EvaluationRun.t R)
  else if decide (model_name = "urls") then cleared (delete_all URL.t R)
  else (HTTPException 400 ("Unknown model: " +:+ model_name +:+
                            ". Available models: ['evaluation_runs', 'urls']"), R).

(** ** Configurations *)

(** [self.is_production] of [ParserGeneratorConfig] (data_models.py, lines
    259-265): the name is the one the store holds. *)
Definition is_production (self : ParserGeneratorConfig.t) R : bool :=
  bool_decide (Some (ParserGeneratorConfig.config_name self) = get_production_config R).

(** [ParserGeneratorConfig.from_config(config_name)]: [open] raises
    [FileNotFoundError] when the file is not there. *)
Definition config_with_production config_name R
    : option (Result (ParserGeneratorConfig.t * bool)) :=
  if decide (config_name ∈ glob_configs) then
    Some (config ←ᵣ from_config config_name;
          Ok (config, is_production config R))
  else None.

Definition list_configs R : list (ParserGeneratorConfig.t * bool) :=
  omap (λ config_name, config_with_production config_name R ≫= result_to_option) glob_configs.

Definition get_config config_name R : Response (ParserGeneratorConfig.t * bool) :=
  match config_with_production config_name R with
  | None => HTTPException 404 ("Config '" +:+ config_name +:+ "' not found")
  | Some (Ok config_dict) => Returned config_dict
  | Some (Err _) => HTTPException 500 "Failed to load config"
  end.

Definition get_current_production_config R : option string := get_production_config R.

Definition set_production_config_route config_name R : Response Dict * Redis :=
  if decide (config_name ∈ glob_configs) then
    (Returned [("message", VStr ("Production config set to '" +:+ config_name +:+ "'"));
               ("production_config", VStr config_name)],
     set_production_config config_name R)
  else (HTTPException 404 ("Config '" +:+ config_name +:+ "' not found"), R).

(** ** The state of the system *)

Definition get_system_state_route R : Dict :=
  [("state", VStr (get_system_state R)); ("is_running", VBool (is_system_running R))].

Definition set_system_state_route state R : Response Dict * Redis :=
  match set_system_state state R with
  | Ok R =>
      (Returned [("message", VStr ("System state set to '" +:+ state +:+ "'"));
                 ("state", VStr state);
                 ("is_running", VBool (is_system_running R))], R)
  | Err e => (HTTPException 400 e, R)
  end.

(** ** The queues *)

Definition add_urlprefix_to_queue (request : AddURLPrefixRequest.t) R : Response Dict * Redis :=
  match mapM from_url (AddURLPrefixRequest.sample_urls request) with
  | Err _ => (HTTPException 500 "Failed to add URLPrefix to queue", R)
  | Ok sample_urls =>
      let url_prefix := URLPrefix.make (AddURLPrefixRequest.prefix request) sample_urls in
      let '(success, R) := add_to_queue url_prefix (Some "queue:urlprefix") R in
      if success then
        (Returned
           [("message", VStr ("URLPrefix '" +:+ AddURLPrefixRequest.prefix request +:+
                              "' added to queue successfully"));
            ("prefix", VStr (AddURLPrefixRequest.prefix request));
            ("sample_urls_count",
             VInt (Z.of_nat (length (AddURLPrefixRequest.sample_urls request))));
            ("queue_name", VStr "queue:urlprefix")], R)
      else (HTTPException 500 "Failed to add URLPrefix to queue", R)
  end.

(** [now] is [int(time.time())]. *)
Definition add_urlqueueitem_to_queue (request : AddURLQueueItemRequest.t) (now : Z) R
    : Response Dict * Redis :=
  let url := URL.make (AddURLQueueItemRequest.url request) None in
  let process_from_timestamp :=
    default now (AddURLQueueItemRequest.process_from_unix_timestamp request) in
  let url_queue_item :=
    URLQueueItem.make url process_from_timestamp (AddURLQueueItemRequest.times_queued request) in
  let '(success, R) := add_to_queue url_queue_item None R in
  if success then
    (Returned
       [("message", VStr ("URLQueueItem for URL '" +:+ AddURLQueueItemRequest.url request +:+
                          "' added to queue successfully"));
        ("url", VStr (AddURLQueueItemRequest.url request));
        ("process_from_timestamp", VInt process_from_timestamp);
        ("times_queued", VInt (AddURLQueueItemRequest.times_queued request));
        ("queue_name", VStr "queue:urlqueueitem")], R)
  else (HTTPException 500 "Failed to add URLQueueItem to queue", R).

(** ** Prefixes *)

Definition get_urlprefix_list R : list URLPrefixWithUrls.t :=
  (λ urlprefix, from_url_prefix urlprefix R) <$> scan URLPrefix.t R.

Definition get_urlprefix prefix_id R : Response URLPrefixWithUrls.t :=
  let decoded_prefix := unquote prefix_id in
  match load URLPrefix.t decoded_prefix R with
  | None =>
      HTTPException 404 ("URLPrefix with prefix '" +:+ decoded_prefix +:+ "' not found")
  | Some urlprefix => Returned (from_url_prefix urlprefix R)
  end.

(** [for ... in urls: if delete(URL, url): deleted_urls_count += 1]. *)
Definition delete_urls (urls : list string) (acc : nat * Redis) : nat * Redis :=
  foldl (λ '(deleted_urls_count, R) url,
           let '(deleted, R) := delete URL.t url R in
           (if deleted then S deleted_urls_count else deleted_urls_count, R))
        acc urls.

Definition delete_urlprefix prefix_id R : Response Dict * Redis :=
  let decoded_prefix := unquote prefix_id in
  match load URLPrefix.t decoded_prefix R with
  | None =>
      (HTTPException 404 ("URLPrefix with prefix '" +:+ decoded_prefix +:+ "' not found"), R)
  | Some urlprefix =>
      let acc := delete_urls (SampleURL.url <$> URLPrefix.sample_urls urlprefix) (0, R) in
      let acc :=
        delete_urls (SampleURL.url <$> default [] (URLPrefix.validation_urls urlprefix)) acc in
      let db_urls := find_urls_with_prefix decoded_prefix acc.2 in
      let '(deleted_urls_count, R) := delete_urls (URL.url <$> db_urls) acc in
      let '(deleted, R) := delete URLPrefix.t decoded_prefix R in
      if deleted then
        (Returned
           [("message", VStr ("URLPrefix '" +:+ decoded_prefix +:+ "' and " +:+
                              pretty deleted_urls_count +:+
                              " associated URLs deleted successfully"));
            ("prefix", VStr decoded_prefix);
            ("deleted_urls_count", VInt (Z.of_nat deleted_urls_count))], R)
      else (HTTPException 500 "Failed to delete URLPrefix", R)
  end.

(** ** URLs *)

Definition get_url url_id R : Response URL.t :=
  let decoded_url := unquote url_id in
  match load URL.t decoded_url R with
  | None => HTTPException 404 ("URL '" +:+ decoded_url +:+ "' not found")
  | Some url_obj => Returned url_obj
  end.

Definition get_urls_list R : list URL.t := scan URL.t R.

(** [sorted(list(evaluated_urls))] of the set of the URLs of every result. *)
Definition get_evaluated_urls R : list string :=
  merge_sort String.le
    (unique (run ← scan EvaluationRun.t R; EvaluationResult.url <$> EvaluationRun.results run)).

(** [result.abs_levenshtein_distance_norm]: the field is
    [levenshtein_distance_norm]; the alias names it in the JSON document and
    is not an attribute of the object. *)
Definition abs_levenshtein_distance_norm (result : EvaluationResult.t) : Result Qc :=
  Err "'EvaluationResult' object has no attribute 'abs_levenshtein_distance_norm'".

(** [max(evaluation_runs, key=lambda run: run.datetime_str)]: the first of
    the runs with the greatest key. *)
Definition latest (evaluation_runs : list EvaluationRun.t) : option EvaluationRun.t :=
  foldl (λ best run,
           match best with
           | None => Some run
           | Some b =>
               if decide (strict String.le (EvaluationRun.datetime_str b)
                                           (EvaluationRun.datetime_str run))
               then Some run else Some b
           end) None evaluation_runs.

Record UrlDetails := {
  details_url : string;
  details_domain : string;
  evaluation_results : list EvaluationResult.t;
  latest_result : option EvaluationResult.t;
  average_accuracy : Qc;
  total_evaluations : nat;
  url_object : URL.t;
  has_stored_object : bool;
}.

Definition get_url_details url_id R : Response UrlDetails :=
  let decoded_url := unquote url_id in
  let url_obj := load URL.t decoded_url R in
  let evaluation_runs := scan EvaluationRun.t R in
  let url_results :=
    run ← evaluation_runs;
    filter (λ result, EvaluationResult.url result = decoded_url) (EvaluationRun.results run) in
  let total_evaluations := length url_results in
  guard "Failed to retrieve URL details" (
    statistics ←ᵣ
      (if url_results is [] then Ok (0%Qc, None)
       else
         accuracies ←ᵣ
           mapM (λ result, norm ←ᵣ abs_levenshtein_distance_norm result; Ok (1 - norm)%Qc)
                url_results;
         average_accuracy ←ᵣ true_div (sum accuracies) (length accuracies);
         match latest evaluation_runs with
         | None => Err "max() arg is an empty sequence"
         | Some latest_run =>
             Ok (average_accuracy,
                 head (filter (λ result, EvaluationResult.url result = decoded_url)
                              (EvaluationRun.results latest_run)))
         end);
    match url_obj with
    | None => Err "'NoneType' object has no attribute 'prefix'"
    | Some u =>
        Ok (Returned {|
          details_url := decoded_url;
          details_domain := if truthy (URL.prefix u) then default "" (URL.prefix u) else "";
          evaluation_results := url_results;
          latest_result := statistics.2;
          average_accuracy := statistics.1;
          total_evaluations := total_evaluations;
          url_object := u;
          has_stored_object := true;
        |})
    end).

Definition delete_url url_id R : Response Dict * Redis :=
  let decoded_url := unquote url_id in
  match load URL.t decoded_url R with
  | None => (HTTPException 404 ("URL '" +:+ decoded_url +:+ "' not found"), R)
  | Some _ =>
      let '(deleted, R) := delete URL.t decoded_url R in
      if deleted then
        (Returned [("message", VStr ("URL '" +:+ decoded_url +:+ "' deleted successfully"));
                   ("url", VStr decoded_url)], R)
      else (HTTPException 500 "Failed to delete URL", R)
  end.

(** ** The front end *)

(** What [serve_index] and [serve_frontend] answer with. *)
Inductive Page :=
  | IndexFile
  | NotBuilt.

Definition serve_index : Page := if index_file_exists then IndexFile else NotBuilt.

Definition serve_frontend (full_path : string) : Response Page :=
  if Py.startswith full_path "api/" then HTTPException 404 "API route not found"
  else if Py.startswith full_path "assets/" then HTTPException 404 "Asset not found"
  else Returned serve_index.

End handlers.

(** ** What the client receives *)

Record ErrorResponse := {
  error : string;
  detail : option string;
  timestamp : string;
}.

(** [http_exception_handler]: the status of the exception, and its detail
    as the error; [now] is [datetime.now(timezone.utc).isoformat()]. *)
Definition http_exception_handler (status_code : nat) (exc_detail : string) (now : string)
    : nat * ErrorResponse :=
  (status_code, {| error := exc_detail; detail := None; timestamp := now |}).

(** [general_exception_handler]: any other exception. *)
Definition general_exception_handler (now : string) : nat * ErrorResponse :=
  (500, {| error := "Internal server error";
           detail := Some "An unexpected error occurred";
           timestamp := now |}).

(** The answer to a call of a handler: status 200 with the value, or what
    the handler of the exception builds. *)
Definition respond {A} (r : Result (Response A)) (now : string) : nat * (A + ErrorResponse) :=
  match r with
  | Ok (Returned a) => (200, inl a)
  | Ok (HTTPException status_code exc_detail) =>
      prod_map id inr (http_exception_handler status_code exc_detail now)
  | Err _ => prod_map id inr (general_exception_handler now)
  end.

(** ** The routes *)

Inductive Method := GET | POST | PUT | DELETE.

#[export] Instance Method_eq_dec : EqDecision Method.
Proof. solve_decision. Defined.

(** The convertor of a path parameter: [{name}] is a segment, [{name:path}]
    is any string. *)
Inductive Convertor := StrConvertor | PathConvertor.

(** A path with at most one parameter. *)
Record Pattern := {
  before : string;
  param : option Convertor;
  after : string;
}.

Definition literal (path : string) : Pattern := {| before := path; param := None; after := "" |}.

Inductive Endpoint :=
  | StaticAssets | ServeIndex
  | GetEvaluationRuns | GetEvaluationRun | DeleteEvaluationRun | ClearEvaluationRuns
  | ClearModelData | Metrics
  | ListConfigs | GetConfig | GetCurrentProductionConfig | SetProductionConfigRoute
  | GetSystemStateRoute | SetSystemStateRoute
  | AddUrlprefixToQueue | AddUrlqueueitemToQueue
  | GetUrlprefixList | GetUrlprefix | DeleteUrlprefix
  | GetUrl | GetUrlsList | GetEvaluatedUrls | GetUrlDetails | DeleteUrl
  | ServeFrontend.

#[export] Instance Endpoint_eq_dec : EqDecision Endpoint.
Proof. solve_decision. Defined.

(** A route: [methods] is [None] for the mount of the static files, which
    takes every method. *)
Record Route := {
  methods : option (list Method);
  pattern : Pattern;
  endpoint : Endpoint;
}.

Definition route (method : Method) (before : string) (param : option Convertor) (after : string)
    (endpoint : Endpoint) : Route :=
  {| methods := Some [method];
     pattern := {| before := before; param := param; after := after |};
     endpoint := endpoint |}.

(** The routes of the application in the order of their registration: the
    mount, the index, the routes of the router [api] under [/api] in the
    order of their decorators, the catch-all. *)
Definition routes : list Route := [
  {| methods := None;
     pattern := {| before := "/assets/"; param := Some PathConvertor; after := "" |};
     endpoint := StaticAssets |};
  route GET "/" None "" ServeIndex;
  route GET "/api/evaluation_runs" None "" GetEvaluationRuns;
  route GET "/api/evaluation_runs/" (Some StrConvertor) "" GetEvaluationRun;
  route DELETE "/api/evaluation_runs/" (Some StrConvertor) "" DeleteEvaluationRun;
  route DELETE "/api/evaluation_runs" None "" ClearEvaluationRuns;
  route DELETE "/api/data/" (Some StrConvertor) "" ClearModelData;
  route GET "/api/metrics" None "" Metrics;
  route GET "/api/configs" None "" ListConfigs;
  route GET "/api/configs/" (Some StrConvertor) "" GetConfig;
  route GET "/api/configs/production/current" None "" GetCurrentProductionConfig;
  route PUT "/api/configs/production/" (Some StrConvertor) "" SetProductionConfigRoute;
  route GET "/api/system/state" None "" GetSystemStateRoute;
  route PUT "/api/system/state" None "" SetSystemStateRoute;
  route POST "/api/urlprefix/queue" None "" AddUrlprefixToQueue;
  route POST "/api/urlqueueitem/queue" None "" AddUrlqueueitemToQueue;
  route GET "/api/urlprefix" None "" GetUrlprefixList;
  route GET "/api/urlprefix/" (Some PathConvertor) "" GetUrlprefix;
  route DELETE "/api/urlprefix/" (Some PathConvertor) "" DeleteUrlprefix;
  route GET "/api/urls/" (Some PathConvertor) "" GetUrl;
  route GET "/api/urls" None "" GetUrlsList;
  route GET "/api/urls/evaluated" None "" GetEvaluatedUrls;
  route GET "/api/urls/" (Some PathConvertor) "/details" GetUrlDetails;
  route DELETE "/api/urls/" (Some PathConvertor) "" DeleteUrl;
  route GET "/" (Some PathConvertor) "" ServeFrontend
].

(** The match of the regular expression of a pattern on a path: the value
    of the parameter. *)
Definition path_match (p : Pattern) (path : string) : option string :=
  match param p with
  | None => if decide (path = before p) then Some "" else None
  | Some convertor =>
      let rest := Py.drop (String.length (before p)) path in
      if Py.startswith path (before p) && Py.endswith rest (after p) then
        let value := String.substring 0 (String.length rest - String.length (after p)) rest in
        match convertor with
        | PathConvertor => Some value
        | StrConvertor =>
            if bool_decide (value = "") || Py.contains_char "/" value then None else Some value
        end
      else None
  end.

Inductive Resolution :=
  | Handled (endpoint : Endpoint) (value : string)
  | MethodNotAllowed
  | NotFound.

(** Whether a route takes the method. *)
Definition takes (method : Method) (r : Route) : bool :=
  match methods r with
  | None => true
  | Some ms => bool_decide (method ∈ ms)
  end.

(** The dispatch: the first route that matches in full, else the first that
    matches the path. *)
Definition resolve_in (table : list Route) (method : Method) (path : string) : Resolution :=
  let matching := omap (λ r, pair r <$> path_match (pattern r) path) table in
  match head (filter (λ rv, takes method rv.1) matching) with
  | Some rv => Handled (endpoint rv.1) rv.2
  | None => if matching is [] then NotFound else MethodNotAllowed
  end.

Definition resolve : Method → string → Resolution := resolve_in routes.

(** ** The dispatch *)

Lemma substring_all s : String.substring 0 (String.length s) s = s.
Proof. induction s as [|a s IH]; [done|]. by rewrite /= IH. Qed.

(** A pattern with a path parameter and nothing after it matches what
    starts with its literal part. *)
Lemma path_match_path before rest :
  path_match {| before := before; param := Some PathConvertor; after := "" |}
    (before +:+ rest) = Some rest.
Proof.
  by rewrite /path_match /= Py.startswith_app Py.drop_app Py.endswith_nil /= Nat.sub_0_r substring_all.
Qed.

(** What matches a pattern starts with its literal part. *)
Lemma path_match_startswith p path value :
  path_match p path = Some value → Py.startswith path (before p) = true.
Proof.
  rewrite /path_match. destruct (param p); [by destruct (Py.startswith path (before p))|].
  case_decide; [|done]. intros _. subst. apply Py.startswith_refl.
Qed.

Lemma resolve_in_cons_None r table method path :
  path_match (pattern r) path = None →
  resolve_in (r :: table) method path = resolve_in table method path.
Proof. intros Hr. by rewrite /resolve_in /= Hr. Qed.

Lemma resolve_in_cons_Some r table method path value :
  path_match (pattern r) path = Some value → takes method r = true →
  resolve_in (r :: table) method path = Handled (endpoint r) value.
Proof. intros Hr Ht. by rewrite /resolve_in /= Hr /= filter_cons_True //= Ht. Qed.

(** What the dispatch hands a request to is a route of the table that
    matches the path and takes the method. *)
Lemma resolve_in_Handled table method path e value :
  resolve_in table method path = Handled e value →
  ∃ r, r ∈ table ∧ endpoint r = e ∧ path_match (pattern r) path = Some value ∧
       takes method r = true.
Proof.
  rewrite /resolve_in. destruct (head _) as [[r v]|] eqn:E; [|by case_match].
  intros [= <- <-]. apply head_Some_elem_of, list_elem_of_filter in E as [Ht Hin].
  apply list_elem_of_omap in Hin as (r' & Hr' & Hm).
  destruct (path_match (pattern r') path) as [v'|] eqn:Hv; simplify_eq /=.
  exists r. split_and!; [done..|]. by destruct (takes method r).
Qed.

Lemma resolve_Handled method path e value :
  resolve method path = Handled e value →
  ∃ r, r ∈ routes ∧ endpoint r = e ∧ path_match (pattern r) path = Some value ∧
       takes method r = true.
Proof. unfold resolve. apply resolve_in_Handled. Qed.

(** A GET below [/api/urls/] is for [get_url]. *)
Lemma resolve_urls rest : resolve GET ("/api/urls/" +:+ rest) = Handled GetUrl rest.
Proof.
  rewrite /resolve /routes.
  do 19 (rewrite resolve_in_cons_None;
         [by rewrite /path_match /= ?Py.app_cons ?Py.app_nil_l; try case_decide|]).
  by apply (resolve_in_cons_Some (route GET "/api/urls/" (Some PathConvertor) "" GetUrl));
    [apply path_match_path|].
Qed.

(** The routes of [get_evaluated_urls] and [get_url_details] take GET only
    and lie below [/api/urls/]. *)
Lemma routes_below_urls r :
  r ∈ routes → endpoint r = GetEvaluatedUrls ∨ endpoint r = GetUrlDetails →
  methods r = Some [GET] ∧ Py.startswith (before (pattern r)) "/api/urls/" = true.
Proof.
  intros Hr.
  assert (Forall (λ r, endpoint r = GetEvaluatedUrls ∨ endpoint r = GetUrlDetails →
                       methods r = Some [GET] ∧
                       Py.startswith (before (pattern r)) "/api/urls/" = true) routes) as Hall
    by (by apply (bool_decide_unpack _); vm_compute).
  by apply (proj1 (Forall_forall _ _) Hall).
Qed.

(** C22: the two routes registered after [/urls/{url_id:path}] are never
    served: every GET below [/api/urls/] matches that route first, with the
    rest of the path as the URL, so [/api/urls/evaluated] and
    [/api/urls/.../details] are answered by [get_url]. *)
Theorem resolve_urls_shadowed method path value :
  (Py.startswith path "/api/urls/" = true →
   resolve GET path = Handled GetUrl (Py.drop 10 path)) ∧
  resolve method path ≠ Handled GetEvaluatedUrls value ∧
  resolve method path ≠ Handled GetUrlDetails value.
Proof.
  assert (Py.startswith path "/api/urls/" = true →
          resolve GET path = Handled GetUrl (Py.drop 10 path)) as Hurls.
  { intros [rest ->]%Py.startswith_spec. by rewrite resolve_urls (Py.drop_app "/api/urls/"). }
  split; [done|].
  assert (∀ e, e = GetEvaluatedUrls ∨ e = GetUrlDetails →
               resolve method path ≠ Handled e value) as Hno; [|split; apply Hno; auto].
  intros e He Hres. pose proof Hres as (r & Hr & <- & Hm & Ht)%resolve_Handled.
  destruct (routes_below_urls r Hr He) as [Hms Hp].
  rewrite /takes Hms in Ht. apply bool_decide_eq_true, list_elem_of_singleton in Ht as ->.
  apply path_match_startswith in Hm. rewrite (Hurls (Py.startswith_trans _ _ _ Hm Hp)) in Hres.
  destruct He as [He|He]; rewrite He in Hres; discriminate.
Qed.

(** ** The handlers *)

(** The URLs of the samples and of the held-out samples of a prefix. *)
Definition labelled_urls (urlprefix : URLPrefix.t) : list string :=
  SampleURL.url <$>
    URLPrefix.sample_urls urlprefix ++ default [] (URLPrefix.validation_urls urlprefix).

(** The state after the three loops of [delete_urlprefix]. *)
Definition without_urls (urlprefix : URLPrefix.t) R : nat * Redis :=
  let acc := delete_urls (labelled_urls urlprefix) (0, R) in
  delete_urls (URL.url <$> find_urls_with_prefix (URLPrefix.prefix urlprefix) acc.2) acc.

Section handler_lemmas.
Context `{Env} `{Synth} `{Web}.
Implicit Types R : Redis.

(** [get_url_details] answers only for a URL that is stored and has no
    evaluation result, with zero statistics; for a URL that is not stored it
    reads the prefix of [None], and for a URL with results it reads the
    alias of the distance as an attribute: both are answered with status
    500. *)
Theorem get_url_details_spec url_id R :
  get_url_details url_id R =
  match load URL.t (unquote url_id) R,
        run ← scan EvaluationRun.t R;
        filter (λ result, EvaluationResult.url result = unquote url_id)
               (EvaluationRun.results run) with
  | Some u, [] =>
      Returned {|
        details_url := unquote url_id;
        details_domain := default "" (URL.prefix u);
        evaluation_results := [];
        latest_result := None;
        average_accuracy := 0;
        total_evaluations := 0;
        url_object := u;
        has_stored_object := true;
      |}
  | _, _ => HTTPException 500 "Failed to retrieve URL details"
  end.
Proof.
  rewrite /get_url_details. destruct (_ ≫= _) as [|result results]; simpl.
  - destruct (load _ _ _) as [u|]; [|done]. by destruct (URL.prefix u) as [[|? ?]|].
  - by destruct (load _ _ _).
Qed.

(** *** Deleting *)

Lemma delete_urls_cons url urls acc :
  delete_urls (url :: urls) acc =
  delete_urls urls (if (delete URL.t url acc.2).1 then S acc.1 else acc.1,
                    (delete URL.t url acc.2).2).
Proof. destruct acc as [n R]. rewrite /delete_urls /=. by destruct (delete URL.t url R). Qed.

Lemma delete_urls_app urls urls' acc :
  delete_urls (urls ++ urls') acc = delete_urls urls' (delete_urls urls acc).
Proof. apply foldl_app. Qed.

(** The loop changes the models only: it removes the keys of the URLs. *)
Lemma delete_urls_snd urls acc :
  (delete_urls urls acc).2 =
  set_models (λ ms, foldl (λ ms k, base.delete k ms) ms (key URL.t <$> urls)) acc.2.
Proof.
  revert acc. induction urls as [|url urls IH]; intros [n R]; [by destruct R|].
  by rewrite delete_urls_cons IH /= delete_snd.
Qed.

(** The counter counts the keys that the loop removes. *)
Lemma delete_urls_size urls acc :
  (delete_urls urls acc).1 + size (models (delete_urls urls acc).2) =
  acc.1 + size (models acc.2).
Proof.
  revert acc. induction urls as [|url urls IH]; intros [n R]; [done|].
  rewrite delete_urls_cons IH /=. pose proof (delete_size (A:=URL.t) url R).
  destruct (delete URL.t url R).1; lia.
Qed.

Lemma delete_urls_lookup urls acc k :
  models (delete_urls urls acc).2 !! k =
  if decide (k ∈ key URL.t <$> urls) then None else models acc.2 !! k.
Proof. by rewrite delete_urls_snd /= lookup_foldl_delete. Qed.

Lemma delete_urls_load urls acc id :
  load URL.t id (delete_urls urls acc).2 =
  if decide (id ∈ urls) then None else load URL.t id acc.2.
Proof.
  rewrite /load delete_urls_lookup.
  case_decide as Hin; case_decide as Hin'; try done.
  - apply list_elem_of_fmap in Hin as (id' & ->%(inj (key URL.t)) & Hin). by destruct Hin'.
  - destruct Hin. by apply list_elem_of_fmap_2.
Qed.

Lemma delete_urls_subseteq urls acc : models (delete_urls urls acc).2 ⊆ models acc.2.
Proof.
  apply map_subseteq_spec. intros k p. rewrite delete_urls_lookup. by case_decide.
Qed.

Lemma delete_urls_load_other {B} `{HasId B} urls acc id :
  class_name B ≠ class_name URL.t →
  load B id (delete_urls urls acc).2 = load B id acc.2.
Proof.
  intros Hne. rewrite /load delete_urls_lookup. case_decide as Hin; [|done].
  apply list_elem_of_fmap in Hin as (id' & Heq & _). by apply key_eq_inv in Heq as [? _].
Qed.

Lemma without_urls_subseteq urlprefix R : models (without_urls urlprefix R).2 ⊆ models R.
Proof. rewrite /without_urls. etrans; apply delete_urls_subseteq. Qed.

Lemma without_urls_load_other {B} `{HasId B} urlprefix R id :
  class_name B ≠ class_name URL.t → load B id (without_urls urlprefix R).2 = load B id R.
Proof. intros Hne. by rewrite /without_urls !delete_urls_load_other. Qed.

Lemma without_urls_size urlprefix R :
  (without_urls urlprefix R).1 + size (models (without_urls urlprefix R).2) = size (models R).
Proof. by rewrite /without_urls !delete_urls_size. Qed.

Lemma without_urls_labelled urlprefix R url :
  url ∈ labelled_urls urlprefix → load URL.t url (without_urls urlprefix R).2 = None.
Proof.
  intros Hin. rewrite /without_urls delete_urls_load. case_decide; [done|].
  by rewrite delete_urls_load decide_True.
Qed.

(** No row of the prefix is left. *)
Lemma without_urls_find urlprefix R :
  wf R → find_urls_with_prefix (URLPrefix.prefix urlprefix) (without_urls urlprefix R).2 = [].
Proof.
  intros Hwf. apply elem_of_nil_inv. intros u Hu.
  pose proof (wf_subseteq _ _ (without_urls_subseteq urlprefix R) Hwf) as Hwf'.
  apply elem_of_find_urls_with_prefix in Hu as [Hu Hp]; [|done].
  rewrite /without_urls delete_urls_load in Hu. case_decide as Hin; [done|].
  destruct Hin. apply list_elem_of_fmap_2, elem_of_find_urls_with_prefix; [|done].
  eapply wf_subseteq; [apply delete_urls_subseteq|done].
Qed.

(** What [delete_urlprefix] does for a stored prefix: the three loops and
    the deletion of the prefix, which cannot fail. *)
Lemma delete_urlprefix_Some prefix_id R urlprefix :
  wf R → load URLPrefix.t (unquote prefix_id) R = Some urlprefix →
  delete_urlprefix prefix_id R =
  (Returned
     [("message", VStr ("URLPrefix '" +:+ unquote prefix_id +:+ "' and " +:+
                        pretty (without_urls urlprefix R).1 +:+
                        " associated URLs deleted successfully"));
      ("prefix", VStr (unquote prefix_id));
      ("deleted_urls_count", VInt (Z.of_nat (without_urls urlprefix R).1))],
   (delete URLPrefix.t (unquote prefix_id) (without_urls urlprefix R).2).2).
Proof.
  intros Hwf Hload. pose proof (load_wf _ _ _ Hwf Hload) as Hid.
  assert (is_Some (models (without_urls urlprefix R).2 !! key URLPrefix.t (unquote prefix_id)))
    as Hk.
  { rewrite -(without_urls_load_other urlprefix R) // /load in Hload.
    by destruct (models _ !! _). }
  revert Hk. rewrite /delete_urlprefix Hload /without_urls /labelled_urls fmap_app.
  change (URLPrefix.prefix urlprefix = unquote prefix_id) in Hid.
  rewrite delete_urls_app Hid. destruct (delete_urls (URL.url <$> _) _) as [n R'].
  intros Hk. by rewrite (surjective_pairing (delete URLPrefix.t _ R')) delete_fst bool_decide_true.
Qed.

Lemma load_URL_delete_URLPrefix id id' R :
  load URL.t id' (delete URLPrefix.t id R).2 = load URL.t id' R.
Proof. by apply load_delete_other. Qed.

(** C21: [delete_urlprefix] answers 404 for a prefix that is not stored and
    leaves the store; for a stored prefix it never fails: the prefix, the
    rows of its samples and every row with the prefix are gone, nothing
    else is added, the count in the answer is the number of rows removed,
    and the queues and the singletons are untouched, so the items of the
    prefix that wait in the queue stay there. *)
Theorem delete_urlprefix_spec prefix_id R :
  wf R →
  match load URLPrefix.t (unquote prefix_id) R with
  | None =>
      delete_urlprefix prefix_id R =
      (HTTPException 404 ("URLPrefix with prefix '" +:+ unquote prefix_id +:+ "' not found"), R)
  | Some urlprefix =>
      ∃ deleted_urls_count R',
        delete_urlprefix prefix_id R =
        (Returned
           [("message", VStr ("URLPrefix '" +:+ unquote prefix_id +:+ "' and " +:+
                              pretty deleted_urls_count +:+
                              " associated URLs deleted successfully"));
            ("prefix", VStr (unquote prefix_id));
            ("deleted_urls_count", VInt (Z.of_nat deleted_urls_count))], R') ∧
        load URLPrefix.t (unquote prefix_id) R' = None ∧
        find_urls_with_prefix (unquote prefix_id) R' = [] ∧
        (∀ url, url ∈ labelled_urls urlprefix → load URL.t url R' = None) ∧
        models R' ⊆ models R ∧
        size (models R) = S (deleted_urls_count + size (models R')) ∧
        production_config R' = production_config R ∧
        system_state R' = system_state R ∧
        queues R' = queues R
  end.
Proof.
  intros Hwf. destruct (load _ _ _) as [urlprefix|] eqn:Hload; [|by rewrite /delete_urlprefix Hload].
  pose proof (load_wf _ _ _ Hwf Hload) as Hid.
  change (URLPrefix.prefix urlprefix = unquote prefix_id) in Hid.
  set (acc := without_urls urlprefix R) in *.
  assert (models (delete URLPrefix.t (unquote prefix_id) acc.2).2 ⊆ models R) as Hsub.
  { rewrite models_delete. etrans; [apply delete_subseteq|apply without_urls_subseteq]. }
  exists acc.1, (delete URLPrefix.t (unquote prefix_id) acc.2).2.
  split_and!; [by apply delete_urlprefix_Some|apply load_delete_eq| | |done| |by rewrite delete_snd /acc /without_urls !delete_urls_snd..].
  - apply elem_of_nil_inv. intros u Hu.
    eapply (not_elem_of_nil u). rewrite -(without_urls_find urlprefix R Hwf) Hid.
    pose proof (wf_subseteq _ _ Hsub Hwf) as Hwf'.
    pose proof (wf_subseteq _ _ (without_urls_subseteq urlprefix R) Hwf) as Hwf''.
    apply (elem_of_find_urls_with_prefix _ _ _ Hwf') in Hu as [Hu Hp].
    apply (elem_of_find_urls_with_prefix _ _ _ Hwf''). split; [|exact Hp].
    by rewrite load_URL_delete_URLPrefix in Hu.
  - intros url Hin. rewrite load_URL_delete_URLPrefix. exact (without_urls_labelled _ _ _ Hin).
  - pose proof (delete_size (A:=URLPrefix.t) (unquote prefix_id) acc.2) as Hsize.
    pose proof (without_urls_size urlprefix R) as Hsize'.
    rewrite delete_fst in Hsize. fold acc in Hsize'.
    destruct (bool_decide _) eqn:Hd; [lia|].
    apply bool_decide_eq_false in Hd. destruct Hd.
    assert (load URLPrefix.t (unquote prefix_id) acc.2 = Some urlprefix) as Hl
      by by rewrite /acc without_urls_load_other.
    rewrite /load in Hl. by destruct (models acc.2 !! _).
Qed.

(** *** What the handlers do to the store *)

Lemma delete_urls_fewer_models urls acc : fewer_models acc.2 (delete_urls urls acc).2.
Proof. split; [apply delete_urls_subseteq|by rewrite delete_urls_snd]. Qed.

Lemma delete_evaluation_run_fewer_models id R :
  fewer_models R (delete_evaluation_run id R).2.
Proof.
  rewrite /delete_evaluation_run. destruct (load _ _ _); [apply fewer_models_delete|reflexivity].
Qed.

Lemma clear_evaluation_runs_fewer_models R : fewer_models R (clear_evaluation_runs R).2.
Proof. apply (fewer_models_delete_all (A:=EvaluationRun.t)). Qed.

Lemma clear_model_data_fewer_models model_name R :
  fewer_models R (clear_model_data model_name R).2.
Proof.
  rewrite /clear_model_data. repeat case_decide; [| |reflexivity].
  - apply (fewer_models_delete_all (A:=EvaluationRun.t)).
  - apply (fewer_models_delete_all (A:=URL.t)).
Qed.

Lemma delete_urlprefix_fewer_models prefix_id R :
  fewer_models R (delete_urlprefix prefix_id R).2.
Proof.
  rewrite /delete_urlprefix. destruct (load _ _ _) as [urlprefix|]; [|reflexivity].
  destruct (delete_urls (URL.url <$> _) _) as [n R'] eqn:E.
  assert (fewer_models R R') as HR.
  { change R' with (n, R').2. rewrite -E. do 2 (etrans; [|apply delete_urls_fewer_models]).
    apply (delete_urls_fewer_models _ (0, R)). }
  pose proof (fewer_models_delete (A:=URLPrefix.t) (unquote prefix_id) R') as HR'.
  destruct (delete URLPrefix.t _ R') as [[] R'']; by etrans.
Qed.

Lemma delete_url_fewer_models url_id R : fewer_models R (delete_url url_id R).2.
Proof.
  rewrite /delete_url. destruct (load _ _ _); [|reflexivity].
  pose proof (fewer_models_delete (A:=URL.t) (unquote url_id) R) as HR.
  by destruct (delete URL.t _ R) as [[] R'].
Qed.

End handler_lemmas.

(** [from_url_prefix] lists the URLs of the samples, of the held-out
    samples and of the stored rows of the prefix, each once and in
    ascending order, and counts them. *)
Theorem from_url_prefix_spec url_prefix R :
  let with_urls := from_url_prefix url_prefix R in
  URLPrefixWithUrls.url_prefix with_urls = url_prefix ∧
  Sorted String.le (URLPrefixWithUrls.all_urls with_urls) ∧
  NoDup (URLPrefixWithUrls.all_urls with_urls) ∧
  (∀ url, url ∈ URLPrefixWithUrls.all_urls with_urls ↔
          url ∈ labelled_urls url_prefix ∨
          ∃ row, row ∈ find_urls_with_prefix (URLPrefix.prefix url_prefix) R ∧
                 URL.url row = url) ∧
  URLPrefixWithUrls.url_count with_urls = length (URLPrefixWithUrls.all_urls with_urls).
Proof.
  rewrite /from_url_prefix /=. split_and!; [done|apply (Sorted_merge_sort _)| | |done].
  - rewrite merge_sort_Permutation. apply NoDup_unique.
  - intros url. rewrite merge_sort_Permutation elem_of_unique /labelled_urls fmap_app.
    rewrite !elem_of_app list_elem_of_fmap (list_elem_of_fmap URL.url). naive_solver.
Qed.

(** ** A small application *)

(** Identifiers without escapes, two configurations, a built front end. *)
Definition example_web : Web := {|
  unquote := id;
  glob_configs := ["default"; "fast"];
  index_file_exists := true;
|}.

Lemma delete_urlprefix_spec_witness :
  ∃ deleted_urls_count R',
    (delete_urlprefix (H1:=example_web) "https://a.com/docs" example_redis).2 = R' ∧
    find_urls_with_prefix "https://a.com/docs" R' = [] ∧
    size (models example_redis) = S (deleted_urls_count + size (models R')).
Proof.
  pose proof (delete_urlprefix_spec (H1:=example_web) "https://a.com/docs" example_redis
                wf_example_redis) as Hspec.
  assert (load URLPrefix.t (@unquote example_web "https://a.com/docs") example_redis =
          Some example_prefix)
    as Hload by by vm_compute.
  rewrite Hload in Hspec. destruct Hspec as (n & R' & Hdel & _ & Hfind & _ & _ & Hsize & _).
  exists n, R'. split_and!; [|exact Hfind|exact Hsize]. exact (f_equal snd Hdel).
Defined.

(** The row of the prefix goes with it. *)
Example delete_urlprefix_example :
  delete_urlprefix (H1:=example_web) "https://a.com/docs" example_redis =
  (Returned
     [("message",
       VStr "URLPrefix 'https://a.com/docs' and 1 associated URLs deleted successfully");
      ("prefix", VStr "https://a.com/docs"); ("deleted_urls_count", VInt 1)],
   empty_redis).
Proof. by vm_compute. Qed.

Example get_url_details_example :
  get_url_details (H1:=example_web) "https://a.com/docs/intro.html" example_redis =
  Returned {|
    details_url := "https://a.com/docs/intro.html";
    details_domain := "https://a.com/docs";
    evaluation_results := [];
    latest_result := None;
    average_accuracy := 0;
    total_evaluations := 0;
    url_object := example_url;
    has_stored_object := true;
  |} ∧
  get_url_details (H1:=example_web) "https://a.com/other.html" example_redis =
  HTTPException 500 "Failed to retrieve URL details".
Proof. by vm_compute. Qed.

(** The list of the evaluated URLs and the details of a URL cannot be
    asked for; a method that no route of the path takes is refused; what
    is not a route of the API goes to the front end. *)
Example resolve_examples :
  resolve GET "/api/urls/evaluated" = Handled GetUrl "evaluated" ∧
  resolve GET "/api/urls/https://a.com/x/details" = Handled GetUrl "https://a.com/x/details" ∧
  resolve GET "/api/urls" = Handled GetUrlsList "" ∧
  resolve DELETE "/api/urls/https://a.com/x" = Handled DeleteUrl "https://a.com/x" ∧
  resolve POST "/api/urls/https://a.com/x" = MethodNotAllowed ∧
  resolve GET "/api/configs/production/current" = Handled GetCurrentProductionConfig "" ∧
  resolve GET "/api/unknown" = Handled ServeFrontend "api/unknown" ∧
  serve_frontend (H1:=example_web) "api/unknown" = HTTPException 404 "API route not found".
Proof. vm_compute. split_and!; reflexivity. Qed.
