(* ===== verification/Discovery.v ===== *)
(** * Sitemap discovery (src/backend/discovery.py)

    The script finds the sitemaps of a site (robots.txt and the two usual
    addresses), walks them, sitemap indexes newest child first, and lists
    the first addresses below a prefix.

    What the script only calls is the interface [Net]: the HTTP request,
    gzip, the XML parser, [str.splitlines] and the two parsers of dates;
    [urlparse] and [urljoin] are [UrlLib] and the order of a Python set is
    [PySet].  A date is its time stamp, the only thing the script reads of
    it.  The XML document is a tree of [Element]s.

    A generator is the list of what it yields and how it ends ([Gen]):
    exhausted, with an exception, or out of fuel.  The consumer
    [take_new] stops at the limit, so what comes after the last address it
    takes, an exception included, does not count; this is the laziness of
    the generators.  [iter_sitemap_urls] calls itself for every child of a
    sitemap index; its fuel is the depth of that nesting.

    The theorems: the children of an index are walked newest first, the
    undated last, in document order among equals ([sort_by] is stable);
    what [discover_via_sitemaps] returns is free of duplicates, below the
    prefix, in the order of the walk and no longer than the limit, unless
    the limit is 0; the walk ends when the indexes of the site do not
    loop, with fuel above the rank of the sitemap, and a sitemap index
    that lists itself exhausts every fuel. *)

From Stdlib Require Import Ascii.
From stdpp Require Import list strings sorting gmap.
From S2P Require Import Prelude PyString DataModels Url.

Local Open Scope crawl_scope.

Module Sitemap.

(** What the script reads of a [requests.Response]. *)
Record Response := mkResponse {
  status_code : nat;
  text : string;
  content : string;
  url : string;
  content_type : string;
}.

(** An element of [xml.etree.ElementTree]. *)
Inductive Element :=
  | Elem (tag : string) (text : option string) (children : list Element).

Definition tag (e : Element) : string := match e with Elem t _ _ => t end.
Definition el_text (e : Element) : option string := match e with Elem _ t _ => t end.
Definition children (e : Element) : list Element := match e with Elem _ _ cs => cs end.

(** [e.iter()]: the element and its descendants in document order. *)
Fixpoint iter (e : Element) : list Element :=
  match e with Elem _ _ cs => e :: (cs ≫= iter) end.

Class Net := {
  (** [requests.get(url, headers=UA, timeout=timeout)]. *)
  requests_get : string → Result Response;
  (** [gzip.decompress]. *)
  gzip_decompress : string → Result string;
  (** [ET.fromstring]. *)
  fromstring : string → Result Element;
  (** [str.splitlines]. *)
  splitlines : string → list string;
  (** [datetime.fromisoformat], as a time stamp. *)
  fromisoformat : string → option Z;
  (** [datetime.strptime(s, fmt)], as a time stamp. *)
  strptime : string → string → option Z;
}.

(** ** Generators *)

(** How a generator ends. *)
Inductive End :=
  | Exhausted
  | Raised (e : string)
  | OutOfFuel.

(** What a generator yields, and how it ends. *)
Notation Gen := (list string * End)%type.

(** [yield u] before the rest of the generator. *)
Definition gen_cons (u : string) (g : Gen) : Gen := (u :: g.1, g.2).

(** One generator after another: the second runs when the first is
    exhausted. *)
Definition gen_app (g k : Gen) : Gen :=
  match g.2 with
  | Exhausted => (g.1 ++ k.1, k.2)
  | _ => g
  end.

(** [for x in l: yield from f(x)]. *)
Definition yield_from_each {A} (f : A → Gen) (l : list A) : Gen :=
  foldr (λ x k, gen_app (f x) k) ([], Exhausted) l.

(** What [discover_via_sitemaps] does. *)
Inductive Outcome :=
  | Return (out : list string)
  | Raise (e : string)
  | Unfinished.

(** [s.split(c, 1)]. *)
Fixpoint split1 (c : ascii) (s : string) : list string :=
  match s with
  | "" => [""]
  | String a s' =>
      if decide (a = c) then [""; s']
      else match split1 c s' with
           | x :: rest => String a x :: rest
           | [] => [String a ""]
           end
  end.

(** The key of [children.sort]: the dated before the undated, the newest
    first. *)
Definition sort_key (t : string * option Z) : bool * Z :=
  (bool_decide (t.2 = None), match t.2 with Some d => - d | None => 0 end)%Z.

(** The order of Python on the keys. *)
Definition key_le (a b : bool * Z) : bool :=
  match a.1, b.1 with
  | false, true => true
  | true, false => false
  | _, _ => bool_decide (a.2 ≤ b.2)%Z
  end.

Section discovery.
Context `{UrlLib} `{PySet} `{Net}.

Definition ensure_scheme (url : string) : string :=
  if Py.startswith url "http://" || Py.startswith url "https://" then url
  else "https://" +:+ url.

Definition domain_root (url : string) : Result string :=
  u ←ᵣ urlparse url;
  Ok (scheme u +:+ "://" +:+ netloc u).

Definition get_text (resp : Response) : Result string :=
  if Py.startswith (content_type resp) "application/x-gzip" || Py.endswith (url resp) ".gz"
  then gzip_decompress (content resp)
  else Ok (content resp).

(** [resp.ok]: [raise_for_status] does not raise. *)
Definition ok (resp : Response) : bool :=
  negb (bool_decide (400 ≤ status_code resp < 600)).

Definition fetch (url : string) : Result Response :=
  resp ←ᵣ requests_get url;
  if ok resp then Ok resp else Err "HTTPError".

(** The loop over the lines of robots.txt; an exception ends it and keeps
    what was added. *)
Fixpoint robots_sitemaps (lines : list string) : list string :=
  match lines with
  | [] => []
  | line :: lines =>
      if Py.startswith (Py.lower line) "sitemap:" then
        match split1 ":" line !! 1 with
        | Some rest =>
            let sm := Py.strip rest in
            (if decide (sm = "") then [] else [sm]) ++ robots_sitemaps lines
        | None => []
        end
      else robots_sitemaps lines
  end.

(** The body of [for cand in ["/sitemap.xml", "/sitemap_index.xml"]]. *)
Definition fallback (base cand : string) : option string :=
  match (url ←ᵣ urljoin base cand; fetch url) with
  | Ok resp => if ok resp then Some (url resp) else None
  | Err _ => None
  end.

Definition discover_sitemaps (base : string) : list string :=
  let robots :=
    match (url ←ᵣ urljoin base "/robots.txt"; fetch url) with
    | Ok r => robots_sitemaps (splitlines (text r))
    | Err _ => []
    end in
  union_list (robots ++ omap (fallback base) ["/sitemap.xml"; "/sitemap_index.xml"]) [].

(** ** The XML helpers *)

Definition local (tag : string) : Result string :=
  if Py.startswith tag "{" then
    match split1 "}" tag !! 1 with
    | Some name => Ok name
    | None => Err "list index out of range"
    end
  else Ok tag.

Definition parse_lastmod (text : option string) : option Z :=
  if truthy text then
    let s := Py.strip (default "" text) in
    match fromisoformat (Py.replace "Z" "+00:00" s) with
    | Some d => Some d
    | None =>
        first_some (strptime s) ["%Y-%m-%dT%H:%M:%S%z"; "%Y-%m-%dT%H:%M:%S"; "%Y-%m-%d"]
    end
  else None.

(** The body of [for el in sm]. *)
Definition entry_field (acc : Result (option string * option Z)) (el : Element)
    : Result (option string * option Z) :=
  acc ←ᵣ acc;
  name ←ᵣ local (tag el);
  if decide (Py.lower name = "loc") then Ok (Some (Py.strip (default "" (el_text el))), acc.2)
  else if decide (Py.lower name = "lastmod") then Ok (acc.1, parse_lastmod (el_text el))
  else Ok acc.

(** The body of [for sm in root.iter()]: the pair to append, if any. *)
Definition entry (sm : Element) : Result (option (string * option Z)) :=
  name ←ᵣ local (tag sm);
  if decide (Py.lower name = "sitemap") then
    fields ←ᵣ foldl entry_field (Ok (None, None)) (children sm);
    Ok (if truthy fields.1 then Some (default "" fields.1, fields.2) else None)
  else Ok None.

(** The children of a sitemap index in the order they are walked. *)
Definition sorted_children (root : Element) (max_child_sitemaps : nat)
    : Result (list (string * option Z)) :=
  entries ←ᵣ mapM entry (iter root);
  Ok (take max_child_sitemaps (sort_by key_le sort_key (omap id entries))).

(** [_iter_sitemap_index]; [rec] is [_iter_sitemap_urls]. *)
Definition iter_sitemap_index (rec : string → nat → Gen) (root : Element)
    (max_child_sitemaps : nat) : Gen :=
  match sorted_children root max_child_sitemaps with
  | Ok children => yield_from_each (λ child, rec child.1 max_child_sitemaps) children
  | Err e => ([], Raised e)
  end.

(** [for el in root.iter(): if _local(el.tag).lower() == "loc": ...]. *)
Fixpoint locs (els : list Element) : Gen :=
  match els with
  | [] => ([], Exhausted)
  | el :: els =>
      match local (tag el) with
      | Ok name =>
          if decide (Py.lower name = "loc") then
            let u := Py.strip (default "" (el_text el)) in
            if decide (u = "") then locs els else gen_cons u (locs els)
          else locs els
      | Err e => ([], Raised e)
      end
  end.

Definition iter_xml_sitemap_urls (rec : string → nat → Gen) (root : Element)
    (max_child_sitemaps : nat) : Gen :=
  match local (tag root) with
  | Ok name =>
      if decide (Py.lower name = "sitemapindex")
      then iter_sitemap_index rec root max_child_sitemaps
      else if decide (Py.lower name = "urlset") then locs (iter root)
      else locs (iter root)
  | Err e => ([], Raised e)
  end.

(** The document of a sitemap, if it can be fetched and parsed. *)
Definition document (sitemap_url : string) : option Element :=
  match (resp ←ᵣ fetch sitemap_url; get_text resp) with
  | Ok blob => result_to_option (fromstring blob)
  | Err _ => None
  end.

Fixpoint iter_sitemap_urls (fuel : nat) (sitemap_url : string) (max_child_sitemaps : nat)
    : Gen :=
  match fuel with
  | 0 => ([], OutOfFuel)
  | S fuel =>
      match document sitemap_url with
      | Some root => iter_xml_sitemap_urls (iter_sitemap_urls fuel) root max_child_sitemaps
      | None => ([], Exhausted)
      end
  end.

(** ** The consumer *)

(** The loop of [discover_via_sitemaps] over the addresses that the
    generators yield: the list, and whether the limit ended the loop. *)
Fixpoint take_new (prefix : string) (limit : nat) (seen out urls : list string)
    : list string * bool :=
  match urls with
  | [] => (out, false)
  | url :: urls =>
      if Py.startswith url prefix && bool_decide (url ∉ seen) then
        let seen := url :: seen in
        let out := out ++ [url] in
        if decide (limit ≤ length out) then (out, true)
        else take_new prefix limit seen out urls
      else take_new prefix limit seen out urls
  end.

Definition discover_via_sitemaps (fuel : nat) (prefix : string) (limit : nat)
    (max_child_sitemaps : nat) : Outcome :=
  let prefix := ensure_scheme prefix in
  match domain_root prefix with
  | Err e => Raise e
  | Ok base =>
      let sitemaps := discover_sitemaps base in
      let urls :=
        yield_from_each (λ sm, iter_sitemap_urls fuel sm max_child_sitemaps) sitemaps in
      let taken := take_new prefix limit [] [] urls.1 in
      if taken.2 then Return taken.1
      else match urls.2 with
           | Exhausted => Return taken.1
           | Raised e => Raise e
           | OutOfFuel => Unfinished
           end
  end.

(** The lines that the module runs when it is loaded. *)
Definition urls (fuel : nat) : Outcome :=
  discover_via_sitemaps fuel "https://www.wikipedia.org/" 30 25.

End discovery.

(** ** The order of the children *)

(** An entry that is walked before another: a dated before an undated, a
    newer before an older. *)
Definition newest_first (a b : string * option Z) : Prop :=
  match a.2, b.2 with
  | Some d, Some d' => (d' ≤ d)%Z
  | Some _, None => True
  | None, Some _ => False
  | None, None => True
  end.

Lemma key_le_total a b : key_le a b = false → key_le b a = true.
Proof.
  destruct a as [[] x], b as [[] y]; rewrite /key_le /=; try done.
  all: intros ?%bool_decide_eq_false; apply bool_decide_eq_true; lia.
Qed.

Lemma key_le_refl a : key_le a a = true.
Proof. destruct a as [[] x]; by apply bool_decide_eq_true. Qed.

Lemma key_le_newest_first a b : key_le (sort_key a) (sort_key b) = true ↔ newest_first a b.
Proof.
  destruct a as [u [d|]], b as [v [d'|]]; rewrite /key_le /newest_first /=; try done.
  rewrite bool_decide_eq_true. lia.
Qed.

Lemma sort_key_inj a b : sort_key a = sort_key b ↔ a.2 = b.2.
Proof.
  destruct a as [u [d|]], b as [v [d'|]]; rewrite /sort_key /=; split; intros; simplify_eq; try done.
  f_equal. lia.
Qed.

(** [children.sort(key=...)] walks the children of an index newest
    first and the undated last; it loses and adds none, and the children
    with the same date, and the undated, keep the order of the document. *)
Theorem children_sort_spec (entries : list (string * option Z)) :
  let children := sort_by key_le sort_key entries in
  children ≡ₚ entries ∧
  Sorted newest_first children ∧
  ∀ d, filter (λ t, t.2 = d) children = filter (λ t, t.2 = d) entries.
Proof.
  split_and!.
  - apply sort_by_Permutation.
  - eapply Sorted_impl, sort_by_Sorted, key_le_total. intros a b. apply key_le_newest_first.
  - intros d. pose proof (sort_by_stable key_le sort_key key_le_refl (sort_key ("", d)) entries) as Hs.
    erewrite (list_filter_iff _ (λ t, sort_key t = sort_key ("", d))), Hs.
    + apply list_filter_iff. intros t. by rewrite sort_key_inj.
    + intros t. by rewrite sort_key_inj.
Qed.

(** ** The consumer takes the first new addresses below the prefix *)

Section consumer.
Context (prefix : string) (limit : nat).

(** The addresses that count. *)
Definition below (urls : list string) : list string :=
  filter (λ url, Py.startswith url prefix = true) urls.

Lemma take_new_cons seen out url urls :
  take_new prefix limit seen out (url :: urls) =
  if decide (Py.startswith url prefix = true ∧ url ∉ seen) then
    if decide (limit ≤ length out + 1) then (out ++ [url], true)
    else take_new prefix limit (url :: seen) (out ++ [url]) urls
  else take_new prefix limit seen out urls.
Proof.
  rewrite /= length_app /=. destruct (Py.startswith url prefix) eqn:E; simpl.
  all: repeat first [case_bool_decide|case_decide]; try done; naive_solver.
Qed.

Lemma unique_seen_below_cons seen url urls :
  unique_seen seen (below (url :: urls)) =
  if decide (Py.startswith url prefix = true ∧ url ∉ seen)
  then url :: unique_seen (url :: seen) (below urls)
  else unique_seen seen (below urls).
Proof.
  rewrite /below filter_cons. repeat case_decide; simpl; repeat case_decide; naive_solver.
Qed.

Lemma take_new_fst seen out urls :
  (take_new prefix limit seen out urls).1 =
  out ++ take ((limit - length out) `max` 1) (unique_seen seen (below urls)).
Proof.
  revert seen out. induction urls as [|url urls IH]; intros seen out.
  { by rewrite /= take_nil app_nil_r. }
  rewrite take_new_cons unique_seen_below_cons. case_decide; [|apply IH].
  case_decide as Hlen.
  - by replace ((limit - length out) `max` 1) with 1 by lia.
  - rewrite IH length_app /= -assoc /=. do 2 f_equal.
    by replace ((limit - length out) `max` 1) with (S ((limit - (length out + 1)) `max` 1)) by lia.
Qed.

Lemma take_new_snd seen out urls :
  (take_new prefix limit seen out urls).2 =
  bool_decide ((limit - length out) `max` 1 ≤ length (unique_seen seen (below urls))).
Proof.
  revert seen out. induction urls as [|url urls IH]; intros seen out.
  { symmetry. apply bool_decide_eq_false. simpl. lia. }
  rewrite take_new_cons unique_seen_below_cons. case_decide; [|apply IH].
  case_decide as Hlen.
  - symmetry. apply bool_decide_eq_true. simpl. lia.
  - rewrite IH length_app /=. apply bool_decide_ext. lia.
Qed.

End consumer.

(** ** The walk ends when the indexes do not loop *)

Section walk.
Context `{Net}.
Implicit Types g : Gen.

Lemma yield_from_each_ext {A} (f f' : A → Gen) l :
  (∀ x, x ∈ l → f x = f' x) → yield_from_each f l = yield_from_each f' l.
Proof.
  induction l as [|x l IH]; intros Hf; simpl; [done|].
  rewrite Hf; [by left|]. rewrite IH //. intros y Hy. apply Hf. by right.
Qed.

Lemma yield_from_each_fmap {A B} (h : A → B) (f : B → Gen) l :
  yield_from_each f (h <$> l) = yield_from_each (f ∘ h) l.
Proof. induction l as [|x l IH]; simpl; [done|]. by rewrite IH. Qed.

Lemma yield_from_each_fuel {A} (f : A → Gen) l :
  (∀ x, x ∈ l → (f x).2 ≠ OutOfFuel) → (yield_from_each f l).2 ≠ OutOfFuel.
Proof.
  induction l as [|x l IH]; intros Hf; simpl; [done|].
  assert ((f x).2 ≠ OutOfFuel) as Hx by (apply Hf; by left).
  assert ((yield_from_each f l).2 ≠ OutOfFuel) as Hl by (apply IH; intros y Hy; apply Hf; by right).
  rewrite /gen_app. by destruct (f x) as [ys []].
Qed.

Lemma locs_fuel els : (locs els).2 ≠ OutOfFuel.
Proof.
  induction els as [|el els IH]; simpl; [done|].
  destruct (local _); [|done]. by repeat case_decide.
Qed.

(** The sitemaps that the walk of a sitemap goes on with: the children
    of its document, if that is a sitemap index. *)
Definition index_children (max_child_sitemaps : nat) (sitemap_url : string) : list string :=
  match document sitemap_url with
  | Some root =>
      match local (tag root) with
      | Ok name =>
          if decide (Py.lower name = "sitemapindex") then
            match sorted_children root max_child_sitemaps with
            | Ok children => children.*1
            | Err _ => []
            end
          else []
      | Err _ => []
      end
  | None => []
  end.

(** One level of the walk: what the document yields itself, or the walks
    of the children of an index. *)
Lemma iter_sitemap_urls_S sitemap_url max_child_sitemaps :
  ∃ g, g.2 ≠ OutOfFuel ∧ ∀ rec,
    match document sitemap_url with
    | Some root => iter_xml_sitemap_urls rec root max_child_sitemaps
    | None => ([], Exhausted)
    end =
    if decide (index_children max_child_sitemaps sitemap_url = []) then g
    else yield_from_each (λ v, rec v max_child_sitemaps)
           (index_children max_child_sitemaps sitemap_url).
Proof.
  rewrite /index_children /iter_xml_sitemap_urls /iter_sitemap_index.
  destruct (document sitemap_url) as [root|]; [|by exists ([], Exhausted)].
  destruct (local (tag root)) as [name|e]; [|by exists ([], Raised e)].
  case_decide; [|exists (locs (iter root)); split; [apply locs_fuel|by repeat case_decide]].
  destruct (sorted_children _ _) as [children|e]; [|by exists ([], Raised e)].
  exists ([], Exhausted). split; [done|]. intros rec. rewrite yield_from_each_fmap.
  case_decide as Hnil; [|done]. by apply fmap_nil_inv in Hnil as ->.
Qed.

Section ranked.
Context (max_child_sitemaps : nat) (rank : string → nat).
Context (Hrank : ∀ u v, v ∈ index_children max_child_sitemaps u → rank v < rank u).

Lemma iter_sitemap_urls_total fuel sitemap_url :
  rank sitemap_url < fuel →
  (iter_sitemap_urls fuel sitemap_url max_child_sitemaps).2 ≠ OutOfFuel ∧
  ∀ fuel', fuel ≤ fuel' →
    iter_sitemap_urls fuel' sitemap_url max_child_sitemaps =
    iter_sitemap_urls fuel sitemap_url max_child_sitemaps.
Proof.
  revert sitemap_url. induction fuel as [|fuel IH]; intros u Hu; [lia|].
  destruct (iter_sitemap_urls_S u max_child_sitemaps) as (g & Hg & Hstep).
  assert (∀ v, v ∈ index_children max_child_sitemaps u → rank v < fuel) as Hv.
  { intros v Hv%Hrank. lia. }
  split.
  - rewrite /= Hstep. case_decide; [done|]. apply yield_from_each_fuel.
    intros v Hin. by apply IH, Hv.
  - intros [|fuel'] Hle; [lia|]. rewrite /= !Hstep. case_decide; [done|].
    apply yield_from_each_ext. intros v Hin. apply IH; [by apply Hv|lia].
Qed.

End ranked.

(** From a sitemap of a set of sitemap indexes in which every index lists
    one of the set as the first child that it walks, every amount of fuel
    is used up before anything is yielded. *)
Lemma iter_sitemap_urls_loop (looping : string → Prop) max_child_sitemaps :
  (∀ u, looping u →
        ∃ v rest, index_children max_child_sitemaps u = v :: rest ∧ looping v) →
  ∀ fuel sitemap_url,
    looping sitemap_url →
    iter_sitemap_urls fuel sitemap_url max_child_sitemaps = ([], OutOfFuel).
Proof.
  intros Hloop fuel. induction fuel as [|fuel IH]; intros u Hu; [done|].
  destruct (iter_sitemap_urls_S u max_child_sitemaps) as (g & Hg & Hstep).
  destruct (Hloop u Hu) as (v & rest & Hc & Hv).
  rewrite /= Hstep Hc. clear Hstep. case_decide; [done|]. by rewrite /= IH.
Qed.

End walk.

Section discover.
Context `{UrlLib} `{PySet} `{Net}.

(** What the generators of the sitemaps of a site yield, one sitemap after
    the other. *)
Definition walk (fuel : nat) (base : string) (max_child_sitemaps : nat) : Gen :=
  yield_from_each (λ sm, iter_sitemap_urls fuel sm max_child_sitemaps) (discover_sitemaps base).

(** [discover_via_sitemaps] by the addresses that count. *)
Lemma discover_via_sitemaps_eq fuel prefix limit max_child_sitemaps :
  discover_via_sitemaps fuel prefix limit max_child_sitemaps =
  match domain_root (ensure_scheme prefix) with
  | Err e => Raise e
  | Ok base =>
      let urls := walk fuel base max_child_sitemaps in
      let found := unique (below (ensure_scheme prefix) urls.1) in
      if decide (limit `max` 1 ≤ length found) then Return (take (limit `max` 1) found)
      else match urls.2 with
           | Exhausted => Return found
           | Raised e => Raise e
           | OutOfFuel => Unfinished
           end
  end.
Proof.
  rewrite /discover_via_sitemaps. destruct (domain_root _) as [base|]; [|done].
  rewrite -/(walk fuel base max_child_sitemaps) take_new_snd take_new_fst /= Nat.sub_0_r.
  rewrite -/(unique _). case_bool_decide as Hlen; [by rewrite decide_True|].
  rewrite decide_False // take_ge //. lia.
Qed.

Lemma below_unique prefix urls url :
  url ∈ unique (below prefix urls) → Py.startswith url prefix = true.
Proof. by intros [? _]%elem_of_unique%list_elem_of_filter. Qed.

(** C23: [discover_via_sitemaps] returns the first [limit] distinct
    addresses below the prefix in the order of the walk, and at least one
    if there is one, also when the limit is 0; when the walk has fewer it
    returns them all if the walk ends, and ends as the walk does if it
    does not: what the walk does after the last address that is taken does
    not count.  A list that is returned has no duplicates, only addresses
    below the prefix, and at most [limit] of them, or one. *)
Theorem discover_via_sitemaps_spec fuel prefix limit max_child_sitemaps :
  discover_via_sitemaps fuel prefix limit max_child_sitemaps =
  match domain_root (ensure_scheme prefix) with
  | Err e => Raise e
  | Ok base =>
      let urls := walk fuel base max_child_sitemaps in
      let found := unique (below (ensure_scheme prefix) urls.1) in
      if decide (limit `max` 1 ≤ length found) then Return (take (limit `max` 1) found)
      else match urls.2 with
           | Exhausted => Return found
           | Raised e => Raise e
           | OutOfFuel => Unfinished
           end
  end ∧
  ∀ out, discover_via_sitemaps fuel prefix limit max_child_sitemaps = Return out →
    NoDup out ∧ Forall (λ url, Py.startswith url (ensure_scheme prefix) = true) out ∧
    length out ≤ limit `max` 1.
Proof.
  split; [apply discover_via_sitemaps_eq|]. intros out. rewrite discover_via_sitemaps_eq.
  destruct (domain_root _) as [base|]; [simpl|done].
  set (found := unique _).
  assert (NoDup found) as Hnd by apply NoDup_unique.
  assert (Forall (λ url, Py.startswith url (ensure_scheme prefix) = true) found) as Hall
    by (apply Forall_forall; intros url; apply below_unique).
  case_decide as Hlen.
  - intros [= <-]. split_and!; [exact (sublist_NoDup _ _ Hnd (sublist_take _ _))|by apply Forall_take|].
    rewrite length_take. lia.
  - destruct (walk _ _ _).2; [|done..]. intros [= <-]. split_and!; [done..|lia].
Qed.

Lemma walk_total (rank : string → nat) fuel base max_child_sitemaps :
  (∀ u v, v ∈ index_children max_child_sitemaps u → rank v < rank u) →
  (∀ sm, sm ∈ discover_sitemaps base → rank sm < fuel) →
  (walk fuel base max_child_sitemaps).2 ≠ OutOfFuel ∧
  ∀ fuel', fuel ≤ fuel' →
    walk fuel' base max_child_sitemaps = walk fuel base max_child_sitemaps.
Proof.
  intros Hrank Hfuel. split.
  - apply yield_from_each_fuel. intros sm Hsm.
    by apply (iter_sitemap_urls_total _ rank Hrank), Hfuel.
  - intros fuel' Hle. apply yield_from_each_ext. intros sm Hsm.
    by apply (iter_sitemap_urls_total _ rank Hrank); [apply Hfuel|].
Qed.

(** [discover_via_sitemaps] ends on a site whose sitemap indexes do
    not loop: when a rank goes down from every index to its children, fuel
    above the ranks of the sitemaps of the site gives a list or an
    exception, and more fuel gives the same. *)
Theorem discover_via_sitemaps_total (rank : string → nat) fuel prefix limit max_child_sitemaps :
  (∀ u v, v ∈ index_children max_child_sitemaps u → rank v < rank u) →
  (∀ base sm, domain_root (ensure_scheme prefix) = Ok base →
              sm ∈ discover_sitemaps base → rank sm < fuel) →
  discover_via_sitemaps fuel prefix limit max_child_sitemaps ≠ Unfinished ∧
  ∀ fuel', fuel ≤ fuel' →
    discover_via_sitemaps fuel' prefix limit max_child_sitemaps =
    discover_via_sitemaps fuel prefix limit max_child_sitemaps.
Proof.
  intros Hrank Hfuel. rewrite discover_via_sitemaps_eq.
  destruct (domain_root _) as [base|e] eqn:Hbase;
    [|by split; [|intros; rewrite discover_via_sitemaps_eq Hbase]].
  destruct (walk_total rank fuel base max_child_sitemaps Hrank (λ sm, Hfuel base sm eq_refl))
    as [Hend Hsame].
  split; [|by intros fuel' Hle; rewrite discover_via_sitemaps_eq Hbase /= Hsame].
  simpl. case_decide; [done|]. by destruct (walk _ _ _).2.
Qed.

(** C35: [discover_via_sitemaps] does not end when the sitemap indexes
    loop: when the first sitemap of the site is one of a set of indexes in
    which every index lists one of the set as the first child that it
    walks, every amount of fuel is used up, whatever the limit.  A sitemap
    index that lists itself as its newest child is such a set: nothing
    bounds the depth of the walk. *)
Theorem discover_via_sitemaps_loop (looping : string → Prop) prefix base sm sitemaps
    limit max_child_sitemaps :
  (∀ u, looping u →
        ∃ v rest, index_children max_child_sitemaps u = v :: rest ∧ looping v) →
  domain_root (ensure_scheme prefix) = Ok base →
  discover_sitemaps base = sm :: sitemaps →
  looping sm →
  ∀ fuel, discover_via_sitemaps fuel prefix limit max_child_sitemaps = Unfinished.
Proof.
  intros Hloop Hbase Hsm Hlooping fuel.
  rewrite discover_via_sitemaps_eq Hbase /walk Hsm /=.
  rewrite (iter_sitemap_urls_loop looping) //= decide_False //. lia.
Qed.

End discover.

(** ** Two small sites *)

(** The requests, the documents and the dates of a site as tables. *)
Definition TableNet (pages : list (string * Response)) (documents : list (string * Element))
    (dates : list (string * Z)) : Net := {|
  requests_get url :=
    match (list_to_map pages : gmap string Response) !! url with
    | Some resp => Ok resp
    | None => Err "ConnectionError"
    end;
  gzip_decompress _ := Err "BadGzipFile";
  fromstring blob :=
    match (list_to_map documents : gmap string Element) !! blob with
    | Some root => Ok root
    | None => Err "ParseError"
    end;
  splitlines := Py.split (ascii_of_nat 10);
  fromisoformat s := (list_to_map dates : gmap string Z) !! s;
  strptime _ _ := None;
|}.

Definition page (url body : string) : string * Response :=
  (url, mkResponse 200 body body url "application/xml").

Definition ns (name : string) : string :=
  "{http://www.sitemaps.org/schemas/sitemap/0.9}" +:+ name.

Definition sitemap_entry (loc : string) (lastmod : option string) : Element :=
  Elem (ns "sitemap") None
    (Elem (ns "loc") (Some loc) [] ::
     match lastmod with Some d => [Elem (ns "lastmod") (Some d) []] | None => [] end).

Definition urlset (locs : list string) : Element :=
  Elem (ns "urlset") None ((λ loc, Elem (ns "url") None [Elem (ns "loc") (Some loc) []]) <$> locs).

(** A site with an index of three sitemaps, one of them missing. *)
Definition example_pages : list (string * Response) :=
  [page "https://a.com/robots.txt" ("User-agent: *" +:+ nl +:+ "Sitemap: https://a.com/index.xml");
   page "https://a.com/index.xml" "index";
   page "https://a.com/old.xml" "old";
   page "https://a.com/new.xml" "new"].

Definition example_net : Net :=
  TableNet example_pages
    [("index", Elem (ns "sitemapindex") None
                 [sitemap_entry "https://a.com/old.xml" (Some "2024-01-01");
                  sitemap_entry "https://a.com/misc.xml" None;
                  sitemap_entry " https://a.com/new.xml " (Some "2025-06-01T00:00:00Z")]);
     ("old", urlset ["https://a.com/docs/a"; "https://a.com/blog/x"]);
     ("new", urlset ["https://a.com/docs/b"; "https://a.com/docs/a"; "https://a.com/docs/c"])]
    [("2024-01-01", 1704067200%Z); ("2025-06-01T00:00:00+00:00", 1748736000%Z)].

(** A site whose sitemap is an index that lists itself. *)
Definition looping_net : Net :=
  TableNet
    [page "https://b.com/sitemap.xml" "loop"]
    [("loop", Elem "sitemapindex" None [sitemap_entry "https://b.com/sitemap.xml" None])]
    [].

Definition example_urllib : UrlLib := SimpleUrl (λ _, Ok []).

Notation discover net :=
  (discover_via_sitemaps (H:=example_urllib) (H0:=ListSet) (H1:=net)) (only parsing).

(** The newest sitemap is walked first, the missing one is skipped, and
    the limit counts the addresses below the prefix; a limit of 0 gives
    one address. *)
Example discover_example :
  discover example_net 2 "a.com/docs" 50 50 =
    Return ["https://a.com/docs/b"; "https://a.com/docs/a"; "https://a.com/docs/c"] ∧
  discover example_net 2 "a.com/docs" 2 50 = Return ["https://a.com/docs/b"; "https://a.com/docs/a"] ∧
  discover example_net 2 "a.com/docs" 0 50 = Return ["https://a.com/docs/b"] ∧
  discover example_net 2 "a.com/docs" 50 1 = Return ["https://a.com/docs/b"; "https://a.com/docs/a"; "https://a.com/docs/c"] ∧
  discover example_net 1 "a.com/docs" 50 50 = Unfinished.
Proof. vm_compute. split_and!; reflexivity. Qed.

(** Only the pages of the table have children. *)
Lemma TableNet_index_children pages documents dates max_child_sitemaps u :
  index_children (H:=TableNet pages documents dates) max_child_sitemaps u ≠ [] → u ∈ pages.*1.
Proof.
  rewrite /index_children /document /fetch /=.
  destruct (list_to_map pages !! u) as [resp|] eqn:E; [|done].
  intros _. apply elem_of_list_to_map_2 in E. by apply (list_elem_of_fmap_2 fst) in E.
Qed.

(** The index is above its sitemaps. *)
Definition example_rank (u : string) : nat :=
  if decide (u = "https://a.com/index.xml") then 1 else 0.

Lemma example_rank_decreases u v :
  v ∈ index_children (H:=example_net) 50 u → example_rank v < example_rank u.
Proof.
  intros Hv. assert (index_children (H:=example_net) 50 u ≠ []) as Hu.
  { intros Hnil. rewrite Hnil in Hv. by apply elem_of_nil in Hv. }
  apply TableNet_index_children in Hu. vm_compute in Hu.
  repeat (apply elem_of_cons in Hu as [->|Hu]); try by apply elem_of_nil in Hu.
  all: vm_compute in Hv; repeat (apply elem_of_cons in Hv as [->|Hv]); try by apply elem_of_nil in Hv.
  all: vm_compute; lia.
Qed.

Lemma discover_via_sitemaps_total_witness :
  discover example_net 2 "a.com/docs" 50 50 ≠ Unfinished ∧
  ∀ fuel', 2 ≤ fuel' →
    discover example_net fuel' "a.com/docs" 50 50 = discover example_net 2 "a.com/docs" 50 50.
Proof.
  apply (discover_via_sitemaps_total (H:=example_urllib) (H0:=ListSet) (H1:=example_net)
           example_rank 2 "a.com/docs" 50 50 example_rank_decreases).
  intros base sm _ _. rewrite /example_rank. case_decide; lia.
Defined.

Lemma discover_via_sitemaps_loop_witness :
  discover looping_net 1000 "b.com" 50 50 = Unfinished.
Proof.
  apply (discover_via_sitemaps_loop (H:=example_urllib) (H0:=ListSet) (H1:=looping_net)
           (λ u, u = "https://b.com/sitemap.xml") "b.com" "https://b.com"
           "https://b.com/sitemap.xml" []); [|by vm_compute..|done].
  intros u ->. by exists "https://b.com/sitemap.xml", [].
Defined.

End Sitemap.
