(* ===== verification/Runner.v ===== *)
(** * The runner (src/backend/run.py)

    [main] resolves the name of a script to a file of the backend
    directory and runs it in a child process; its value is the exit status
    of the runner.  What it only calls is the interface [Os]: whether a
    file exists and what the child process does. *)

From Stdlib Require Import Ascii.
From stdpp Require Import list strings.
From S2P Require Import Prelude PyString.

Local Open Scope crawl_scope.

(** What [subprocess.run(..., check=True)] does: the child ends with a
    return code, or the user interrupts the runner. *)
Inductive Child :=
  | Completed (returncode : Z)
  | KeyboardInterrupt.

Class Os := {
  (** [Path(script_path).exists()]. *)
  path_exists : string → bool;
  (** [subprocess.run([sys.executable, script_path] + args)]. *)
  subprocess_run : string → list string → Child;
}.

Definition script_map : list (string * string) :=
  [("api", "api.py");
   ("parsing-worker", "workers/parsing_worker.py");
   ("parser-generation-worker", "workers/parser_generation_worker.py");
   ("evaluation", "evaluation.py");
   ("test_sample_urls", "test_sample_urls.py");
   ("test_paths", "test_paths.py")].

(** [script_map[script_name]]. *)
Definition script_map_get (script_name : string) : option string :=
  snd <$> head (filter (λ entry, entry.1 = script_name) script_map).

Definition script_path (script_name : string) : string :=
  match script_map_get script_name with
  | Some path => path
  | None => if Py.endswith script_name ".py" then script_name else script_name +:+ ".py"
  end.

(** [main()]: the exit status, 0 when [main] returns. *)
Definition main `{Os} (argv : list string) : Z :=
  match argv with
  | [] | [_] => 1
  | _ :: script_name :: args =>
      if path_exists (script_path script_name) then
        match subprocess_run (script_path script_name) args with
        | Completed returncode => if decide (returncode = 0%Z) then 0 else returncode
        | KeyboardInterrupt => 1
        end
      else 1
  end%Z.

(** The files of the backend that the names of the map stand for. *)
Definition backend_files : list string :=
  ["api.py"; "clean_html.py"; "data_models.py"; "db.py"; "discovery.py"; "evaluation.py";
   "load_html.py"; "metrics_collector.py"; "parser.py"; "paths.py"; "redis_queue.py";
   "redis_utils.py"; "run.py"; "workers/parsing_worker.py";
   "workers/parser_generation_worker.py"].

Lemma script_map_get_Some script_name path :
  script_map_get script_name = Some path ↔ (script_name, path) ∈ script_map.
Proof.
  split.
  - rewrite /script_map_get. destruct (head _) as [[name path']|] eqn:E; [|done].
    intros [= <-]. by apply head_Some_elem_of, list_elem_of_filter in E as [<- ?].
  - intros Hin. rewrite /script_map in Hin.
    repeat (apply elem_of_cons in Hin as [[= -> ->]|Hin]; [done|]). by apply elem_of_nil in Hin.
Qed.

Lemma script_map_py script_name path :
  (script_name, path) ∈ script_map → Py.endswith path ".py" = true.
Proof.
  assert (Forall (λ entry, Py.endswith entry.2 ".py" = true) script_map) as Hall
    by (by apply (bool_decide_unpack _); vm_compute).
  intros Hin. by apply (proj1 (Forall_forall _ _) Hall _ Hin).
Qed.

(** The file that [script_path] resolves a name to always ends in
    [.py]; a name of the map goes to its file, a name that ends in [.py]
    to itself, and any other name to the name with [.py] appended. *)
Theorem script_path_spec script_name :
  Py.endswith (script_path script_name) ".py" = true ∧
  (script_map_get script_name = None →
   script_path script_name =
   if Py.endswith script_name ".py" then script_name else script_name +:+ ".py") ∧
  (∀ path, (script_name, path) ∈ script_map → script_path script_name = path).
Proof.
  split_and!.
  - rewrite /script_path. destruct (script_map_get script_name) as [path|] eqn:E.
    + by eapply script_map_py, script_map_get_Some.
    + destruct (Py.endswith script_name ".py") eqn:E'; [done|apply Py.endswith_app].
  - rewrite /script_path. by intros ->.
  - intros path Hin%script_map_get_Some. by rewrite /script_path Hin.
Qed.

(** [main] exits with 0 exactly when it is given a script that exists
    and whose process returns 0; a process that fails passes its return
    code on, and every other failure exits with 1. *)
Theorem main_spec `{Os} argv :
  (main argv = 0%Z ↔
   ∃ program script_name args,
     argv = program :: script_name :: args ∧
     path_exists (script_path script_name) = true ∧
     subprocess_run (script_path script_name) args = Completed 0) ∧
  (∀ program script_name args returncode,
     argv = program :: script_name :: args →
     path_exists (script_path script_name) = true →
     subprocess_run (script_path script_name) args = Completed returncode →
     main argv = returncode).
Proof.
  split; [split|].
  - destruct argv as [|program [|script_name args]]; simpl; [done..|].
    destruct (path_exists _) eqn:Hex; [|done].
    destruct (subprocess_run _ _) as [returncode|] eqn:Hrun; [|done].
    case_decide as Hrc; [|done]. subst. intros _. by exists program, script_name, args.
  - intros (program & script_name & args & -> & Hex & Hrun). by rewrite /= Hex Hrun.
  - intros program script_name args returncode -> Hex Hrun. rewrite /= Hex Hrun.
    by case_decide.
Qed.

(** ** A small machine *)

(** Only the files of the repository exist; every process returns 3. *)
Definition example_os : Os := {|
  path_exists path := bool_decide (path ∈ backend_files);
  subprocess_run _ _ := Completed 3;
|}.

(** Two of the names that the usage message lists stand for files that the
    backend directory does not have. *)
Example script_map_missing :
  filter (λ entry, entry.2 ∉ backend_files) script_map =
  [("test_sample_urls", "test_sample_urls.py"); ("test_paths", "test_paths.py")] ∧
  main (H:=example_os) ["run.py"; "test_paths"] = 1%Z ∧
  main (H:=example_os) ["run.py"; "evaluation"; "eval"] = 3%Z ∧
  main (H:=example_os) ["run.py"] = 1%Z.
Proof. vm_compute. split_and!; reflexivity. Qed.
