(* ===== verification/System.v ===== *)
(** * The two workers, the operator and the evaluation over one store

    The crawl worker ([Frontier]), the generation worker ([GenWorker]),
    the handlers of the API that write ([Api], src/backend/api.py) and the
    command [eval] of the evaluation script ([Evaluation],
    src/backend/evaluation.py) act on the same Redis state, one call at a
    time.  [step] is one such action: a turn of either worker, the start
    of the application, one call of a handler, or one run of the
    evaluation.  The states of the system are the states reachable by
    [step]s; the invariant [inv] holds in all of them.

    [scenario] runs the life of one page in a small world: the application
    starts and chooses its configuration, the operator queues the page, the
    crawl worker records it as a sample and re-queues it, the generation
    worker generates a recipe for its prefix, and the crawl worker parses
    the page on its next visit. *)

From Stdlib Require Import Ascii.
From stdpp Require Import gmap relations.
From S2P Require Import Prelude PyString DataModels Store Queue Url Frontier GenWorker Synthesizer.
From S2P Require Import Evaluation Api.

(** The store is well formed, the queues are well typed, and no prefix
    has more than 20 rows. *)
Definition inv (R : Redis) : Prop := wf R ∧ wf_queues R ∧ cap_inv R.

Section system.
Context `{Env} `{Synth} `{Web} `{Evals}.
Implicit Types R : Redis.

Inductive step : Redis → Redis → Prop :=
  | step_crawl clock R :
      step R (run_iteration clock R).2
  | step_generate R :
      step R (job_iteration R).2
  | step_lifespan R :
      step R (lifespan R)
  | step_delete_evaluation_run id R :
      step R (delete_evaluation_run id R).2
  | step_clear_evaluation_runs R :
      step R (clear_evaluation_runs R).2
  | step_clear_model_data model_name R :
      step R (clear_model_data model_name R).2
  | step_set_production_config config_name R :
      step R (set_production_config_route config_name R).2
  | step_set_system_state state R :
      step R (set_system_state_route state R).2
  | step_add_urlprefix request R :
      step R (add_urlprefix_to_queue request R).2
  | step_add_urlqueueitem request now R :
      step R (add_urlqueueitem_to_queue request now R).2
  | step_delete_urlprefix prefix_id R :
      step R (delete_urlprefix prefix_id R).2
  | step_delete_url url_id R :
      step R (delete_url url_id R).2
  | step_eval configs domains now R R' :
      eval_command configs domains now R = Ok R' → step R R'.

(** ** The invariant under the calls *)

Lemma inv_fewer_models R R' : fewer_models R R' → inv R → inv R'.
Proof.
  intros [Hsub Hq] (Hwf & Hwfq & Hcap).
  split_and!; [by eapply wf_subseteq|by eapply wf_queues_queues|by eapply cap_inv_subseteq].
Qed.

Lemma inv_singletons R R' : models R' = models R → queues R' = queues R → inv R → inv R'.
Proof.
  intros Hm Hq (Hwf & Hwfq & Hcap).
  split_and!; [by eapply wf_models|by eapply wf_queues_queues|by eapply cap_inv_models].
Qed.

Lemma inv_lifespan R : inv R → inv (lifespan R).
Proof. apply inv_singletons; rewrite /lifespan; by repeat case_match. Qed.

Lemma inv_set_production_config_route config_name R :
  inv R → inv (set_production_config_route config_name R).2.
Proof. apply inv_singletons; rewrite /set_production_config_route; by case_decide. Qed.

Lemma inv_set_system_state_route state R : inv R → inv (set_system_state_route state R).2.
Proof.
  apply inv_singletons; rewrite /set_system_state_route /set_system_state; by case_decide.
Qed.

Lemma inv_add_urlprefix_to_queue request R : inv R → inv (add_urlprefix_to_queue request R).2.
Proof.
  intros (Hwf & Hwfq & Hcap). rewrite /add_urlprefix_to_queue.
  destruct (mapM _ _) as [sample_urls|]; [|done].
  set (url_prefix := URLPrefix.make _ _).
  pose proof (wf_queues_add_prefix url_prefix R Hwfq) as Hwfq'.
  change (add_to_queue url_prefix None R) with
    (add_to_queue url_prefix (Some "queue:urlprefix") R) in Hwfq'.
  assert (inv (add_to_queue url_prefix (Some "queue:urlprefix") R).2) as Hinv
    by (split_and!; [by apply (wf_models R)|done|by apply (cap_inv_models R)]).
  by destruct (add_to_queue url_prefix _ R) as [[] R'].
Qed.

Lemma inv_add_urlqueueitem_to_queue request now R :
  inv R → inv (add_urlqueueitem_to_queue request now R).2.
Proof.
  intros (Hwf & Hwfq & Hcap). rewrite /add_urlqueueitem_to_queue.
  set (url_queue_item := URLQueueItem.make _ _ _).
  pose proof (wf_queues_add_item url_queue_item R Hwfq) as Hwfq'.
  assert (inv (add_to_queue url_queue_item None R).2) as Hinv
    by (split_and!; [by apply (wf_models R)|done|by apply (cap_inv_models R)]).
  by destruct (add_to_queue url_queue_item _ R) as [[] R'].
Qed.

Lemma inv_eval_command configs domains now R R' :
  eval_command configs domains now R = Ok R' → inv R → inv R'.
Proof.
  rewrite /eval_command. destruct (mapM _ _) as [evaluation_results|]; [|done].
  destruct (last configs); [|done]. intros [= <-] (Hwf & Hwfq & Hcap).
  split_and!; [by apply wf_save|by apply wf_queues_save|by apply cap_inv_save_other].
Qed.

Lemma inv_job_iteration R : inv R → inv (job_iteration R).2.
Proof.
  intros (Hwf & Hq & Hcap).
  destruct (job_iteration_invariant R) as [Hwf' Hq']; [done|]. split_and!; [done..|].
  intros prefix. rewrite (length_find_urls_with_prefix_ext prefix R) //.
  intros id. by apply job_iteration_load_URL.
Qed.

Lemma step_inv R R' : step R R' → inv R → inv R'.
Proof.
  destruct 1; intros Hinv.
  - by apply run_iteration_invariant.
  - by apply inv_job_iteration.
  - by apply inv_lifespan.
  - by eapply inv_fewer_models, Hinv; apply delete_evaluation_run_fewer_models.
  - by eapply inv_fewer_models, Hinv; apply clear_evaluation_runs_fewer_models.
  - by eapply inv_fewer_models, Hinv; apply clear_model_data_fewer_models.
  - by apply inv_set_production_config_route.
  - by apply inv_set_system_state_route.
  - by apply inv_add_urlprefix_to_queue.
  - by apply inv_add_urlqueueitem_to_queue.
  - by eapply inv_fewer_models, Hinv; apply delete_urlprefix_fewer_models.
  - by eapply inv_fewer_models, Hinv; apply delete_url_fewer_models.
  - by eapply inv_eval_command.
Qed.

(** C24: every state that the two workers, the operator and the evaluation
    reach from a state that satisfies the invariant satisfies it: the store
    stays well formed, the queues well typed, and no prefix gets more than
    20 rows, in whatever order the turns, the calls of the handlers and the
    evaluations come. *)
Theorem reachable_inv R R' : rtc step R R' → inv R → inv R'.
Proof. induction 1 as [|R R1 R' Hstep _ IH]; [done|]. intros Hinv. by eapply IH, step_inv. Qed.

End system.

Lemma inv_empty : inv empty_redis.
Proof. split_and!; [apply wf_empty|apply wf_queues_empty|apply cap_inv_empty]. Qed.

(** ** The life of one page *)

Definition scenario_env : Env := {|
  env_urllib := SimpleUrl (λ html, Ok (Py.split " "%char html));
  env_extractor := example_extractor;
  load_raw_html := λ _, Ok "next.html /guide/b.html";
|}.

Definition scenario_synth : Synth :=
  @generator_synth ListSet example_extractor (example_provider 2).

(** The request of the operator for the first page. *)
Definition guide_request : AddURLQueueItemRequest.t :=
  AddURLQueueItemRequest.make "https://a.com/guide/start.html" (Some 100%Z) 0.

Definition scenario_start : Redis :=
  (add_urlqueueitem_to_queue guide_request 0 (lifespan (H1:=example_web) empty_redis)).2.

(** The first visit, the generation, the second visit half an hour later. *)
Definition scenario : Redis :=
  let R1 := (run_iteration (H:=scenario_env) example_clock scenario_start).2 in
  let R2 := (job_iteration (H:=scenario_synth) R1).2 in
  (run_iteration (H:=scenario_env) (λ n, 2800 + Z.of_nat n)%Z R2).2.

Lemma scenario_reachable :
  rtc (step (H:=scenario_env) (H0:=scenario_synth) (H1:=example_web) (H2:=example_evals))
      empty_redis scenario.
Proof.
  eapply rtc_l; [apply step_lifespan|].
  eapply rtc_l; [apply (step_add_urlqueueitem guide_request 0)|].
  eapply rtc_l; [apply (step_crawl example_clock)|].
  eapply rtc_l; [apply step_generate|].
  eapply rtc_l; [apply (step_crawl (λ n, 2800 + Z.of_nat n)%Z)|]. done.
Qed.

Lemma reachable_inv_witness : inv scenario.
Proof.
  apply (reachable_inv (H:=scenario_env) (H0:=scenario_synth) (H1:=example_web)
           (H2:=example_evals) empty_redis scenario);
    [apply scenario_reachable|apply inv_empty].
Defined.

(** The page is parsed on its second visit with the generated recipe, and
    its two links below the prefix wait in the queue behind nothing. *)
Example scenario_parsed :
  URL.parsed_content <$> load URL.t "https://a.com/guide/start.html" scenario = Some (Some "text") ∧
  URLPrefix.processing_status <$> load URLPrefix.t "https://a.com/guide" scenario =
    Some (Some "completed") ∧
  (URL.url ∘ URLQueueItem.url <$> omap (parse URLQueueItem.t) (absq item_queue scenario)) =
    ["https://a.com/guide/next.html"; "https://a.com/guide/b.html"].
Proof. by vm_compute. Qed.
