(* ===== verification/Interleave.v ===== *)
(** * The workers side by side, one store call at a time
    (src/backend/workers/parsing_worker.py, lines 178-406, and
    src/backend/workers/parser_generation_worker.py, lines 25-169)

    The store has no transactions: between two calls of db.py or
    redis_queue.py that a worker makes, another worker can make its own.
    Here each worker is a machine whose state is the place it has reached
    in its loop together with the local variables that are live there
    ([Crawl] for the parsing worker, [Gen] for the generation worker), and
    whose step ([crawl_step], [gen_step]) runs the code up to and including
    the next call on the store.  A fetch, an extraction or a call of the
    synthesizer does not touch the store and belongs to the step of the
    store call that follows it.

    A [Config] is a pool of such threads over one store.  [act] runs one
    step of one thread, or lets one worker process die and start again at
    the top of its loop with its local variables lost ([Crash]); [exec]
    runs a schedule; [pool_step] is the relation of one action.  The
    handlers of the API are not threads of the pool; the file [Requests]
    adds them.

    The theorems:
    - a thread that runs alone through one turn of its loop does what the
      handlers of Frontier and GenWorker do in one piece
      ([alone_refines]), and a schedule that runs the threads turn by turn
      is a run of [System.step] and keeps its invariant
      ([serial_refines]);
    - every action keeps the store and the queues well formed, and with
      [W] parsing workers a prefix never has more than
      [url_limit + (W - 1)] rows ([pool_cap_bound]); two workers do reach
      21 ([cap_overshoot]);
    - an item that was taken from the queue is lost when its worker dies
      ([crash_loses_item]);
    - a prefix whose generation worker died after marking it in progress
      stays in progress whatever the workers do afterwards
      ([crash_in_progress_forever], [guide_never_generated]);
    - two parsing workers that record samples of one prefix at the same
      time lose one of the samples ([samples_lost]).

    A call of db.py or redis_queue.py is one step, although
    [find_prefix_for_url] and [scan] make several calls of the Redis
    client: the interleavings inside one call are not modelled.  The turn
    of a parsing worker has six steps and two for every link of the page,
    or eight when it records a sample; the fuel of [crawl_turn] is shown to
    be enough.  The turn of a generation worker has at most seven steps. *)

From Stdlib Require Import Ascii.
From stdpp Require Import gmap.
From stdpp Require Import relations.
From S2P Require Import Prelude PyString DataModels Store Queue Url Frontier GenWorker.
From S2P Require Import Evaluation Api System.

(** ** The parsing worker *)

(** The places of the loop where the next thing to happen is a call on the
    store, with the local variables that are live there. *)
Inductive Crawl :=
  | CrawlTop
  | CrawlRunning
  | CrawlTaken (queue_item : URLQueueItem.t)
  | CrawlFound (queue_item : URLQueueItem.t) (url_prefix : URLPrefix.t)
  | CrawlCounted (queue_item : URLQueueItem.t) (url_prefix : URLPrefix.t)
      (parser_config : ParserConfig.t)
  | CrawlParsed (queue_item : URLQueueItem.t) (url_prefix : URLPrefix.t)
      (raw_content parsed_content : string)
  | CrawlLinks (queue_item : URLQueueItem.t) (url_prefix : URLPrefix.t)
      (parsed_content link_url : string) (links : list string) (n added_to_queue : nat)
  | CrawlPush (queue_item : URLQueueItem.t) (url_prefix : URLPrefix.t)
      (parsed_content link_url : string) (links : list string) (n added_to_queue : nat)
  | CrawlCreate (queue_item : URLQueueItem.t)
  | CrawlLoaded (queue_item : URLQueueItem.t) (prefix_obj : URLPrefix.t)
  | CrawlSaved (queue_item : URLQueueItem.t) (prefix_obj : URLPrefix.t)
  | CrawlRequeue (queue_item : URLQueueItem.t).

#[export] Instance Crawl_eq_dec : EqDecision Crawl.
Proof. solve_decision. Defined.

(** The head of the loop over the links (line 260): the next link, or the
    [return] of line 289 when there is none. *)
Definition links_next (queue_item : URLQueueItem.t) (url_prefix : URLPrefix.t)
    (parsed_content : string) (links : list string) (n added_to_queue : nat)
    : Crawl * option Turn :=
  match links with
  | [] =>
      (CrawlTop,
       Some (Processed queue_item
               (Success (URL.url (URLQueueItem.url queue_item)) parsed_content
                        (URLPrefix.prefix url_prefix) added_to_queue)))
  | link_url :: links =>
      (CrawlLinks queue_item url_prefix parsed_content link_url links n added_to_queue, None)
  end.

Section crawl.
Context `{Env}.
Implicit Types R : Redis.
Implicit Types clock : nat → Z.

(** One step of a parsing worker: the code from the place [c] up to and
    including the next call on the store.  The turn of the loop that the
    step completes, when it completes one, is returned with the next
    place. *)
Definition crawl_step clock (c : Crawl) R : Crawl * option Turn * Redis :=
  match c with
  | CrawlTop =>
      (* line 364 *)
      if negb (is_system_running R) then (CrawlTop, Some Paused, R)
      else (CrawlRunning, None, R)
  | CrawlRunning =>
      (* line 370 *)
      match get_from_queue URLQueueItem.t None R with
      | (None, R) => (CrawlTop, Some Idle, R)
      | (Some queue_item, R) => (CrawlTaken queue_item, None, R)
      end
  | CrawlTaken queue_item =>
      (* lines 184-196 *)
      let url := URL.url (URLQueueItem.url queue_item) in
      let current_time := clock 0 in
      if decide (current_time < URLQueueItem.process_from_unix_timestamp queue_item)%Z
      then (CrawlTop, Some (Processed queue_item (Deferred url)),
            (add_to_queue queue_item None R).2)
      else
        match find_prefix_for_url url R with
        | Some url_prefix => (CrawlFound queue_item url_prefix, None, R)
        | None => (CrawlCreate queue_item, None, R)
        end
  | CrawlFound queue_item url_prefix =>
      (* lines 199-213 *)
      let url := URL.url (URLQueueItem.url queue_item) in
      let url_count := length (find_urls_with_prefix (URLPrefix.prefix url_prefix) R) in
      if decide (url_limit ≤ url_count)
      then (CrawlTop,
            Some (Processed queue_item (Dropped url (URLPrefix.prefix url_prefix) url_count)), R)
      else
        match URLPrefix.parser_config url_prefix with
        | Some parser_config => (CrawlCounted queue_item url_prefix parser_config, None, R)
        | None => (CrawlCreate queue_item, None, R)
        end
  | CrawlCounted queue_item url_prefix parser_config =>
      (* lines 217-250 *)
      let url := URL.url (URLQueueItem.url queue_item) in
      if already_parsed url R then (CrawlTop, Some (Processed queue_item (Skipped url)), R) else
      match load_raw_html url with
      | Err e =>
          (CrawlTop, Some (Processed queue_item (Error url ("Failed to load HTML: " +:+ e))), R)
      | Ok raw_content =>
          match parse_content parser_config raw_content with
          | Err e =>
              (CrawlTop,
               Some (Processed queue_item (Error url ("Failed to parse content: " +:+ e))), R)
          | Ok parsed_content =>
              (CrawlParsed queue_item url_prefix raw_content parsed_content, None, R)
          end
      end
  | CrawlParsed queue_item url_prefix raw_content parsed_content =>
      (* lines 253-260 *)
      let url := URL.url (URLQueueItem.url queue_item) in
      let prefix := URLPrefix.prefix url_prefix in
      let R := save (URL.mk url (Some prefix) (Some raw_content) (Some parsed_content)) R in
      let links_with_prefix := extract_links_from_html raw_content url prefix in
      (links_next queue_item url_prefix parsed_content links_with_prefix 1 0, R)
  | CrawlLinks queue_item url_prefix parsed_content link_url links n added_to_queue =>
      (* lines 262-264 *)
      if already_parsed link_url R
      then (links_next queue_item url_prefix parsed_content links n added_to_queue, R)
      else (CrawlPush queue_item url_prefix parsed_content link_url links n added_to_queue,
            None, R)
  | CrawlPush queue_item url_prefix parsed_content link_url links n added_to_queue =>
      (* lines 267-279 *)
      let url_obj := URL.make link_url (Some (URLPrefix.prefix url_prefix)) in
      let url_queue_item := URLQueueItem.make url_obj (clock n) 0 in
      let '(ok, R) := add_to_queue url_queue_item None R in
      (links_next queue_item url_prefix parsed_content links (S n)
         (if ok then S added_to_queue else added_to_queue), R)
  | CrawlCreate queue_item =>
      (* lines 301-320 *)
      let url := URL.url (URLQueueItem.url queue_item) in
      let deepest_prefix := get_deepest_prefix url in
      match load_raw_html url with
      | Err e =>
          (CrawlTop,
           Some (Processed queue_item (Error url ("Failed to create URLPrefix: " +:+ e))), R)
      | Ok raw_content =>
          let sample_url := SampleURL.make url raw_content in
          let prefix_obj :=
            match load URLPrefix.t deepest_prefix R with
            | Some existing_prefix => URLPrefix.append_sample sample_url existing_prefix
            | None => URLPrefix.make deepest_prefix [sample_url]
            end in
          (CrawlLoaded queue_item prefix_obj, None, R)
      end
  | CrawlLoaded queue_item prefix_obj =>
      (* lines 313 and 321 *)
      (CrawlSaved queue_item prefix_obj, None, save prefix_obj R)
  | CrawlSaved queue_item prefix_obj =>
      (* line 325 *)
      (CrawlRequeue queue_item, None, (add_to_queue prefix_obj None R).2)
  | CrawlRequeue queue_item =>
      (* lines 336-347 *)
      let url := URL.url (URLQueueItem.url queue_item) in
      let next_process_time := (clock 1%nat + 30)%Z in
      let times_queued := (URLQueueItem.times_queued queue_item + 1)%Z in
      let queue_item' :=
        URLQueueItem.make (URLQueueItem.url queue_item) next_process_time times_queued in
      (CrawlTop, Some (Processed queue_item (Requeued url next_process_time times_queued)),
       (add_to_queue queue_item' None R).2)
  end.

(** The steps of one thread that runs alone, up to the end of the turn. *)
Fixpoint crawl_turn (fuel : nat) clock (c : Crawl) R : option (Turn * Redis) :=
  match fuel with
  | O => None
  | S fuel =>
      match crawl_step clock c R with
      | (_, Some turn, R) => Some (turn, R)
      | (c, None, R) => crawl_turn fuel clock c R
      end
  end.

End crawl.

(** ** The generation worker *)

Inductive Gen :=
  | GenTop
  | GenRunning
  | GenTaken (job : URLPrefix.t)
  | GenReset (job existing_prefix : URLPrefix.t)
  | GenMark (job url_prefix : URLPrefix.t)
  | GenMarked (job url_prefix : URLPrefix.t)
  | GenGenerated (job url_prefix updated_url_prefix : URLPrefix.t)
  | GenFailed (job url_prefix : URLPrefix.t) (e : string).

#[export] Instance Gen_eq_dec : EqDecision Gen.
Proof. solve_decision. Defined.

Section gen.
Context `{Synth}.
Implicit Types R : Redis.

(** One step of a generation worker. *)
Definition gen_step (g : Gen) R : Gen * option JobTurn * Redis :=
  match g with
  | GenTop =>
      (* line 137 *)
      if negb (is_system_running R) then (GenTop, Some JobPaused, R)
      else (GenRunning, None, R)
  | GenRunning =>
      (* line 143 *)
      match get_from_queue URLPrefix.t None R with
      | (None, R) => (GenTop, Some JobIdle, R)
      | (Some job, R) => (GenTaken job, None, R)
      end
  | GenTaken job =>
      (* lines 73-91 *)
      match load URLPrefix.t (URLPrefix.prefix job) R with
      | Some existing_prefix =>
          if decide (URLPrefix.processing_status existing_prefix = Some "in_progress")
          then (GenTop, Some (JobProcessed job (JobSkipped (URLPrefix.prefix job))), R)
          else if decide (URLPrefix.processing_status existing_prefix = Some "failed")
          then (GenReset job existing_prefix, None, R)
          else (GenMark job job, None, R)
      | None => (GenMark job job, None, R)
      end
  | GenReset job existing_prefix =>
      (* lines 36-37 *)
      let '(existing_prefix, R) := reset_failed_url_prefix existing_prefix R in
      (GenMark job existing_prefix, None, R)
  | GenMark job url_prefix =>
      (* lines 94-95 *)
      let url_prefix := URLPrefix.with_status (Some "in_progress") url_prefix in
      (GenMarked job url_prefix, None, save url_prefix R)
  | GenMarked job url_prefix =>
      (* lines 99 and 27-60 *)
      match generate_parser_for_url_prefix url_prefix R with
      | Ok updated_url_prefix => (GenGenerated job url_prefix updated_url_prefix, None, R)
      | Err e => (GenFailed job url_prefix e, None, R)
      end
  | GenGenerated job url_prefix updated_url_prefix =>
      (* lines 102-111 *)
      let updated_url_prefix := URLPrefix.with_status (Some "completed") updated_url_prefix in
      (GenTop,
       Some (JobProcessed job
               (JobSuccess (URLPrefix.prefix url_prefix)
                           (URLPrefix.parser_config updated_url_prefix))),
       save updated_url_prefix R)
  | GenFailed job url_prefix e =>
      (* lines 118-128 *)
      let url_prefix := URLPrefix.with_status (Some "failed") url_prefix in
      (GenTop, Some (JobProcessed job (JobError (URLPrefix.prefix url_prefix) e)),
       save url_prefix R)
  end.

Fixpoint gen_turn (fuel : nat) (g : Gen) R : option (JobTurn * Redis) :=
  match fuel with
  | O => None
  | S fuel =>
      match gen_step g R with
      | (_, Some turn, R) => Some (turn, R)
      | (g, None, R) => gen_turn fuel g R
      end
  end.

End gen.

(** ** The pool *)

Inductive Thread :=
  | Crawler (c : Crawl)
  | Generator (g : Gen).

#[export] Instance Thread_eq_dec : EqDecision Thread.
Proof. solve_decision. Defined.

Record Config := mkConfig {
  threads : list Thread;
  store : Redis;
}.

(** What the scheduler can do: let the thread [tid] make its next step
    (a parsing worker reads the clock [clock] in it), or kill the process
    of the thread [tid], which starts again. *)
Inductive Action :=
  | Step (tid : nat) (clock : nat → Z)
  | Crash (tid : nat).

Definition is_crawler (t : Thread) : bool :=
  match t with Crawler _ => true | Generator _ => false end.

(** A worker process that starts is at the top of its loop. *)
Definition restart (t : Thread) : Thread :=
  match t with
  | Crawler _ => Crawler CrawlTop
  | Generator _ => Generator GenTop
  end.

Section pool.
Context `{Env} `{Synth}.

Definition thread_step (clock : nat → Z) (t : Thread) (R : Redis) : Thread * Redis :=
  match t with
  | Crawler c => let '(c, _, R) := crawl_step clock c R in (Crawler c, R)
  | Generator g => let '(g, _, R) := gen_step g R in (Generator g, R)
  end.

(** The thread [tid] makes the move [f]; nothing happens when the pool has
    no such thread. *)
Definition on (tid : nat) (f : Thread → Redis → Thread * Redis) (σ : Config) : Config :=
  match threads σ !! tid with
  | Some t => let '(t, R) := f t (store σ) in mkConfig (<[tid:=t]> (threads σ)) R
  | None => σ
  end.

Definition move (a : Action) : Thread → Redis → Thread * Redis :=
  match a with
  | Step _ clock => thread_step clock
  | Crash _ => λ t R, (restart t, R)
  end.

Definition tid_of (a : Action) : nat :=
  match a with Step tid _ | Crash tid => tid end.

Definition act (a : Action) (σ : Config) : Config := on (tid_of a) (move a) σ.

Definition exec (schedule : list Action) (σ : Config) : Config :=
  foldl (λ σ a, act a σ) σ schedule.

Inductive pool_step : relation Config :=
  | pool_act a σ : pool_step σ (act a σ).

End pool.

(** ** A thread that runs alone *)

Section alone.
Context `{Env} `{Synth}.
Implicit Types R : Redis.
Implicit Types clock : nat → Z.

(** The turn in which a handler ended with [p]. *)
Definition processed (queue_item : URLQueueItem.t) (p : ItemResult * Redis) : Turn * Redis :=
  (Processed queue_item p.1, p.2).

Definition job_processed (job : URLPrefix.t) (p : JobResult * Redis) : JobTurn * Redis :=
  (JobProcessed job p.1, p.2).

(** What is left of a turn after a step. *)
Definition crawl_rest clock (next : Crawl * option Turn * Redis) (fuel : nat)
    : option (Turn * Redis) :=
  match next with
  | (_, Some turn, R) => Some (turn, R)
  | (c, None, R) => crawl_turn fuel clock c R
  end.

Lemma crawl_turn_S fuel clock c R :
  crawl_turn (S fuel) clock c R = crawl_rest clock (crawl_step clock c R) fuel.
Proof. simpl. by destruct (crawl_step clock c R) as [[? []] ?]. Qed.

Lemma crawl_turn_mono fuel fuel' clock c R r :
  crawl_turn fuel clock c R = Some r → fuel ≤ fuel' → crawl_turn fuel' clock c R = Some r.
Proof.
  revert fuel' c R. induction fuel as [|fuel IH]; intros [|fuel'] c R; [done|done|lia|].
  rewrite !crawl_turn_S. destruct (crawl_step clock c R) as [[c' [turn|]] R']; [done|].
  simpl. intros ? ?. apply IH; [done|lia].
Qed.

(** A step that does not end the turn costs one unit of fuel. *)
Lemma crawl_turn_step clock c R c' R' r :
  crawl_step clock c R = (c', None, R') →
  (∃ n, crawl_turn n clock c' R' = Some r) → ∃ n, crawl_turn n clock c R = Some r.
Proof. intros E [n Hn]. exists (S n). by rewrite crawl_turn_S E. Qed.

Lemma crawl_turn_done clock c R c' turn R' :
  crawl_step clock c R = (c', Some turn, R') → ∃ n, crawl_turn n clock c R = Some (turn, R').
Proof. intros E. exists 1. by rewrite crawl_turn_S E. Qed.

Lemma crawl_rest_mono fuel fuel' clock next r :
  crawl_rest clock next fuel = Some r → fuel ≤ fuel' → crawl_rest clock next fuel' = Some r.
Proof. destruct next as [[c [turn|]] R]; [done|]. apply crawl_turn_mono. Qed.

(** The loop over the links, link by link, is [enqueue_links]. *)
Lemma crawl_rest_links queue_item url_prefix parsed_content clock links n added R :
  crawl_rest clock (links_next queue_item url_prefix parsed_content links n added, R)
             (2 * length links) =
  Some (processed queue_item
          (let '(added, R) := enqueue_links links (URLPrefix.prefix url_prefix) clock n added R in
           (Success (URL.url (URLQueueItem.url queue_item)) parsed_content
                    (URLPrefix.prefix url_prefix) added, R))).
Proof.
  revert n added R. induction links as [|link_url links IH]; intros n added R; [done|].
  replace (2 * length (link_url :: links)) with (S (S (2 * length links))) by (simpl; lia).
  cbn [links_next crawl_rest enqueue_links]. rewrite crawl_turn_S. cbn [crawl_step].
  destruct (already_parsed link_url R).
  { apply (crawl_rest_mono (2 * length links)); [apply IH|lia]. }
  cbn [crawl_rest]. rewrite crawl_turn_S. cbn [crawl_step].
  destruct (add_to_queue _ None R) as [ok R']. apply IH.
Qed.

Lemma crawl_turn_counted queue_item url_prefix parser_config clock R :
  ∃ n, crawl_turn n clock (CrawlCounted queue_item url_prefix parser_config) R =
       Some (processed queue_item (process_with_parser queue_item url_prefix parser_config clock R)).
Proof.
  rewrite /process_with_parser.
  destruct (already_parsed _ R) eqn:Hp; [by eapply crawl_turn_done; rewrite /= Hp|].
  destruct (load_raw_html _) as [raw_content|e] eqn:Hl;
    [|by eapply crawl_turn_done; rewrite /= Hp Hl].
  destruct (parse_content parser_config raw_content) as [parsed_content|e] eqn:Hc;
    [|by eapply crawl_turn_done; rewrite /= Hp Hl Hc].
  eapply crawl_turn_step; [by rewrite /= Hp Hl Hc|].
  exists (S (2 * length (extract_links_from_html raw_content
                           (URL.url (URLQueueItem.url queue_item)) (URLPrefix.prefix url_prefix)))).
  rewrite crawl_turn_S. cbn [crawl_step]. rewrite crawl_rest_links.
  by destruct (enqueue_links _ _ _ _ _ _).
Qed.

Lemma crawl_turn_create queue_item clock R :
  ∃ n, crawl_turn n clock (CrawlCreate queue_item) R =
       Some (processed queue_item (create_url_prefix queue_item clock R)).
Proof.
  rewrite /create_url_prefix.
  destruct (load_raw_html _) as [raw_content|e] eqn:Hl;
    [|by eapply crawl_turn_done; rewrite /= Hl].
  exists 4. by rewrite /= Hl.
Qed.

Lemma crawl_turn_taken queue_item clock R :
  ∃ n, crawl_turn n clock (CrawlTaken queue_item) R =
       Some (processed queue_item (process_url_queue_item queue_item clock R)).
Proof.
  rewrite /process_url_queue_item. case_decide as Hdue.
  { eapply crawl_turn_done. by rewrite /= decide_True. }
  destruct (find_prefix_for_url _ R) as [url_prefix|] eqn:Hf; last first.
  { eapply crawl_turn_step; [by rewrite /= decide_False // Hf|]. apply crawl_turn_create. }
  eapply crawl_turn_step; [by rewrite /= decide_False // Hf|].
  case_decide as Hcap; [by eapply crawl_turn_done; rewrite /= decide_True|].
  destruct (URLPrefix.parser_config url_prefix) as [parser_config|] eqn:Hc.
  - eapply crawl_turn_step; [by rewrite /= decide_False // Hc|]. apply crawl_turn_counted.
  - eapply crawl_turn_step; [by rewrite /= decide_False // Hc|]. apply crawl_turn_create.
Qed.

Lemma crawl_turn_top clock R :
  ∃ n, crawl_turn n clock CrawlTop R = Some (run_iteration clock R).
Proof.
  rewrite /run_iteration. destruct (is_system_running R) eqn:Hr; simpl; last first.
  { eapply crawl_turn_done. by rewrite /= Hr. }
  eapply crawl_turn_step; [by rewrite /= Hr|].
  destruct (get_from_queue URLQueueItem.t None R) as [[queue_item|] R'] eqn:Hq.
  - eapply crawl_turn_step; [by rewrite /= Hq|].
    destruct (crawl_turn_taken queue_item clock R') as [n Hn]. exists n.
    rewrite Hn /processed. by destruct (process_url_queue_item _ _ _).
  - eapply crawl_turn_done. by rewrite /= Hq.
Qed.

(** The same for the generation worker, whose turn has at most seven steps. *)
Definition gen_rest (next : Gen * option JobTurn * Redis) (fuel : nat)
    : option (JobTurn * Redis) :=
  match next with
  | (_, Some turn, R) => Some (turn, R)
  | (g, None, R) => gen_turn fuel g R
  end.

Lemma gen_turn_S fuel g R : gen_turn (S fuel) g R = gen_rest (gen_step g R) fuel.
Proof. simpl. by destruct (gen_step g R) as [[? []] ?]. Qed.

Lemma gen_turn_mark n job url_prefix R :
  gen_turn (3 + n) (GenMark job url_prefix) R =
  Some (job_processed job (generate_and_save url_prefix R)).
Proof.
  rewrite /generate_and_save /=.
  by destruct (generate_parser_for_url_prefix _ _) as [updated|e].
Qed.

Lemma gen_turn_taken n job R :
  gen_turn (5 + n) (GenTaken job) R =
  Some (job_processed job (process_url_prefix_job job R)).
Proof.
  rewrite /process_url_prefix_job gen_turn_S. cbn [gen_step].
  destruct (load URLPrefix.t _ R) as [existing_prefix|]; [|apply (gen_turn_mark (1 + n))].
  repeat case_decide; [done| |apply (gen_turn_mark (1 + n))].
  cbn [gen_rest]. rewrite gen_turn_S. apply (gen_turn_mark n).
Qed.

Lemma gen_turn_top n R : gen_turn (7 + n) GenTop R = Some (job_iteration R).
Proof.
  rewrite /job_iteration gen_turn_S. cbn [gen_step].
  destruct (is_system_running R); [|done]. cbn [negb gen_rest]. rewrite gen_turn_S.
  cbn [gen_step]. destruct (get_from_queue URLPrefix.t None R) as [[job|] R']; [|done].
  cbn [gen_rest]. rewrite gen_turn_taken /job_processed.
  by destruct (process_url_prefix_job _ _).
Qed.

End alone.

(** ** What every action keeps *)

(** The store and the queues are well formed. *)
Definition sound (R : Redis) : Prop := wf R ∧ wf_queues R.

(** The rows of a prefix. *)
Definition rows (prefix : string) (R : Redis) : nat :=
  length (find_urls_with_prefix prefix R).

(** A parsing worker that has counted the rows of the prefix (line 202) and
    has not saved its own row (line 253) yet. *)
Definition pending (prefix : string) (t : Thread) : nat :=
  match t with
  | Crawler (CrawlCounted _ url_prefix _) | Crawler (CrawlParsed _ url_prefix _ _) =>
      if decide (URLPrefix.prefix url_prefix = prefix) then 1 else 0
  | _ => 0
  end.

Definition crawler (t : Thread) : nat := if is_crawler t then 1 else 0.

(** The number of parsing workers of a pool. *)
Definition crawlers (σ : Config) : nat := sum_list_with crawler (threads σ).

(** The bound on the rows of every prefix: the limit, and one more row for
    every parsing worker but one. *)
Definition cap_bound (σ : Config) : Prop :=
  ∀ prefix, rows prefix (store σ) + sum_list_with (pending prefix) (threads σ)
            ≤ url_limit + pred (crawlers σ).

Lemma sound_models_queue R R' :
  models R' = models R → wf_queues R' → sound R → sound R'.
Proof. intros E ? [? ?]. split; [by apply (wf_models R)|done]. Qed.

Lemma sound_save {A} `{Storable A} (m : A) R : sound R → sound (save m R).
Proof. intros [? ?]. split; [by apply wf_save|by apply wf_queues_save]. Qed.

Lemma sound_add_item (item : URLQueueItem.t) R : sound R → sound (add_to_queue item None R).2.
Proof.
  intros HR. apply (sound_models_queue R); [apply models_add_to_queue| |done].
  apply wf_queues_add_item, HR.
Qed.

Lemma sound_add_prefix (job : URLPrefix.t) R : sound R → sound (add_to_queue job None R).2.
Proof.
  intros HR. apply (sound_models_queue R); [apply models_add_to_queue| |done].
  apply wf_queues_add_prefix, HR.
Qed.

Lemma sound_get {A} `{Model A} R : sound R → sound (get_from_queue A None R).2.
Proof.
  intros HR. apply (sound_models_queue R); [apply models_get_from_queue| |done].
  apply wf_queues_get, HR.
Qed.

Lemma rows_models prefix R R' : models R' = models R → rows prefix R' = rows prefix R.
Proof. intros E. by rewrite /rows (find_urls_with_prefix_models _ R R' E). Qed.

Lemma rows_save_prefix prefix (p : URLPrefix.t) R :
  wf R → rows prefix (save p R) = rows prefix R.
Proof.
  intros Hwf. apply length_find_urls_with_prefix_ext; [done|by apply wf_save|].
  intros id. by apply load_save_other.
Qed.

Lemma rows_add_to_queue {A} `{Model A} prefix (m : A) R :
  rows prefix (add_to_queue m None R).2 = rows prefix R.
Proof. apply rows_models, models_add_to_queue. Qed.

Lemma rows_get_from_queue {A} `{Model A} prefix R :
  rows prefix (get_from_queue A None R).2 = rows prefix R.
Proof. apply rows_models, models_get_from_queue. Qed.

Lemma rows_save_row prefix (row : URL.t) R :
  wf R →
  rows prefix (save row R) ≤ rows prefix R + (if decide (URL.prefix row = Some prefix) then 1 else 0).
Proof. apply length_find_urls_with_prefix_save. Qed.

Lemma sound_save_row (row : URL.t) R : sound R → sound (save row R).
Proof. apply sound_save. Qed.

Lemma sound_save_prefix (p : URLPrefix.t) R : sound R → sound (save p R).
Proof. apply sound_save. Qed.

Lemma sound_get_item R : sound R → sound (get_from_queue URLQueueItem.t None R).2.
Proof. apply sound_get. Qed.

Lemma sound_get_prefix R : sound R → sound (get_from_queue URLPrefix.t None R).2.
Proof. apply sound_get. Qed.

#[export] Hint Resolve sound_save_row sound_save_prefix sound_add_item sound_add_prefix
  sound_get_item sound_get_prefix : crawl.

Section invariants.
Context `{Env} `{Synth}.
Implicit Types R : Redis.
Implicit Types clock : nat → Z.
Implicit Types σ : Config.

Lemma links_next_pending queue_item url_prefix parsed_content links n added prefix :
  pending prefix (Crawler (links_next queue_item url_prefix parsed_content links n added).1) = 0.
Proof. by destruct links. Qed.

(** What a step leaves in the store. *)
Definition crawl_effect clock (c : Crawl) R : Redis :=
  match c with
  | CrawlRunning => (get_from_queue URLQueueItem.t None R).2
  | CrawlTaken queue_item =>
      if decide (clock 0%nat < URLQueueItem.process_from_unix_timestamp queue_item)%Z
      then (add_to_queue queue_item None R).2 else R
  | CrawlParsed queue_item url_prefix raw_content parsed_content =>
      save (URL.mk (URL.url (URLQueueItem.url queue_item)) (Some (URLPrefix.prefix url_prefix))
                   (Some raw_content) (Some parsed_content)) R
  | CrawlPush _ url_prefix _ link_url _ n _ =>
      (add_to_queue
         (URLQueueItem.make (URL.make link_url (Some (URLPrefix.prefix url_prefix))) (clock n) 0)
         None R).2
  | CrawlLoaded _ prefix_obj => save prefix_obj R
  | CrawlSaved _ prefix_obj => (add_to_queue prefix_obj None R).2
  | CrawlRequeue queue_item => (add_to_queue (requeued queue_item clock) None R).2
  | _ => R
  end.

Definition gen_effect (g : Gen) R : Redis :=
  match g with
  | GenRunning => (get_from_queue URLPrefix.t None R).2
  | GenReset _ existing_prefix => save (URLPrefix.with_status None existing_prefix) R
  | GenMark _ url_prefix => save (URLPrefix.with_status (Some "in_progress") url_prefix) R
  | GenGenerated _ _ updated_url_prefix =>
      save (URLPrefix.with_status (Some "completed") updated_url_prefix) R
  | GenFailed _ url_prefix _ => save (failed url_prefix) R
  | _ => R
  end.

Lemma crawl_step_store clock c R : (crawl_step clock c R).2 = crawl_effect clock c R.
Proof.
  destruct c; cbn [crawl_step crawl_effect]; repeat case_match; simplify_eq/=; try done.
  all: try by destruct (get_from_queue URLQueueItem.t None R) as [[?|] ?]; simplify_eq/=.
Qed.

Lemma gen_step_store g R : (gen_step g R).2 = gen_effect g R.
Proof.
  destruct g; cbn [gen_step gen_effect reset_failed_url_prefix]; repeat case_match;
    simplify_eq/=; try done.
  all: try by destruct (get_from_queue URLPrefix.t None R) as [[?|] ?]; simplify_eq/=.
Qed.

Lemma crawl_step_sound clock c R : sound R → sound (crawl_step clock c R).2.
Proof.
  intros HR. rewrite crawl_step_store.
  destruct c; cbn [crawl_effect]; try case_decide; eauto with crawl.
Qed.

Lemma gen_step_sound g R : sound R → sound (gen_step g R).2.
Proof.
  intros HR. rewrite gen_step_store. destruct g; cbn [gen_effect]; eauto with crawl.
Qed.

(** *** The rows of a prefix *)

(** The row that the step from [c] saves. *)
Definition saving (prefix : string) (c : Crawl) : nat :=
  match c with
  | CrawlParsed _ url_prefix _ _ => if decide (URLPrefix.prefix url_prefix = prefix) then 1 else 0
  | _ => 0
  end.

Lemma crawl_effect_rows clock c R prefix :
  wf R → rows prefix (crawl_effect clock c R) ≤ rows prefix R + saving prefix c.
Proof.
  intros Hwf. destruct c; cbn [crawl_effect saving];
    rewrite ?rows_add_to_queue ?rows_get_from_queue ?rows_save_prefix //; try lia.
  - case_decide; rewrite ?rows_add_to_queue; lia.
  - etrans; [by apply rows_save_row|]. simpl. repeat case_decide; simplify_eq; lia.
Qed.

(** A worker leaves the places between the count and the save by saving
    its row, and enters them only from the count, which found the prefix
    under the limit. *)
Lemma crawl_step_pending clock c R prefix :
  pending prefix (Crawler (crawl_step clock c R).1.1) + saving prefix c
    ≤ pending prefix (Crawler c) ∨
  (crawl_effect clock c R = R ∧ rows prefix R < url_limit).
Proof.
  destruct c; cbn [crawl_step crawl_effect];
    repeat (case_match || case_decide); simplify_eq; cbn [fst snd];
    rewrite ?links_next_pending; simpl; try (left; lia).
  case_decide; [right|left; lia]. subst. split; [done|rewrite /rows; lia].
Qed.

(** *** The pool *)

Lemma thread_step_crawler clock c R :
  thread_step clock (Crawler c) R =
  (Crawler (crawl_step clock c R).1.1, (crawl_step clock c R).2).
Proof. simpl. by destruct (crawl_step clock c R) as [[? ?] ?]. Qed.

Lemma thread_step_generator clock g R :
  thread_step clock (Generator g) R = (Generator (gen_step g R).1.1, (gen_step g R).2).
Proof. simpl. by destruct (gen_step g R) as [[? ?] ?]. Qed.

Lemma move_sound a t R : sound R → sound (move a t R).2.
Proof.
  intros HR. destruct a as [tid clock|tid]; [|done].
  destruct t; rewrite /move ?thread_step_crawler ?thread_step_generator;
    [by apply crawl_step_sound|by apply gen_step_sound].
Qed.

Lemma move_crawler a t R : crawler (move a t R).1 = crawler t.
Proof.
  destruct a as [tid clock|tid], t;
    by rewrite /move ?thread_step_crawler ?thread_step_generator.
Qed.

Lemma pending_le_crawler prefix t : pending prefix t ≤ crawler t.
Proof. rewrite /crawler. destruct t as [[]|]; simpl; try case_decide; lia. Qed.

Lemma gen_effect_rows g R prefix : wf R → rows prefix (gen_effect g R) = rows prefix R.
Proof.
  intros Hwf. destruct g; cbn [gen_effect]; by rewrite ?rows_get_from_queue ?rows_save_prefix.
Qed.

(** A move adds a row of a prefix only for a worker that was counted as
    pending for it, or leaves the prefix under the limit. *)
Lemma move_rows a t R prefix :
  wf R →
  rows prefix (move a t R).2 + pending prefix (move a t R).1 ≤ rows prefix R + pending prefix t ∨
  rows prefix (move a t R).2 < url_limit.
Proof.
  intros Hwf. destruct a as [tid clock|tid]; [|left; destruct t; simpl; lia].
  destruct t as [c|g]; rewrite /move ?thread_step_crawler ?thread_step_generator.
  - cbn [fst snd]. rewrite crawl_step_store.
    pose proof (crawl_effect_rows clock c R prefix Hwf).
    destruct (crawl_step_pending clock c R prefix) as [?|[-> ?]]; [left; lia|by right].
  - left. cbn [fst snd]. rewrite gen_step_store gen_effect_rows //=.
Qed.

Lemma on_Some tid f σ t :
  threads σ !! tid = Some t →
  on tid f σ = mkConfig (<[tid:=(f t (store σ)).1]> (threads σ)) (f t (store σ)).2.
Proof. rewrite /on. intros ->. by destruct (f t (store σ)). Qed.

Lemma on_None tid f σ : threads σ !! tid = None → on tid f σ = σ.
Proof. rewrite /on. by intros ->. Qed.

Lemma act_sound a σ : sound (store σ) → sound (store (act a σ)).
Proof.
  intros HR. rewrite /act. destruct (threads σ !! tid_of a) as [t|] eqn:Ht.
  - rewrite (on_Some _ _ _ t) //. by apply move_sound.
  - by rewrite on_None.
Qed.

Lemma act_crawlers a σ : crawlers (act a σ) = crawlers σ.
Proof.
  rewrite /act /crawlers. destruct (threads σ !! tid_of a) as [t|] eqn:Ht.
  - rewrite (on_Some _ _ _ t) //=.
    pose proof (sum_list_with_insert crawler _ _ _ (move a t (store σ)).1 Ht).
    rewrite move_crawler in H1. lia.
  - by rewrite on_None.
Qed.

Lemma act_cap_bound a σ : wf (store σ) → cap_bound σ → cap_bound (act a σ).
Proof.
  intros Hwf Hcap prefix. rewrite act_crawlers. specialize (Hcap prefix). revert Hcap.
  rewrite /act /crawlers. destruct (threads σ !! tid_of a) as [t|] eqn:Ht; [|by rewrite on_None].
  rewrite (on_Some _ _ _ t) //.
  pose proof (move_crawler a t (store σ)) as Hcr.
  pose proof (move_rows a t (store σ) prefix Hwf) as Hrows.
  destruct (move a t (store σ)) as [t' R']. cbn [fst snd threads store] in *.
  pose proof (sum_list_with_insert (pending prefix) _ _ _ t' Ht).
  pose proof (sum_list_with_insert crawler _ _ _ t' Ht).
  pose proof (sum_list_with_le (pending prefix) crawler (<[tid_of a:=t']> (threads σ))
                (pending_le_crawler prefix)).
  rewrite /url_limit in Hrows |- *. lia.
Qed.

Lemma step_sound_cap σ σ' :
  pool_step σ σ' → sound (store σ) ∧ cap_bound σ → sound (store σ') ∧ cap_bound σ'.
Proof.
  intros [a σ0] [HR Hcap]. split; [by apply act_sound|apply act_cap_bound; [apply HR|done]].
Qed.

Lemma step_crawlers σ σ' : pool_step σ σ' → crawlers σ' = crawlers σ.
Proof. intros [a σ0]. apply act_crawlers. Qed.

(** A pool whose workers are all at the top of their loops. *)
Definition at_top (σ : Config) : Prop := Forall (λ t, restart t = t) (threads σ).

Lemma at_top_pending σ prefix : at_top σ → sum_list_with (pending prefix) (threads σ) = 0.
Proof.
  rewrite /at_top. induction 1 as [|t ts Ht _ IH]; [done|].
  simpl. rewrite IH -Ht. by destruct t.
Qed.

Lemma at_top_cap_bound σ : at_top σ → cap_inv (store σ) → cap_bound σ.
Proof.
  intros Htop Hcap prefix. rewrite at_top_pending //. specialize (Hcap prefix).
  rewrite /rows. lia.
Qed.

Lemma reachable_sound_cap σ σ' :
  rtc pool_step σ σ' → sound (store σ) ∧ cap_bound σ →
  (sound (store σ') ∧ cap_bound σ') ∧ crawlers σ' = crawlers σ.
Proof.
  induction 1 as [|σ1 σ2 σ3 Hstep _ IH]; [done|]. intros Hinv.
  destruct (IH (step_sound_cap _ _ Hstep Hinv)) as [? ->]. by rewrite (step_crawlers _ _ Hstep).
Qed.

(** A run of a schedule is a sequence of steps. *)
Lemma exec_steps schedule σ : rtc pool_step σ (exec schedule σ).
Proof.
  revert σ. induction schedule as [|a schedule IH]; intros σ; [done|].
  eapply rtc_l; [apply (pool_act a)|apply IH].
Qed.

Lemma exec_sound schedule σ : sound (store σ) → sound (store (exec schedule σ)).
Proof.
  revert σ. induction schedule as [|a schedule IH]; intros σ HR; [done|].
  by apply IH, act_sound.
Qed.

(** C3: The store and the queues stay well formed under every interleaving
    of the steps of the workers and every crash, and with W parsing
    workers a prefix never has more than 20 + (W - 1) rows: the count of
    line 202 and the save of line 253 are two calls, so each worker but
    one can add a row to a prefix that the others have filled. *)
Theorem pool_cap_bound σ σ' prefix :
  rtc pool_step σ σ' → at_top σ → sound (store σ) → cap_inv (store σ) →
  sound (store σ') ∧ rows prefix (store σ') ≤ url_limit + pred (crawlers σ).
Proof.
  intros Hsteps Htop HR Hcap.
  destruct (reachable_sound_cap σ σ' Hsteps) as [[HR' Hcap'] <-];
    [by split; [|apply at_top_cap_bound]|].
  split; [done|]. specialize (Hcap' prefix). lia.
Qed.

End invariants.

(** ** A worker that dies *)

(** The stored prefix is in progress and has the configuration [cfg]. *)
Definition in_progress (prefix : string) (cfg : option ParserConfig.t) (R : Redis) : Prop :=
  ∃ p, load URLPrefix.t prefix R = Some p ∧
       URLPrefix.processing_status p = Some "in_progress" ∧ URLPrefix.parser_config p = cfg.

(** A thread that will not take the prefix out of that state: it holds no
    copy of the prefix that it is about to save, except a copy that is in
    progress itself. *)
Definition quiet (prefix : string) (cfg : option ParserConfig.t) (t : Thread) : Prop :=
  match t with
  | Crawler (CrawlLoaded _ p) =>
      URLPrefix.prefix p = prefix →
      URLPrefix.processing_status p = Some "in_progress" ∧ URLPrefix.parser_config p = cfg
  | Generator (GenReset _ p) | Generator (GenMark _ p) | Generator (GenMarked _ p)
  | Generator (GenGenerated _ _ p) | Generator (GenFailed _ p _) =>
      URLPrefix.prefix p ≠ prefix
  | _ => True
  end.

(** No worker is working on the prefix, and the store says that one is. *)
Definition stuck (prefix : string) (cfg : option ParserConfig.t) (σ : Config) : Prop :=
  in_progress prefix cfg (store σ) ∧ Forall (quiet prefix cfg) (threads σ).

Lemma in_progress_models prefix cfg R R' :
  models R' = models R → in_progress prefix cfg R → in_progress prefix cfg R'.
Proof. intros E (p & Hl & ?). exists p. by rewrite (load_models (A:=URLPrefix.t) _ _ _ E). Qed.

Lemma in_progress_save_row prefix cfg (row : URL.t) R :
  in_progress prefix cfg R → in_progress prefix cfg (save row R).
Proof. intros (p & Hl & ?). exists p. by rewrite load_save_other. Qed.

Lemma in_progress_save_prefix prefix cfg (p : URLPrefix.t) R :
  (URLPrefix.prefix p = prefix →
   URLPrefix.processing_status p = Some "in_progress" ∧ URLPrefix.parser_config p = cfg) →
  in_progress prefix cfg R → in_progress prefix cfg (save p R).
Proof.
  intros Hp (p0 & Hl & ?). destruct (decide (URLPrefix.prefix p = prefix)) as [E|Hne].
  - exists p. split; [by apply load_save_id|by apply Hp].
  - exists p0. by rewrite load_save_ne.
Qed.

Lemma in_progress_save_ne prefix cfg (p : URLPrefix.t) R :
  URLPrefix.prefix p ≠ prefix → in_progress prefix cfg R → in_progress prefix cfg (save p R).
Proof. intros Hne. by apply in_progress_save_prefix. Qed.

Lemma generate_parser_for_url_prefix_prefix `{Synth} url_prefix R updated :
  generate_parser_for_url_prefix url_prefix R = Ok updated →
  URLPrefix.prefix updated = URLPrefix.prefix url_prefix.
Proof. rewrite /generate_parser_for_url_prefix. intros; repeat case_match; by simplify_eq. Qed.

Section crash.
Context `{Env} `{Synth}.
Implicit Types R : Redis.
Implicit Types σ : Config.
Context (prefix : string) (cfg : option ParserConfig.t).

Lemma crawl_effect_in_progress clock c R :
  quiet prefix cfg (Crawler c) → in_progress prefix cfg R →
  in_progress prefix cfg (crawl_effect clock c R).
Proof.
  intros Hq HR. destruct c; cbn [crawl_effect]; try case_decide; try done.
  all: try by (eapply in_progress_models; [|done];
               rewrite ?models_add_to_queue ?models_get_from_queue).
  - by apply in_progress_save_row.
  - by apply in_progress_save_prefix.
Qed.

Lemma gen_effect_in_progress g R :
  quiet prefix cfg (Generator g) → in_progress prefix cfg R →
  in_progress prefix cfg (gen_effect g R).
Proof.
  intros Hq HR. destruct g; cbn [gen_effect]; try done.
  - eapply in_progress_models; [apply models_get_from_queue|done].
  - by apply in_progress_save_ne.
  - by apply in_progress_save_ne.
  - by apply in_progress_save_ne.
  - by apply in_progress_save_ne.
Qed.

(** The copy that [create_url_prefix] loads of a prefix that is in
    progress is in progress. *)
Lemma crawl_step_quiet clock c R :
  wf R → in_progress prefix cfg R → quiet prefix cfg (Crawler (crawl_step clock c R).1.1).
Proof.
  intros Hwf (p & Hl & Hs & Hc).
  destruct c; cbn [crawl_step];
    try by (repeat (case_match || case_decide); simplify_eq; cbn [fst snd]; try done;
            match goal with |- context [links_next _ _ _ ?l _ _] => destruct l end).
  destruct (load_raw_html _) as [raw_content|e]; [|done]. cbn [fst snd quiet].
  destruct (load URLPrefix.t (get_deepest_prefix _) R) as [existing_prefix|] eqn:Hload;
    simpl; intros E.
  - apply (load_wf (A:=URLPrefix.t) _ _ _ Hwf) in Hload as Hid.
    change (URLPrefix.prefix existing_prefix = get_deepest_prefix (URL.url (URLQueueItem.url queue_item)))
      in Hid.
    rewrite -Hid E Hl in Hload. by simplify_eq.
  - rewrite E Hl in Hload. done.
Qed.

Lemma gen_step_quiet g R :
  wf R → in_progress prefix cfg R → quiet prefix cfg (Generator g) →
  quiet prefix cfg (Generator (gen_step g R).1.1).
Proof.
  intros Hwf (p & Hl & Hs & Hc) Hq.
  destruct g; cbn [gen_step reset_failed_url_prefix]; cbn [quiet] in Hq;
    try by (repeat case_match; simplify_eq).
  - destruct (load URLPrefix.t (URLPrefix.prefix job) R) as [existing_prefix|] eqn:Hload;
      last first.
    { cbn [fst snd quiet]. intros E. rewrite E Hl in Hload. done. }
    apply (load_wf (A:=URLPrefix.t) _ _ _ Hwf) in Hload as Hid.
    change (URLPrefix.prefix existing_prefix = URLPrefix.prefix job) in Hid.
    assert (URLPrefix.prefix job = prefix → existing_prefix = p) as Hsame.
    { intros E. rewrite E Hl in Hload. by simplify_eq. }
    repeat case_decide; cbn [fst snd quiet]; [done| |].
    + intros E. rewrite Hid in E. apply Hsame in E. congruence.
    + intros E. apply Hsame in E. congruence.
  - destruct (generate_parser_for_url_prefix _ _) as [updated|e] eqn:Hg; cbn [fst snd quiet]; [|done].
    by rewrite (generate_parser_for_url_prefix_prefix _ _ _ Hg).
Qed.

Lemma move_stuck a t R :
  wf R → in_progress prefix cfg R → quiet prefix cfg t →
  in_progress prefix cfg (move a t R).2 ∧ quiet prefix cfg (move a t R).1.
Proof.
  intros Hwf HR Hq. destruct a as [tid clock|tid]; [|by destruct t].
  destruct t as [c|g]; rewrite /move ?thread_step_crawler ?thread_step_generator; cbn [fst snd].
  - rewrite crawl_step_store. split; [by apply crawl_effect_in_progress|by apply crawl_step_quiet].
  - rewrite gen_step_store. split; [by apply gen_effect_in_progress|by apply gen_step_quiet].
Qed.

Lemma act_stuck a σ : wf (store σ) → stuck prefix cfg σ → stuck prefix cfg (act a σ).
Proof.
  intros Hwf [HR Hq]. rewrite /act. destruct (threads σ !! tid_of a) as [t|] eqn:Ht.
  - rewrite (on_Some _ _ _ t) //.
    destruct (move_stuck a t (store σ) Hwf HR) as [? ?].
    { by apply (proj1 (Forall_lookup _ _) Hq (tid_of a)). }
    split; [done|by apply Forall_insert].
  - by rewrite on_None.
Qed.

Lemma reachable_stuck σ σ' :
  rtc pool_step σ σ' → sound (store σ) → stuck prefix cfg σ →
  sound (store σ') ∧ stuck prefix cfg σ'.
Proof.
  induction 1 as [|σ1 σ2 σ3 [a σ0] _ IH]; [done|]. intros HR Hs.
  apply IH; [by apply act_sound|apply act_stuck; [apply HR|done]].
Qed.

End crash.

(** ** The theorems *)

Section theorems.
Context `{Env} `{Synth}.
Implicit Types R : Redis.
Implicit Types σ : Config.

(** A worker that runs alone through one turn of its loop, one store
    call at a time, returns what the handler in one piece returns and
    leaves the store that it leaves: the parsing worker does
    [Frontier.run_iteration] with enough fuel for the links of the page,
    the generation worker does [GenWorker.job_iteration] in at most seven
    steps. *)
Theorem alone_refines clock R :
  (∃ n, ∀ fuel, n ≤ fuel → crawl_turn fuel clock CrawlTop R = Some (run_iteration clock R)) ∧
  (∀ n, gen_turn (7 + n) GenTop R = Some (job_iteration R)).
Proof.
  split; [|intros n; apply gen_turn_top].
  destruct (crawl_turn_top clock R) as [n Hn]. exists n. intros fuel Hle.
  by apply (crawl_turn_mono n).
Qed.

Lemma item_queue_ne_prefix_queue : item_queue ≠ prefix_queue.
Proof. by vm_compute. Qed.

(** Taking the oldest item of the queue. *)
Lemma get_from_queue_oldest (queue_item : URLQueueItem.t) rest R :
  absq item_queue R = dump queue_item :: rest →
  ∃ R', get_from_queue URLQueueItem.t None R = (Some queue_item, R') ∧
        models R' = models R ∧ absq item_queue R' = rest ∧
        absq prefix_queue R' = absq prefix_queue R.
Proof.
  intros Hq. pose proof (absq_get_from_queue (A:=URLQueueItem.t) None R) as Hpop.
  pose proof (models_get_from_queue (A:=URLQueueItem.t) None R) as Hm.
  rewrite -/item_queue /qname /= -/item_queue Hq /= in Hpop.
  assert (get_queue prefix_queue (get_from_queue URLQueueItem.t None R).2 =
          get_queue prefix_queue R) as Hp.
  { rewrite /get_from_queue. destruct (pop_last _) as [[? ?]|]; [|done].
    apply get_put_queue_ne, item_queue_ne_prefix_queue. }
  destruct (get_from_queue URLQueueItem.t None R) as [x R']. destruct Hpop as [Hx HR'].
  simpl in *. subst x. exists R'. by rewrite /absq Hp.
Qed.

(** C27: An item that a parsing worker has taken from the queue is lost when
    the worker dies before the handler has run: the worker starts again at
    the top of its loop, the store holds what it held, and the item is in
    no queue.  The pop of line 370 has no acknowledgement, so the delivery
    is at most once. *)
Theorem crash_loses_item tid clock σ queue_item rest :
  threads σ !! tid = Some (Crawler CrawlRunning) →
  absq item_queue (store σ) = dump queue_item :: rest →
  let σ' := exec [Step tid clock; Crash tid] σ in
  threads σ' = <[tid:=Crawler CrawlTop]> (threads σ) ∧
  models (store σ') = models (store σ) ∧
  absq item_queue (store σ') = rest ∧
  absq prefix_queue (store σ') = absq prefix_queue (store σ).
Proof.
  intros Ht Hq σ'. destruct (get_from_queue_oldest _ _ _ Hq) as (R' & Hget & Hm & Hi & Hp).
  assert (act (Step tid clock) σ =
          mkConfig (<[tid:=Crawler (CrawlTaken queue_item)]> (threads σ)) R') as Hstep.
  { by rewrite /act (on_Some _ _ _ _ Ht) /= Hget. }
  rewrite /σ' /exec /= Hstep /act (on_Some _ _ _ (Crawler (CrawlTaken queue_item))) /=.
  - apply list_lookup_insert_eq. by eapply lookup_lt_Some.
  - by rewrite list_insert_insert_eq.
Qed.

(** C11: A prefix whose generation worker dies during the call of the
    synthesizer, after line 95 has saved it as in progress, stays in
    progress with the configuration it had, whatever the workers do from
    then on: every job for it is skipped at line 80 and every page of it
    is recorded as one more sample and queued again. *)
Theorem crash_in_progress_forever tid job url_prefix cfg σ σ' :
  threads σ !! tid = Some (Generator (GenMarked job url_prefix)) →
  sound (store σ) →
  in_progress (URLPrefix.prefix url_prefix) cfg (store σ) →
  (∀ i t, i ≠ tid → threads σ !! i = Some t → quiet (URLPrefix.prefix url_prefix) cfg t) →
  rtc pool_step (act (Crash tid) σ) σ' →
  stuck (URLPrefix.prefix url_prefix) cfg σ'.
Proof.
  intros Ht HR Hp Hq Hsteps. rewrite /act (on_Some _ _ _ _ Ht) /= in Hsteps.
  eapply reachable_stuck; [done..|]. split; [done|].
  apply Forall_lookup; simpl. intros i t. destruct (decide (i = tid)) as [->|Hne].
  - rewrite list_lookup_insert_eq; [by eapply lookup_lt_Some|]. by intros [= <-].
  - rewrite list_lookup_insert_ne //. by apply Hq.
Qed.

End theorems.

(** ** One turn after the other *)

(** A whole turn of the thread [tid], with no step of another thread in
    between. *)
Definition turn_of `{Env} `{Synth} (tid : nat) (clock : nat → Z) (σ : Config) : Config :=
  match threads σ !! tid with
  | Some (Crawler _) => mkConfig (threads σ) (run_iteration clock (store σ)).2
  | Some (Generator _) => mkConfig (threads σ) (job_iteration (store σ)).2
  | None => σ
  end.

Section serial.
Context `{Env} `{Synth}.
Implicit Types R : Redis.
Implicit Types σ : Config.

(** The step that ends a turn goes back to the top of the loop. *)
Lemma links_next_top queue_item url_prefix parsed_content links n added c turn :
  links_next queue_item url_prefix parsed_content links n added = (c, Some turn) → c = CrawlTop.
Proof. destruct links; intros; by simplify_eq/=. Qed.

Lemma crawl_step_top clock c R c' turn R' :
  crawl_step clock c R = (c', Some turn, R') → c' = CrawlTop.
Proof.
  destruct c; cbn [crawl_step]; intros; repeat (case_match || case_decide); simplify_eq;
    try done.
  all: by eapply links_next_top.
Qed.

Lemma gen_step_top g R g' turn R' : gen_step g R = (g', Some turn, R') → g' = GenTop.
Proof.
  destruct g; cbn [gen_step reset_failed_url_prefix]; intros;
    repeat (case_match || case_decide); by simplify_eq.
Qed.

Lemma exec_replicate_S n a σ : exec (replicate (S n) a) σ = exec (replicate n a) (act a σ).
Proof. done. Qed.

Lemma act_Step_crawler tid clock σ c :
  threads σ !! tid = Some (Crawler c) →
  act (Step tid clock) σ =
  mkConfig (<[tid:=Crawler (crawl_step clock c (store σ)).1.1]> (threads σ))
           (crawl_step clock c (store σ)).2.
Proof. intros Ht. by rewrite /act (on_Some _ _ _ _ Ht) /move thread_step_crawler. Qed.

Lemma act_Step_generator tid clock σ g :
  threads σ !! tid = Some (Generator g) →
  act (Step tid clock) σ =
  mkConfig (<[tid:=Generator (gen_step g (store σ)).1.1]> (threads σ)) (gen_step g (store σ)).2.
Proof. intros Ht. by rewrite /act (on_Some _ _ _ _ Ht) /move thread_step_generator. Qed.

(** The turn of a thread that runs alone, as steps of the pool. *)
Lemma crawl_turn_exec fuel tid clock σ c turn R' :
  threads σ !! tid = Some (Crawler c) →
  crawl_turn fuel clock c (store σ) = Some (turn, R') →
  ∃ n, exec (replicate n (Step tid clock)) σ =
       mkConfig (<[tid:=Crawler CrawlTop]> (threads σ)) R'.
Proof.
  revert σ c. induction fuel as [|fuel IH]; intros σ c Ht; [done|]. rewrite crawl_turn_S.
  pose proof (act_Step_crawler tid clock σ c Ht) as Hact.
  destruct (crawl_step clock c (store σ)) as [[c' [turn'|]] R1] eqn:Hstep; simpl; intros Hturn.
  { simplify_eq. apply crawl_step_top in Hstep as ->. by exists 1. }
  destruct (IH (act (Step tid clock) σ) c') as [n Hn].
  - rewrite Hact /=. apply list_lookup_insert_eq. by eapply lookup_lt_Some.
  - by rewrite Hact.
  - exists (S n). by rewrite exec_replicate_S Hn Hact /= list_insert_insert_eq.
Qed.

Lemma gen_turn_exec fuel tid clock σ g turn R' :
  threads σ !! tid = Some (Generator g) →
  gen_turn fuel g (store σ) = Some (turn, R') →
  ∃ n, exec (replicate n (Step tid clock)) σ =
       mkConfig (<[tid:=Generator GenTop]> (threads σ)) R'.
Proof.
  revert σ g. induction fuel as [|fuel IH]; intros σ g Ht; [done|]. rewrite gen_turn_S.
  pose proof (act_Step_generator tid clock σ g Ht) as Hact.
  destruct (gen_step g (store σ)) as [[g' [turn'|]] R1] eqn:Hstep; simpl; intros Hturn.
  { simplify_eq. apply gen_step_top in Hstep as ->. by exists 1. }
  destruct (IH (act (Step tid clock) σ) g') as [n Hn].
  - rewrite Hact /=. apply list_lookup_insert_eq. by eapply lookup_lt_Some.
  - by rewrite Hact.
  - exists (S n). by rewrite exec_replicate_S Hn Hact /= list_insert_insert_eq.
Qed.

Lemma turn_of_at_top tid clock σ : at_top σ → at_top (turn_of tid clock σ).
Proof. rewrite /turn_of. by repeat case_match. Qed.

(** The steps of one thread up to the end of its turn, with no step of
    another thread in between, leave the pool as it was and the store as
    the handler in one piece leaves it. *)
Lemma serial_turn tid clock σ :
  at_top σ → ∃ n, exec (replicate n (Step tid clock)) σ = turn_of tid clock σ.
Proof.
  intros Htop. rewrite /turn_of. destruct (threads σ !! tid) as [t|] eqn:Ht; [|by exists 0].
  assert (restart t = t) as Hr by by apply (proj1 (Forall_lookup _ _) Htop tid).
  assert (<[tid:=t]> (threads σ) = threads σ) as Hid by by apply list_insert_id.
  destruct t as [c|g]; simpl in Hr; simplify_eq.
  - destruct (crawl_turn_top clock (store σ)) as [fuel Hfuel].
    destruct (run_iteration clock (store σ)) as [turn R'].
    destruct (crawl_turn_exec _ tid clock σ _ _ _ Ht Hfuel) as [n Hn]. exists n. by rewrite Hn Hid.
  - pose proof (gen_turn_top 0 (store σ)) as Hfuel.
    destruct (job_iteration (store σ)) as [turn R'].
    destruct (gen_turn_exec _ tid clock σ _ _ _ Ht Hfuel) as [n Hn]. exists n. by rewrite Hn Hid.
Qed.

Lemma exec_app schedule schedule' σ :
  exec (schedule ++ schedule') σ = exec schedule' (exec schedule σ).
Proof. apply foldl_app. Qed.

End serial.

(** The threads run turn by turn: [turns] names the thread of each turn
    and the clock it reads. *)
Definition serial `{Env} `{Synth} (turns : list (nat * (nat → Z))) (σ : Config) : Config :=
  foldl (λ σ turn, turn_of turn.1 turn.2 σ) σ turns.

Section serial_system.
Context `{Env} `{Synth} `{Web} `{Evals}.
Implicit Types σ : Config.

Lemma turn_of_step tid clock σ : rtc step (store σ) (store (turn_of tid clock σ)).
Proof. rewrite /turn_of. repeat case_match; simpl; try done; apply rtc_once; constructor. Qed.

Lemma turn_of_inv tid clock σ : inv (store σ) → inv (store (turn_of tid clock σ)).
Proof.
  rewrite /turn_of. repeat case_match; simpl; try done.
  - apply run_iteration_invariant.
  - apply inv_job_iteration.
Qed.

(** C6: A schedule that runs the threads turn by turn, each up to the end
    of its turn with no step of another thread in between, is a run of the
    system of atomic handlers: the pool can follow it step by step, every
    turn is a step of [System.step], and the invariant of the system
    holds at the end, so that no prefix has more than 20 rows. *)
Theorem serial_refines turns σ :
  at_top σ → inv (store σ) →
  (∃ schedule, exec schedule σ = serial turns σ) ∧
  rtc step (store σ) (store (serial turns σ)) ∧
  inv (store (serial turns σ)).
Proof.
  revert σ. induction turns as [|[tid clock] turns IH]; intros σ Htop Hinv.
  { split; [by exists []|done]. }
  destruct (IH (turn_of tid clock σ)) as ([schedule Hs] & Hsteps & Hinv');
    [by apply turn_of_at_top|by apply turn_of_inv|].
  destruct (serial_turn tid clock σ Htop) as [n Hn]. split_and!; [|by etrans; [apply turn_of_step|]|done].
  exists (replicate n (Step tid clock) ++ schedule). by rewrite exec_app Hn.
Qed.

End serial_system.

(** ** Two workers and one store

    The world of Frontier and the synthesizer of GenWorker.  [crowded n] is
    the store of the documentation prefix with [n] rows. *)

Definition docs_row (i : nat) : URL.t :=
  URL.mk ("https://a.com/docs/" +:+ String (ascii_of_nat (97 + i)) "")
         (Some "https://a.com/docs") None (Some "text").

Definition crowded (n : nat) : Redis := foldr (λ i, save (docs_row i)) docs_redis (seq 0 n).

Definition setup_item : URLQueueItem.t := item_of "https://a.com/docs/setup.html".

Definition queued (items : list URLQueueItem.t) (R : Redis) : Redis := add_all items R.

Definition two_crawlers (R : Redis) : Config := mkConfig [Crawler CrawlTop; Crawler CrawlTop] R.

(** [n] steps of the thread [tid], and the same half a minute later. *)
Definition steps (tid n : nat) : list Action := replicate n (Step tid example_clock).

Definition later_steps (tid n : nat) : list Action :=
  replicate n (Step tid (λ i, (2000 + Z.of_nat i)%Z)).

Notation run_pool := (exec (H:=example_env) (H0:=example_synth)).

Lemma sound_empty : sound empty_redis.
Proof. split; [apply wf_empty|apply wf_queues_empty]. Qed.

Lemma sound_queued items R : sound R → sound (queued items R).
Proof.
  intros HR. apply (sound_models_queue R); [apply models_add_all| |done].
  apply wf_queues_add_all, HR.
Qed.

Lemma foldr_save_rows (P : Redis → Prop) (l : list nat) R :
  (∀ row R, P R → P (save (docs_row row) R)) → P R → P (foldr (λ i, save (docs_row i)) R l).
Proof. intros Hsave HR. induction l as [|i l IH]; simpl; auto. Qed.

Lemma sound_crowded n : sound (crowded n).
Proof.
  apply (foldr_save_rows sound); [intros; by apply sound_save_row|].
  apply sound_save_prefix, sound_empty.
Qed.

Lemma rows_crowded prefix (l : list nat) :
  rows prefix (foldr (λ i, save (docs_row i)) docs_redis l) ≤ length l.
Proof.
  induction l as [|i l IH]; [by vm_compute|]. simpl.
  etrans; [apply rows_save_row|case_decide; lia].
  apply (foldr_save_rows wf); [intros; by apply wf_save|apply wf_docs_redis].
Qed.

Lemma cap_inv_crowded n : n ≤ url_limit → cap_inv (crowded n).
Proof.
  intros Hn prefix. pose proof (rows_crowded prefix (seq 0 n)) as Hle.
  rewrite length_seq /rows in Hle. rewrite /crowded. lia.
Qed.

Lemma cap_inv_queued items R : cap_inv R → cap_inv (queued items R).
Proof. apply cap_inv_models, models_add_all. Qed.

(** Nineteen rows, and two pages of the prefix in the queue. *)
Definition overshoot_start : Config := two_crawlers (queued [intro_item; setup_item] (crowded 19)).

(** Both workers count nineteen rows before either saves its own. *)
Definition overshoot_schedule : list Action := steps 0 4 ++ steps 1 4 ++ steps 0 2 ++ steps 1 2.

(** Two parsing workers take the prefix of the documentation from
    nineteen rows to twenty-one when each counts the rows before the other
    has saved; one after the other they stop at twenty, the second page
    being dropped. *)
Example cap_overshoot :
  rows "https://a.com/docs" (store (run_pool overshoot_schedule overshoot_start)) = 21 ∧
  rows "https://a.com/docs" (store (run_pool (steps 0 6 ++ steps 1 6) overshoot_start)) = 20.
Proof. by vm_compute. Qed.

Lemma pool_cap_bound_witness :
  sound (store (run_pool overshoot_schedule overshoot_start)) ∧
  rows "https://a.com/docs" (store (run_pool overshoot_schedule overshoot_start)) ≤ 21.
Proof.
  apply (pool_cap_bound (H:=example_env) (H0:=example_synth) overshoot_start).
  - apply exec_steps.
  - by repeat constructor.
  - apply sound_queued, sound_crowded.
  - apply cap_inv_queued, cap_inv_crowded. rewrite /url_limit. lia.
Defined.

Lemma crash_loses_item_witness :
  let σ := run_pool (steps 0 1) (mkConfig [Crawler CrawlTop] (queued [intro_item] docs_redis)) in
  let σ' := run_pool [Step 0 example_clock; Crash 0] σ in
  threads σ' = [Crawler CrawlTop] ∧
  models (store σ') = models docs_redis ∧
  absq item_queue (store σ') = [] ∧
  absq prefix_queue (store σ') = [].
Proof.
  apply (crash_loses_item (H:=example_env) (H0:=example_synth) 0 example_clock
           (run_pool (steps 0 1) (mkConfig [Crawler CrawlTop] (queued [intro_item] docs_redis)))
           intro_item []); by vm_compute.
Defined.

(** One generation worker and one parsing worker; a job for the prefix of
    the guide and a page of it are in the queues. *)
Definition guide_start : Config :=
  mkConfig [Generator GenTop; Crawler CrawlTop]
           (queued [guide_item] (add_to_queue guide_job None configured_redis).2).

(** The generation worker has saved the prefix as in progress and calls
    the synthesizer. *)
Definition guide_marked : Config := run_pool (steps 0 4) guide_start.

(** What the workers do after the crash: the parsing worker handles the
    page twice, the generation worker takes the two jobs that this
    queues. *)
Definition guide_later : list Action :=
  steps 1 8 ++ steps 0 3 ++ later_steps 1 8 ++ steps 0 3.

Lemma crash_in_progress_forever_witness :
  stuck "https://a.com/guide" None (run_pool guide_later (run_pool [Crash 0] guide_marked)).
Proof.
  apply (crash_in_progress_forever (H:=example_env) (H0:=example_synth) 0 guide_job
           (URLPrefix.with_status (Some "in_progress") guide_job) None guide_marked).
  - by vm_compute.
  - apply exec_sound, sound_queued, sound_add_prefix. split; [apply wf_empty|apply wf_queues_empty].
  - eexists. by vm_compute.
  - intros [|[|i]] t Hi Ht; [done| |done]. vm_compute in Ht. by simplify_eq.
  - apply exec_steps.
Defined.

(** After the crash the prefix of the guide is in progress for good:
    the page is handled twice and each time recorded as one more sample of
    the prefix and queued again, and both jobs that this queues are
    skipped. *)
Example guide_never_generated :
  let σ := run_pool guide_later (run_pool [Crash 0] guide_marked) in
  (URLPrefix.processing_status <$> load URLPrefix.t "https://a.com/guide" (store σ)) =
    Some (Some "in_progress") ∧
  (length ∘ URLPrefix.sample_urls <$> load URLPrefix.t "https://a.com/guide" (store σ)) = Some 3 ∧
  absq prefix_queue (store σ) = [] ∧
  length (absq item_queue (store σ)) = 1.
Proof. by vm_compute. Qed.



(** One worker after the other on the same store: the second page is
    dropped and the prefix has its twenty rows. *)
Lemma serial_refines_witness :
  let σ := serial (H:=example_env) (H0:=example_synth)
                  [(0, example_clock); (1, example_clock)] overshoot_start in
  (∃ schedule, run_pool schedule overshoot_start = σ) ∧
  rtc (step (H:=example_env) (H0:=example_synth) (H1:=example_web) (H2:=example_evals))
      (store overshoot_start) (store σ) ∧
  inv (store σ).
Proof.
  apply (serial_refines (H:=example_env) (H0:=example_synth) (H1:=example_web)
           (H2:=example_evals)).
  - by repeat constructor.
  - destruct (sound_queued [intro_item; setup_item] (crowded 19) (sound_crowded 19)) as [? ?].
    split_and!; [done..|]. apply cap_inv_queued, cap_inv_crowded. rewrite /url_limit. lia.
Defined.
