(* ===== verification/Integrity.v ===== *)
(** * Rows and their prefixes
    (src/backend/workers/parsing_worker.py, lines 188-253;
    src/backend/api.py, [delete_urlprefix]; src/backend/db.py)

    A row of the store names the prefix it was parsed for.  The parsing
    worker takes that prefix from the store (line 196) and saves the row
    later (line 253); the only code that removes a prefix is
    [delete_urlprefix], which removes the rows of the prefix first.

    [no_orphans] says that the prefix of every row is in the store.  It
    holds in every state that the workers reach, however their steps are
    interleaved and whenever they die ([pool_no_orphans]), and it is kept
    by every turn of a worker, every handler of the API and every run of
    the evaluation when each is made in one piece ([step_no_orphans]).
    The file [Requests] shows that a deletion that is made call by call
    while a worker runs does not keep it. *)

From stdpp Require Import gmap.
From stdpp Require Import relations.
From S2P Require Import Prelude PyString DataModels Json Store Queue Url Frontier GenWorker.
From S2P Require Import Evaluation Api System Interleave.

Local Open Scope crawl_scope.

(** Every row that names a prefix names one that is in the store. *)
Definition no_orphans (R : Redis) : Prop :=
  ∀ id row prefix,
    load URL.t id R = Some row → URL.prefix row = Some prefix →
    is_Some (load URLPrefix.t prefix R).

(** The rows whose prefix is not in the store. *)
Definition orphan (R : Redis) (row : URL.t) : bool :=
  match URL.prefix row with
  | Some prefix => bool_decide (load URLPrefix.t prefix R = None)
  | None => false
  end.

Definition orphans (R : Redis) : list URL.t := filter (λ row, orphan R row = true) (scan URL.t R).

(** The prefixes of [R] are prefixes of [R']. *)
Definition prefixes_kept (R R' : Redis) : Prop :=
  ∀ prefix, is_Some (load URLPrefix.t prefix R) → is_Some (load URLPrefix.t prefix R').

(** The rows of [R'] are rows of [R]. *)
Definition rows_kept (R R' : Redis) : Prop :=
  ∀ id row, load URL.t id R' = Some row → load URL.t id R = Some row.

(** A parsing worker between the search for the prefix (line 196) and
    the save of the row (line 253) holds a prefix of the store. *)
Definition holds (R : Redis) (t : Thread) : Prop :=
  match t with
  | Crawler (CrawlFound _ url_prefix) | Crawler (CrawlCounted _ url_prefix _)
  | Crawler (CrawlParsed _ url_prefix _ _) =>
      is_Some (load URLPrefix.t (URLPrefix.prefix url_prefix) R)
  | _ => True
  end.

(** The invariant of the pool. *)
Definition whole (σ : Config) : Prop :=
  sound (store σ) ∧ no_orphans (store σ) ∧ Forall (holds (store σ)) (threads σ).

(** ** The calls of db.py *)

#[export] Instance prefixes_kept_preorder : PreOrder prefixes_kept.
Proof. split; [by intros R prefix|]. intros R1 R2 R3 H12 H23 prefix ?. by apply H23, H12. Qed.

#[export] Instance rows_kept_reflexive : Reflexive rows_kept.
Proof. by intros R id row. Qed.

Lemma prefixes_kept_models R R' : models R' = models R → prefixes_kept R R'.
Proof. intros E prefix. by rewrite (load_models prefix R R' E). Qed.

Lemma rows_kept_models R R' : models R' = models R → rows_kept R R'.
Proof. intros E id row. by rewrite (load_models id R R' E). Qed.

Lemma prefixes_kept_save_prefix (p : URLPrefix.t) R : prefixes_kept R (save p R).
Proof.
  intros prefix Hp. destruct (decide (prefix = model_id p)) as [->|Hne].
  - by rewrite load_save_eq.
  - by rewrite load_save_ne.
Qed.

Lemma prefixes_kept_save_other {A} `{HasId A} (m : A) R :
  class_name URLPrefix.t ≠ class_name A → prefixes_kept R (save m R).
Proof. intros Hne prefix. by rewrite load_save_other. Qed.

Lemma rows_kept_save_other {A} `{HasId A} (m : A) R :
  class_name URL.t ≠ class_name A → rows_kept R (save m R).
Proof. intros Hne id row. by rewrite load_save_other. Qed.

Lemma load_weaken {A} `{HasId A} id R R' (m : A) :
  models R' ⊆ models R → load A id R' = Some m → load A id R = Some m.
Proof.
  intros Hsub. rewrite /load. destruct (models R' !! key A id) as [p|] eqn:Hk; [|done].
  by rewrite (lookup_weaken _ _ _ _ Hk Hsub).
Qed.

Lemma rows_kept_fewer_models R R' : fewer_models R R' → rows_kept R R'.
Proof. intros [Hsub _] id row. by apply load_weaken. Qed.

(** The state keeps its rows' prefixes when it loses rows and keeps its
    prefixes. *)
Lemma no_orphans_kept R R' :
  rows_kept R R' → prefixes_kept R R' → no_orphans R → no_orphans R'.
Proof. intros Hrows Hkept HR id row prefix Hrow Hp. eapply Hkept, HR; [by apply Hrows|done]. Qed.

Lemma no_orphans_models R R' : models R' = models R → no_orphans R → no_orphans R'.
Proof. intros E. apply no_orphans_kept; [by apply rows_kept_models|by apply prefixes_kept_models]. Qed.

(** A new row keeps it when its prefix is in the store. *)
Lemma no_orphans_save_row (row : URL.t) R :
  (∀ prefix, URL.prefix row = Some prefix → is_Some (load URLPrefix.t prefix R)) →
  no_orphans R → no_orphans (save row R).
Proof.
  intros Hrow HR id row' prefix. rewrite (load_save_other (B:=URLPrefix.t)) //.
  destruct (decide (id = model_id row)) as [->|Hne].
  - rewrite load_save_eq. intros [= <-]. apply Hrow.
  - rewrite load_save_ne //. apply HR.
Qed.

Lemma no_orphans_empty : no_orphans empty_redis.
Proof. by intros id row prefix. Qed.

(** On a well-formed store, the rows are in order when the list of the
    orphans is empty. *)
Lemma no_orphans_orphans R : wf R → no_orphans R ↔ orphans R = [].
Proof.
  intros Hwf. rewrite /orphans. split.
  - intros HR. apply elem_of_nil_inv. intros row [Ho Hrow]%list_elem_of_filter.
    apply (elem_of_scan_load row R Hwf URL_names_distinct) in Hrow.
    rewrite /orphan in Ho. destruct (URL.prefix row) as [prefix|] eqn:Hp; [|done].
    apply bool_decide_eq_true in Ho. destruct (HR _ _ _ Hrow Hp) as [p Hload]. congruence.
  - intros Hnil id row prefix Hrow Hp.
    pose proof (load_wf _ _ _ Hwf Hrow) as Hid. subst id.
    apply (elem_of_scan_load row R Hwf URL_names_distinct) in Hrow.
    destruct (load URLPrefix.t prefix R) eqn:Hload; [by eexists|].
    assert (row ∈ filter (λ row, orphan R row = true) (scan URL.t R)) as Hin.
    { apply list_elem_of_filter. split; [|done]. by rewrite /orphan Hp bool_decide_true. }
    rewrite Hnil in Hin. by apply not_elem_of_nil in Hin.
Qed.

(** ** The steps of the workers *)

Section pool.
Context `{Env} `{Synth}.
Implicit Types R : Redis.
Implicit Types clock : nat → Z.
Implicit Types σ : Config.

Lemma crawl_effect_prefixes_kept clock c R : prefixes_kept R (crawl_effect clock c R).
Proof.
  destruct c; cbn [crawl_effect]; try case_decide; try done;
    try (by apply prefixes_kept_models; rewrite ?models_get_from_queue).
  - by apply prefixes_kept_save_other.
  - apply prefixes_kept_save_prefix.
Qed.

Lemma gen_effect_prefixes_kept g R : prefixes_kept R (gen_effect g R).
Proof.
  destruct g; cbn [gen_effect]; try done; try apply prefixes_kept_save_prefix.
  by apply prefixes_kept_models; rewrite ?models_get_from_queue.
Qed.

Lemma gen_effect_rows_kept g R : rows_kept R (gen_effect g R).
Proof.
  destruct g; cbn [gen_effect]; try done; try by apply rows_kept_save_other.
  by apply rows_kept_models; rewrite ?models_get_from_queue.
Qed.

(** The row that a parsing worker saves names the prefix that it holds. *)
Lemma crawl_effect_no_orphans clock c R :
  holds R (Crawler c) → no_orphans R → no_orphans (crawl_effect clock c R).
Proof.
  intros Hc HR. destruct c; cbn [crawl_effect]; try case_decide; try done;
    try (by eapply no_orphans_models; [|done]; rewrite ?models_get_from_queue).
  - apply no_orphans_save_row; [|done]. by intros prefix [= <-].
  - eapply no_orphans_kept; [by apply rows_kept_save_other|apply prefixes_kept_save_prefix|done].
Qed.

Lemma gen_effect_no_orphans g R : no_orphans R → no_orphans (gen_effect g R).
Proof. apply no_orphans_kept; [apply gen_effect_rows_kept|apply gen_effect_prefixes_kept]. Qed.

(** The prefix that a parsing worker holds after a step is one that it
    held before or one that it has just found in the store. *)
Lemma crawl_step_holds clock c R :
  wf R → holds R (Crawler c) → holds R (Crawler (crawl_step clock c R).1.1).
Proof.
  intros Hwf Hc. destruct c; cbn [crawl_step];
    repeat (case_match || case_decide); simplify_eq; cbn [fst snd holds]; try done.
  all: try by match goal with
              | |- context [links_next ?a ?b ?c ?l ?n ?m] => destruct l
              end.
  match goal with
  | Hfind : find_prefix_for_url _ R = Some _ |- _ =>
      by destruct (find_prefix_for_url_Some _ _ _ Hwf Hfind) as [-> _]
  end.
Qed.

Lemma holds_kept R R' t : prefixes_kept R R' → holds R t → holds R' t.
Proof. intros Hkept. destruct t as [[]|]; simpl; auto. Qed.

Lemma move_prefixes_kept a t R : prefixes_kept R (move a t R).2.
Proof.
  destruct a as [tid clock|tid]; [|done].
  destruct t; rewrite /move ?thread_step_crawler ?thread_step_generator; cbn [snd].
  - rewrite crawl_step_store. apply crawl_effect_prefixes_kept.
  - rewrite gen_step_store. apply gen_effect_prefixes_kept.
Qed.

Lemma move_no_orphans a t R : holds R t → no_orphans R → no_orphans (move a t R).2.
Proof.
  intros Ht HR. destruct a as [tid clock|tid]; [|done].
  destruct t; rewrite /move ?thread_step_crawler ?thread_step_generator; cbn [snd].
  - rewrite crawl_step_store. by apply crawl_effect_no_orphans.
  - rewrite gen_step_store. by apply gen_effect_no_orphans.
Qed.

Lemma move_holds a t R : wf R → holds R t → holds (move a t R).2 (move a t R).1.
Proof.
  intros Hwf Ht. eapply holds_kept; [apply move_prefixes_kept|].
  destruct a as [tid clock|tid]; [|by destruct t].
  destruct t; rewrite /move ?thread_step_crawler ?thread_step_generator; cbn [fst]; [|done].
  by apply crawl_step_holds.
Qed.

Lemma act_whole a σ : whole σ → whole (act a σ).
Proof.
  intros (HR & Hrows & Hthreads). split; [by apply act_sound|]. revert Hrows Hthreads.
  rewrite /act. destruct (threads σ !! tid_of a) as [t|] eqn:Ht; [|by rewrite on_None].
  rewrite (on_Some _ _ _ t) //=. intros Hrows Hthreads.
  pose proof (Forall_lookup_1 _ _ _ _ Hthreads Ht) as Hholds.
  split; [by apply move_no_orphans|]. apply Forall_insert; [|apply move_holds; [apply HR|done]].
  eapply Forall_impl; [done|]. intros t'. apply holds_kept, move_prefixes_kept.
Qed.

Lemma at_top_holds σ : at_top σ → Forall (holds (store σ)) (threads σ).
Proof. intros Htop. eapply Forall_impl; [exact Htop|]. by intros [[]|[]]. Qed.

Lemma reachable_whole σ σ' : rtc pool_step σ σ' → whole σ → whole σ'.
Proof. induction 1 as [|σ1 σ2 σ3 [a σ0] _ IH]; [done|]. intros Hw. by apply IH, act_whole. Qed.

(** C14: The prefix of every row is in the store in every state that the
    workers reach, however their steps are interleaved and whenever they
    die: a worker saves a row for a prefix that it found in the store, and
    no worker removes a prefix. *)
Theorem pool_no_orphans σ σ' :
  rtc pool_step σ σ' → at_top σ → sound (store σ) → no_orphans (store σ) →
  no_orphans (store σ') ∧ Forall (holds (store σ')) (threads σ').
Proof.
  intros Hsteps Htop HR Hrows.
  by destruct (reachable_whole σ σ' Hsteps) as (_ & ? & ?); [split_and!; [..|apply at_top_holds]|].
Qed.

End pool.

(** ** The handlers and the turns in one piece *)

Lemma prefixes_kept_delete {A} `{HasId A} id R :
  class_name URLPrefix.t ≠ class_name A → prefixes_kept R (delete A id R).2.
Proof. intros Hne prefix. by rewrite load_delete_other. Qed.

Lemma prefixes_kept_delete_all {A} `{HasId A} R :
  class_name A ≠ class_name URLPrefix.t → prefixes_kept R (delete_all A R).2.
Proof. intros Hne prefix. by rewrite load_delete_all_other. Qed.

Section turns.
Context `{Env} `{Synth}.
Implicit Types R : Redis.

(** A turn of a worker is a run of its steps. *)
Lemma run_iteration_no_orphans clock R :
  sound R → no_orphans R → no_orphans (run_iteration clock R).2.
Proof using All.
  intros HR Hrows. set (σ := mkConfig [Crawler CrawlTop] R).
  assert (at_top σ) as Htop by by repeat constructor.
  destruct (serial_turn 0 clock σ Htop) as [n Hn].
  change (no_orphans (store (turn_of 0 clock σ))). rewrite -Hn.
  by apply (reachable_whole σ); [apply exec_steps|split_and!; [..|apply at_top_holds]].
Qed.

Lemma job_iteration_no_orphans R : sound R → no_orphans R → no_orphans (job_iteration R).2.
Proof using All.
  intros HR Hrows. set (σ := mkConfig [Generator GenTop] R).
  assert (at_top σ) as Htop by by repeat constructor.
  destruct (serial_turn 0 (λ _, 0%Z) σ Htop) as [n Hn].
  change (no_orphans (store (turn_of 0 (λ _, 0%Z) σ))). rewrite -Hn.
  by apply (reachable_whole σ); [apply exec_steps|split_and!; [..|apply at_top_holds]].
Qed.

End turns.

Section system.
Context `{Env} `{Synth} `{Web} `{Evals}.
Implicit Types R : Redis.

(** [delete_urlprefix] removes the rows of the prefix before the
    prefix. *)
Lemma delete_urlprefix_no_orphans prefix_id R :
  wf R → no_orphans R → no_orphans (delete_urlprefix prefix_id R).2.
Proof.
  intros Hwf HR. destruct (load URLPrefix.t (unquote prefix_id) R) as [urlprefix|] eqn:Hload;
    [|by rewrite /delete_urlprefix Hload].
  rewrite (delete_urlprefix_Some _ _ urlprefix) //=.
  pose proof (load_wf _ _ _ Hwf Hload) as Hid.
  change (URLPrefix.prefix urlprefix = unquote prefix_id) in Hid.
  pose proof (wf_subseteq _ _ (without_urls_subseteq urlprefix R) Hwf) as Hwf'.
  intros id row prefix. rewrite load_URL_delete_URLPrefix. intros Hrow Hp.
  destruct (decide (prefix = unquote prefix_id)) as [->|Hne].
  - pose proof (load_wf _ _ _ Hwf' Hrow) as Hrid. change (URL.url row = id) in Hrid. subst id.
    assert (row ∈ find_urls_with_prefix (URLPrefix.prefix urlprefix) (without_urls urlprefix R).2)
      as Hin by (apply elem_of_find_urls_with_prefix; [done|by rewrite Hid]).
    rewrite without_urls_find // in Hin. by apply not_elem_of_nil in Hin.
  - rewrite load_delete_ne // without_urls_load_other //. eapply HR; [|done].
    eapply load_weaken; [apply (without_urls_subseteq urlprefix)|done].
Qed.

Lemma no_orphans_fewer_models R R' :
  fewer_models R R' → prefixes_kept R R' → no_orphans R → no_orphans R'.
Proof. intros Hf. by apply no_orphans_kept, rows_kept_fewer_models. Qed.

Lemma delete_url_no_orphans url_id R : no_orphans R → no_orphans (delete_url url_id R).2.
Proof.
  apply no_orphans_fewer_models; [apply delete_url_fewer_models|].
  rewrite /delete_url. destruct (load _ _ _); [|done].
  pose proof (prefixes_kept_delete (A:=URL.t) (unquote url_id) R) as Hkept.
  destruct (delete URL.t _ R) as [[] R']; by apply Hkept.
Qed.

Lemma clear_model_data_no_orphans model_name R :
  no_orphans R → no_orphans (clear_model_data model_name R).2.
Proof.
  apply no_orphans_fewer_models; [apply clear_model_data_fewer_models|].
  rewrite /clear_model_data. repeat case_decide; [| |done].
  - by apply (prefixes_kept_delete_all (A:=EvaluationRun.t)).
  - by apply (prefixes_kept_delete_all (A:=URL.t)).
Qed.

Lemma delete_evaluation_run_no_orphans id R :
  no_orphans R → no_orphans (delete_evaluation_run id R).2.
Proof.
  apply no_orphans_fewer_models; [apply delete_evaluation_run_fewer_models|].
  rewrite /delete_evaluation_run. destruct (load _ _ _); [|done].
  by apply (prefixes_kept_delete (A:=EvaluationRun.t)).
Qed.

Lemma eval_command_no_orphans configs domains now R R' :
  eval_command configs domains now R = Ok R' → no_orphans R → no_orphans R'.
Proof.
  rewrite /eval_command. destruct (mapM _ _) as [evaluation_results|]; [|done].
  destruct (last configs); [|done]. intros [= <-].
  by apply no_orphans_kept; [apply rows_kept_save_other|apply prefixes_kept_save_other].
Qed.

Lemma step_no_orphans R R' : step R R' → inv R → no_orphans R → no_orphans R'.
Proof.
  destruct 1; intros (Hwf & Hq & _).
  - by apply run_iteration_no_orphans.
  - by apply job_iteration_no_orphans.
  - apply no_orphans_models. rewrite /lifespan. by repeat case_match.
  - apply delete_evaluation_run_no_orphans.
  - by apply no_orphans_fewer_models;
      [apply clear_evaluation_runs_fewer_models|apply (prefixes_kept_delete_all (A:=EvaluationRun.t))].
  - apply clear_model_data_no_orphans.
  - apply no_orphans_models. rewrite /set_production_config_route. by case_decide.
  - apply no_orphans_models. rewrite /set_system_state_route /set_system_state. by case_decide.
  - apply no_orphans_models. rewrite /add_urlprefix_to_queue.
    destruct (mapM _ _); [|done]. set (url_prefix := URLPrefix.make _ _).
    pose proof (models_add_to_queue url_prefix (Some "queue:urlprefix") R).
    by destruct (add_to_queue url_prefix _ R) as [[] ?].
  - apply no_orphans_models. rewrite /add_urlqueueitem_to_queue.
    set (url_queue_item := URLQueueItem.make _ _ _).
    pose proof (models_add_to_queue url_queue_item None R).
    by destruct (add_to_queue url_queue_item _ R) as [[] ?].
  - by apply delete_urlprefix_no_orphans.
  - apply delete_url_no_orphans.
  - by eapply eval_command_no_orphans.
Qed.

(** C25: The prefix of every row is in the store in every state that the
    system reaches when each turn of a worker, each handler of the API
    and each run of the evaluation is made in one piece. *)
Theorem reachable_no_orphans R R' :
  rtc step R R' → inv R → no_orphans R → inv R' ∧ no_orphans R'.
Proof.
  induction 1 as [|R1 R2 R3 Hstep _ IH]; [done|]. intros Hinv Hrows.
  apply IH; [by eapply step_inv|by eapply step_no_orphans].
Qed.

End system.

(** ** Examples *)

Lemma no_orphans_docs_redis : no_orphans docs_redis.
Proof.
  by apply (no_orphans_kept empty_redis);
    [apply rows_kept_save_other|apply prefixes_kept_save_prefix|apply no_orphans_empty].
Qed.

(** Two parsing workers and two pages of the documentation. *)
Definition two_pages : Config := two_crawlers (queued [intro_item; setup_item] docs_redis).

Lemma pool_no_orphans_witness :
  no_orphans (store (run_pool (steps 0 6 ++ steps 1 4 ++ Crash 1 :: steps 0 2) two_pages)) ∧
  Forall (holds (store (run_pool (steps 0 6 ++ steps 1 4 ++ Crash 1 :: steps 0 2) two_pages)))
         (threads (run_pool (steps 0 6 ++ steps 1 4 ++ Crash 1 :: steps 0 2) two_pages)).
Proof.
  apply (pool_no_orphans (H:=example_env) (H0:=example_synth) two_pages).
  - apply exec_steps.
  - by repeat constructor.
  - apply sound_queued, sound_save_prefix, sound_empty.
  - eapply no_orphans_models; [apply models_add_all|apply no_orphans_docs_redis].
Defined.

Lemma reachable_no_orphans_witness : inv scenario ∧ no_orphans scenario.
Proof.
  apply (reachable_no_orphans (H:=scenario_env) (H0:=scenario_synth) (H1:=example_web)
           (H2:=example_evals) empty_redis scenario);
    [apply scenario_reachable|apply inv_empty|apply no_orphans_empty].
Defined.

(** The rows of the two pages are rows of the prefix of the
    documentation. *)
Example two_pages_rows :
  let R := store (run_pool (steps 0 8 ++ steps 1 8) two_pages) in
  URL.url <$> find_urls_with_prefix "https://a.com/docs" R =
    ["https://a.com/docs/setup.html"; "https://a.com/docs/intro.html"] ∧
  orphans R = [].
Proof. by vm_compute. Qed.
