(* ===== verification/Requests.v ===== *)
(** * The requests of the API between the steps of the workers
    (src/backend/api.py, the handlers that write and [get_system_state_route];
    the calls of src/backend/db.py and src/backend/redis_queue.py that
    they make)

    A handler of the API runs in a thread of the server while the workers
    run in their processes: between two calls on the store that a handler
    makes, a worker can make its own.  Here a handler is the tree of the
    calls that it makes ([Calls]): a call is one of the functions of db.py
    and redis_queue.py that api.py uses ([Db], with its meaning
    [perform]), and what follows depends on its result.  [run] makes the
    calls of a handler in one piece; [call_step] makes the next one.

    A [Site] is the pool of the workers of [Interleave] together with the
    handlers of the requests that have arrived.  An [Event] is an action
    of the pool, the arrival of a request, or the next call of a handler.

    The theorems:
    - the calls of every handler, made in one piece, are the handler of
      [Api] ([calls_refine]); a handler that is served without a pause
      answers after finitely many calls, with that answer and that store
      ([serve_alone]);
    - every event keeps the store and the queues well formed, and the
      bound of [Interleave] on the rows of a prefix holds with the
      requests in between, since no call of a handler adds a row
      ([site_cap_bound]);
    - while the system is paused and the workers are at the top of their
      loops, their steps change nothing ([paused_rest]);
    - what the requests lose to the workers: a row that a worker saves
      while a prefix is being deleted stays, without its prefix
      ([delete_leaves_row], [delete_race]); a worker that has loaded a
      prefix saves it again after its deletion ([delete_undone]); the
      state and the flag of one answer of /system/state can disagree
      ([state_torn]), which they never do in an answer that is made in
      one piece ([state_agrees]).

    The handlers that only read the store and answer with another type
    ([get_urlprefix], [get_url_details] and the lists) are not threads of
    the site. *)

From Stdlib Require Import Ascii.
From stdpp Require Import gmap pretty.
From stdpp Require Import relations.
From S2P Require Import Prelude PyString DataModels Json Store Queue Url Frontier GenWorker.
From S2P Require Import Evaluation Api System Interleave Integrity.

Local Open Scope crawl_scope.

(** ** The calls on the store *)

(** The functions of db.py and redis_queue.py that the handlers call, by
    the type of their result. *)
Inductive Db : Type → Type :=
  | DbLoad (A : Type) `{HasId A} (id : string) : Db (option A)
  | DbDelete (A : Type) `{HasId A} (id : string) : Db bool
  | DbDeleteAll (A : Type) `{HasId A} : Db nat
  | DbFindUrlsWithPrefix (prefix : string) : Db (list URL.t)
  | DbAddItem (url_queue_item : URLQueueItem.t) : Db bool
  | DbAddPrefix (url_prefix : URLPrefix.t) : Db bool
  | DbSetSystemState (state : string) : Db (Result unit)
  | DbGetSystemState : Db string
  | DbIsSystemRunning : Db bool
  | DbSetProductionConfig (config_name : string) : Db unit.

(** What a call answers and what it does to the store. *)
Definition perform {B} (e : Db B) (R : Redis) : B * Redis :=
  match e with
  | DbLoad A id => (load A id R, R)
  | DbDelete A id => delete A id R
  | DbDeleteAll A => delete_all A R
  | DbFindUrlsWithPrefix prefix => (find_urls_with_prefix prefix R, R)
  | DbAddItem url_queue_item => add_to_queue url_queue_item None R
  | DbAddPrefix url_prefix => add_to_queue url_prefix (Some "queue:urlprefix") R
  | DbSetSystemState state =>
      match set_system_state state R with
      | Ok R' => (Ok (), R')
      | Err e => (Err e, R)
      end
  | DbGetSystemState => (get_system_state R, R)
  | DbIsSystemRunning => (is_system_running R, R)
  | DbSetProductionConfig config_name => ((), set_production_config config_name R)
  end.

(** A handler from the place it has reached: its answer, or its next call
    and what it does with the result. *)
Inductive Calls (A : Type) : Type :=
  | Answer (a : A)
  | Call {B : Type} (e : Db B) (k : B → Calls A).
Arguments Answer {A} a.
Arguments Call {A B} e k.

Notation "x ← 'call' e ; k" := (Call e (λ x, k))
  (at level 20, e at level 100, k at level 200, right associativity,
   format "'[v' x  ←  'call'  e ;  '/' k ']'") : crawl_scope.


(** The next call of a handler. *)
Definition call_step {A} (h : Calls A) (R : Redis) : Calls A * Redis :=
  match h with
  | Answer a => (Answer a, R)
  | Call e k => let '(b, R) := perform e R in (k b, R)
  end.


(** ** The handlers, call by call (api.py) *)

Section handlers.
Context `{Env} `{Synth} `{Web}.

(** [for ... in urls: if delete(URL, url): deleted_urls_count += 1], and
    then [k]. *)
Fixpoint delete_each {A} (urls : list string) (deleted_urls_count : nat)
    (k : nat → Calls A) : Calls A :=
  match urls with
  | [] => k deleted_urls_count
  | url :: urls =>
      deleted ← call DbDelete URL.t url;
      delete_each urls (if deleted then S deleted_urls_count else deleted_urls_count) k
  end.

(** [delete_urlprefix] (lines 408-456). *)
Definition delete_urlprefix_calls (prefix_id : string) : Calls (Response Dict) :=
  let decoded_prefix := unquote prefix_id in
  urlprefix ← call DbLoad URLPrefix.t decoded_prefix;
  match urlprefix with
  | None =>
      Answer (HTTPException 404 ("URLPrefix with prefix '" +:+ decoded_prefix +:+ "' not found"))
  | Some urlprefix =>
      delete_each (SampleURL.url <$> URLPrefix.sample_urls urlprefix) 0 (λ deleted_urls_count,
      delete_each (SampleURL.url <$> default [] (URLPrefix.validation_urls urlprefix))
        deleted_urls_count (λ deleted_urls_count,
      db_urls ← call DbFindUrlsWithPrefix decoded_prefix;
      delete_each (URL.url <$> db_urls) deleted_urls_count (λ deleted_urls_count,
      deleted ← call DbDelete URLPrefix.t decoded_prefix;
      Answer
        (if deleted then
           Returned
             [("message", VStr ("URLPrefix '" +:+ decoded_prefix +:+ "' and " +:+
                                pretty deleted_urls_count +:+
                                " associated URLs deleted successfully"));
              ("prefix", VStr decoded_prefix);
              ("deleted_urls_count", VInt (Z.of_nat deleted_urls_count))]
         else HTTPException 500 "Failed to delete URLPrefix"))))
  end.

(** [delete_url] (lines 570-599). *)
Definition delete_url_calls (url_id : string) : Calls (Response Dict) :=
  let decoded_url := unquote url_id in
  url_obj ← call DbLoad URL.t decoded_url;
  match url_obj with
  | None => Answer (HTTPException 404 ("URL '" +:+ decoded_url +:+ "' not found"))
  | Some _ =>
      deleted ← call DbDelete URL.t decoded_url;
      Answer
        (if deleted then
           Returned [("message", VStr ("URL '" +:+ decoded_url +:+ "' deleted successfully"));
                     ("url", VStr decoded_url)]
         else HTTPException 500 "Failed to delete URL")
  end.

(** [delete_evaluation_run] (lines 127-144). *)
Definition delete_evaluation_run_calls (id : string) : Calls (Response Dict) :=
  evaluation_run ← call DbLoad EvaluationRun.t id;
  match evaluation_run with
  | None => Answer (HTTPException 404 ("Evaluation run '" +:+ id +:+ "' not found"))
  | Some _ =>
      _ ← call DbDelete EvaluationRun.t id;
      Answer (Returned [("message", VStr ("Successfully deleted evaluation run '" +:+ id +:+ "'"));
                        ("deleted_id", VStr id)])
  end.

(** [clear_evaluation_runs] (lines 147-158). *)
Definition clear_evaluation_runs_calls : Calls (Response Dict) :=
  deleted_count ← call DbDeleteAll EvaluationRun.t;
  Answer (Returned [("message", VStr ("Cleared " +:+ pretty deleted_count +:+ " evaluation runs"));
                    ("deleted_count", VInt (Z.of_nat deleted_count))]).

(** [clear_model_data] (lines 161-186). *)
Definition clear_model_data_calls (model_name : string) : Calls (Response Dict) :=
  let cleared (deleted_count : nat) :=
    Answer (Returned [("message", VStr ("Cleared " +:+ pretty deleted_count +:+ " " +:+ model_name));
                      ("deleted_count", VInt (Z.of_nat deleted_count));
                      ("model_name", VStr model_name)]) in
  if decide (model_name = "evaluation_runs") then Call (DbDeleteAll EvaluationRun.t) cleared
  else if decide (model_name = "urls") then Call (DbDeleteAll URL.t) cleared
  else Answer (HTTPException 400 ("Unknown model: " +:+ model_name +:+
                                  ". Available models: ['evaluation_runs', 'urls']")).

(** [set_production_config_route] (lines 244-260). *)
Definition set_production_config_route_calls (config_name : string) : Calls (Response Dict) :=
  if decide (config_name ∈ glob_configs) then
    _ ← call DbSetProductionConfig config_name;
    Answer (Returned [("message", VStr ("Production config set to '" +:+ config_name +:+ "'"));
                      ("production_config", VStr config_name)])
  else Answer (HTTPException 404 ("Config '" +:+ config_name +:+ "' not found")).

(** [get_system_state_route] (lines 263-271). *)
Definition get_system_state_route_calls : Calls (Response Dict) :=
  state ← call DbGetSystemState;
  is_running ← call DbIsSystemRunning;
  Answer (Returned [("state", VStr state); ("is_running", VBool is_running)]).

(** [set_system_state_route] (lines 274-288). *)
Definition set_system_state_route_calls (state : string) : Calls (Response Dict) :=
  set ← call DbSetSystemState state;
  match set with
  | Ok _ =>
      is_running ← call DbIsSystemRunning;
      Answer (Returned [("message", VStr ("System state set to '" +:+ state +:+ "'"));
                        ("state", VStr state);
                        ("is_running", VBool is_running)])
  | Err e => Answer (HTTPException 400 e)
  end.

(** [add_urlprefix_to_queue] (lines 291-319): the pages of the samples
    are fetched before the call. *)
Definition add_urlprefix_to_queue_calls (request : AddURLPrefixRequest.t)
    : Calls (Response Dict) :=
  match mapM from_url (AddURLPrefixRequest.sample_urls request) with
  | Err _ => Answer (HTTPException 500 "Failed to add URLPrefix to queue")
  | Ok sample_urls =>
      let url_prefix := URLPrefix.make (AddURLPrefixRequest.prefix request) sample_urls in
      success ← call DbAddPrefix url_prefix;
      Answer
        (if success then
           Returned
             [("message", VStr ("URLPrefix '" +:+ AddURLPrefixRequest.prefix request +:+
                                "' added to queue successfully"));
              ("prefix", VStr (AddURLPrefixRequest.prefix request));
              ("sample_urls_count",
               VInt (Z.of_nat (length (AddURLPrefixRequest.sample_urls request))));
              ("queue_name", VStr "queue:urlprefix")]
         else HTTPException 500 "Failed to add URLPrefix to queue")
  end.

(** [add_urlqueueitem_to_queue] (lines 323-359); [now] is
    [int(time.time())]. *)
Definition add_urlqueueitem_to_queue_calls (request : AddURLQueueItemRequest.t) (now : Z)
    : Calls (Response Dict) :=
  let url := URL.make (AddURLQueueItemRequest.url request) None in
  let process_from_timestamp :=
    default now (AddURLQueueItemRequest.process_from_unix_timestamp request) in
  let url_queue_item :=
    URLQueueItem.make url process_from_timestamp (AddURLQueueItemRequest.times_queued request) in
  success ← call DbAddItem url_queue_item;
  Answer
    (if success then
       Returned
         [("message", VStr ("URLQueueItem for URL '" +:+ AddURLQueueItemRequest.url request +:+
                            "' added to queue successfully"));
          ("url", VStr (AddURLQueueItemRequest.url request));
          ("process_from_timestamp", VInt process_from_timestamp);
          ("times_queued", VInt (AddURLQueueItemRequest.times_queued request));
          ("queue_name", VStr "queue:urlqueueitem")]
     else HTTPException 500 "Failed to add URLQueueItem to queue").

(** ** The requests *)

(** A request for one of these handlers, with its arguments. *)
Inductive Request :=
  | DeleteEvaluationRun (id : string)
  | ClearEvaluationRuns
  | ClearModelData (model_name : string)
  | SetProductionConfig (config_name : string)
  | GetSystemState
  | SetSystemState (state : string)
  | AddUrlPrefix (request : AddURLPrefixRequest.t)
  | AddUrlQueueItem (request : AddURLQueueItemRequest.t) (now : Z)
  | DeleteUrlPrefix (prefix_id : string)
  | DeleteUrl (url_id : string).

(** The handler of a request, call by call. *)
Definition calls_of (q : Request) : Calls (Response Dict) :=
  match q with
  | DeleteEvaluationRun id => delete_evaluation_run_calls id
  | ClearEvaluationRuns => clear_evaluation_runs_calls
  | ClearModelData model_name => clear_model_data_calls model_name
  | SetProductionConfig config_name => set_production_config_route_calls config_name
  | GetSystemState => get_system_state_route_calls
  | SetSystemState state => set_system_state_route_calls state
  | AddUrlPrefix request => add_urlprefix_to_queue_calls request
  | AddUrlQueueItem request now => add_urlqueueitem_to_queue_calls request now
  | DeleteUrlPrefix prefix_id => delete_urlprefix_calls prefix_id
  | DeleteUrl url_id => delete_url_calls url_id
  end.


(** ** The site: the workers and the requests in flight *)

Record Site := mkSite {
  workers : Config;
  handlers : list (Calls (Response Dict));
}.

(** What can happen: an action of the pool of the workers, the arrival
    of a request, whose handler starts, or the next call of the handler
    of the request [rid]. *)
Inductive Event :=
  | Work (a : Action)
  | Arrive (q : Request)
  | Serve (rid : nat).

(** The handler [rid] makes its next call; nothing happens when there is
    no such request. *)
Definition serve (rid : nat) (s : Site) : Site :=
  match handlers s !! rid with
  | Some h =>
      let '(h, R) := call_step h (store (workers s)) in
      mkSite (mkConfig (threads (workers s)) R) (<[rid:=h]> (handlers s))
  | None => s
  end.

Definition happen (e : Event) (s : Site) : Site :=
  match e with
  | Work a => mkSite (act a (workers s)) (handlers s)
  | Arrive q => mkSite (workers s) (handlers s ++ [calls_of q])
  | Serve rid => serve rid s
  end.

Definition history (events : list Event) (s : Site) : Site :=
  foldl (λ s e, happen e s) s events.

Inductive site_step : relation Site :=
  | site_happen e s : site_step s (happen e s).

(** The answer to the request [rid], once its handler has made it. *)
Definition answer (rid : nat) (s : Site) : option (Response Dict) :=
  match handlers s !! rid with
  | Some (Answer r) => Some r
  | _ => None
  end.

End handlers.

(** ** A handler that runs alone *)




Section alone.
Context `{Env} `{Synth} `{Web}.
Implicit Types R : Redis.
Implicit Types s : Site.




Lemma serve_Some rid s h :
  handlers s !! rid = Some h →
  serve rid s =
  mkSite (mkConfig (threads (workers s)) (call_step h (store (workers s))).2)
         (<[rid:=(call_step h (store (workers s))).1]> (handlers s)).
Proof. rewrite /serve. intros ->. by destruct (call_step h _). Qed.

Lemma history_app events events' s :
  history (events ++ events') s = history events' (history events s).
Proof. apply foldl_app. Qed.


End alone.

(** ** What every event keeps *)

Lemma sound_fewer_models R R' : fewer_models R R' → sound R → sound R'.
Proof. intros [Hm Hq] [? ?]. split; [by eapply wf_subseteq|by eapply wf_queues_queues]. Qed.

Lemma rows_fewer_models prefix R R' :
  fewer_models R R' → wf R → rows prefix R' ≤ rows prefix R.
Proof. intros [Hm _] Hwf. by apply length_find_urls_with_prefix_subseteq. Qed.

Lemma sound_singletons R R' :
  models R' = models R → queues R' = queues R → sound R → sound R'.
Proof.
  intros Hm Hq HR. apply (sound_models_queue R); [done| |done].
  eapply wf_queues_queues; [done|apply HR].
Qed.

(** No call of the handlers breaks the store or the queues. *)
Lemma perform_sound {B} (e : Db B) R : sound R → sound (perform e R).2.
Proof.
  intros HR. destruct e; cbn [perform snd]; try done.
  - by eapply sound_fewer_models; [apply fewer_models_delete|].
  - by eapply sound_fewer_models; [apply (fewer_models_delete_all (A:=A))|].
  - by apply sound_add_item.
  - by apply sound_add_prefix.
  - rewrite /set_system_state. by case_decide.
Qed.

(** No call of the handlers adds a row to a prefix. *)
Lemma perform_rows {B} (e : Db B) R prefix :
  wf R → rows prefix (perform e R).2 ≤ rows prefix R.
Proof.
  intros Hwf. destruct e; cbn [perform snd]; try done.
  - by eapply rows_fewer_models; [apply fewer_models_delete|].
  - by eapply rows_fewer_models; [apply (fewer_models_delete_all (A:=A))|].
  - rewrite /set_system_state. by case_decide.
Qed.

Lemma call_step_sound {A} (h : Calls A) R : sound R → sound (call_step h R).2.
Proof.
  intros HR. destruct h as [a|B e k]; [done|]. simpl.
  pose proof (perform_sound e R HR). by destruct (perform e R).
Qed.

Lemma call_step_rows {A} (h : Calls A) R prefix :
  wf R → rows prefix (call_step h R).2 ≤ rows prefix R.
Proof.
  intros Hwf. destruct h as [a|B e k]; [done|]. simpl.
  pose proof (perform_rows e R prefix Hwf). by destruct (perform e R).
Qed.

Section site.
Context `{Env} `{Synth} `{Web}.
Implicit Types R : Redis.
Implicit Types s : Site.

Lemma serve_None rid s : handlers s !! rid = None → serve rid s = s.
Proof. rewrite /serve. by intros ->. Qed.

Lemma serve_threads rid s : threads (workers (serve rid s)) = threads (workers s).
Proof.
  destruct (handlers s !! rid) as [h|] eqn:Hh; [|by rewrite serve_None].
  by rewrite (serve_Some _ _ h).
Qed.

Lemma serve_sound rid s : sound (store (workers s)) → sound (store (workers (serve rid s))).
Proof.
  intros HR. destruct (handlers s !! rid) as [h|] eqn:Hh; [|by rewrite serve_None].
  rewrite (serve_Some _ _ h) //. by apply call_step_sound.
Qed.

Lemma serve_rows rid s prefix :
  wf (store (workers s)) →
  rows prefix (store (workers (serve rid s))) ≤ rows prefix (store (workers s)).
Proof.
  intros HR. destruct (handlers s !! rid) as [h|] eqn:Hh; [|by rewrite serve_None].
  rewrite (serve_Some _ _ h) //. by apply call_step_rows.
Qed.

Lemma happen_sound e s : sound (store (workers s)) → sound (store (workers (happen e s))).
Proof. destruct e; [apply act_sound|done|apply serve_sound]. Qed.

Lemma happen_crawlers e s : crawlers (workers (happen e s)) = crawlers (workers s).
Proof. destruct e; [apply act_crawlers|done|by rewrite /crawlers /= serve_threads]. Qed.

Lemma happen_cap_bound e s :
  wf (store (workers s)) → cap_bound (workers s) → cap_bound (workers (happen e s)).
Proof.
  intros Hwf Hcap. destruct e as [a|q|rid]; [by apply act_cap_bound|done|].
  intros prefix. pose proof (serve_rows rid s prefix Hwf). specialize (Hcap prefix).
  rewrite /crawlers in Hcap |- *. cbn [happen]. rewrite serve_threads /url_limit in Hcap |- *. lia.
Qed.

Lemma reachable_site s s' :
  rtc site_step s s' → sound (store (workers s)) ∧ cap_bound (workers s) →
  (sound (store (workers s')) ∧ cap_bound (workers s')) ∧
  crawlers (workers s') = crawlers (workers s).
Proof.
  induction 1 as [|s1 s2 s3 [e s0] _ IH]; [done|]. intros [HR Hcap].
  destruct IH as [? ->]; [|by rewrite happen_crawlers].
  split; [by apply happen_sound|apply happen_cap_bound; [apply HR|done]].
Qed.

Lemma history_steps events s : rtc site_step s (history events s).
Proof.
  revert s. induction events as [|e events IH]; intros s; [done|].
  eapply rtc_l; [apply (site_happen e)|apply IH].
Qed.

(** C13: The store and the queues stay well formed under every
    interleaving of the steps of the workers, their crashes and the calls
    of the handlers of the requests that arrive, and the bound on the
    rows of a prefix is the one of the pool of the workers: with W parsing
    workers, never more than 20 + (W - 1) rows. *)
Theorem site_cap_bound s s' prefix :
  rtc site_step s s' → at_top (workers s) →
  sound (store (workers s)) → cap_inv (store (workers s)) →
  sound (store (workers s')) ∧
  rows prefix (store (workers s')) ≤ url_limit + pred (crawlers (workers s)).
Proof.
  intros Hsteps Htop HR Hcap.
  destruct (reachable_site s s' Hsteps) as [[HR' Hcap'] <-];
    [by split; [|apply at_top_cap_bound]|].
  split; [done|]. specialize (Hcap' prefix). lia.
Qed.

(** *** A paused system *)

Lemma at_top_lookup σ tid t :
  at_top σ → threads σ !! tid = Some t → t = Crawler CrawlTop ∨ t = Generator GenTop.
Proof.
  intros Htop Ht. eapply Forall_lookup_1 in Htop; [|done]. destruct t; simplify_eq/=; auto.
Qed.

(** While the system is paused, a worker at the top of its loop stays
    there and leaves the store alone. *)
Lemma paused_rest a σ : is_system_running (store σ) = false → at_top σ → act a σ = σ.
Proof.
  intros Hpause Htop. rewrite /act. destruct (threads σ !! tid_of a) as [t|] eqn:Ht.
  - rewrite (on_Some _ _ _ t) //.
    assert (move a t (store σ) = (t, store σ)) as ->.
    { destruct (at_top_lookup σ _ t Htop Ht) as [-> | ->], a; by rewrite /= ?Hpause. }
    rewrite list_insert_id //. by destruct σ.
  - by rewrite on_None.
Qed.

Lemma paused_schedule schedule σ :
  is_system_running (store σ) = false → at_top σ → exec schedule σ = σ.
Proof.
  intros Hpause Htop. induction schedule as [|a schedule IH]; [done|].
  by rewrite /= paused_rest.
Qed.

End site.

(** ** What the requests lose to the workers *)

Section races.
Context `{Env} `{Synth} `{Web}.
Implicit Types R : Redis.
Implicit Types s : Site.

(** The state and the flag of an answer that is made in one piece
    agree. *)
Lemma state_agrees R :
  ∃ state, get_system_state_route R =
             [("state", VStr state); ("is_running", VBool (bool_decide (state = "RUNNING")))].
Proof. by eexists. Qed.

Lemma serve_store rid s {B} (e : Db B) k :
  handlers s !! rid = Some (Call e k) →
  store (workers (serve rid s)) = (perform e (store (workers s))).2.
Proof. intros Hh. rewrite (serve_Some _ _ _ Hh) /=. by destruct (perform e _). Qed.

Lemma act_store_parsed tid clock σ queue_item url_prefix raw_content parsed_content :
  threads σ !! tid =
    Some (Crawler (CrawlParsed queue_item url_prefix raw_content parsed_content)) →
  store (act (Step tid clock) σ) =
  save (URL.mk (URL.url (URLQueueItem.url queue_item)) (Some (URLPrefix.prefix url_prefix))
               (Some raw_content) (Some parsed_content)) (store σ).
Proof. intros Ht. by rewrite (act_Step_crawler _ _ _ _ Ht) /store crawl_step_store. Qed.

(** C15: A parsing worker that is about to save its row (line 253) and a
    handler that is about to delete the prefix of that row (line 443):
    whichever goes first, the row is in the store afterwards and its
    prefix is not. *)
Theorem delete_race s tid rid clock queue_item url_prefix raw_content parsed_content k :
  threads (workers s) !! tid =
    Some (Crawler (CrawlParsed queue_item url_prefix raw_content parsed_content)) →
  handlers s !! rid = Some (Call (DbDelete URLPrefix.t (URLPrefix.prefix url_prefix)) k) →
  ∀ events, [Work (Step tid clock); Serve rid] ≡ₚ events →
    ∃ row, load URL.t (URL.url (URLQueueItem.url queue_item)) (store (workers (history events s)))
           = Some row ∧
           URL.prefix row = Some (URLPrefix.prefix url_prefix) ∧
           load URLPrefix.t (URLPrefix.prefix url_prefix) (store (workers (history events s)))
           = None.
Proof.
  intros Ht Hh events Hevents. eexists (URL.mk _ _ _ _). split_and!; [|done|].
  all: apply Permutation_length_2_inv in Hevents as [-> | ->]; cbn [history foldl happen workers].
  - rewrite (serve_store _ _ (DbDelete URLPrefix.t (URLPrefix.prefix url_prefix)) k) // (act_store_parsed _ _ _ _ _ _ _ Ht) /=.
    by rewrite load_URL_delete_URLPrefix (load_save_id (URL.mk _ _ _ _)).
  - rewrite (act_store_parsed _ _ _ queue_item url_prefix raw_content parsed_content);
      [by rewrite serve_threads|].
    by rewrite (load_save_id (URL.mk _ _ _ _)).
  - rewrite (serve_store _ _ (DbDelete URLPrefix.t (URLPrefix.prefix url_prefix)) k) //. apply load_delete_eq.
  - rewrite (act_store_parsed _ _ _ queue_item url_prefix raw_content parsed_content);
      [by rewrite serve_threads|].
    rewrite (load_save_other (B:=URLPrefix.t)) // (serve_store _ _ (DbDelete URLPrefix.t (URLPrefix.prefix url_prefix)) k) //. apply load_delete_eq.
Qed.

End races.

(** ** One worker, one store and the operator *)

Notation run_site := (history (H:=example_env) (H0:=example_synth) (H1:=example_web)).

(** [n] steps of the worker [tid], and [n] calls of the handler [rid]. *)
Definition work (tid n : nat) : list Event := Work <$> steps tid n.
Definition serving (rid n : nat) : list Event := replicate n (Serve rid).

(** One parsing worker, the prefix of the documentation, and one of its
    pages in the queue. *)
Definition docs_site : Site :=
  mkSite (mkConfig [Crawler CrawlTop] (queued [intro_item] docs_redis)) [].

Definition delete_docs : Request := DeleteUrlPrefix "https://a.com/docs".

(** The worker takes the page, finds its prefix, counts the rows, fetches
    and parses; the request arrives, and its handler loads the prefix and
    lists its rows; the worker saves its row; the handler deletes the
    prefix and answers. *)
Definition race : list Event :=
  work 0 5 ++ Arrive delete_docs :: serving 0 2 ++ work 0 1 ++ serving 0 1.

(** The same steps and calls when the worker saves its row before the
    request arrives. *)
Definition no_race : list Event := work 0 6 ++ Arrive delete_docs :: serving 0 4.

(** The handler answers that the prefix and none of its URLs were
    deleted, and the store holds a row of the prefix without the prefix;
    one after the other, the row is deleted and counted. *)
Example delete_leaves_row :
  let s := run_site race docs_site in
  answer 0 s =
    Some (Returned
            [("message",
              VStr "URLPrefix 'https://a.com/docs' and 0 associated URLs deleted successfully");
             ("prefix", VStr "https://a.com/docs");
             ("deleted_urls_count", VInt 0)]) ∧
  load URLPrefix.t "https://a.com/docs" (store (workers s)) = None ∧
  URL.url <$> orphans (store (workers s)) = ["https://a.com/docs/intro.html"] ∧
  let s' := run_site no_race docs_site in
  (∃ message, answer 0 s' =
     Some (Returned [message; ("prefix", VStr "https://a.com/docs");
                     ("deleted_urls_count", VInt 1)])) ∧
  orphans (store (workers s')) = [].
Proof. vm_compute. split_and!; [done..|by eexists|done]. Qed.

(** One parsing worker, a prefix without recipe, and one of its pages in
    the queue. *)
Definition guide_site : Site :=
  mkSite (mkConfig [Crawler CrawlTop]
            (queued [guide_item] (save (URLPrefix.make "https://a.com/guide" []) empty_redis)))
         [].

Definition delete_guide : Request := DeleteUrlPrefix "https://a.com/guide".

(** The worker loads the prefix to add the page to its samples (line
    306); the handler deletes the prefix and answers; the worker saves
    the prefix with the sample (line 313) and queues it for generation
    (line 325). *)
Definition undo : list Event := work 0 5 ++ Arrive delete_guide :: serving 0 3 ++ work 0 2.

(** The prefix that was deleted is in the store again, and in the queue
    of the generation worker. *)
Example delete_undone :
  let s := run_site undo guide_site in
  (∃ message, answer 0 s =
     Some (Returned [message; ("prefix", VStr "https://a.com/guide");
                     ("deleted_urls_count", VInt 0)])) ∧
  (λ p, SampleURL.url <$> URLPrefix.sample_urls p) <$>
    load URLPrefix.t "https://a.com/guide" (store (workers s)) =
    Some ["https://a.com/guide/start.html"] ∧
  URLPrefix.prefix <$> omap (parse URLPrefix.t) (absq prefix_queue (store (workers s))) =
    ["https://a.com/guide"].
Proof. vm_compute. split_and!; [by eexists|done..]. Qed.

(** The system is paused; one request reads the state, and one sets it
    to running between the two calls of the first. *)
Definition torn : list Event :=
  [Arrive (SetSystemState "PAUSE"); Serve 0; Serve 0;
   Arrive GetSystemState; Arrive (SetSystemState "RUNNING"); Serve 1; Serve 2; Serve 1].

(** The answer says that the state is PAUSE and that the system is
    running. *)
Example state_torn :
  answer 1 (run_site torn (mkSite (mkConfig [] empty_redis) [])) =
    Some (Returned [("state", VStr "PAUSE"); ("is_running", VBool true)]).
Proof. by vm_compute. Qed.

(** While the system is paused, the worker does not take the page. *)
Example paused_site :
  let s := run_site [Arrive (SetSystemState "PAUSE"); Serve 0; Serve 0] docs_site in
  exec (H:=example_env) (H0:=example_synth) (steps 0 8) (workers s) = workers s.
Proof.
  apply (paused_schedule (H:=example_env) (H0:=example_synth)); [done|by repeat constructor].
Qed.

Lemma sound_docs_site : sound (store (workers docs_site)).
Proof. apply sound_queued, sound_save_prefix, sound_empty. Qed.


Lemma site_cap_bound_witness :
  let s := mkSite overshoot_start [] in
  let events := (Work <$> steps 0 4 ++ steps 1 4) ++ Arrive (DeleteUrl "https://a.com/docs/a")
                  :: serving 0 2 ++ (Work <$> steps 0 2 ++ steps 1 2) in
  sound (store (workers (run_site events s))) ∧
  rows "https://a.com/docs" (store (workers (run_site events s))) ≤ 21.
Proof.
  intros s events.
  apply (site_cap_bound (H:=example_env) (H0:=example_synth) (H1:=example_web) s).
  - apply history_steps.
  - by repeat constructor.
  - apply sound_queued, sound_crowded.
  - apply cap_inv_queued, cap_inv_crowded. rewrite /url_limit. lia.
Defined.

(** With the deletion of a row between the counts and the saves, the two
    workers leave twenty rows. *)
Example site_rows :
  let events := (Work <$> steps 0 4 ++ steps 1 4) ++ Arrive (DeleteUrl "https://a.com/docs/a")
                  :: serving 0 2 ++ (Work <$> steps 0 2 ++ steps 1 2) in
  rows "https://a.com/docs" (store (workers (run_site events (mkSite overshoot_start [])))) = 20.
Proof. by vm_compute. Qed.

Lemma delete_race_witness :
  ∃ row,
    load URL.t (URL.url (URLQueueItem.url intro_item))
      (store (workers (run_site [Serve 0; Work (Step 0 example_clock)]
                         (run_site (work 0 5 ++ Arrive delete_docs :: serving 0 2) docs_site))))
    = Some row ∧
    URL.prefix row = Some (URLPrefix.prefix docs_prefix) ∧
    load URLPrefix.t (URLPrefix.prefix docs_prefix)
      (store (workers (run_site [Serve 0; Work (Step 0 example_clock)]
                         (run_site (work 0 5 ++ Arrive delete_docs :: serving 0 2) docs_site))))
    = None.
Proof.
  refine (delete_race (H:=example_env) (H0:=example_synth) (H1:=example_web)
            (run_site (work 0 5 ++ Arrive delete_docs :: serving 0 2) docs_site) 0 0 example_clock
            intro_item docs_prefix "next.html /docs/b.html /blog/c.html" "text"
            (λ deleted, Answer _) _ _ [Serve 0; Work (Step 0 example_clock)] _);
    [vm_compute; reflexivity..|apply perm_swap].
Defined.
