(* ===== verification/FileSystem.v ===== *)
(** * A file system with the paths of pathlib
    (what src/backend/data_models.py, src/backend/evaluation.py,
    src/backend/load_html.py and src/backend/api.py call of [pathlib],
    [open] and [os])

    A path is the list of its components below the root, as pathlib
    parses it: empty components and [.] are dropped, [..] and symbolic
    links are not resolved.  The file system [FS] is a finite map from the
    paths of the files to their text and a finite set of directories.
    [mkdir], [open_w], [open_r] and [listdir] are [Path.mkdir(parents=True,
    exist_ok=True)], [open(p, "w")] with [write], [open(p, "r")] with
    [read], and [os.listdir], with the errors of the operating system as
    values.  The order of [os.listdir] is arbitrary; the model lists the
    names in the order of the elements of the set, and the lemmas speak
    of membership.

    An operation that writes is a function [FS → Result A * FS], with the
    bind [x ←ᶠ m; k] (an error leaves the files as they were at the call
    that raised); one that only reads is a function [FS → Result A].

    The lemmas: [mkdir] and [open_w] keep the invariant [wf]; what
    [open_w] wrote is what [open_r] reads; [listdir] returns the entries
    of the directory, each once; in a well-formed file system [open_r]
    raises [FileNotFoundError] exactly when the path has no entry. *)

From Stdlib Require Import Ascii.
From stdpp Require Import gmap.
From S2P Require Import Prelude PyString.

Local Open Scope crawl_scope.

Module Fs.

(** ** Paths *)

(** An absolute [pathlib.Path]: its components, from the root. *)
Notation Path := (list string).

(** The components of a string, as the constructor of [Path] parses it. *)
Definition parts (s : string) : Path :=
  filter (λ x, x ≠ "" ∧ x ≠ ".") (Py.split "/" s).

(** [p / s]: an absolute segment starts again from the root. *)
Definition joinpath (p : Path) (s : string) : Path :=
  if Py.startswith s "/" then parts s else p ++ parts s.

Infix "</>" := joinpath (at level 40, left associativity) : crawl_scope.

(** [p.parent] and [p.name]; the root is its own parent and has the
    name [""]. *)
Definition parent (p : Path) : Path := take (length p - 1) p.
Definition name (p : Path) : string := default "" (last p).

(** [p.stem]: the name without its last suffix (pathlib: the suffix starts
    at the last dot, which is neither the first nor the last character). *)
Definition stem (file_name : string) : string :=
  let l := Py.split "." file_name in
  let init := Py.join "." (take (length l - 1) l) in
  if decide (2 ≤ length l ∧ init ≠ "" ∧ last l ≠ Some "") then init else file_name.

(** The path and the paths above it, from the root. *)
Definition ancestors (p : Path) : list Path := (λ i, take i p) <$> seq 0 (S (length p)).

(** ** The file system *)

Record FS := mkFS {
  files : gmap Path string;
  dirs : gset Path;
}.

Definition is_file (p : Path) (fs : FS) : bool := bool_decide (is_Some (files fs !! p)).
Definition is_dir (p : Path) (fs : FS) : bool := bool_decide (p ∈ dirs fs).

(** [p.exists()]: the path is a file or a directory. *)
Definition entry (p : Path) (fs : FS) : bool := is_file p fs || is_dir p fs.

(** A component of the path is a file: the system call fails with
    [ENOTDIR]. *)
Definition through_file (p : Path) (fs : FS) : bool :=
  existsb (λ a, is_file a fs) (ancestors p).

(** An operation on the files that may raise. *)
Notation IO A := (FS → Result A * FS).

Definition io_bind {A B} (m : IO A) (k : A → IO B) : IO B := λ fs,
  match m fs with
  | (Ok x, fs') => k x fs'
  | (Err e, fs') => (Err e, fs')
  end.

Definition io_ret {A} (x : A) : IO A := λ fs, (Ok x, fs).

Notation "x ←ᶠ m ; k" := (io_bind m (λ x, k))
  (at level 20, m at level 100, k at level 200, only parsing,
   right associativity) : crawl_scope.

(** [p.mkdir(parents=True, exist_ok=True)]. *)
Definition mkdir (p : Path) : IO unit := λ fs,
  if is_dir p fs then (Ok (), fs)
  else if is_file p fs then (Err "FileExistsError", fs)
  else if through_file p fs then (Err "NotADirectoryError", fs)
  else (Ok (), mkFS (files fs) (dirs fs ∪ list_to_set (ancestors p))).

(** The error of [open] on a path that is not there. *)
Definition missing (p : Path) (fs : FS) : string :=
  if through_file p fs then "NotADirectoryError" else "FileNotFoundError".

(** [with open(p, "w") as f: f.write(content)]. *)
Definition open_w (p : Path) (content : string) : IO unit := λ fs,
  if is_dir p fs then (Err "IsADirectoryError", fs)
  else if is_dir (parent p) fs then (Ok (), mkFS (<[p := content]> (files fs)) (dirs fs))
  else (Err (missing p fs), fs).

(** [with open(p, "r") as f: f.read()]. *)
Definition open_r (p : Path) (fs : FS) : Result string :=
  match files fs !! p with
  | Some content => Ok content
  | None => Err (if is_dir p fs then "IsADirectoryError" else missing p fs)
  end.

(** The entries of a directory. *)
Definition children (d : Path) (fs : FS) : list Path :=
  filter (λ p, p ≠ [] ∧ parent p = d) (elements (dom (files fs) ∪ dirs fs)).

(** [os.listdir(d)]. *)
Definition listdir (d : Path) (fs : FS) : Result (list string) :=
  if is_dir d fs then Ok (name <$> children d fs)
  else Err (if is_file d fs then "NotADirectoryError" else missing d fs).

(** The invariant of a file system: the root is a directory, what holds
    an entry is a directory, and no path is both a file and a directory. *)
Record wf (fs : FS) : Prop := {
  wf_root : [] ∈ dirs fs;
  wf_dirs p : p ∈ dirs fs → parent p ∈ dirs fs;
  wf_files p : is_Some (files fs !! p) → parent p ∈ dirs fs;
  wf_disjoint p : p ∈ dirs fs → files fs !! p = None;
}.

(** A name that is one component of a path. *)
Definition plain (x : string) : Prop :=
  Py.contains_char "/" x = false ∧ x ≠ "" ∧ x ≠ ".".

#[global] Instance plain_dec x : Decision (plain x).
Proof. rewrite /plain. apply _. Defined.

(** The names of the entries are components of paths. *)
Definition named (fs : FS) : Prop :=
  Forall (Forall plain) (elements (dom (files fs) ∪ dirs fs)).

(** ** Paths: lemmas *)

Lemma parent_snoc (p : Path) x : parent (p ++ [x]) = p.
Proof. rewrite /parent length_app /= Nat.add_sub. apply take_app_length. Qed.

Lemma name_snoc (p : Path) x : name (p ++ [x]) = x.
Proof. by rewrite /name last_snoc. Qed.

Lemma parent_name (p : Path) : p ≠ [] → p = parent p ++ [name p].
Proof.
  intros Hp. induction p as [|x p _] using rev_ind; [done|].
  by rewrite parent_snoc name_snoc.
Qed.

Lemma length_parent (p : Path) : p ≠ [] → length p = S (length (parent p)).
Proof.
  intros Hp. induction p as [|x p _] using rev_ind; [done|].
  rewrite parent_snoc length_app /=. lia.
Qed.

Lemma startswith_no_sep x : Py.contains_char "/" x = false → Py.startswith x "/" = false.
Proof.
  intros Hx. destruct (Py.startswith x "/") eqn:E; [|done].
  apply Py.startswith_spec in E as [u ->]. done.
Qed.

Lemma parts_plain x : plain x → parts x = [x].
Proof.
  intros (Hx%Py.contains_char_split & ? & ?). by rewrite /parts Hx filter_cons_True.
Qed.

Lemma joinpath_plain (p : Path) x : plain x → p </> x = p ++ [x].
Proof. intros Hx. by rewrite /joinpath startswith_no_sep ?parts_plain //; apply Hx. Qed.

Lemma plain_yaml x : Py.contains_char "/" x = false → plain (x +:+ ".yaml").
Proof.
  intros Hx. split_and!.
  - by rewrite Py.contains_char_app Hx.
  - intros E%(f_equal String.length). rewrite Py.length_app /= in E. lia.
  - intros E%(f_equal String.length). rewrite Py.length_app /= in E. lia.
Qed.

Lemma elem_of_ancestors (a p : Path) : a ∈ ancestors p ↔ ∃ i, i ≤ length p ∧ a = take i p.
Proof.
  rewrite /ancestors list_elem_of_fmap. setoid_rewrite elem_of_seq.
  split; intros (i & ? & ?); exists i; split; (done || lia).
Qed.

Lemma ancestors_self (p : Path) : p ∈ ancestors p.
Proof. apply elem_of_ancestors. exists (length p). by rewrite firstn_all. Qed.

Lemma ancestors_parent (a p : Path) : a ∈ ancestors p → parent a ∈ ancestors p.
Proof.
  intros (i & Hi & ->)%elem_of_ancestors. apply elem_of_ancestors.
  exists (length (take i p) - 1). rewrite /parent take_take length_take.
  split; [lia|]. f_equal. lia.
Qed.

Lemma ancestors_length (a p : Path) : a ∈ ancestors p → length a ≤ length p.
Proof. intros (i & Hi & ->)%elem_of_ancestors. rewrite length_take. lia. Qed.

Lemma ancestors_snoc (a p : Path) x :
  a ∈ ancestors (p ++ [x]) ↔ a ∈ ancestors p ∨ a = p ++ [x].
Proof.
  rewrite !elem_of_ancestors length_app /=. split.
  - intros (i & Hi & ->). destruct (decide (i ≤ length p)) as [Hle|Hgt].
    + left. exists i. by rewrite take_app_le.
    + right. rewrite take_ge // length_app /=. lia.
  - intros [(i & Hi & ->)| ->].
    + exists i. rewrite take_app_le //. split; [lia|done].
    + exists (length p + 1). by rewrite -{3}(length_app p [x]) /= firstn_all.
Qed.

(** An entry of a directory is not above the directory. *)
Lemma snoc_not_ancestor (p : Path) x : p ++ [x] ∉ ancestors p.
Proof. intros Hin%ancestors_length. rewrite length_app /= in Hin. lia. Qed.

(** ** The file system: lemmas *)

Section fs.
Implicit Types fs : FS.
Implicit Types p q d : Path.

Lemma is_file_spec p fs : is_file p fs = true ↔ is_Some (files fs !! p).
Proof. apply bool_decide_eq_true. Qed.

Lemma is_dir_spec p fs : is_dir p fs = true ↔ p ∈ dirs fs.
Proof. apply bool_decide_eq_true. Qed.

Lemma through_file_false p fs :
  through_file p fs = false ↔ ∀ a, a ∈ ancestors p → files fs !! a = None.
Proof.
  rewrite /through_file -not_true_iff_false existsb_exists.
  setoid_rewrite <-list_elem_of_In. split.
  - intros Hno a Ha. apply eq_None_not_Some. intros Hs. apply Hno.
    exists a. by rewrite is_file_spec.
  - intros Hno (a & Ha & Hf%is_file_spec). rewrite (Hno a Ha) in Hf. by destruct Hf.
Qed.

(** What [mkdir] does when it returns: the directories above the path are
    there. *)
Lemma mkdir_Ok p fs :
  through_file p fs = false →
  mkdir p fs = (Ok (), mkFS (files fs)
                  (if is_dir p fs then dirs fs else dirs fs ∪ list_to_set (ancestors p))).
Proof.
  intros Hno. rewrite /mkdir Hno. destruct (is_dir p fs); [by destruct fs|].
  destruct (is_file p fs) eqn:Hf; [|done]. apply is_file_spec in Hf.
  rewrite (proj1 (through_file_false p fs) Hno p (ancestors_self p)) in Hf. by destruct Hf.
Qed.

Lemma mkdir_files p fs : files (mkdir p fs).2 = files fs.
Proof. rewrite /mkdir. by repeat case_match. Qed.

(** [mkdir] changes nothing, or adds the directories above the path. *)
Lemma mkdir_cases p fs :
  (mkdir p fs).2 = fs ∨
  through_file p fs = false ∧
  (mkdir p fs).2 = mkFS (files fs) (dirs fs ∪ list_to_set (ancestors p)).
Proof. rewrite /mkdir. repeat case_match; auto. Qed.

Lemma mkdir_dirs p fs q :
  q ∈ dirs (mkdir p fs).2 → q ∈ dirs fs ∨ q ∈ ancestors p ∧ through_file p fs = false.
Proof.
  destruct (mkdir_cases p fs) as [->|[Hno ->]]; [auto|]. cbn [dirs].
  rewrite elem_of_union elem_of_list_to_set. intros [?|?]; auto.
Qed.

Lemma mkdir_mono p fs q : q ∈ dirs fs → q ∈ dirs (mkdir p fs).2.
Proof.
  destruct (mkdir_cases p fs) as [->|[Hno ->]]; [auto|]. cbn [dirs].
  rewrite elem_of_union. auto.
Qed.

Lemma mkdir_fst p fs : through_file p fs = false → (mkdir p fs).1 = Ok ().
Proof. intros Hno. by rewrite mkdir_Ok. Qed.

Lemma mkdir_is_dir p fs : through_file p fs = false → is_dir p (mkdir p fs).2 = true.
Proof.
  intros Hno. rewrite mkdir_Ok //. apply is_dir_spec. cbn [snd dirs].
  destruct (is_dir p fs) eqn:Hd; [by apply is_dir_spec|].
  rewrite elem_of_union elem_of_list_to_set. right. apply ancestors_self.
Qed.

Lemma mkdir_not_dir p fs q :
  is_dir q fs = false → q ∉ ancestors p → is_dir q (mkdir p fs).2 = false.
Proof.
  intros Hq Hanc. apply not_true_iff_false.
  intros [Hin%is_dir_spec|[Hin _]]%is_dir_spec%mkdir_dirs; [congruence|done].
Qed.

Lemma mkdir_wf p fs : wf fs → wf (mkdir p fs).2.
Proof.
  intros Hwf. destruct (mkdir_cases p fs) as [->|[Hno ->]]; [done|].
  destruct Hwf as [Hroot Hdirs Hfiles Hdisj].
  split; cbn [dirs files]; setoid_rewrite elem_of_union;
    setoid_rewrite elem_of_list_to_set.
  - by left.
  - intros q [Hq|Hq]; [left; auto|right; by apply ancestors_parent].
  - intros q Hq. left. auto.
  - intros q [Hq|Hq]; [auto|]. by apply (through_file_false p fs).
Qed.

(** [open_w] *)

Lemma open_w_Ok p content fs :
  is_dir p fs = false → is_dir (parent p) fs = true →
  open_w p content fs = (Ok (), mkFS (<[p := content]> (files fs)) (dirs fs)).
Proof. intros Hp Hd. by rewrite /open_w Hp Hd. Qed.

Lemma open_w_cases p content fs :
  (open_w p content fs).2 = fs ∨
  is_dir p fs = false ∧ is_dir (parent p) fs = true ∧
  (open_w p content fs).2 = mkFS (<[p := content]> (files fs)) (dirs fs).
Proof. rewrite /open_w. repeat case_match; auto. Qed.

Lemma open_w_wf p content fs : wf fs → wf (open_w p content fs).2.
Proof.
  intros Hwf. destruct (open_w_cases p content fs) as [->|(Hp & Hd & ->)]; [done|].
  destruct Hwf as [Hroot Hdirs Hfiles Hdisj]. split; cbn [dirs files]; auto.
  - intros q. destruct (decide (q = p)) as [->|Hne]; [by intros _; apply is_dir_spec|].
    rewrite lookup_insert_ne //. auto.
  - intros q Hq. rewrite lookup_insert_ne; [|by auto].
    intros ->. apply is_dir_spec in Hq. congruence.
Qed.

Lemma open_r_Ok p fs content : open_r p fs = Ok content ↔ files fs !! p = Some content.
Proof. rewrite /open_r. destruct (files fs !! p); naive_solver. Qed.

Lemma open_r_open_w p content fs fs' :
  open_w p content fs = (Ok (), fs') → open_r p fs' = Ok content.
Proof.
  rewrite /open_w. repeat case_match; intros [= <-].
  by rewrite /open_r /= lookup_insert_eq.
Qed.

Lemma open_w_files p content fs q :
  q ≠ p → files (open_w p content fs).2 !! q = files fs !! q.
Proof.
  intros Hq. destruct (open_w_cases p content fs) as [->|(_ & _ & ->)]; [done|].
  by rewrite /= lookup_insert_ne.
Qed.

Lemma open_w_dirs p content fs : dirs (open_w p content fs).2 = dirs fs.
Proof. by destruct (open_w_cases p content fs) as [->|(_ & _ & ->)]. Qed.

Lemma through_file_snoc d x fs :
  through_file d fs = false → is_file (d ++ [x]) fs = false →
  through_file (d ++ [x]) fs = false.
Proof.
  rewrite !through_file_false. intros Hd Hx a [Ha| ->]%ancestors_snoc; [auto|].
  apply eq_None_not_Some. intros Hs%is_file_spec. congruence.
Qed.

(** [os.listdir] *)

Lemma elem_of_children d fs p :
  p ∈ children d fs ↔ entry p fs = true ∧ p ≠ [] ∧ parent p = d.
Proof.
  rewrite /children list_elem_of_filter elem_of_elements elem_of_union elem_of_dom.
  rewrite /entry orb_true_iff is_file_spec is_dir_spec. tauto.
Qed.

Lemma listdir_Ok d fs l : listdir d fs = Ok l ↔ is_dir d fs = true ∧ l = name <$> children d fs.
Proof. rewrite /listdir. destruct (is_dir d fs); naive_solver. Qed.

(** The names that [os.listdir] returns are the entries of the directory,
    each one once. *)
Lemma elem_of_listdir d fs l x :
  listdir d fs = Ok l → x ∈ l ↔ entry (d ++ [x]) fs = true.
Proof.
  intros [_ ->]%listdir_Ok. rewrite list_elem_of_fmap.
  setoid_rewrite elem_of_children. split.
  - intros (p & -> & He & Hp & <-). by rewrite -parent_name.
  - intros He. exists (d ++ [x]). rewrite name_snoc parent_snoc.
    split_and!; [done..|by destruct d|done].
Qed.

Lemma NoDup_listdir d fs l : listdir d fs = Ok l → NoDup l.
Proof.
  intros [_ ->]%listdir_Ok.
  apply NoDup_fmap_2_strong; [|apply NoDup_filter, NoDup_elements].
  intros p q (_ & Hp & Hpd)%elem_of_children (_ & Hq & Hqd)%elem_of_children Hn.
  by rewrite (parent_name p) // (parent_name q) // Hpd Hqd Hn.
Qed.

Lemma named_entry p fs : named fs → entry p fs = true → Forall plain p.
Proof.
  intros Hn He. apply (proj1 (Forall_forall _ _) Hn).
  apply elem_of_elements, elem_of_union. rewrite elem_of_dom -is_file_spec -is_dir_spec.
  by apply orb_true_iff.
Qed.

(** In a well-formed file system, what is not a directory has no entry. *)
Lemma wf_no_entry d x fs : wf fs → is_dir d fs = false → entry (d ++ [x]) fs = false.
Proof.
  intros [_ Hdirs Hfiles _] Hd. apply not_true_iff_false.
  intros [Hf%is_file_spec%Hfiles|Hf%is_dir_spec%Hdirs]%orb_true_iff;
    rewrite parent_snoc in Hf; apply is_dir_spec in Hf; congruence.
Qed.

(** In a well-formed file system, the paths above a directory are
    directories, and a path in a directory does not go through a file. *)
Lemma wf_ancestors d a fs : wf fs → d ∈ dirs fs → a ∈ ancestors d → a ∈ dirs fs.
Proof.
  intros Hwf. revert a. induction d as [|x d IH] using rev_ind; intros a Hd Ha.
  - apply elem_of_ancestors in Ha as (i & _ & ->). rewrite take_nil. apply Hwf.
  - apply ancestors_snoc in Ha as [Ha| ->]; [|done]. apply IH; [|done].
    rewrite -(parent_snoc d x). by apply Hwf.
Qed.

Lemma wf_through_file d x fs :
  wf fs → is_dir d fs = true → is_file (d ++ [x]) fs = false →
  through_file (d ++ [x]) fs = false.
Proof.
  intros Hwf Hd%is_dir_spec Hx. apply through_file_snoc; [|done].
  apply through_file_false. intros a Ha. by eapply wf_disjoint, wf_ancestors.
Qed.

(** [open] finds the file, unless there is no entry of that name. *)
Lemma open_r_not_found d x fs :
  wf fs → is_dir d fs = true →
  open_r (d ++ [x]) fs = Err "FileNotFoundError" ↔ entry (d ++ [x]) fs = false.
Proof.
  intros Hwf Hd. rewrite /open_r /entry /missing.
  destruct (files fs !! (d ++ [x])) as [content|] eqn:Hf.
  - by rewrite (proj2 (is_file_spec _ _)).
  - assert (is_file (d ++ [x]) fs = false) as Hnf.
    { apply not_true_iff_false. intros Hs%is_file_spec. rewrite Hf in Hs. by destruct Hs. }
    rewrite Hnf wf_through_file //. by destruct (is_dir (d ++ [x]) fs).
Qed.

End fs.

Lemma stem_yaml x : x ≠ "" → stem (x +:+ ".yaml") = x.
Proof.
  intros Hx. rewrite /stem. change (x +:+ ".yaml") with (x +:+ String "." "yaml").
  rewrite Py.split_app length_app /= Nat.add_sub take_app_length Py.join_split last_snoc.
  rewrite decide_True //. split_and!; [|done..].
  pose proof (Py.length_split "." x). lia.
Qed.

End Fs.
