(* ===== verification/Files.v ===== *)
(** * The files of the repository: samples, configurations, pages
    (src/backend/paths.py; src/backend/load_html.py;
    src/backend/data_models.py: [SampleURL.save], [SampleURL.load],
    [ParserGeneratorConfig.from_config]; src/backend/parser.py:
    [ParserGenerator.from_config]; src/backend/evaluation.py:
    [save_sample_urls] and [main]; src/backend/api.py: the glob of the
    configurations and the paths of the front end)

    [Argparse] is the parsing of the options of a command; which command
    runs is decided by [parse_args] as argparse does it, by the first
    argument.

    The operations are written over the file system of [FileSystem].
    [Yaml] is the PyYAML library; what a theorem needs of it is that the
    value at hand is read back from its dump ([yaml_roundtrips]).  [Http]
    is the requests library and the working directory of the process.
    The oracles of the other files are given here their meaning:
    [fs_evals] is the directory of the evaluation set as [Evaluation]
    reads it, [file_web] the glob of the API, [file_provider] the loader
    of the configurations and the validation of the answers of the
    provider, [http_env] the loader of the pages of the crawler.

    The theorems: the command add-evals keeps the file system well
    formed ([add_evals_wf]); a sample that was saved is loaded back
    ([SampleURL_save_load]), unless a later sample with the same last
    segment of the URL took its file ([save_same_name]); the samples
    that add-evals saved for a new domain are the ones [from_evals]
    loads ([add_evals_from_evals]), and a domain whose validation pages
    could not be fetched has no validation directory, so that [from_evals]
    raises ([from_evals_no_validation]); the glob lists the names that
    [from_config] finds, but for a file named [.yaml]
    ([glob_from_config], [glob_dot_yaml]); the configuration that the
    start of the API makes the production configuration is one that the
    generation worker finds ([lifespan_config_found]); the script only
    runs a command that its parser knows, so the branches of [main] for
    generate and test are never taken ([script_registered]), and eval
    without [--config] raises ([eval_default_config]); an answer of the
    provider that conforms to the schema of the request is never refused
    ([request_conforms]); [load_html_to_file] writes nothing when the
    status of the answer is an error ([load_html_to_file_spec]). *)

From Stdlib Require Import Ascii.
From stdpp Require Import gmap.
From S2P Require Import Prelude PyString DataModels Json Store Url Frontier GenWorker.
From S2P Require Import Synthesizer Evaluation Api FileSystem.

Local Open Scope crawl_scope.

Module Files.
Import Fs.

(** paths.py: [THIS_FILE] is the resolved path of the module. *)
Class Paths := THIS_FILE : Path.

Section paths.
Context `{Paths}.

Definition THIS_DIR : Path := parent THIS_FILE.
Definition CONFIGS_PATH : Path := parent THIS_DIR </> "configs".
Definition EVALS_PATH : Path := parent THIS_DIR </> "evals".

End paths.

(** ** YAML *)

Class Yaml := {
  (** [yaml.safe_dump(v, sort_keys=False)]. *)
  safe_dump : Value → string;
  (** [yaml.safe_load(text)] and [yaml.load(text, Loader=yaml.SafeLoader)]. *)
  safe_load : string → Result Value;
}.

(** The value is read back from its dump. *)
Definition yaml_roundtrips `{Yaml} (v : Value) : Prop := safe_load (safe_dump v) = Ok v.

(** ** Samples *)

Section samples.
Context `{Paths} `{Yaml}.

(** [self.url.split('/')[-1]]. *)
Definition url_path (url : string) : string := default "" (last (Py.split "/" url)).

(** [EVALS_PATH / domain / "validation"] or [EVALS_PATH / domain / "input"]. *)
Definition sample_dir (domain : string) (validation : bool) : Path :=
  EVALS_PATH </> domain </> (if validation then "validation" else "input").

(** [SampleURL.save(self, domain, validation)] (data_models.py, lines
    97-107). *)
Definition SampleURL_save (self : SampleURL.t) (domain : string) (validation : bool)
    : IO Path :=
  let url_path := url_path (SampleURL.url self) in
  let file_name := sample_dir domain validation </> (url_path +:+ ".yaml") in
  _ ←ᶠ mkdir (parent file_name);
  let content := safe_dump (SampleURL_model_dump self) in
  _ ←ᶠ open_w file_name content;
  io_ret file_name.

(** [SampleURL.load(domain, file_name, validation)] (lines 110-119). *)
Definition SampleURL_load (domain file_name : string) (validation : bool) (fs : FS)
    : Result SampleURL.t :=
  let file_name := if Py.endswith file_name ".yaml" then file_name
                   else file_name +:+ ".yaml" in
  let file_name := sample_dir domain validation </> file_name in
  text ←ᵣ open_r file_name fs;
  content ←ᵣ safe_load text;
  construct SampleURL_validate content.

(** The directory of the evaluation set, read from the files. *)
#[export] Instance fs_evals (fs : FS) : Evals := {|
  listdir_evals := listdir EVALS_PATH fs;
  load_samples domain validation :=
    file_names ←ᵣ listdir (sample_dir domain validation) fs;
    mapM (λ file_name, SampleURL_load domain file_name validation fs) file_names;
|}.

(** [save_sample_urls(sample_urls, domain, validation)] (evaluation.py,
    lines 74-81): a sample that cannot be saved is reported and passed
    over. *)
Fixpoint save_sample_urls (sample_urls : list SampleURL.t) (domain : string)
    (validation : bool) (fs : FS) : FS :=
  match sample_urls with
  | [] => fs
  | sample_url :: rest =>
      save_sample_urls rest domain validation (SampleURL_save sample_url domain validation fs).2
  end.

(** The command [add-evals] of [main] (lines 112-127). *)
Definition add_evals `{Env} (domain : string) (input_urls validation_urls : list string)
    (fs : FS) : FS :=
  let input_samples := create_sample_urls input_urls in
  let fs := save_sample_urls input_samples domain false fs in
  let validation_samples := create_sample_urls validation_urls in
  save_sample_urls validation_samples domain true fs.

End samples.

(** ** Configurations *)

Section configs.
Context `{Paths} `{Yaml}.

(** [ParserGeneratorConfig.from_config(config_name)] (data_models.py,
    lines 267-272). *)
Definition ParserGeneratorConfig_from_config (config_name : string) (fs : FS)
    : Result ParserGeneratorConfig.t :=
  text ←ᵣ open_r (CONFIGS_PATH </> (config_name +:+ ".yaml")) fs;
  config ←ᵣ safe_load text;
  config_of_yaml config_name config.

(** [ParserGenerator.from_config(config_name)] (parser.py, lines 122-129):
    the generator holds its configuration. *)
Definition ParserGenerator_from_config (config_name : string) (fs : FS)
    : Result ParserGeneratorConfig.t :=
  config ←ᵣ ParserGeneratorConfig_from_config config_name fs;
  Ok config.

(** [Path(__file__).parent.parent.glob("configs/*.yaml")] (api.py, lines 56
    and 199): the entries of the directory whose name ends in [.yaml];
    none when the directory is not there. *)
Definition glob_configs_yaml (fs : FS) : list Path :=
  if is_dir CONFIGS_PATH fs
  then filter (λ p, Py.endswith (name p) ".yaml" = true) (children CONFIGS_PATH fs)
  else [].

(** [config_file.stem for config_file in ...]. *)
Definition config_stems (fs : FS) : list string := (λ p, stem (name p)) <$> glob_configs_yaml fs.

(** api.py, lines 94-95: the directory above the one of the module, as in
    paths.py. *)
Definition FRONTEND_DIST : Path := parent THIS_DIR </> "frontend" </> "dist".
Definition INDEX_FILE : Path := FRONTEND_DIST </> "index.html".

(** What the handlers of the API read of the files. *)
Definition file_web (unquote : string → string) (fs : FS) : Web := {|
  Api.unquote := unquote;
  glob_configs := config_stems fs;
  index_file_exists := entry INDEX_FILE fs;
|}.

(** The provider whose answers are validated by the model of pydantic and
    whose configurations are read from the files. *)
Definition file_provider `{JsonLib} (P : Provider) (fs : FS) : Provider := {|
  create_response := create_response (Provider := P);
  Synthesizer.model_validate_json := Json.model_validate_json;
  clean_html := clean_html (Provider := P);
  format_prompt := format_prompt (Provider := P);
  model_dump_json := model_dump_json (Provider := P);
  repr_list := repr_list (Provider := P);
  load_generator_config := λ config_name, ParserGenerator_from_config config_name fs;
|}.

End configs.

(** ** The page loader (load_html.py) *)

(** What [load_raw_html] reads of a [requests.Response]. *)
Record HttpResponse := mkHttpResponse {
  status_code : nat;
  text : string;
}.

Class Http := {
  (** [requests.get(url, headers={"User-Agent": ua})]. *)
  requests_get : string → string → Result HttpResponse;
  (** [os.getcwd()], against which a relative path is resolved. *)
  getcwd : Path;
}.

Section load_html.
Context `{Http}.

Definition UA : string := "parser-generator/1.0 (jan.vegt@gmail.com)".

(** [response.raise_for_status()]. *)
Definition raise_for_status (response : HttpResponse) : Result unit :=
  if bool_decide (400 ≤ status_code response < 600) then Err "HTTPError" else Ok ().

(** [load_raw_html(url)] (lines 9-12). *)
Definition load_raw_html (url : string) : Result string :=
  response ←ᵣ requests_get url UA;
  _ ←ᵣ raise_for_status response;
  Ok (text response).

(** [Path(output_path).parent] for a path that is given as a string: a
    relative path is resolved against the working directory, and its
    parent is never above that directory. *)
Definition str_parent (output_path : string) : Path :=
  if Py.startswith output_path "/" then parent (parts output_path)
  else getcwd ++ parent (parts output_path).

(** [with open(output_path, "w") as f: f.write(content)] for a path that
    is given as a string: the empty string names no file, and a string
    that ends in a slash names a directory. *)
Definition open_w_str (output_path content : string) : IO unit := λ fs,
  if decide (output_path = "") then (Err "FileNotFoundError", fs)
  else if Py.endswith output_path "/" then
    (Err (if is_file (getcwd </> output_path) fs then "NotADirectoryError"
          else "IsADirectoryError"), fs)
  else open_w (getcwd </> output_path) content fs.

(** [load_html_to_file(url, output_path)] (lines 15-24). *)
Definition load_html_to_file (url output_path : string) : IO unit := λ fs,
  match load_raw_html url with
  | Err e => (Err e, fs)
  | Ok html_content =>
      (_ ←ᶠ mkdir (str_parent output_path);
       open_w_str output_path html_content) fs
  end.

(** The environment of the crawler whose pages come from [load_raw_html]. *)
Definition http_env `{UrlLib} `{Extractor} : Env := {|
  Frontier.load_raw_html := load_raw_html;
|}.

End load_html.

(** ** The evaluation script (evaluation.py, [main]) *)

(** The attributes of the namespace that [parser.parse_args()] returns:
    no command, one of the two commands that [main] registers with its
    arguments, or a command that [main] tests for and does not
    register, with the attributes that its branch reads. *)
Inductive Args :=
  | NoCommand
  | AddEvals (domain : string) (input_urls validation_urls : list string)
  | Eval (config : list string) (domain : option (list string))
  | Unregistered (command domain config : string).

(** The value of [--config] when the option is not given (line 101). *)
Definition default_config : list string := [""].

(** The parsers of the options of the two commands (lines 93-97 and
    101-104). *)
Class Argparse := {
  parse_add_evals : list string → Result (string * list string * list string);
  parse_eval : list string → Result (list string * option (list string));
}.

(** [parser.parse_args()] on the arguments of the command line (lines
    85-106): the first argument chooses among the commands that were added
    to the parser, and another choice ends the script. *)
Definition parse_args `{Argparse} (argv : list string) : Result Args :=
  match argv with
  | [] => Ok NoCommand
  | command :: rest =>
      if decide (command = "add-evals") then
        '(domain, input_urls, validation_urls) ← parse_add_evals rest;
        Ok (AddEvals domain input_urls validation_urls)
      else if decide (command = "eval") then
        '(config, domain) ← parse_eval rest;
        Ok (Eval config domain)
      else Err ("argument command: invalid choice: '" +:+ command +:+ "'")
  end.

Section main.
Context `{Paths} `{Yaml} `{JsonLib} `{PySet} `{Env}.

(** The body of the branches for [generate] and [test] (lines 151-164 and
    169-184): an exception ends the script with status 1. *)
Definition generate_command (P : Provider) (domain config : string) (fs : FS)
    : Result unit :=
  match (url_prefix ←ᵣ from_evals (H := fs_evals fs) domain;
         parser_generator ←ᵣ ParserGenerator_from_config config fs;
         generate_parser (H1 := file_provider P fs) parser_generator url_prefix) with
  | Ok _ => Ok ()
  | Err _ => Err "1"
  end.

(** [main()] (lines 84-184) on the namespace of the arguments: [now] is
    the time that the run of [eval] is stamped with. *)
Definition main (P : Provider) (args : Args) (now : string) (fs : FS) (R : Redis)
    : Result (FS * Redis) :=
  match args with
  | NoCommand => Ok (fs, R)
  | AddEvals domain input_urls validation_urls =>
      Ok (add_evals domain input_urls validation_urls fs, R)
  | Eval config domain =>
      R ←ᵣ eval_command (H := fs_evals fs)
             (H1 := generator_synth (H1 := file_provider P fs)) config domain now R;
      Ok (fs, R)
  | Unregistered command domain config =>
      if decide (command = "generate" ∨ command = "test") then
        _ ←ᵣ generate_command P domain config fs;
        Ok (fs, R)
      else Ok (fs, R)
  end.

(** The script: the arguments are parsed and [main] runs on them. *)
Definition script `{Argparse} (P : Provider) (argv : list string) (now : string)
    (fs : FS) (R : Redis) : Result (FS * Redis) :=
  args ←ᵣ parse_args argv;
  main P args now fs R.

End main.

Lemma url_path_no_sep url : Py.contains_char "/" (url_path url) = false.
Proof.
  rewrite /url_path. pose proof (Py.split_no_sep "/" url) as Hall.
  destruct (last (Py.split "/" url)) as [x|] eqn:Hx; [|done].
  apply last_Some_elem_of in Hx. by apply (proj1 (Forall_forall _ _) Hall).
Qed.

(** ** Samples: lemmas *)

Section samples_lemmas.
Context `{Paths} `{Yaml}.
Implicit Types fs : FS.
Implicit Types self s : SampleURL.t.
Implicit Types samples : list SampleURL.t.

(** The name of the file of a sample. *)
Definition file_name self : string := url_path (SampleURL.url self) +:+ ".yaml".

Lemma sample_file_snoc (d : Path) self : d </> file_name self = d ++ [file_name self].
Proof. apply joinpath_plain, plain_yaml, url_path_no_sep. Qed.

(** The files after [self.save(domain, validation)]: a directory that
    could not be made leaves them as they were. *)
Lemma SampleURL_save_snd self domain validation fs :
  let d := sample_dir domain validation in
  (SampleURL_save self domain validation fs).2 =
  if is_Ok (mkdir d fs).1
  then (open_w (d ++ [file_name self]) (safe_dump (SampleURL_model_dump self))
          (mkdir d fs).2).2
  else (mkdir d fs).2.
Proof.
  rewrite /SampleURL_save -/(file_name self) sample_file_snoc parent_snoc /io_bind.
  destruct (mkdir _ fs) as [[[]|e] fs1]; [|done]. simpl. by case_match; case_match.
Qed.

(** The outcome of a save in a directory that can be made and where the
    name of the file is not taken by a directory. *)
Lemma SampleURL_save_Ok self domain validation fs :
  let d := sample_dir domain validation in
  through_file d fs = false → is_dir (d ++ [file_name self]) fs = false →
  SampleURL_save self domain validation fs =
  (Ok (d ++ [file_name self]),
   mkFS (<[d ++ [file_name self] := safe_dump (SampleURL_model_dump self)]> (files fs))
        (dirs (mkdir d fs).2)).
Proof.
  intros d Hno Hf.
  rewrite /SampleURL_save -/(file_name self) sample_file_snoc parent_snoc /io_bind -/d.
  pose proof (mkdir_fst d fs Hno) as H1. pose proof (mkdir_is_dir d fs Hno) as H2.
  pose proof (mkdir_not_dir d fs _ Hf (snoc_not_ancestor _ _)) as H3.
  pose proof (mkdir_files d fs) as H4.
  destruct (mkdir d fs) as [r fs1]; simpl in *; subst r.
  by rewrite open_w_Ok ?parent_snoc // H4.
Qed.

Lemma SampleURL_save_wf self domain validation fs :
  wf fs → wf (SampleURL_save self domain validation fs).2.
Proof.
  intros Hwf. rewrite SampleURL_save_snd.
  case_match; [apply open_w_wf|]; by apply mkdir_wf.
Qed.

Lemma save_sample_urls_wf samples domain validation fs :
  wf fs → wf (save_sample_urls samples domain validation fs).
Proof.
  revert fs. induction samples as [|s samples IH]; intros fs Hwf; [done|].
  by apply IH, SampleURL_save_wf.
Qed.

(** A save that returned wrote the dump at the path it returned. *)
Lemma SampleURL_save_inv self domain validation fs p fs' :
  SampleURL_save self domain validation fs = (Ok p, fs') →
  p = sample_dir domain validation ++ [file_name self] ∧
  files fs' !! (sample_dir domain validation ++ [file_name self])
    = Some (safe_dump (SampleURL_model_dump self)).
Proof.
  rewrite /SampleURL_save -/(file_name self) sample_file_snoc /io_bind.
  destruct (mkdir _ fs) as [[[]|e] fs1]; [|done].
  destruct (open_w _ _ fs1) as [[[]|e] fs2] eqn:Hw; intros [= <- <-].
  split; [done|]. by apply open_r_Ok, (open_r_open_w _ _ fs1).
Qed.

(** What was saved is loaded back. *)
Lemma SampleURL_load_Ok self domain validation fs :
  yaml_roundtrips (SampleURL_model_dump self) →
  files fs !! (sample_dir domain validation ++ [file_name self])
    = Some (safe_dump (SampleURL_model_dump self)) →
  SampleURL_load domain (file_name self) validation fs = Ok self.
Proof.
  intros Hrt Hf. rewrite /SampleURL_load {1}/file_name Py.endswith_app.
  by rewrite sample_file_snoc (proj2 (open_r_Ok _ _ _) Hf) Hrt SampleURL_roundtrip.
Qed.

(** *** What a sequence of saves changes *)

Section saves.
Context (domain : string) (validation : bool).
Notation d := (sample_dir domain validation).
Notation save_all samples := (save_sample_urls samples domain validation).
Notation text s := (safe_dump (SampleURL_model_dump s)).

Lemma SampleURL_save_files self fs q :
  q ≠ d ++ [file_name self] →
  files (SampleURL_save self domain validation fs).2 !! q = files fs !! q.
Proof.
  intros Hq. rewrite SampleURL_save_snd.
  case_match; by rewrite ?open_w_files ?mkdir_files.
Qed.

Lemma SampleURL_save_dirs self fs :
  dirs (SampleURL_save self domain validation fs).2 = dirs (mkdir d fs).2.
Proof. rewrite SampleURL_save_snd. case_match; by rewrite ?open_w_dirs. Qed.

Lemma save_sample_urls_files samples fs q :
  (∀ s, s ∈ samples → q ≠ d ++ [file_name s]) →
  files (save_all samples fs) !! q = files fs !! q.
Proof.
  revert fs. induction samples as [|s samples IH]; intros fs Hq; [done|].
  rewrite /= IH; [intros; apply Hq; by right|].
  apply SampleURL_save_files, Hq. by left.
Qed.

Lemma save_sample_urls_mono samples fs q : q ∈ dirs fs → q ∈ dirs (save_all samples fs).
Proof.
  revert fs. induction samples as [|s samples IH]; intros fs Hq; [done|].
  apply IH. rewrite SampleURL_save_dirs. by apply mkdir_mono.
Qed.

Lemma save_sample_urls_dirs samples fs q :
  q ∈ dirs (save_all samples fs) → q ∈ dirs fs ∨ q ∈ ancestors d.
Proof.
  revert fs. induction samples as [|s samples IH]; intros fs; [auto|].
  intros [Hq|Hq]%IH; [|auto]. rewrite SampleURL_save_dirs in Hq.
  apply mkdir_dirs in Hq. tauto.
Qed.

(** The directory can be made and none of its entries is a directory: every
    save succeeds. *)
Definition ready fs : Prop := through_file d fs = false ∧ ∀ x, is_dir (d ++ [x]) fs = false.

Lemma SampleURL_save_ready self fs :
  ready fs → ready (SampleURL_save self domain validation fs).2.
Proof.
  intros [Hno Hdir]. split.
  - apply through_file_false. intros a Ha. rewrite SampleURL_save_files.
    + intros ->. by apply snoc_not_ancestor in Ha.
    + by apply (through_file_false d fs).
  - intros x. rewrite /is_dir SampleURL_save_dirs. apply mkdir_not_dir; [done|].
    apply snoc_not_ancestor.
Qed.

Lemma save_sample_urls_ready samples fs : ready fs → ready (save_all samples fs).
Proof.
  revert fs. induction samples as [|s samples IH]; intros fs Hr; [done|].
  by apply IH, SampleURL_save_ready.
Qed.

Lemma save_sample_urls_is_dir samples fs :
  through_file d fs = false → samples ≠ [] → is_dir d (save_all samples fs) = true.
Proof.
  intros Hno Hne. destruct samples as [|s samples]; [done|].
  apply is_dir_spec. cbn [save_sample_urls]. apply save_sample_urls_mono.
  rewrite SampleURL_save_dirs.
  by apply is_dir_spec, mkdir_is_dir.
Qed.

(** The files of the directory after the saves: the ones that were there
    and one for each sample. *)
Lemma save_sample_urls_is_file samples fs x :
  ready fs →
  is_file (d ++ [x]) (save_all samples fs) = true ↔
  is_file (d ++ [x]) fs = true ∨ x ∈ file_name <$> samples.
Proof.
  revert fs. induction samples as [|s samples IH]; intros fs Hr.
  { rewrite /= elem_of_nil. tauto. }
  rewrite /= IH; [by apply SampleURL_save_ready|].
  destruct Hr as [Hno Hdir]. rewrite SampleURL_save_Ok // elem_of_cons !is_file_spec /=.
  destruct (decide (x = file_name s)) as [->|Hne].
  - rewrite lookup_insert_eq. naive_solver.
  - rewrite lookup_insert_ne; [naive_solver|]. naive_solver.
Qed.

(** With one sample for each name, the file of a sample holds its dump. *)
Lemma save_sample_urls_content samples fs s :
  ready fs → NoDup (file_name <$> samples) → s ∈ samples →
  files (save_all samples fs) !! (d ++ [file_name s]) = Some (text s).
Proof.
  revert fs. induction samples as [|s' samples IH]; intros fs Hr Hnd Hs.
  { by apply elem_of_nil in Hs. }
  apply NoDup_cons in Hnd as [Hs' Hnd]. simpl.
  apply elem_of_cons in Hs as [->|Hs]; [|by apply IH; [apply SampleURL_save_ready|..]].
  rewrite save_sample_urls_files.
  - intros r Hr' [=E]%(inj (app d)). apply Hs', list_elem_of_fmap. by exists r.
  - destruct Hr as [Hno Hdir]. by rewrite SampleURL_save_Ok //= lookup_insert_eq.
Qed.

(** The directory holds the samples: one file for each, and nothing else. *)
Record stored (samples : list SampleURL.t) (fs : FS) : Prop := {
  stored_dir : is_dir d fs = true;
  stored_names x : entry (d ++ [x]) fs = true ↔ x ∈ file_name <$> samples;
  stored_file s : s ∈ samples → files fs !! (d ++ [file_name s]) = Some (text s);
}.

Lemma save_sample_urls_stored samples fs :
  wf fs → is_dir d fs = false → through_file d fs = false →
  samples ≠ [] → NoDup (file_name <$> samples) →
  stored samples (save_all samples fs).
Proof.
  intros Hwf Hd Hno Hne Hnd.
  assert (ready fs) as Hr.
  { split; [done|]. intros x. by apply (orb_false_elim _ _ (wf_no_entry d x fs Hwf Hd)). }
  split.
  - by apply save_sample_urls_is_dir.
  - intros x. rewrite /entry (proj2 (save_sample_urls_ready samples fs Hr)) orb_false_r.
    rewrite save_sample_urls_is_file //.
    rewrite (proj1 (orb_false_elim _ _ (wf_no_entry d x fs Hwf Hd))). naive_solver.
  - intros s Hs. by apply save_sample_urls_content.
Qed.

(** What [from_evals] reads of a directory that holds the samples. *)
Lemma load_samples_stored samples fs :
  stored samples fs → NoDup (file_name <$> samples) →
  Forall (λ s, yaml_roundtrips (SampleURL_model_dump s)) samples →
  ∃ l, load_samples (Evals := fs_evals fs) domain validation = Ok l ∧ l ≡ₚ samples.
Proof.
  intros [Hd Hnames Hfile] Hnd Hrt. simpl.
  destruct (listdir d fs) as [l|] eqn:Hl; [|by rewrite /listdir Hd in Hl].
  assert (file_name <$> samples ≡ₚ l) as Hperm.
  { apply NoDup_Permutation; [done|by eapply NoDup_listdir|].
    intros x. by rewrite (elem_of_listdir _ _ _ _ Hl) Hnames. }
  destruct (mapM_Permutation (λ file_name, SampleURL_load domain file_name validation fs)
              _ _ samples Hperm) as (r & -> & Hr); [|by exists r].
  apply mapM_fmap_Ok. intros s Hs. apply SampleURL_load_Ok; [|by apply Hfile].
  by apply (proj1 (Forall_forall _ _) Hrt).
Qed.

End saves.

Lemma sample_dir_snoc domain validation :
  sample_dir domain validation
  = (EVALS_PATH </> domain) ++ [if validation then "validation" else "input"].
Proof. rewrite /sample_dir. by destruct validation; apply joinpath_plain. Qed.

Lemma sample_dir_ne domain : sample_dir domain false ≠ sample_dir domain true.
Proof. rewrite !sample_dir_snoc. by intros [_ [=]]%app_inj_tail. Qed.

Lemma length_sample_dir domain validation :
  length (sample_dir domain validation) = S (length (EVALS_PATH </> domain)).
Proof. rewrite sample_dir_snoc length_app /=. lia. Qed.

(** The directories of a domain that is not there can be made. *)
Lemma new_domain domain validation fs :
  wf fs → is_dir (EVALS_PATH </> domain) fs = false →
  through_file (EVALS_PATH </> domain) fs = false →
  is_dir (sample_dir domain validation) fs = false ∧
  through_file (sample_dir domain validation) fs = false.
Proof.
  intros Hwf Hd Hno. rewrite sample_dir_snoc.
  destruct (orb_false_elim _ _ (wf_no_entry _ (if validation then "validation" else "input")
                                   fs Hwf Hd)) as [Hf Hdir].
  split; [done|]. by apply through_file_snoc.
Qed.

(** The saves of the input pages leave the validation directory to be
    made. *)
Lemma input_saves_validation domain samples fs :
  is_dir (sample_dir domain true) fs = false →
  through_file (sample_dir domain true) fs = false →
  is_dir (sample_dir domain true) (save_sample_urls samples domain false fs) = false ∧
  through_file (sample_dir domain true) (save_sample_urls samples domain false fs) = false.
Proof.
  intros Hd Hno. split.
  - apply not_true_iff_false. intros [Hin|Hin]%is_dir_spec%save_sample_urls_dirs.
    { apply is_dir_spec in Hin. congruence. }
    rewrite (sample_dir_snoc domain false) in Hin.
    apply ancestors_snoc in Hin as [Hin%ancestors_length|Hin].
    + rewrite length_sample_dir in Hin. lia.
    + apply (sample_dir_ne domain). by rewrite Hin sample_dir_snoc.
  - apply through_file_false. intros a Ha. rewrite save_sample_urls_files.
    + intros s _ ->. apply ancestors_length in Ha.
      rewrite length_app !length_sample_dir /= in Ha. lia.
    + by apply (through_file_false (sample_dir domain true) fs).
Qed.

(** Saves in one directory leave the entries of another one as they
    were. *)
Lemma stored_frame domain validation domain' validation' samples samples' fs :
  sample_dir domain validation ≠ sample_dir domain' validation' →
  length (sample_dir domain' validation') ≤ length (sample_dir domain validation) →
  stored domain validation samples fs →
  stored domain validation samples (save_sample_urls samples' domain' validation' fs).
Proof.
  intros Hne Hlen [Hd Hnames Hfile].
  set (fs' := save_sample_urls samples' domain' validation' fs).
  assert (∀ x, files fs' !! (sample_dir domain validation ++ [x])
               = files fs !! (sample_dir domain validation ++ [x])) as Hf.
  { intros x. apply save_sample_urls_files. by intros s _ [? _]%app_inj_tail. }
  assert (∀ x, is_dir (sample_dir domain validation ++ [x]) fs'
               = is_dir (sample_dir domain validation ++ [x]) fs) as Hdir.
  { intros x. apply bool_decide_ext. split; [|apply save_sample_urls_mono].
    intros [?|Ha%ancestors_length]%save_sample_urls_dirs; [done|].
    rewrite length_app /= in Ha. lia. }
  split.
  - apply is_dir_spec, save_sample_urls_mono. by apply is_dir_spec.
  - intros x. by rewrite -Hnames /entry /is_file Hf Hdir.
  - intros s Hs. rewrite Hf. auto.
Qed.

(** ** Theorems *)

(** The command add-evals keeps the file system well formed: the root
    is a directory, every file and every directory lies in a directory,
    and no path is both a file and a directory. *)
Theorem add_evals_wf `{Env} domain input_urls validation_urls fs :
  wf fs → wf (add_evals domain input_urls validation_urls fs).
Proof. intros Hwf. by do 2 apply save_sample_urls_wf. Qed.

(** A sample that [save] wrote is the one that [load] returns for the
    name of its file, when PyYAML reads the dump of the sample back. *)
Theorem SampleURL_save_load self domain validation fs p fs' :
  yaml_roundtrips (SampleURL_model_dump self) →
  SampleURL_save self domain validation fs = (Ok p, fs') →
  name p = file_name self ∧ SampleURL_load domain (name p) validation fs' = Ok self.
Proof.
  intros Hrt [-> Hf]%SampleURL_save_inv.
  rewrite name_snoc. split; [done|]. by apply SampleURL_load_Ok.
Qed.

(** C16: The samples that add-evals saved for a new domain are the ones
    that [from_evals] loads, in some order, when the last segments of the
    URLs of the pages differ and PyYAML reads the dumps back. *)
Theorem add_evals_from_evals `{Env} domain input_urls validation_urls fs :
  let inputs := create_sample_urls input_urls in
  let validations := create_sample_urls validation_urls in
  wf fs → is_dir (EVALS_PATH </> domain) fs = false →
  through_file (EVALS_PATH </> domain) fs = false →
  inputs ≠ [] → validations ≠ [] →
  NoDup (file_name <$> inputs) → NoDup (file_name <$> validations) →
  Forall (λ s, yaml_roundtrips (SampleURL_model_dump s)) (inputs ++ validations) →
  ∃ url_prefix validation_urls',
    from_evals (H := fs_evals (add_evals domain input_urls validation_urls fs)) domain
      = Ok url_prefix ∧
    URLPrefix.prefix url_prefix = domain ∧
    URLPrefix.sample_urls url_prefix ≡ₚ inputs ∧
    URLPrefix.validation_urls url_prefix = Some validation_urls' ∧
    validation_urls' ≡ₚ validations.
Proof.
  intros inputs validations Hwf Hd Hno Hi Hv Hndi Hndv [Hrti Hrtv]%Forall_app.
  destruct (new_domain domain false fs Hwf Hd Hno) as [Hdi Hnoi].
  destruct (new_domain domain true fs Hwf Hd Hno) as [Hdv Hnov].
  pose proof (save_sample_urls_stored domain false inputs fs Hwf Hdi Hnoi Hi Hndi) as Hsi.
  destruct (input_saves_validation domain inputs fs Hdv Hnov) as [Hdv1 Hnov1].
  pose proof (save_sample_urls_wf inputs domain false fs Hwf) as Hwf1.
  pose proof (save_sample_urls_stored domain true validations _ Hwf1 Hdv1 Hnov1 Hv Hndv)
    as Hsv.
  apply (stored_frame _ _ domain true _ validations) in Hsi;
    [|apply sample_dir_ne|by rewrite !length_sample_dir].
  destruct (load_samples_stored _ _ _ _ Hsi Hndi Hrti) as (li & Hli & Hpi).
  destruct (load_samples_stored _ _ _ _ Hsv Hndv Hrtv) as (lv & Hlv & Hpv).
  exists (URLPrefix.mk domain li (Some lv) None None), lv.
  rewrite /from_evals /add_evals -/inputs -/validations Hli Hlv.
  destruct lv; [|done]. by apply Permutation_nil_l in Hpv.
Qed.

(** C38: When none of the validation pages could be fetched, add-evals makes
    no validation directory, and [from_evals] raises for the domain:
    [os.listdir] fails before the empty list could become [None]. *)
Theorem from_evals_no_validation `{Env} domain input_urls validation_urls fs :
  wf fs → is_dir (EVALS_PATH </> domain) fs = false →
  through_file (EVALS_PATH </> domain) fs = false →
  create_sample_urls validation_urls = [] →
  is_Ok (from_evals (H := fs_evals (add_evals domain input_urls validation_urls fs))
           domain) = false.
Proof.
  intros Hwf Hd Hno Hnil.
  destruct (new_domain domain true fs Hwf Hd Hno) as [Hdv Hnov].
  destruct (input_saves_validation domain (create_sample_urls input_urls) fs Hdv Hnov)
    as [Hdv1 _].
  rewrite /from_evals /add_evals Hnil. cbn [save_sample_urls load_samples fs_evals].
  rewrite {2}/listdir Hdv1. by case_match.
Qed.

(** C37: Two pages whose URLs end in the same segment are saved in one
    file: after both saves the file holds the second page, and the first
    one is not in the evaluation set any more. *)
Theorem save_same_name a b domain validation fs p fs1 q fs2 :
  url_path (SampleURL.url a) = url_path (SampleURL.url b) →
  yaml_roundtrips (SampleURL_model_dump b) →
  SampleURL_save a domain validation fs = (Ok p, fs1) →
  SampleURL_save b domain validation fs1 = (Ok q, fs2) →
  p = q ∧ SampleURL_load domain (name p) validation fs2 = Ok b.
Proof.
  intros Hab Hrt [-> _]%SampleURL_save_inv [-> Hf]%SampleURL_save_inv.
  rewrite /file_name Hab. split; [done|]. rewrite name_snoc.
  by apply SampleURL_load_Ok.
Qed.

End samples_lemmas.

(** ** Configurations and the page loader: lemmas *)

Section configs_lemmas.
Context `{Paths} `{Yaml}.
Implicit Types fs : FS.

Lemma CONFIGS_PATH_snoc config_name :
  Py.contains_char "/" config_name = false →
  CONFIGS_PATH </> (config_name +:+ ".yaml") = CONFIGS_PATH ++ [config_name +:+ ".yaml"].
Proof. intros Hn. by apply joinpath_plain, plain_yaml. Qed.

(** The names that the glob lists: the stems of the entries that end in
    [.yaml], where the entry [.yaml] is its own stem. *)
Lemma elem_of_config_stems config_name fs :
  is_dir CONFIGS_PATH fs = true →
  config_name ∈ config_stems fs ↔
  config_name ≠ "" ∧ entry (CONFIGS_PATH ++ [config_name +:+ ".yaml"]) fs = true ∨
  config_name = ".yaml" ∧ entry (CONFIGS_PATH ++ [".yaml"]) fs = true.
Proof.
  intros Hd. rewrite /config_stems /glob_configs_yaml Hd list_elem_of_fmap.
  setoid_rewrite list_elem_of_filter. setoid_rewrite elem_of_children. split.
  - intros (p & -> & [u Hu]%Py.endswith_spec & He & Hp & Hpar).
    rewrite (parent_name p Hp) Hpar Hu in He. rewrite Hu.
    destruct (decide (u = "")) as [->|Hne]; [by right|]. left. by rewrite stem_yaml.
  - intros [[Hne He]|[-> He]].
    + exists (CONFIGS_PATH ++ [config_name +:+ ".yaml"]).
      rewrite name_snoc parent_snoc stem_yaml // Py.endswith_app.
      split_and!; try done. by destruct CONFIGS_PATH.
    + exists (CONFIGS_PATH ++ [".yaml"]). rewrite name_snoc parent_snoc.
      split_and!; try done. by destruct CONFIGS_PATH.
Qed.

(** In a well-formed file system with a directory of configurations,
    the glob of the API lists a name exactly when [from_config] finds the
    file of that name, for every name that is not empty, holds no slash
    and is not [.yaml]: the route that answers 404 for a name that is not
    listed answers as the one that catches [FileNotFoundError]. *)
Theorem glob_from_config config_name fs :
  wf fs → is_dir CONFIGS_PATH fs = true →
  Py.contains_char "/" config_name = false → config_name ≠ "" → config_name ≠ ".yaml" →
  config_name ∈ config_stems fs ↔
  open_r (CONFIGS_PATH </> (config_name +:+ ".yaml")) fs ≠ Err "FileNotFoundError".
Proof.
  intros Hwf Hd Hsep Hne Hdot.
  rewrite elem_of_config_stems // CONFIGS_PATH_snoc // open_r_not_found //.
  destruct (entry _ fs); naive_solver.
Qed.

(** The file named [.yaml] is listed under a name that [from_config] does
    not find. *)
Lemma glob_dot_yaml fs :
  wf fs → is_dir CONFIGS_PATH fs = true →
  entry (CONFIGS_PATH ++ [".yaml"]) fs = true →
  entry (CONFIGS_PATH ++ [".yaml.yaml"]) fs = false →
  ".yaml" ∈ config_stems fs ∧
  ParserGeneratorConfig_from_config ".yaml" fs = Err "FileNotFoundError".
Proof.
  intros Hwf Hd He Hno. split; [apply elem_of_config_stems; auto|].
  rewrite /ParserGeneratorConfig_from_config CONFIGS_PATH_snoc //.
  change (".yaml" +:+ ".yaml") with ".yaml.yaml".
  by rewrite (proj2 (open_r_not_found _ _ _ Hwf Hd) Hno).
Qed.

End configs_lemmas.

Section main_lemmas.
Context `{Paths} `{Yaml} `{JsonLib} `{PySet} `{Env}.

(** The command eval without [--config] asks for the configuration of the
    empty name, which is the file [.yaml] of the configurations: where
    there is no such file the command raises before it evaluates
    anything. *)
Theorem eval_default_config P domain now fs R :
  files fs !! (CONFIGS_PATH ++ [".yaml"]) = None →
  is_Ok (main P (Eval default_config domain) now fs R) = false.
Proof.
  intros Hf. rewrite /main /eval_command /default_config /=.
  rewrite /ParserGenerator_from_config /ParserGeneratorConfig_from_config.
  rewrite CONFIGS_PATH_snoc // /open_r. change ("" +:+ ".yaml") with ".yaml".
  by rewrite Hf.
Qed.

(** What the parser returns: the namespace of a command that was added
    to it. *)
Lemma parse_args_Ok `{Argparse} argv args :
  parse_args argv = Ok args →
  argv = [] ∧ args = NoCommand ∨
  (∃ rest domain input_urls validation_urls,
     argv = "add-evals" :: rest ∧ args = AddEvals domain input_urls validation_urls) ∨
  (∃ rest config domain, argv = "eval" :: rest ∧ args = Eval config domain).
Proof.
  rewrite /parse_args /mbind /Result_bind. destruct argv as [|command rest].
  { intros [= <-]. by left. }
  intros Hargs. right. repeat case_decide; subst; [| |done].
  - destruct (parse_add_evals rest) as [[[domain input_urls] validation_urls]|]; [|done].
    simplify_eq. left. by eexists _, _, _, _.
  - destruct (parse_eval rest) as [[config domain]|]; [|done].
    simplify_eq. right. by eexists _, _, _.
Qed.

(** The branches of [main] for [generate] and [test] are never taken: the
    parser gives the namespace one of the commands that were added to it,
    and the script leaves the files as they are unless the command is
    add-evals. *)
Theorem script_registered `{Argparse} P argv now fs R fs' R' :
  script P argv now fs R = Ok (fs', R') →
  ∃ args, parse_args argv = Ok args ∧ main P args now fs R = Ok (fs', R') ∧
          (∀ command domain config, args ≠ Unregistered command domain config) ∧
          (fs' = fs ∨ ∃ domain input_urls validation_urls,
                        head argv = Some "add-evals" ∧
                        fs' = add_evals domain input_urls validation_urls fs).
Proof.
  rewrite /script. destruct (parse_args argv) as [args|] eqn:Hargs; [|done].
  intros Hmain. exists args.
  destruct (parse_args_Ok _ _ Hargs) as
    [[-> ->]|[(rest & d & i & v & -> & ->)|(rest & c & d & -> & ->)]];
    (split_and!; [done..| |]); try done.
  - left. by simplify_eq/=.
  - right. exists d, i, v. by simplify_eq/=.
  - left. move: Hmain. rewrite /main. by case_match; intros [= <- _].
Qed.

(** The answer of a provider that honours the schema of the request is
    never refused: the request returns the parameters that the answer
    holds. *)
Theorem request_conforms (P : Provider) fs config instructions effort input_prompt
    output_text v :
  create_response (Provider := P) (ParserGeneratorConfig.openai_model config)
    instructions effort input_prompt = Ok output_text →
  json_loads output_text = Ok v →
  conforms 3 request_schema v = true →
  ∃ d p, v = VDict d ∧ ParserParameters_validate d = Ok p ∧
         request (H1 := file_provider P fs) config instructions effort input_prompt = Ok p.
Proof.
  intros Hcreate Hloads (d & p & -> & Hp & _)%conforms_dict. exists d, p.
  split_and!; [done..|]. by rewrite /request /= Hcreate /Json.model_validate_json Hloads.
Qed.

End main_lemmas.

Section start.
Context `{Paths} `{Yaml} `{JsonLib} `{PySet} `{Extractor}.

Lemma config_stems_nonempty config_name fs :
  is_dir CONFIGS_PATH fs = true → config_name ∈ config_stems fs → config_name ≠ "".
Proof. intros Hd [[? _]|[-> _]]%elem_of_config_stems; done. Qed.

(** C40: The configuration that the start of the API makes the production
    configuration, in a store that has none, is the first name of the
    glob in the order of the strings; the generation worker then loads
    the file of that name, and [open] finds it unless the name is
    [.yaml]. *)
Theorem lifespan_config_found (P : Provider) unquote fs R :
  wf fs → named fs → is_dir CONFIGS_PATH fs = true →
  get_production_config R = None → config_stems fs ≠ [] →
  ∃ config_name,
    get_production_config (lifespan (H1 := file_web unquote fs) R) = Some config_name ∧
    config_name ∈ config_stems fs ∧
    (∀ other, other ∈ config_stems fs → String.le config_name other) ∧
    get_production_generator_config (H := generator_synth (H1 := file_provider P fs))
      (lifespan (H1 := file_web unquote fs) R)
    = ParserGeneratorConfig_from_config config_name fs ∧
    (config_name ≠ ".yaml" →
     open_r (CONFIGS_PATH </> (config_name +:+ ".yaml")) fs ≠ Err "FileNotFoundError").
Proof.
  intros Hwf Hnamed Hd Hnone Hne. rewrite /lifespan Hnone /=.
  pose proof (merge_sort_Permutation String.le (config_stems fs)) as Hperm.
  pose proof (StronglySorted_merge_sort String.le (config_stems fs)) as Hsorted.
  destruct (merge_sort String.le (config_stems fs)) as [|first rest] eqn:Hsort.
  { by apply Permutation_nil_l in Hperm. }
  assert (first ∈ config_stems fs) as Hin by (rewrite -Hperm; left).
  pose proof (config_stems_nonempty _ _ Hd Hin) as Hfirst.
  assert (truthy (Some first) = true) as Htruthy.
  { rewrite /truthy. by destruct (String.eqb_spec first ""). }
  assert (get_production_config (set_production_config first R) = Some first) as Hget.
  { rewrite /get_production_config /set_production_config. cbn [production_config].
    by rewrite Htruthy. }
  exists first. rewrite /get_production_generator_config Hget Htruthy.
  split_and!; [done..| | |].
  - intros other. rewrite -Hperm. intros [->|Hother]%elem_of_cons; [done|].
    apply StronglySorted_inv in Hsorted as [_ Hall].
    by apply (proj1 (Forall_forall _ _) Hall).
  - rewrite /= /ParserGenerator_from_config.
    by destruct (ParserGeneratorConfig_from_config _ _).
  - intros Hdot. apply elem_of_config_stems in Hin as [[_ He]|[-> _]]; [|done..].
    pose proof (named_entry _ _ Hnamed He) as Hplain.
    apply Forall_app in Hplain as [_ Hplain].
    apply Forall_singleton in Hplain as [Hsep _].
    rewrite Py.contains_char_app in Hsep. apply orb_false_iff in Hsep as [Hsep _].
    rewrite CONFIGS_PATH_snoc //.
    intros Hopen. apply open_r_not_found in Hopen; [congruence|done..].
Qed.

End start.

Section load_html_lemmas.
Context `{Http}.
Implicit Types fs : FS.

Lemma load_raw_html_Ok url html_content :
  load_raw_html url = Ok html_content ↔
  ∃ response, requests_get url UA = Ok response ∧
              ¬ 400 ≤ status_code response < 600 ∧ text response = html_content.
Proof.
  rewrite /load_raw_html /raise_for_status. split.
  - destruct (requests_get url UA) as [response|]; [|done].
    case_bool_decide; [done|]. intros [= <-]. by exists response.
  - intros (response & -> & Hs & <-). by rewrite bool_decide_false.
Qed.

Lemma str_parent_joinpath output_path :
  parts output_path ≠ [] → str_parent output_path = parent (getcwd </> output_path).
Proof.
  intros Hne. rewrite /str_parent /joinpath. case_match; [done|].
  rewrite {2}(parent_name (parts output_path)) // app_assoc parent_snoc //.
Qed.

(** [load_html_to_file] writes the text of an answer whose status is
    no error at the path, below the directories it makes for it, and
    writes nothing and makes no directory when the status is an error. *)
Theorem load_html_to_file_spec url output_path fs response :
  let p := getcwd </> output_path in
  requests_get url UA = Ok response →
  (400 ≤ status_code response < 600 →
   load_html_to_file url output_path fs = (Err "HTTPError", fs)) ∧
  (¬ 400 ≤ status_code response < 600 →
   parts output_path ≠ [] → Py.endswith output_path "/" = false →
   through_file (parent p) fs = false → is_dir p fs = false →
   ∃ fs', load_html_to_file url output_path fs = (Ok (), fs') ∧
          open_r p fs' = Ok (text response) ∧ (wf fs → wf fs')).
Proof.
  intros p Hget. rewrite /load_html_to_file /load_raw_html /raise_for_status Hget.
  split; intros Hs.
  - by rewrite bool_decide_true.
  - intros Hparts Hslash Hno Hd. rewrite bool_decide_false // /io_bind.
    rewrite str_parent_joinpath // -/p.
    assert (open_w_str output_path (text response) = open_w p (text response)) as ->.
    { rewrite /open_w_str Hslash. by destruct output_path. }
    assert (p ≠ []) as Hp.
    { rewrite /p /joinpath. case_match; [done|]. by destruct getcwd, (parts output_path). }
    pose proof (mkdir_fst _ fs Hno) as H1. pose proof (mkdir_is_dir _ fs Hno) as H2.
    pose proof (mkdir_wf (parent p) fs) as H3.
    assert (is_dir p (mkdir (parent p) fs).2 = false) as H4.
    { apply mkdir_not_dir; [done|]. intros Hlen%ancestors_length.
      pose proof (length_parent p Hp). lia. }
    destruct (mkdir (parent p) fs) as [r fs1]; simpl in *; subst r.
    eexists. rewrite open_w_Ok //. split_and!; [done|by rewrite /open_r /= lookup_insert_eq|].
    intros Hwf. pose proof (open_w_wf p (text response) fs1 (H3 Hwf)) as Hw.
    by rewrite open_w_Ok in Hw.
Qed.

End load_html_lemmas.

(** ** A small installation

    The module lies in [/srv/crawler/backend]; the codec knows the dumps
    of the pages of the examples, each under a text of its own; every
    page whose address does not hold the word [missing] is fetched. *)

Definition example_paths : Paths := ["srv"; "crawler"; "backend"; "paths.py"].

(** A codec that is given by the table of its dumps. *)
Definition table_yaml (table : list (Value * string)) : Yaml := {|
  safe_dump v := default "" (snd <$> head (filter (λ vt, vt.1 = v) table));
  safe_load text :=
    match head (filter (λ vt, vt.2 = text) table) with
    | Some vt => Ok vt.1
    | None => Err "ScannerError"
    end;
|}.

Definition page (url : string) : SampleURL.t :=
  SampleURL.make url "next.html /docs/b.html /blog/c.html".

Definition guide : SampleURL.t := page "https://a.com/docs/guide.html".
Definition intro : SampleURL.t := page "https://a.com/docs/intro.html".
Definition faq : SampleURL.t := page "https://a.com/docs/faq.html".
Definition docs_index : SampleURL.t := page "https://a.com/docs/".
Definition blog_index : SampleURL.t := page "https://a.com/blog/".

Definition example_yaml : Yaml :=
  table_yaml [(SampleURL_model_dump guide, "guide"); (SampleURL_model_dump intro, "intro");
              (SampleURL_model_dump faq, "faq"); (SampleURL_model_dump docs_index, "docs");
              (SampleURL_model_dump blog_index, "blog")].

(** The root alone, and an installation with one configuration. *)
Definition root_fs : FS := mkFS ∅ {[ [] ]}.

Definition configured_fs : FS :=
  mkFS {[ ["srv"; "crawler"; "configs"; "default.yaml"] := "default" ]}
       {[ []; ["srv"]; ["srv"; "crawler"]; ["srv"; "crawler"; "configs"] ]}.

Definition example_http : Http := {|
  requests_get url ua :=
    Ok (mkHttpResponse (if Py.contains "missing" url then 404 else 200) "<html></html>");
  getcwd := ["srv"; "crawler"];
|}.

Notation example_add_evals :=
  (add_evals (H := example_paths) (H0 := example_yaml) (H1 := example_env)).
Notation example_from_evals fs :=
  (from_evals (H := fs_evals (H := example_paths) (H0 := example_yaml) fs)).

Lemma wf_root_fs : wf root_fs.
Proof.
  split; rewrite /root_fs /=.
  - set_solver.
  - intros p ->%elem_of_singleton. set_solver.
  - intros p [c Hc]. by rewrite lookup_empty in Hc.
  - intros p _. apply lookup_empty.
Qed.

Lemma wf_configured_fs : wf configured_fs.
Proof.
  split; rewrite /configured_fs /=.
  - set_solver.
  - intros p Hp. repeat (apply elem_of_union in Hp as [Hp|Hp]);
      apply elem_of_singleton in Hp as ->; set_solver.
  - intros p [c [<- _]%lookup_singleton_Some]. set_solver.
  - intros p Hp. apply lookup_singleton_None. intros <-. set_solver.
Qed.

Lemma add_evals_wf_witness :
  wf (example_add_evals "a.com" ["https://a.com/docs/guide.html"]
        ["https://a.com/docs/faq.html"] root_fs).
Proof. apply (add_evals_wf (H := example_paths)), wf_root_fs. Defined.

Lemma SampleURL_save_load_witness :
  let p := ["srv"; "crawler"; "evals"; "a.com"; "input"; "guide.html.yaml"] in
  let fs' := (SampleURL_save (H := example_paths) (H0 := example_yaml)
                guide "a.com" false root_fs).2 in
  name p = "guide.html.yaml" ∧
  SampleURL_load (H := example_paths) (H0 := example_yaml) "a.com" (name p) false fs'
  = Ok guide.
Proof.
  intros p fs'.
  apply (SampleURL_save_load (H := example_paths) (H0 := example_yaml)
           guide "a.com" false root_fs p fs'); vm_compute; reflexivity.
Defined.

Lemma add_evals_from_evals_witness :
  ∃ url_prefix validation_urls',
    example_from_evals
      (example_add_evals "a.com"
         ["https://a.com/docs/guide.html"; "https://a.com/docs/intro.html";
          "https://a.com/missing.html"]
         ["https://a.com/docs/faq.html"] root_fs) "a.com" = Ok url_prefix ∧
    URLPrefix.prefix url_prefix = "a.com" ∧
    URLPrefix.sample_urls url_prefix ≡ₚ [guide; intro] ∧
    URLPrefix.validation_urls url_prefix = Some validation_urls' ∧
    validation_urls' ≡ₚ [faq].
Proof.
  apply (add_evals_from_evals (H := example_paths) (H0 := example_yaml) (H1 := example_env)
           "a.com" ["https://a.com/docs/guide.html"; "https://a.com/docs/intro.html";
                    "https://a.com/missing.html"]
           ["https://a.com/docs/faq.html"] root_fs).
  - apply wf_root_fs.
  - by vm_compute.
  - by vm_compute.
  - by vm_compute.
  - by vm_compute.
  - by apply (bool_decide_unpack _).
  - by apply (bool_decide_unpack _).
  - repeat constructor; by vm_compute.
Defined.

Lemma from_evals_no_validation_witness :
  is_Ok (example_from_evals
           (example_add_evals "a.com" ["https://a.com/docs/guide.html"]
              ["https://a.com/missing.html"] root_fs) "a.com") = false.
Proof.
  apply (from_evals_no_validation (H := example_paths) (H0 := example_yaml)
           (H1 := example_env) "a.com" ["https://a.com/docs/guide.html"]
           ["https://a.com/missing.html"] root_fs); [apply wf_root_fs|by vm_compute..].
Defined.

(** The index pages of two sections: both are saved as [.yaml]. *)
Lemma save_same_name_witness :
  let p := ["srv"; "crawler"; "evals"; "a.com"; "input"; ".yaml"] in
  let fs1 := (SampleURL_save (H := example_paths) (H0 := example_yaml)
                docs_index "a.com" false root_fs).2 in
  let fs2 := (SampleURL_save (H := example_paths) (H0 := example_yaml)
                blog_index "a.com" false fs1).2 in
  p = p ∧
  SampleURL_load (H := example_paths) (H0 := example_yaml) "a.com" (name p) false fs2
  = Ok blog_index.
Proof.
  intros p fs1 fs2.
  apply (save_same_name (H := example_paths) (H0 := example_yaml)
           docs_index blog_index "a.com" false root_fs p fs1 p fs2);
    vm_compute; reflexivity.
Defined.

Lemma glob_from_config_witness :
  "default" ∈ config_stems (H := example_paths) configured_fs ↔
  open_r (CONFIGS_PATH (H := example_paths) </> ("default" +:+ ".yaml")) configured_fs
  ≠ Err "FileNotFoundError".
Proof.
  apply (glob_from_config (H := example_paths) "default" configured_fs);
    [apply wf_configured_fs|vm_compute; reflexivity|done..].
Defined.

(** A parser of the options that knows one URL of each kind, and a parser
    of JSON that knows no text. *)
Definition example_argparse : Argparse := {|
  parse_add_evals rest :=
    match rest with
    | [domain; "--input-urls"; input_url; "--validation-urls"; validation_url] =>
        Ok (domain, [input_url], [validation_url])
    | _ => Err "the following arguments are required"
    end;
  parse_eval rest :=
    match rest with
    | [] => Ok (default_config, None)
    | ["--config"; config] => Ok ([config], None)
    | _ => Err "unrecognized arguments"
    end;
|}.

Definition example_json : JsonLib := λ _, Err "Invalid JSON".

Notation example_script :=
  (script (H := example_paths) (H0 := example_yaml) (H1 := example_json) (H2 := ListSet)
     (H3 := example_env) (H4 := example_argparse) (example_provider 0)).

Lemma script_registered_witness :
  let argv := ["add-evals"; "a.com"; "--input-urls"; "https://a.com/docs/guide.html";
               "--validation-urls"; "https://a.com/docs/faq.html"] in
  let fs' := example_add_evals "a.com" ["https://a.com/docs/guide.html"]
               ["https://a.com/docs/faq.html"] root_fs in
  ∃ args,
    parse_args (H := example_argparse) argv = Ok args ∧
    main (H := example_paths) (H0 := example_yaml) (H1 := example_json) (H2 := ListSet)
      (H3 := example_env) (example_provider 0) args "now" root_fs empty_redis
    = Ok (fs', empty_redis) ∧
    (∀ command domain config, args ≠ Unregistered command domain config) ∧
    (fs' = root_fs ∨ ∃ domain input_urls validation_urls,
                       head argv = Some "add-evals" ∧
                       fs' = example_add_evals domain input_urls validation_urls root_fs).
Proof.
  intros argv fs'.
  apply (script_registered (H := example_paths) (H0 := example_yaml) (H1 := example_json)
           (H2 := ListSet) (H3 := example_env) (H4 := example_argparse)
           (example_provider 0) argv "now" root_fs empty_redis fs' empty_redis).
  vm_compute; reflexivity.
Defined.

Lemma named_configured_fs : named configured_fs.
Proof. by apply (bool_decide_unpack _); vm_compute. Qed.

Lemma lifespan_config_found_witness :
  ∃ config_name,
    get_production_config (lifespan (H1 := file_web (H := example_paths) id configured_fs)
                             empty_redis) = Some config_name ∧
    config_name ∈ config_stems (H := example_paths) configured_fs ∧
    (∀ other, other ∈ config_stems (H := example_paths) configured_fs →
              String.le config_name other) ∧
    get_production_generator_config
      (H := generator_synth (H := ListSet) (H0 := env_extractor (Env := example_env))
              (H1 := file_provider (H := example_paths) (H0 := example_yaml)
                       (H1 := example_json) (example_provider 0) configured_fs))
      (lifespan (H1 := file_web (H := example_paths) id configured_fs) empty_redis)
    = ParserGeneratorConfig_from_config (H := example_paths) (H0 := example_yaml)
        config_name configured_fs ∧
    (config_name ≠ ".yaml" →
     open_r (CONFIGS_PATH (H := example_paths) </> (config_name +:+ ".yaml")) configured_fs
     ≠ Err "FileNotFoundError").
Proof.
  apply (lifespan_config_found (H := example_paths) (H0 := example_yaml) (H1 := example_json)
           (H2 := ListSet) (H3 := env_extractor (Env := example_env))
           (example_provider 0) id configured_fs empty_redis);
    [apply wf_configured_fs|apply named_configured_fs|vm_compute; reflexivity|done|].
  by vm_compute.
Defined.

Lemma load_html_to_file_spec_witness :
  (400 ≤ 200 < 600 →
   load_html_to_file (H := example_http) "https://a.com/docs/guide.html" "pages/guide.html"
     root_fs = (Err "HTTPError", root_fs)) ∧
  (¬ 400 ≤ 200 < 600 →
   parts "pages/guide.html" ≠ [] → Py.endswith "pages/guide.html" "/" = false →
   through_file ["srv"; "crawler"; "pages"] root_fs = false →
   is_dir ["srv"; "crawler"; "pages"; "guide.html"] root_fs = false →
   ∃ fs', load_html_to_file (H := example_http) "https://a.com/docs/guide.html"
            "pages/guide.html" root_fs = (Ok (), fs') ∧
          open_r ["srv"; "crawler"; "pages"; "guide.html"] fs' = Ok "<html></html>" ∧
          (wf root_fs → wf fs')).
Proof.
  by apply (load_html_to_file_spec (H := example_http) "https://a.com/docs/guide.html"
              "pages/guide.html" root_fs (mkHttpResponse 200 "<html></html>")).
Defined.

End Files.
