(* ===== verification/Process.v ===== *)
(** * The processes: environment variables and the connection to the store
    (src/backend/redis_utils.py; the constructors and [main] of
    src/backend/workers/parsing_worker.py and
    src/backend/workers/parser_generation_worker.py; the start of the
    server at the end of src/backend/api.py)

    The environment of a process is a finite map.  A client of the store
    is the URL it was made for, and the servers are a finite map from
    URLs to states of the store.  The functions of db.py and
    redis_queue.py use the client [R] that their module makes when it is
    imported; [on_store] runs such a function on the server of that
    client.  A worker holds a client of its own, made from the argument
    of its constructor, and never uses it.

    The lemmas: [main] gives a worker the client that the modules use
    ([worker_main_R]); a turn of a worker changes the server of [R] and no
    other, whatever URL the worker was made with ([worker_iteration_frame],
    [generation_iteration_frame]);
    how the port of the server is read ([server_options_port]). *)

From Stdlib Require Import Ascii.
From stdpp Require Import gmap.
From S2P Require Import Prelude PyString DataModels Store Queue Frontier GenWorker.

Local Open Scope crawl_scope.

Module Process.

(** ** The environment *)

(** [os.environ]. *)
Notation Environ := (gmap string string).

(** [os.getenv(name, default)] with a default that is a string. *)
Definition getenv (environ : Environ) (name value : string) : string :=
  default value (environ !! name).

(** ** The connection (redis_utils.py) *)

(** A client, by the URL it was made for. *)
Record Client := mkClient { client_url : string }.

(** [redis.Redis.from_url(url, decode_responses=False)]: the client, or the
    [ValueError] of a URL with another scheme.  No connection is made
    before the first command. *)
Definition from_url (url : string) : Result Client :=
  if Py.startswith url "redis://" || Py.startswith url "rediss://"
     || Py.startswith url "unix://"
  then Ok (mkClient url)
  else Err "Redis URL must specify one of the following schemes (redis://, rediss://, unix://)".

Definition default_redis_url : string := "redis://localhost:6379/0".

(** [get_redis(url)] (lines 6-9). *)
Definition get_redis (url : option string) (environ : Environ) : Result Client :=
  let url := match url with
             | None => getenv environ "REDIS_URL" default_redis_url
             | Some url => url
             end in
  from_url url.

(** [R = get_redis()] (redis_utils.py, line 12; db.py and redis_queue.py,
    line 10): an error ends the import of the module. *)
Definition R (environ : Environ) : Result Client := get_redis None environ.

(** The servers, by their URL. *)
Notation Servers := (gmap string Redis).

(** A function of db.py or redis_queue.py, run by a process with this
    environment: it talks to the server of [R]. *)
Definition on_store {A} (environ : Environ) (f : Redis → A * Redis) (servers : Servers)
    : Result (A * Servers) :=
  client ←ᵣ R environ;
  match servers !! client_url client with
  | Some store => let '(a, store) := f store in Ok (a, <[client_url client := store]> servers)
  | None => Err "ConnectionError"
  end.

(** ** The workers *)

(** What [__init__] stores in a worker. *)
Record Worker := mkWorker { redis_client : Client }.

(** [ParsingWorker.__init__(self, redis_url)] (parsing_worker.py, lines
    27-28). *)
Definition ParsingWorker_init (redis_url : string) (environ : Environ) : Result Worker :=
  redis_client ←ᵣ get_redis (Some redis_url) environ;
  Ok (mkWorker redis_client).

(** [ParserGenerationWorker.__init__(self, redis_url)]
    (parser_generation_worker.py, lines 22-23). *)
Definition ParserGenerationWorker_init (redis_url : string) (environ : Environ)
    : Result Worker :=
  redis_client ←ᵣ get_redis (Some redis_url) environ;
  Ok (mkWorker redis_client).

(** [main()] of the parsing worker (lines 409-412) and of the generation
    worker (lines 172-175), up to the call of [run]. *)
Definition parsing_worker_main (environ : Environ) : Result Worker :=
  let redis_url := getenv environ "REDIS_URL" default_redis_url in
  ParsingWorker_init redis_url environ.

Definition parser_generation_worker_main (environ : Environ) : Result Worker :=
  let redis_url := getenv environ "REDIS_URL" default_redis_url in
  ParserGenerationWorker_init redis_url environ.

(** One turn of [ParsingWorker.run] and of [ParserGenerationWorker.run] by
    a worker of a process with this environment. *)
Definition parsing_iteration `{Env} (self : Worker) (environ : Environ) (clock : nat → Z)
    : Servers → Result (Turn * Servers) :=
  on_store environ (run_iteration clock).

Definition generation_iteration `{Synth} (self : Worker) (environ : Environ)
    : Servers → Result (JobTurn * Servers) :=
  on_store environ job_iteration.

(** ** The start of the server (api.py, lines 653-665) *)

Definition is_digit (a : ascii) : bool :=
  let n := nat_of_ascii a in (48 <=? n) && (n <=? 57).

Fixpoint digits_value (acc : Z) (s : string) : option Z :=
  match s with
  | "" => Some acc
  | String a s' =>
      if is_digit a then digits_value (10 * acc + Z.of_nat (nat_of_ascii a - 48)) s'
      else None
  end.

(** [int(s)] of a string in base 10: blanks around, a sign, and digits
    with single underscores between them. *)
Definition int_of_str (s : string) : Result Z :=
  let t := Py.strip s in
  let '(negative, body) :=
    match t with
    | String "-" r => (true, r)
    | String "+" r => (false, r)
    | _ => (false, t)
    end in
  let groups := Py.split "_" body in
  match (if forallb (λ g, negb (String.eqb g "")) groups
         then digits_value 0 (Py.join "" groups) else None) with
  | Some n => Ok (if negative : bool then - n else n)%Z
  | None => Err ("invalid literal for int() with base 10: '" +:+ s +:+ "'")
  end.

(** The arguments of [uvicorn.run]. *)
Record ServerOptions := mkServerOptions {
  app : string;
  host : string;
  port : Z;
  reload : bool;
  log_level : string;
}.

(** The block under [if __name__ == "__main__"]. *)
Definition server_options (environ : Environ) : Result ServerOptions :=
  port ←ᵣ match environ !! "PORT" with
          | Some s => int_of_str s
          | None => Ok 8000%Z
          end;
  let host := getenv environ "HOST" "0.0.0.0" in
  let debug := bool_decide (Py.lower (getenv environ "DEBUG" "false") = "true") in
  Ok (mkServerOptions "api:app" host port debug "info").

(** ** Lemmas *)

(** The worker that [main] makes holds the client of the modules. *)
Lemma worker_main_R environ self :
  (parsing_worker_main environ = Ok self ↔ R environ = Ok (redis_client self)) ∧
  (parser_generation_worker_main environ = Ok self ↔ R environ = Ok (redis_client self)).
Proof.
  rewrite /parsing_worker_main /ParsingWorker_init /parser_generation_worker_main.
  rewrite /ParserGenerationWorker_init /R /get_redis.
  destruct (from_url _) as [client|]; [|done]. destruct self as [client'].
  split; split; by intros [= ->].
Qed.

(** A function of the store changes the server of [R] and no other. *)
Lemma on_store_frame {A} environ (f : Redis → A * Redis) servers a servers' url :
  on_store environ f servers = Ok (a, servers') →
  R environ ≠ Ok (mkClient url) → servers' !! url = servers !! url.
Proof.
  rewrite /on_store. destruct (R environ) as [[url']|]; [|done]. simpl.
  destruct (servers !! url') as [store|]; [|done]. destruct (f store) as [a' store'].
  intros [= <- <-] Hne. rewrite lookup_insert_ne //. by intros ->.
Qed.

Lemma R_other environ url :
  url ≠ getenv environ "REDIS_URL" default_redis_url → R environ ≠ Ok (mkClient url).
Proof.
  intros Hne. rewrite /R /get_redis /from_url. case_match; [|done].
  intros [= E]. by rewrite E in Hne.
Qed.

(** A turn of a worker leaves the server that the worker was made for as
    it was, unless that is the server of the environment: the argument
    [redis_url] of the constructor has no effect. *)
Lemma worker_iteration_frame `{Env} redis_url environ self clock servers turn servers' :
  ParsingWorker_init redis_url environ = Ok self →
  parsing_iteration self environ clock servers = Ok (turn, servers') →
  redis_url ≠ getenv environ "REDIS_URL" default_redis_url →
  servers' !! redis_url = servers !! redis_url.
Proof.
  intros _ Hturn Hne. by apply (on_store_frame _ _ _ _ _ _ Hturn), R_other.
Qed.

Lemma generation_iteration_frame `{Synth} redis_url environ self servers turn servers' :
  ParserGenerationWorker_init redis_url environ = Ok self →
  generation_iteration self environ servers = Ok (turn, servers') →
  redis_url ≠ getenv environ "REDIS_URL" default_redis_url →
  servers' !! redis_url = servers !! redis_url.
Proof.
  intros _ Hturn Hne. by apply (on_store_frame _ _ _ _ _ _ Hturn), R_other.
Qed.

(** The port is 8000 when the variable is not set, and a value that is no
    number ends the start with a [ValueError]. *)
Lemma server_options_port environ :
  (environ !! "PORT" = None → port <$> server_options environ = Ok 8000%Z) ∧
  (∀ s, environ !! "PORT" = Some s → port <$> server_options environ = int_of_str s).
Proof.
  rewrite /server_options. split; [by intros ->|]. intros s ->.
  by destruct (int_of_str s).
Qed.

Example int_of_str_examples :
  int_of_str "8000" = Ok 8000%Z ∧ int_of_str " 80 " = Ok 80%Z ∧
  int_of_str "8_000" = Ok 8000%Z ∧ int_of_str "-1" = Ok (-1)%Z ∧
  is_Ok (int_of_str "") = false ∧ is_Ok (int_of_str "80a") = false ∧
  is_Ok (int_of_str "8__0") = false ∧ is_Ok (int_of_str "+") = false.
Proof. by vm_compute. Qed.

(** A worker made for another server writes to the server of the
    environment. *)
Example other_server :
  let environ : Environ := {[ "REDIS_URL" := "redis://store:6379/0" ]} in
  ParsingWorker_init "redis://other:6379/0" environ
  = Ok (mkWorker (mkClient "redis://other:6379/0")) ∧
  R environ = Ok (mkClient "redis://store:6379/0") ∧
  parsing_worker_main ∅ = Ok (mkWorker (mkClient default_redis_url)).
Proof. by vm_compute. Qed.

End Process.
